(** * cloudflare-router: routing, middleware dispatch and response building

    A shallow embedding of the three revisions of the router that the
    repository holds:

    - [Legacy]  : [src/Router.ts], [src/RouterResponse.ts], [src/RouterRequest.ts];
    - [RouterDir] : [src/router/Router.ts] with [src/router/Route.ts],
      [src/router/RoutePath.ts], [src/router/RouterRequest.ts];
    - [Unnamed] : the documented revision of the same classes
      ([Route], [Router], [RouterRequest], [RouterResponse]).

    Router objects are mutable and shared by reference (a route of a parent
    holds the child router), so routers live in a store addressed by an
    identifier.  Promises are modelled by how they settle. *)

From Stdlib Require Import Ascii Bool Arith Lia List Sorting.Sorted Permutation.
From stdpp Require Import base option gmap strings list.


(* ===================================================================== *)
(** ** JavaScript string primitives used by the path code *)
(* ===================================================================== *)

Module JsString.

(** [s.startsWith(p)] *)
Definition startsWith (s p : string) : bool := String.prefix p s.

(** [s.endsWith(p)] *)
Definition endsWith (s p : string) : bool :=
  let n := String.length s in
  let m := String.length p in
  (m <=? n) && String.eqb (String.substring (n - m) m s) p.

(** [s.slice(1)] *)
Definition slice1 (s : string) : string :=
  match s with
  | EmptyString => EmptyString
  | String _ r => r
  end.

(** [s.slice(i, j)] for indices [0 <= i] and [0 <= j]; empty when
    [j <= i], cut at the end of [s]. *)
Definition slice (s : string) (i j : nat) : string :=
  String.substring i (j - i) s.

(** The last character of a string, when there is one. *)
Fixpoint lastChar (s : string) : option ascii :=
  match s with
  | EmptyString => None
  | String c r =>
      match r with
      | EmptyString => Some c
      | String _ _ => lastChar r
      end
  end.

Definition char (c : ascii) : string := String c EmptyString.

End JsString.

(* ===================================================================== *)
(** ** Values shared by the three revisions *)
(* ===================================================================== *)

(** [type Methods] *)
Inductive Methods := ANY | GET | POST | PUT | PATCH | OPTIONS | HEAD | DELETE.

Definition methodName (m : Methods) : string :=
  match m with
  | ANY => "ANY" | GET => "GET" | POST => "POST" | PUT => "PUT"
  | PATCH => "PATCH" | OPTIONS => "OPTIONS" | HEAD => "HEAD"
  | DELETE => "DELETE"
  end.

(** [const NO_APPEND_SLASH_IF_CHARACTERS = ["*", ")", "?"]] *)
Definition NO_APPEND_SLASH_IF_CHARACTERS : list string := ["*"; ")"; "?"].

(** The object that [UrlPattern.match] returns on success: the named
    segments of the pattern with the text they matched. *)
Definition Params := list (string * string).

(** The message of a thrown [Error]. *)
Definition Error := string.

(** How a promise ends: fulfilled, rejected, or never settled. *)
Inductive Settled (A : Type) :=
| Resolved (a : A)
| Rejected (e : Error)
| Pending.
Arguments Resolved {A} a.
Arguments Rejected {A} e.
Arguments Pending {A}.

(** The host's [Response] values, by the call that makes them:
    [new Response(body, init)] with the [init] that
    [transformResponseOptions] returns, [Response.redirect(url, status)],
    and a response object that the program made on its own. *)
Inductive Response :=
| NewResponse (body : option string) (status : Z) (statusText : string)
              (headers : gmap string string)
| ResponseRedirect (url : option string) (status : option Z)
| HostResponse (tag : string).

(** What the router calls and does not contain: the url-pattern package
    and the [Response] class of the host.  Both constructors throw on
    arguments that they refuse. *)
Record Host := {
  (* [new UrlPattern(path)]: the error it throws, [None] when it compiles
     the path *)
  patternError : string -> option Error;
  (* [new Response(body, init)], with [new Headers(headers)] before it,
     and [Response.redirect(url, status)]: the error thrown, [None] when
     the host makes the response *)
  responseError : Response -> option Error
}.

Inductive ResponseType := normal | redirect | custom.

Record Redirect := {
  redirectToUrl : option string;
  redirectStatusCode : option Z
}.

(** A background task handed to the host: a promise, known by a number. *)
Definition Task := nat.

(** [RouterResponse.responseOptions] *)
Record ResponseOptions := {
  type : ResponseType;
  status : string;
  statusCode : Z;
  headers : gmap string string;
  cookies : gmap string string;  (* [src/router] revision only *)
  tasks : list Task;
  body : option string;
  redirectInfo : Redirect;       (* the field [redirect] *)
  customResponse : option Response
}.

(** The [responseOptions] that every [RouterResponse] constructor sets. *)
Definition initialResponseOptions : ResponseOptions := {|
  type := normal;
  status := "OK";
  statusCode := 200;
  headers := ∅;
  cookies := ∅;
  tasks := [];
  body := None;
  redirectInfo := {| redirectToUrl := None; redirectStatusCode := None |};
  customResponse := None
|}.

(** The arguments of [new Response(body, this.transformResponseOptions())] *)
Definition normalResponse (o : ResponseOptions) : Response :=
  NewResponse (body o) (statusCode o) (status o) (headers o).

(** The chained setters of [RouterResponse], on [responseOptions]. *)
Definition setContentType (contentType : string) (o : ResponseOptions)
  : ResponseOptions :=
  {| type := type o; status := status o; statusCode := statusCode o;
     headers := <["content-type" := contentType]> (headers o);
     cookies := cookies o; tasks := tasks o; body := body o;
     redirectInfo := redirectInfo o; customResponse := customResponse o |}.

Definition setBody (b : option string) (o : ResponseOptions) : ResponseOptions :=
  {| type := type o; status := status o; statusCode := statusCode o;
     headers := headers o; cookies := cookies o; tasks := tasks o; body := b;
     redirectInfo := redirectInfo o; customResponse := customResponse o |}.

(** [text(text)] *)
Definition text (t : string) (o : ResponseOptions) : ResponseOptions :=
  setContentType "text/plain" (setBody (Some t) o).

(** [raw(body, contentType)] *)
Definition raw (b : option string) (contentType : string) (o : ResponseOptions)
  : ResponseOptions :=
  setContentType contentType (setBody b o).

(** [json(data)]; [serialized] is [JSON.stringify(data)]. *)
Definition json (serialized : string) (o : ResponseOptions) : ResponseOptions :=
  setContentType "application/json" (setBody (Some serialized) o).

(** [status(statusText)] *)
Definition setStatus (statusText : string) (o : ResponseOptions)
  : ResponseOptions :=
  {| type := type o; status := statusText; statusCode := statusCode o;
     headers := headers o; cookies := cookies o; tasks := tasks o;
     body := body o; redirectInfo := redirectInfo o;
     customResponse := customResponse o |}.

(** [statusCode(statusCode)] *)
Definition setStatusCode (code : Z) (o : ResponseOptions) : ResponseOptions :=
  {| type := type o; status := status o; statusCode := code;
     headers := headers o; cookies := cookies o; tasks := tasks o;
     body := body o; redirectInfo := redirectInfo o;
     customResponse := customResponse o |}.

(** [addTasks(tasks)] / [addTask(task)] *)
Definition addTasks (ts : list Task) (o : ResponseOptions) : ResponseOptions :=
  {| type := type o; status := status o; statusCode := statusCode o;
     headers := headers o; cookies := cookies o; tasks := tasks o ++ ts;
     body := body o; redirectInfo := redirectInfo o;
     customResponse := customResponse o |}.

(** [redirectTo(redirectUrl, redirectStatusCode = 302)] *)
Definition redirectTo (redirectUrl : string) (code : option Z)
  (o : ResponseOptions) : ResponseOptions :=
  {| type := redirect; status := status o; statusCode := statusCode o;
     headers := headers o; cookies := cookies o; tasks := tasks o;
     body := body o;
     redirectInfo := {| redirectToUrl := Some redirectUrl;
                        redirectStatusCode := Some (default 302%Z code) |};
     customResponse := customResponse o |}.

(** [Array.prototype.sort(compare)] is stable; for a comparator that is a
    total preorder its result is the stable sorted arrangement, which
    insertion from the right computes.  [before a b] is
    [compare(a, b) <= 0]. *)
Section Sort.
Context {A : Type} (before : A -> A -> bool).

Fixpoint insertSorted (x : A) (l : list A) : list A :=
  match l with
  | [] => [x]
  | y :: ys => if before x y then x :: y :: ys else y :: insertSorted x ys
  end.

Fixpoint sortBy (l : list A) : list A :=
  match l with
  | [] => []
  | x :: xs => insertSorted x (sortBy xs)
  end.
End Sort.

(* ===================================================================== *)
(** ** Path normalization *)
(* ===================================================================== *)

Module Paths.
Import JsString.

(** [Router.fixPath] of [src/router/Router.ts] and of the documented
    revision (the two bodies are the same); [basePath] is
    [this.basePath]. *)
Definition fixPath (basePath inputPath : string) : string :=
  let fixedPath :=
    basePath +:+ (if startsWith inputPath "/" then slice1 inputPath
                  else inputPath) in
  if negb (endsWith fixedPath "/")
     && negb (existsb (fun char => endsWith fixedPath char)
                NO_APPEND_SLASH_IF_CHARACTERS)
  then fixedPath +:+ "/"
  else fixedPath.

(** [Router.fixHandlerPath] of [src/Router.ts]; [basePath] is
    [this.basePath], which is [null] until a parent sets it;
    [this.basePath || ""] is then the empty string. *)
Definition fixHandlerPath (basePath : option string) (inputPath : string)
  : string :=
  default "" basePath
  +:+ (if endsWith inputPath "/" then inputPath
       else if negb (existsb (fun char => endsWith inputPath char)
                       NO_APPEND_SLASH_IF_CHARACTERS)
            then inputPath +:+ "/"
            else inputPath).

(** [Router.fixUsePath] of [src/Router.ts] *)
Definition fixUsePath (basePath : option string) (arg0 : string) : string :=
  default "" basePath
  +:+ "/"
  +:+ slice arg0 (if startsWith arg0 "/" then 1 else 0)
        (if endsWith arg0 "/" then String.length arg0 - 1
         else String.length arg0).

(** What [fixPath] leaves alone: a path that ends with a slash or with
    one of the characters after which no slash is appended. *)
Definition closed (s : string) : bool :=
  endsWith s "/"
  || existsb (fun char => endsWith s char) NO_APPEND_SLASH_IF_CHARACTERS.

End Paths.

(* ===================================================================== *)
(** ** More JavaScript primitives *)
(* ===================================================================== *)

(** What a synchronous call does: return a value or throw. *)
Inductive Completion (A : Type) :=
| Normal (a : A)
| Throw (e : Error).
Arguments Normal {A} a.
Arguments Throw {A} e.

#[global] Instance Completion_fmap : FMap Completion :=
  fun A B f c =>
    match c with
    | Normal a => Normal (f a)
    | Throw e => Throw e
    end.

(** [RangeError] of a recursion that exhausts the call stack. *)
Definition stackOverflow : Error := "RangeError: Maximum call stack size exceeded".

(** [TypeError] of a property read on [null] or [undefined], or of a call
    of something that is no function. *)
Definition typeError : Error := "TypeError".

(** A constructor call of the host's [Response] class. *)
Definition construct (h : Host) (resp : Response) : Completion Response :=
  match responseError h resp with
  | Some e => Throw e
  | None => Normal resp
  end.

(** A call that reads and writes the objects [S] of the program. *)
Definition Js (S A : Type) : Type := S -> Completion A * S.

Definition ret {S A} (a : A) : Js S A := fun w => (Normal a, w).
Definition throw {S A} (e : Error) : Js S A := fun w => (Throw e, w).
Definition bind {S A B} (c : Js S A) (k : A -> Js S B) : Js S B :=
  fun w =>
    match c w with
    | (Normal a, w') => k a w'
    | (Throw e, w') => (Throw e, w')
    end.

#[global] Instance Js_ret {S} : MRet (Js S) := fun A => @ret S A.
#[global] Instance Js_bind {S} : MBind (Js S) := fun A B k c => bind c k.

Fixpoint forEach {S A B} (f : A -> Js S B) (l : list A) : Js S (list B) :=
  match l with
  | [] => ret []
  | x :: xs => y ← f x; ys ← forEach f xs; ret (y :: ys)
  end.

Module JsCase.

Definition upperChar (c : ascii) : ascii :=
  let n := nat_of_ascii c in
  if (97 <=? n) && (n <=? 122) then ascii_of_nat (n - 32) else c.

Definition lowerChar (c : ascii) : ascii :=
  let n := nat_of_ascii c in
  if (65 <=? n) && (n <=? 90) then ascii_of_nat (n + 32) else c.

Fixpoint mapChars (f : ascii -> ascii) (s : string) : string :=
  match s with
  | EmptyString => EmptyString
  | String c r => String (f c) (mapChars f r)
  end.

(** [s.toUpperCase()] and [s.toLowerCase()], on ASCII text *)
Definition toUpperCase : string -> string := mapChars upperChar.
Definition toLowerCase : string -> string := mapChars lowerChar.

End JsCase.

(** The request object that the host hands to [serveRequest]. *)
Record IncomingRequest := {
  in_url : string;
  in_method : string;                  (* empty when absent *)
  in_headers : list (string * string)
}.

(** [RouterRequest.fixRequestUrl], the same in the three revisions *)
Definition fixRequestUrl (url : string) : string :=
  let endIndex :=
    match String.index 0 "?" url with
    | Some i => i
    | None => String.length url
    end in
  let endChar :=
    match endIndex with
    | 0 => None                        (* [charAt(-1)] is the empty string *)
    | S i => String.get i url
    end in
  if bool_decide (endChar = Some "/"%char) then url
  else JsString.slice url 0 endIndex +:+ "/"
       +:+ JsString.slice url endIndex (String.length url).

(** An object of strings such as [headers] or [locals], created as [{}]:
    the map holds its own properties.  [object[key] = value] with a string
    for [value] makes [key] an own property, except for the key
    "__proto__", which is the accessor that the object inherits from
    [Object.prototype]: its setter ignores a string, and nothing is
    stored. *)
Definition assign (key value : string) (object : gmap string string)
  : gmap string string :=
  if String.eqb key "__proto__" then object else <[key := value]> object.

(** [RouterRequest.parseHeaders]: [this.headers = {}], then
    [this.headers[name.toLowerCase()] = value] for each header in turn.
    The map holds the own properties of the object; a read of a name
    that is no own property goes to [Object.prototype]. *)
Definition parseHeaders (hs : list (string * string)) : gmap string string :=
  foldl (fun acc h => assign (JsCase.toLowerCase (fst h)) (snd h) acc) ∅ hs.

(* ===================================================================== *)
(** ** The router tree of [src/router] and of the documented revision *)
(* ===================================================================== *)

(** [Route.ts], [RoutePath.ts], [RouterRequest.ts], the fields of
    [RouterResponse.ts] and the members of [Router.ts] whose bodies are
    the same in the two revisions. *)
Module Tree.

(** A router is an object; routes and children refer to it. *)
Definition RouterId := nat.

(** A handler function is a value with an identity; what it does is
    looked up in a table (see [FunctionalHandler] below). *)
Definition HandlerId := nat.

(** [type RouteHandler = Router | RouteFunctionalHandler] *)
Inductive RouteHandler :=
| RouterHandler (r : RouterId)
| FunctionHandler (f : HandlerId).

(** [class RoutePath]; [urlPattern] is [new UrlPattern(fixedPath)] and is
    determined by [fixedPath]. *)
Record RoutePath := {
  inputPath : string;
  fixedPath : string
}.

(** [class Route] *)
Record Route := {
  router : RouterId;
  method : Methods;
  path : RoutePath;
  handler : RouteHandler;
  isMiddleware : bool;
  isHandlerRouter : bool;
  routeIndex : nat
}.

(** [interface RouteOptions] *)
Record RouteOptions := {
  opt_path : string;
  opt_handler : RouteHandler;
  opt_method : Methods;
  opt_isMiddleware : bool;
  opt_routeIndex : option nat
}.

(** [class RouterRequest]: the fields that routing reads and writes. *)
Record RouterRequest := {
  req_url : string;
  req_path : string;
  req_method : string;
  req_headers : gmap string string;
  matchedParams : option Params;
  req_matchedRoute : option Route
}.

(** [class RouterResponse].  The field [locals] exists in the documented
    revision only: it is [None] for the class of [src/router/Route.ts],
    which has no such field. *)
Record RouterResponse := {
  responseOptions : ResponseOptions;
  res_matchedRoute : option Route;
  locals : option (gmap string string)
}.

(** What the functions of the program (handlers, response builder) can
    reach and change: the two objects that they receive, and the
    variables of the program that they share among themselves (module
    variables, closures). *)
Record Ctx := {
  request : RouterRequest;
  response : RouterResponse;
  variables : gmap string Z
}.

(** One invocation of a handler function: the objects as it leaves them,
    the first call of the continuation it was given (its argument, when
    it passed one), and how the call, or the promise it returned, ended:
    it completed, it threw or rejected, or it never settled. *)
Record HandlerRun := {
  after : Ctx;
  calledNext : option (option bool);
  ended : Settled unit
}.

(** A handler function: [handler.length] and its behaviour. *)
Record FunctionalHandler := {
  arity : nat;
  invoke : Ctx -> HandlerRun
}.

(** [customResponseBuilder]: a function of the program.  It receives the
    [RouterResponse] object, may change it and the variables that it
    keeps, and returns the response value ([None]: a falsy value); what
    it returns may depend on those variables, and so on the calls made
    before. *)
Definition ResponseBuilder := Ctx -> option Response * Ctx.

(** [class Router] *)
Record Router := {
  basePath : string;
  isWaterfallHandling : bool;
  routes : list Route;
  parentRouter : option RouterId;
  mainRouter : option RouterId;
  isMainRouter : bool;
  customResponseBuilder : option ResponseBuilder
}.

(** The objects of the program: the routers, the module variable
    [lastRouteIndex] of [Route.ts], the next free router identity, the
    variables of the program's own functions, and the host that the
    program runs on. *)
Record World := {
  routers : gmap RouterId Router;
  lastRouteIndex : nat;
  nextRouter : RouterId;
  programVariables : gmap string Z;
  host : Host
}.

(** A program that has created no router yet. *)
Definition emptyWorld (h : Host) : World :=
  {| routers := ∅; lastRouteIndex := 0; nextRouter := 0;
     programVariables := ∅; host := h |}.

(** Calls that read and write the objects. *)
Abbreviation M := (Js World).

Definition getRouter (rid : RouterId) : M Router :=
  fun w =>
    match routers w !! rid with
    | Some r => (Normal r, w)
    | None => (Throw typeError, w)
    end.

Definition setRouter (rid : RouterId) (r : Router) : M unit :=
  fun w =>
    (Normal tt,
     {| routers := <[rid := r]> (routers w);
        lastRouteIndex := lastRouteIndex w;
        nextRouter := nextRouter w;
        programVariables := programVariables w;
        host := host w |}).

(** [lastRouteIndex++] *)
Definition postIncrementRouteIndex : M nat :=
  fun w =>
    (Normal (lastRouteIndex w),
     {| routers := routers w;
        lastRouteIndex := S (lastRouteIndex w);
        nextRouter := nextRouter w;
        programVariables := programVariables w;
        host := host w |}).

(** The variables of the program as a dispatch left them. *)
Definition withVariables (v : gmap string Z) (w : World) : World :=
  {| routers := routers w;
     lastRouteIndex := lastRouteIndex w;
     nextRouter := nextRouter w;
     programVariables := v;
     host := host w |}.

(** [new UrlPattern(path)] of the url-pattern package, which throws for a
    path that it cannot compile. *)
Definition newUrlPattern (path : string) : M unit :=
  fun w =>
    match patternError (host w) path with
    | Some e => (Throw e, w)
    | None => (Normal tt, w)
    end.

Definition withBasePath (b : string) (r : Router) : Router :=
  {| basePath := b; isWaterfallHandling := isWaterfallHandling r;
     routes := routes r; parentRouter := parentRouter r;
     mainRouter := mainRouter r; isMainRouter := isMainRouter r;
     customResponseBuilder := customResponseBuilder r |}.

Definition withRoutes (rs : list Route) (r : Router) : Router :=
  {| basePath := basePath r; isWaterfallHandling := isWaterfallHandling r;
     routes := rs; parentRouter := parentRouter r;
     mainRouter := mainRouter r; isMainRouter := isMainRouter r;
     customResponseBuilder := customResponseBuilder r |}.

Definition withParentRouter (p : option RouterId) (r : Router) : Router :=
  {| basePath := basePath r; isWaterfallHandling := isWaterfallHandling r;
     routes := routes r; parentRouter := p;
     mainRouter := mainRouter r; isMainRouter := isMainRouter r;
     customResponseBuilder := customResponseBuilder r |}.

Definition withIsMainRouter (b : bool) (r : Router) : Router :=
  {| basePath := basePath r; isWaterfallHandling := isWaterfallHandling r;
     routes := routes r; parentRouter := parentRouter r;
     mainRouter := mainRouter r; isMainRouter := b;
     customResponseBuilder := customResponseBuilder r |}.

Definition withCustomResponseBuilder (b : option ResponseBuilder) (r : Router)
  : Router :=
  {| basePath := basePath r; isWaterfallHandling := isWaterfallHandling r;
     routes := routes r; parentRouter := parentRouter r;
     mainRouter := mainRouter r; isMainRouter := isMainRouter r;
     customResponseBuilder := b |}.

(** [interface RouterOptions] *)
Record RouterOptions := {
  ro_basePath : option string;
  ro_waterfallHandling : option bool;
  ro_parent : option RouterId;
  ro_customResponseBuilder : option ResponseBuilder
}.

Definition noOptions : RouterOptions :=
  {| ro_basePath := None; ro_waterfallHandling := None; ro_parent := None;
     ro_customResponseBuilder := None |}.

Definition allocRouter (r : Router) : M RouterId :=
  fun w =>
    (Normal (nextRouter w),
     {| routers := <[nextRouter w := r]> (routers w);
        lastRouteIndex := lastRouteIndex w;
        nextRouter := S (nextRouter w);
        programVariables := programVariables w;
        host := host w |}).

(** [Router.fixPath] *)
Definition fixPath (rid : RouterId) (inputPath : string) : M string :=
  r ← getRouter rid;
  ret (Paths.fixPath (basePath r) inputPath).

(** [new Route(router, options)]: the constructor of [Route] with the one
    of [RoutePath], which fixes the path and compiles it with
    [createPatternFromPath], that is [new UrlPattern(fixedPath)]; a path
    that does not compile ends the constructor with the error of
    url-pattern, before an index is taken.
    [options.isMiddleware || this.isRouteMiddleware()] reads
    [this.isMiddleware] before it is set, so its second operand is false;
    [options.routeIndex || lastRouteIndex++] takes a fresh index when none
    is given and also when the given one is 0. *)
Definition newRoute (rid : RouterId) (options : RouteOptions) : M Route :=
  fixed ← fixPath rid (opt_path options);
  newUrlPattern fixed;;
  index ← match opt_routeIndex options with
           | Some (S n) => ret (S n)
           | _ => postIncrementRouteIndex
           end;
  ret {| router := rid;
         method := opt_method options;
         path := {| inputPath := opt_path options; fixedPath := fixed |};
         handler := opt_handler options;
         isMiddleware := opt_isMiddleware options || false;
         isHandlerRouter :=
           match opt_handler options with
           | RouterHandler _ => true
           | FunctionHandler _ => false
           end;
         routeIndex := index |}.

(** [Router.createRoute] *)
Definition createRoute (rid : RouterId) (options : RouteOptions) : M Route :=
  newRoute rid options.

(** [Router.createRouteAndAdd] *)
Definition createRouteAndAdd (rid : RouterId) (options : RouteOptions)
  : M Route :=
  createdRoute ← createRoute rid options;
  r ← getRouter rid;
  setRouter rid (withRoutes (routes r ++ [createdRoute]) r);;
  ret createdRoute.

(** [Router.updateSelfRoutes] *)
Definition updateSelfRoutes (rid : RouterId) : M unit :=
  r ← getRouter rid;
  newRoutes ← forEach (fun oldRoute =>
                 createRoute rid
                   {| opt_path := inputPath (path oldRoute);
                      opt_method := method oldRoute;
                      opt_handler := handler oldRoute;
                      opt_isMiddleware := isMiddleware oldRoute;
                      opt_routeIndex := Some (routeIndex oldRoute) |})
               (routes r);
  r' ← getRouter rid;
  setRouter rid (withRoutes newRoutes r').

(** [Router.get], [post], [options], [head], [delete], [any] *)
Definition addFor (m : Methods) (rid : RouterId) (p : string)
  (h : RouteHandler) : M unit :=
  createRouteAndAdd rid
    {| opt_path := p; opt_handler := h; opt_method := m;
       opt_isMiddleware := false; opt_routeIndex := None |};;
  ret tt.

Definition get := addFor GET.
Definition post := addFor POST.
Definition options := addFor OPTIONS.
Definition head := addFor HEAD.
Definition delete := addFor DELETE.
Definition any := addFor ANY.

(** [Router.assignSelfAsMainRouter] *)
Definition assignSelfAsMainRouter (rid : RouterId) : M unit :=
  r ← getRouter rid;
  match mainRouter r with
  | Some _ =>
      throw "Cannot assign self router as the main router when there is already another router instance considered a main one!"
  | None => setRouter rid (withIsMainRouter true r)
  end.

(** [Router.getMainRouter]; [depth] bounds the call stack. *)
Fixpoint getMainRouter (depth : nat) (w : World) (rid : RouterId)
  : Completion RouterId :=
  match depth with
  | 0 => Throw stackOverflow
  | S d =>
      match routers w !! rid with
      | None => Throw typeError
      | Some r =>
          match parentRouter r with
          | Some p => getMainRouter d w p
          | None =>
              if isMainRouter r then Normal rid
              else Throw "Error! Got to a top-level router that wasn't declared as main router!"
          end
      end
  end.

(** [type MatchingRoute] *)
Record MatchingRoute := {
  route : Route;
  matchData : option Params            (* the field [match] *)
}.

(** What happened during a dispatch, in order: a chain step was started
    for a middleware route, a handler function was called. *)
Inductive Event :=
| ChainStep (r : Route)
| HandlerCall (f : HandlerId).

(** [type BuiltResponseObject]: [tasks] and [response]; its two other
    fields are the request and response objects themselves. *)
Record BuiltResponseObject := {
  built_tasks : list Task;
  built_response : option Response
}.

(** The end of a dispatch: how the promise settled, the request and
    response objects, and what ran. *)
Record Dispatch := {
  settled : Settled BuiltResponseObject;
  final : Ctx;
  events : list Event
}.

(** The calls of [use] whose handler is a router or a function: with a
    path and a handler, or with a handler first and possibly a second
    one ([useBulk] passes the handler twice). *)
Inductive UseArgs :=
| UsePath (arg0 : string) (arg1 : RouteHandler)
| UseHandler (arg0 : RouteHandler) (arg1 : option RouteHandler).

(** [RouterRequest.setMatchedParams], [RouterRequest.setMatchedRoute] and
    [RouterResponse.setMatchedRoute], as [processRequest] calls them *)
Definition setMatched (m : MatchingRoute) (c : Ctx) : Ctx :=
  {| request :=
       {| req_url := req_url (request c);
          req_path := req_path (request c);
          req_method := req_method (request c);
          req_headers := req_headers (request c);
          matchedParams := matchData m;
          req_matchedRoute := Some (route m) |};
     response :=
       {| responseOptions := responseOptions (response c);
          res_matchedRoute := Some (route m);
          locals := locals (response c) |};
     variables := variables c |}.

(** A synchronous outcome as the settlement of the promise of an
    [async] function. *)
Definition settle (r : Completion BuiltResponseObject * Ctx)
  (log : list Event) : Dispatch :=
  {| settled := match fst r with
                | Normal a => Resolved a
                | Throw e => Rejected e
                end;
     final := snd r;
     events := log |}.

Section Host.

(** [new UrlPattern(pattern).match(path)] of the url-pattern package:
    [None] is [null]. *)
Variable urlMatch : string -> string -> option Params.

(** The handler functions of the program. *)
Variable handlers : HandlerId -> FunctionalHandler.

(** [RoutePath.matchesInputPath] *)
Definition matchesInputPath (p : RoutePath) (input : string)
  : bool * option Params :=
  let matchResult := urlMatch (fixedPath p) input in
  (bool_decide (is_Some matchResult), matchResult).

(** [Route.matchesRequest]: [pathMatches], [pathMatchData],
    [methodMatches]. *)
Definition matchesRequest (rt : Route) (req : RouterRequest)
  : bool * option Params * bool :=
  let pathMatchResult := matchesInputPath (path rt) (req_path req) in
  let methodMatches :=
    match method rt with
    | ANY => true
    | m => String.eqb (JsCase.toUpperCase (methodName m))
             (JsCase.toUpperCase (req_method req))
    end in
  (fst pathMatchResult && methodMatches, snd pathMatchResult, methodMatches).

(** The [for] loop of [findMatchingRoutes] over [this.routes];
    [recur child] is [child.findMatchingRoutes(request)]. *)
Fixpoint findLoop (recur : RouterId -> Completion (list MatchingRoute))
  (req : RouterRequest) (rs : list Route) (foundMatching : list MatchingRoute)
  : Completion (list MatchingRoute) :=
  match rs with
  | [] => Normal foundMatching
  | rt :: rest =>
      if isHandlerRouter rt then
        match handler rt with
        | RouterHandler child =>
            match recur child with
            | Normal sub => findLoop recur req rest (foundMatching ++ sub)
            | Throw e => Throw e
            end
        | FunctionHandler _ => Throw typeError
        end
      else
        let matchRoute := matchesRequest rt req in
        if fst (fst matchRoute) then
          findLoop recur req rest
            (foundMatching
             ++ [{| route := rt; matchData := snd (fst matchRoute) |}])
        else findLoop recur req rest foundMatching
  end.

(** [Router.findMatchingRoutes]; [depth] bounds the call stack. *)
Fixpoint findMatchingRoutes (depth : nat) (w : World) (rid : RouterId)
  (req : RouterRequest) : Completion (list MatchingRoute) :=
  match depth with
  | 0 => Throw stackOverflow
  | S d =>
      match routers w !! rid with
      | None => Throw typeError
      | Some r =>
          findLoop (fun child => findMatchingRoutes d w child req) req
            (routes r) []
      end
  end.

End Host.

End Tree.

(* ===================================================================== *)
(** ** The documented revision of [Router], [RouterRequest], [RouterResponse] *)
(* ===================================================================== *)

Module Unnamed.
Import Tree.

(** [new Router(options)] *)
Definition newRouter (options : RouterOptions) : M RouterId :=
  allocRouter
    {| basePath := default "/" (ro_basePath options);
       isWaterfallHandling := default false (ro_waterfallHandling options);
       customResponseBuilder := ro_customResponseBuilder options;
       routes := [];
       parentRouter := ro_parent options;
       mainRouter := None;
       isMainRouter := false |}.

(** [Router.init] *)
Definition init (rid : RouterId) (newBasePath : string)
  (parent : option RouterId) : M unit :=
  r ← getRouter rid;
  setRouter rid (withBasePath "/" r);;
  fixed ← fixPath rid (if String.eqb newBasePath "" then "/" else newBasePath);
  r1 ← getRouter rid;
  setRouter rid (withBasePath fixed r1);;
  r2 ← getRouter rid;
  setRouter rid (withParentRouter parent r2);;
  updateSelfRoutes rid.

(** [Router.use] *)
Definition use (rid : RouterId) (args : UseArgs) : M unit :=
  let useHandler :=
    match args with
    | UsePath _ arg1 => arg1
    | UseHandler arg0 arg1 => default arg0 arg1
    end in
  let usePath0 :=
    match args with UsePath arg0 _ => arg0 | UseHandler _ _ => "/" end in
  usePath ← fixPath rid usePath0;
  match useHandler with
  | RouterHandler child => init child usePath (Some rid)
  | FunctionHandler _ => ret tt
  end;;
  createRouteAndAdd rid
    {| opt_handler := useHandler; opt_path := usePath; opt_method := ANY;
       opt_isMiddleware := true; opt_routeIndex := None |};;
  ret tt.

(** [new RouterRequest(incomingRequest, additionalData)]; [pathname] is
    [new URL(url).pathname], [None] where [new URL] throws. *)
Definition newRouterRequest (pathname : string -> option string)
  (incoming : IncomingRequest) : Completion RouterRequest :=
  let url := fixRequestUrl (in_url incoming) in
  match pathname url with
  | None => Throw "TypeError: Invalid URL"
  | Some p =>
      Normal {| req_url := url;
                req_path := p;
                req_method :=
                  JsCase.toUpperCase
                    (if String.eqb (in_method incoming) "" then "GET"
                     else in_method incoming);
                req_headers := ∅;
                matchedParams := None;
                req_matchedRoute := None |}
  end.

(** [new RouterResponse(routerRequest)] *)
Definition newRouterResponse : RouterResponse :=
  {| responseOptions := initialResponseOptions;
     res_matchedRoute := None;
     locals := Some ∅ |}.

Section Host.

Variable urlMatch : string -> string -> option Params.
Variable handlers : HandlerId -> FunctionalHandler.

(** [RouterResponse.build] *)
Definition build (depth : nat) (w : World) (c : Ctx)
  : Completion BuiltResponseObject * Ctx :=
  match req_matchedRoute (request c) with
  | None => (Throw typeError, c)
  | Some matched =>
      match getMainRouter depth w (router matched) with
      | Throw e => (Throw e, c)
      | Normal mainId =>
          match routers w !! mainId with
          | None => (Throw typeError, c)
          | Some main =>
              let o := responseOptions (response c) in
              let '(finalResponse, c') :=
                match customResponseBuilder main with
                | Some builder =>
                    let '(v, c') := builder c in (Normal v, c')
                | None =>
                    match type o with
                    | redirect =>
                        (Some <$> construct (host w)
                                    (ResponseRedirect
                                       (redirectToUrl (redirectInfo o))
                                       (redirectStatusCode (redirectInfo o))),
                         c)
                    | normal =>
                        (Some <$> construct (host w) (normalResponse o), c)
                    | custom => (Normal (customResponse o), c)
                    end
                end in
              match finalResponse with
              | Throw e => (Throw e, c')
              | Normal v =>
                  (Normal {| built_response := v;
                             built_tasks :=
                               tasks (responseOptions (response c')) |}, c')
              end
          end
      end
  end.

(** [Router.finishResponse] *)
Definition finishResponse (depth : nat) (w : World) (rid : RouterId) (c : Ctx)
  : Completion BuiltResponseObject * Ctx :=
  match getMainRouter depth w rid with
  | Throw e => (Throw e, c)
  | Normal mainId =>
      match routers w !! mainId with
      | None => (Throw typeError, c)
      | Some main =>
          match build depth w c with
          | (Throw e, c1) => (Throw e, c1)
          | (Normal builtResponseOptions, c1) =>
              match customResponseBuilder main with
              | Some builder =>
                  let '(resp, c2) := builder c1 in
                  (Normal {| built_response := resp;
                             built_tasks := built_tasks builtResponseOptions |},
                   c2)
              | None => (Normal builtResponseOptions, c1)
              end
          end
      end
  end.

(** [Router.executeMiddleware]: the promise it returns, the objects
    afterwards and the handler calls made.  The executor is an [async]
    function, so an exception of the handler does not reject the promise:
    the promise settles only through [resolve]. *)
Definition executeMiddleware (middleware : Route) (c : Ctx)
  : Settled bool * Ctx * list Event :=
  match handler middleware with
  | FunctionHandler f =>
      let middlewareHandler := handlers f in
      let hasNextCallback := arity middlewareHandler =? 3 in
      if hasNextCallback then
        let run := invoke middlewareHandler c in
        (match calledNext run with
         | Some proceed => Resolved (default true proceed)
         | None => Pending
         end, after run, [HandlerCall f])
      else
        (* [await (async () => middlewareHandler(request, response))]
           awaits the arrow function itself, which is never called *)
        (Resolved true, c, [])
  | RouterHandler _ =>
      (* [length] of a router object is [undefined] *)
      (Resolved true, c, [])
  end.

(** The loop of [processRequest] over the ordered middlewares:
    [allMiddlewaresSuccessful] when the loop ends, or [Pending] where an
    awaited step never settles. *)
Fixpoint runMiddlewares (ms : list MatchingRoute) (c : Ctx)
  (log : list Event) : Settled bool * Ctx * list Event :=
  match ms with
  | [] => (Resolved true, c, log)
  | m :: rest =>
      let '(middlewareSuccess, c', called) :=
        executeMiddleware (route m) c in
      let log' := log ++ ChainStep (route m) :: called in
      match middlewareSuccess with
      | Resolved true => runMiddlewares rest c' log'
      | Resolved false => (Resolved false, c', log')
      | Rejected e => (Rejected e, c', log')
      | Pending => (Pending, c', log')
      end
  end.

(** [Router.processRequest] *)
Definition processRequest (depth : nat) (w : World) (rid : RouterId) (c : Ctx)
  : Dispatch :=
  match findMatchingRoutes urlMatch depth w rid (request c) with
  | Throw e => {| settled := Rejected e; final := c; events := [] |}
  | Normal foundMatchingRoutes =>
      let foundMiddlewares :=
        List.filter (fun m => negb (isHandlerRouter (route m)))
          (List.filter (fun m => isMiddleware (route m)) foundMatchingRoutes) in
      let responseHandler :=
        List.hd_error
          (List.filter (fun m => negb (isMiddleware (route m)))
             foundMatchingRoutes) in
      match responseHandler with
      | None =>
          {| settled :=
               Rejected "Could not find a response handler for the request!";
             final := c; events := [] |}
      | Some responseHandler =>
          let c1 := setMatched responseHandler c in
          let orderedMiddlewareList :=
            sortBy (fun a b =>
                      routeIndex (route a) <=? routeIndex (route b))
              foundMiddlewares in
          match runMiddlewares orderedMiddlewareList c1 [] with
          | (Pending, c2, log) =>
              {| settled := Pending; final := c2; events := log |}
          | (Rejected e, c2, log) =>
              {| settled := Rejected e; final := c2; events := log |}
          | (Resolved false, c2, log) =>
              settle (finishResponse depth w rid c2) log
          | (Resolved true, c2, log) =>
              match handler (route responseHandler) with
              | RouterHandler _ =>
                  {| settled := Rejected typeError; final := c2;
                     events := log |}
              | FunctionHandler f =>
                  let run := invoke (handlers f) c2 in
                  let log' := log ++ [HandlerCall f] in
                  match ended run with
                  | Rejected e =>
                      {| settled := Rejected e; final := after run;
                         events := log' |}
                  | Pending =>
                      {| settled := Pending; final := after run;
                         events := log' |}
                  | Resolved _ =>
                      settle (finishResponse depth w rid (after run)) log'
                  end
              end
          end
      end
  end.

(** [Router.serveRequest]: the world after the call and the dispatch.
    The functions of the program find its variables as the calls before
    left them, and leave them for the calls that follow. *)
Definition serveRequest (pathname : string -> option string) (depth : nat)
  (w : World) (rid : RouterId) (incoming : IncomingRequest)
  : World * Dispatch :=
  let blank := {| request :=
                    {| req_url := ""; req_path := ""; req_method := "";
                       req_headers := ∅; matchedParams := None;
                       req_matchedRoute := None |};
                  response := newRouterResponse;
                  variables := programVariables w |} in
  let failed (e : Error) (w' : World) :=
    (w', {| settled := Rejected e; final := blank; events := [] |}) in
  match routers w !! rid with
  | None => failed typeError w
  | Some r =>
      let assigned :=
        if negb (bool_decide (is_Some (mainRouter r)))
           && negb (isMainRouter r)
        then assignSelfAsMainRouter rid w
        else (Normal tt, w) in
      match assigned with
      | (Throw e, w') => failed e w'
      | (Normal _, w') =>
          match newRouterRequest pathname incoming with
          | Throw e => failed e w'
          | Normal routerRequest =>
              let dispatch :=
                processRequest depth w' rid
                  {| request := routerRequest;
                     response := newRouterResponse;
                     variables := programVariables w' |} in
              (withVariables (variables (final dispatch)) w', dispatch)
          end
      end
  end.

End Host.

End Unnamed.

(* ===================================================================== *)
(** ** The revision under [src/router] *)
(* ===================================================================== *)

Module RouterDir.
Import Tree.

(** [new Router(options)]; this constructor leaves
    [customResponseBuilder] unset. *)
Definition newRouter (options : RouterOptions) : M RouterId :=
  allocRouter
    {| basePath := default "/" (ro_basePath options);
       isWaterfallHandling := default false (ro_waterfallHandling options);
       routes := [];
       parentRouter := ro_parent options;
       mainRouter := None;
       isMainRouter := false;
       customResponseBuilder := None |}.

(** [Router.init] *)
Definition init (rid : RouterId) (newBasePath : string)
  (parent : option RouterId) : M unit :=
  r ← getRouter rid;
  setRouter rid (withBasePath "/" r);;
  fixed ← fixPath rid (if String.eqb newBasePath "" then "/" else newBasePath);
  r1 ← getRouter rid;
  setRouter rid (withBasePath fixed r1);;
  r2 ← getRouter rid;
  setRouter rid (withParentRouter parent r2).

(** [Router.use] *)
Definition use (rid : RouterId) (args : UseArgs) : M unit :=
  let useHandler :=
    match args with
    | UsePath _ arg1 => arg1
    | UseHandler arg0 arg1 => default arg0 arg1
    end in
  let usePath :=
    match args with
    | UsePath arg0 _ => arg0
    | UseHandler _ _ => "/"
    end in
  match useHandler with
  | RouterHandler child => init child usePath (Some rid)
  | FunctionHandler _ => ret tt
  end;;
  createRouteAndAdd rid
    {| opt_handler := useHandler; opt_path := usePath; opt_method := ANY;
       opt_isMiddleware := true; opt_routeIndex := None |};;
  ret tt.

(** [new RouterRequest(incomingRequest, additionalData)] *)
Definition newRouterRequest (pathname : string -> option string)
  (incoming : IncomingRequest) : Completion RouterRequest :=
  let url := fixRequestUrl (in_url incoming) in
  match pathname url with
  | None => Throw "TypeError: Invalid URL"
  | Some p =>
      Normal {| req_url := url;
                req_path := p;
                req_method :=
                  JsCase.toUpperCase
                    (if String.eqb (in_method incoming) "" then "GET"
                     else in_method incoming);
                req_headers := parseHeaders (in_headers incoming);
                matchedParams := None;
                req_matchedRoute := None |}
  end.

(** [new RouterResponse(routerRequest)] of [src/router/Route.ts]: this
    class has no field [locals]. *)
Definition newRouterResponse : RouterResponse :=
  {| responseOptions := initialResponseOptions;
     res_matchedRoute := None;
     locals := None |}.

Section Host.

Variable urlMatch : string -> string -> option Params.
Variable handlers : HandlerId -> FunctionalHandler.

(** [RouterResponse.build] of [src/router/Route.ts] *)
Definition build (w : World) (c : Ctx) : Completion BuiltResponseObject :=
  let o := responseOptions (response c) in
  let finalResponse :=
    match type o with
    | redirect =>
        Some <$> construct (host w)
                   (ResponseRedirect (redirectToUrl (redirectInfo o))
                      (redirectStatusCode (redirectInfo o)))
    | normal => Some <$> construct (host w) (normalResponse o)
    | custom => Normal (customResponse o)
    end in
  match finalResponse with
  | Throw e => Throw e
  | Normal v => Normal {| built_response := v; built_tasks := tasks o |}
  end.

(** [Router.finishResponse] *)
Definition finishResponse (depth : nat) (w : World) (rid : RouterId) (c : Ctx)
  : Completion BuiltResponseObject * Ctx :=
  match getMainRouter depth w rid with
  | Throw e => (Throw e, c)
  | Normal mainId =>
      match routers w !! mainId with
      | None => (Throw typeError, c)
      | Some main =>
          match build w c with
          | Throw e => (Throw e, c)
          | Normal builtResponseOptions =>
              match customResponseBuilder main with
              | Some builder =>
                  let '(resp, c2) := builder c in
                  (Normal {| built_response := resp;
                             built_tasks :=
                               built_tasks builtResponseOptions |},
                   c2)
              | None => (Normal builtResponseOptions, c)
              end
          end
      end
  end.

(** [Router.executeMiddleware]: here the continuation is the fourth
    parameter and its argument asks to abort. *)
Definition executeMiddleware (middleware : Route) (c : Ctx)
  : Settled bool * Ctx * list Event :=
  match handler middleware with
  | FunctionHandler f =>
      let middlewareHandler := handlers f in
      let hasNextCallback := arity middlewareHandler =? 4 in
      if hasNextCallback then
        let run := invoke middlewareHandler c in
        (match calledNext run with
         | Some abort => Resolved (negb (default false abort))
         | None => Pending
         end, after run, [HandlerCall f])
      else (Resolved true, c, [])
  | RouterHandler _ => (Resolved true, c, [])
  end.

Fixpoint runMiddlewares (ms : list MatchingRoute) (c : Ctx)
  (log : list Event) : Settled bool * Ctx * list Event :=
  match ms with
  | [] => (Resolved true, c, log)
  | m :: rest =>
      let '(middlewareSuccess, c', called) :=
        executeMiddleware (route m) c in
      let log' := log ++ ChainStep (route m) :: called in
      match middlewareSuccess with
      | Resolved true => runMiddlewares rest c' log'
      | Resolved false => (Resolved false, c', log')
      | Rejected e => (Rejected e, c', log')
      | Pending => (Pending, c', log')
      end
  end.

(** [Router.processRequest] *)
Definition processRequest (depth : nat) (w : World) (rid : RouterId) (c : Ctx)
  : Dispatch :=
  match findMatchingRoutes urlMatch depth w rid (request c) with
  | Throw e => {| settled := Rejected e; final := c; events := [] |}
  | Normal foundMatchingRoutes =>
      let foundMiddlewares :=
        List.filter (fun m => negb (isHandlerRouter (route m)))
          (List.filter (fun m => isMiddleware (route m)) foundMatchingRoutes) in
      let responseHandler :=
        List.hd_error
          (List.filter (fun m => negb (isMiddleware (route m)))
             foundMatchingRoutes) in
      match responseHandler with
      | None =>
          {| settled :=
               Rejected "Could not find a response handler for the request!";
             final := c; events := [] |}
      | Some responseHandler =>
          let c1 := setMatched responseHandler c in
          let orderedMiddlewareList :=
            sortBy (fun a b =>
                      routeIndex (route b) <=? routeIndex (route a))
              foundMiddlewares in
          match runMiddlewares orderedMiddlewareList c1 [] with
          | (Pending, c2, log) =>
              {| settled := Pending; final := c2; events := log |}
          | (Rejected e, c2, log) =>
              {| settled := Rejected e; final := c2; events := log |}
          | (Resolved false, c2, log) =>
              settle (finishResponse depth w rid c2) log
          | (Resolved true, c2, log) =>
              match handler (route responseHandler) with
              | RouterHandler _ =>
                  {| settled := Rejected typeError; final := c2;
                     events := log |}
              | FunctionHandler f =>
                  let run := invoke (handlers f) c2 in
                  let log' := log ++ [HandlerCall f] in
                  match ended run with
                  | Rejected e =>
                      {| settled := Rejected e; final := after run;
                         events := log' |}
                  | Pending =>
                      {| settled := Pending; final := after run;
                         events := log' |}
                  | Resolved _ =>
                      settle
                        (finishResponse depth w rid (after run)) log'
                  end
              end
          end
      end
  end.

(** [Router.serveRequest] *)
Definition serveRequest (pathname : string -> option string) (depth : nat)
  (w : World) (rid : RouterId) (incoming : IncomingRequest)
  : World * Dispatch :=
  let blank := {| request :=
                    {| req_url := ""; req_path := ""; req_method := "";
                       req_headers := ∅; matchedParams := None;
                       req_matchedRoute := None |};
                  response := newRouterResponse;
                  variables := programVariables w |} in
  let failed (e : Error) (w' : World) :=
    (w', {| settled := Rejected e; final := blank; events := [] |}) in
  match routers w !! rid with
  | None => failed typeError w
  | Some r =>
      let assigned :=
        if negb (isMainRouter r) then assignSelfAsMainRouter rid w
        else (Normal tt, w) in
      match assigned with
      | (Throw e, w') => failed e w'
      | (Normal _, w') =>
          match newRouterRequest pathname incoming with
          | Throw e => failed e w'
          | Normal routerRequest =>
              let dispatch :=
                processRequest depth w' rid
                  {| request := routerRequest;
                     response := newRouterResponse;
                     variables := programVariables w' |} in
              (withVariables (variables (final dispatch)) w', dispatch)
          end
      end
  end.

End Host.

End RouterDir.

(* ===================================================================== *)
(** ** The legacy router: [src/Router.ts], [src/RouterResponse.ts] *)
(* ===================================================================== *)

Module Legacy.

Definition RouterId := nat.
Definition HandlerId := nat.

(** [handler: RouteHandler | Router] *)
Inductive RouteHandler :=
| RouterHandler (r : RouterId)
| FunctionHandler (f : HandlerId).

(** [class RouterPath]; [pattern] is [new UrlPattern(fixed)]. *)
Record RouterPath := {
  rawInput : string;
  fixed : string
}.

(** [class Route] *)
Record Route := {
  router : RouterId;
  method : Methods;
  path : RouterPath;
  handler : RouteHandler;
  isMiddleware : bool
}.

(** [class RouterRequest] *)
Record RouterRequest := {
  req_router : RouterId;
  req_url : string;
  req_path : string;
  req_method : string;
  req_headers : gmap string string;
  matchedParams : option Params
}.

(** [class RouterResponse] *)
Record RouterResponse := {
  res_router : RouterId;
  responseOptions : ResponseOptions;
  locals : gmap string string
}.

(** The two objects that the functions of the program receive, and the
    variables of the program that they share among themselves. *)
Record Ctx := {
  request : RouterRequest;
  response : RouterResponse;
  variables : gmap string Z
}.

Record HandlerRun := {
  after : Ctx;
  calledNext : option (option bool);
  ended : Settled unit
}.

Record FunctionalHandler := {
  arity : nat;
  invoke : Ctx -> HandlerRun
}.

(** [routerOptions.customResponseBuilder]: a function of the program; what
    it returns may depend on the variables that it keeps, and so on the
    calls made before. *)
Definition ResponseBuilder := Ctx -> option Response * Ctx.

(** [class Router]; [customResponseBuilder] is
    [routerOptions.customResponseBuilder]. *)
Record Router := {
  routes : list Route;
  basePath : option string;
  customResponseBuilder : option ResponseBuilder
}.

(** The objects of the program: the routers, the next free router
    identity, the variables of the program's own functions, and the host
    that the program runs on. *)
Record World := {
  routers : gmap RouterId Router;
  nextRouter : RouterId;
  programVariables : gmap string Z;
  host : Host
}.

Definition emptyWorld (h : Host) : World :=
  {| routers := ∅; nextRouter := 0; programVariables := ∅; host := h |}.

Abbreviation M := (Js World).

Definition getRouter (rid : RouterId) : M Router :=
  fun w =>
    match routers w !! rid with
    | Some r => (Normal r, w)
    | None => (Throw typeError, w)
    end.

Definition setRouter (rid : RouterId) (r : Router) : M unit :=
  fun w =>
    (Normal tt,
     {| routers := <[rid := r]> (routers w); nextRouter := nextRouter w;
        programVariables := programVariables w; host := host w |}).

(** [new UrlPattern(path)] of the url-pattern package, which throws for a
    path that it cannot compile. *)
Definition newUrlPattern (path : string) : M unit :=
  fun w =>
    match patternError (host w) path with
    | Some e => (Throw e, w)
    | None => (Normal tt, w)
    end.

(** [new Router()] *)
Definition newRouter : M RouterId :=
  fun w =>
    (Normal (nextRouter w),
     {| routers :=
          <[nextRouter w :=
              {| routes := []; basePath := None;
                 customResponseBuilder := None |}]> (routers w);
        nextRouter := S (nextRouter w);
        programVariables := programVariables w; host := host w |}).

(** [Router.setCustomResponseBuilder] *)
Definition setCustomResponseBuilder (rid : RouterId)
  (responseBuilder : option ResponseBuilder) : M unit :=
  r ← getRouter rid;
  setRouter rid {| routes := routes r; basePath := basePath r;
                   customResponseBuilder := responseBuilder |}.

Definition withRoutes (rs : list Route) (r : Router) : Router :=
  {| routes := rs; basePath := basePath r;
     customResponseBuilder := customResponseBuilder r |}.

Definition withBasePath (b : option string) (r : Router) : Router :=
  {| routes := routes r; basePath := b;
     customResponseBuilder := customResponseBuilder r |}.

(** [Router.fixHandlerPath] and [Router.fixUsePath] *)
Definition fixHandlerPath (rid : RouterId) (inputPath : string) : M string :=
  r ← getRouter rid;
  mret (Paths.fixHandlerPath (basePath r) inputPath).

Definition fixUsePath (rid : RouterId) (arg0 : string) : M string :=
  r ← getRouter rid;
  mret (Paths.fixUsePath (basePath r) arg0).

(** The [options] of the [Route] constructor. *)
Record RouteOptions := {
  opt_inputPath : string;
  opt_method : Methods;
  opt_handler : RouteHandler;
  opt_isMiddleware : bool
}.

(** [new Route(router, options)], with [new RouterPath(rawInput, fixed)],
    which compiles the fixed path with [new UrlPattern(this.fixed)]. *)
Definition newRoute (rid : RouterId) (options : RouteOptions) : M Route :=
  fixedPath ← (if opt_isMiddleware options
               then fixUsePath rid (opt_inputPath options)
               else fixHandlerPath rid (opt_inputPath options));
  newUrlPattern fixedPath;;
  mret {| router := rid;
          handler := opt_handler options;
          method := opt_method options;
          isMiddleware := opt_isMiddleware options;
          path := {| rawInput := opt_inputPath options;
                     fixed := fixedPath |} |}.

Definition pushRoute (rid : RouterId) (rt : Route) : M unit :=
  r ← getRouter rid;
  setRouter rid (withRoutes (routes r ++ [rt]) r).

(** [Router.refreshRoutes]; [depth] bounds the call stack. *)
Fixpoint refreshRoutes (depth : nat) (rid : RouterId) : M unit :=
  match depth with
  | 0 => throw stackOverflow
  | S d =>
      r ← getRouter rid;
      newRoutes ← forEach (fun oldRoute =>
                    (if isMiddleware oldRoute then
                       match handler oldRoute with
                       | RouterHandler child => refreshRoutes d child
                       | FunctionHandler _ => mret tt
                       end
                     else mret tt);;
                    newRoute rid
                      {| opt_handler := handler oldRoute;
                         opt_method := method oldRoute;
                         opt_inputPath := rawInput (path oldRoute);
                         opt_isMiddleware := isMiddleware oldRoute |})
                  (routes r);
      r' ← getRouter rid;
      setRouter rid (withRoutes newRoutes r')
  end.

(** The ways to call [use] that pass the type check of its first
    lines: a path with a handler, or a handler alone. *)
Inductive UseArgs :=
| UsePath (arg0 : string) (arg1 : RouteHandler)
| UseHandler (arg0 : RouteHandler).

(** [Router.use] *)
Definition use (depth : nat) (rid : RouterId) (args : UseArgs) : M unit :=
  match args with
  | UsePath arg0 handler =>
      fixedUsePath ← fixUsePath rid arg0;
      match handler with
      | RouterHandler child =>
          r ← getRouter rid;
          c ← getRouter child;
          setRouter child
            (withBasePath (Some (default "" (basePath r) +:+ fixedUsePath)) c)
      | FunctionHandler _ => mret tt
      end;;
      rt ← newRoute rid {| opt_handler := handler; opt_inputPath := arg0;
                           opt_method := ANY; opt_isMiddleware := true |};
      pushRoute rid rt
  | UseHandler arg0 =>
      rt ← newRoute rid {| opt_handler := arg0; opt_inputPath := "*";
                           opt_method := ANY; opt_isMiddleware := true |};
      pushRoute rid rt
  end;;
  refreshRoutes depth rid.

(** [Router.addPathHandler] *)
Definition addPathHandler (rid : RouterId) (m : Methods) (p : string)
  (h : RouteHandler) (isMw : option bool) : M unit :=
  rt ← newRoute rid {| opt_handler := h; opt_method := m; opt_inputPath := p;
                       opt_isMiddleware := default false isMw |};
  pushRoute rid rt.

(** [Router.get], [post], [options], [head], [delete], [any] *)
Definition get (rid : RouterId) (p : string) (h : RouteHandler) : M unit :=
  addPathHandler rid GET p h (Some false).
Definition post (rid : RouterId) (p : string) (h : RouteHandler) : M unit :=
  addPathHandler rid POST p h None.
Definition options (rid : RouterId) (p : string) (h : RouteHandler) : M unit :=
  addPathHandler rid OPTIONS p h None.
Definition head (rid : RouterId) (p : string) (h : RouteHandler) : M unit :=
  addPathHandler rid HEAD p h None.
Definition delete (rid : RouterId) (p : string) (h : RouteHandler) : M unit :=
  addPathHandler rid DELETE p h None.
Definition any (rid : RouterId) (p : string) (h : RouteHandler) : M unit :=
  addPathHandler rid ANY p h None.

(** An entry of the array that [getMatchingRoutesByPath] fills. *)
Record Matched := {
  route : Route;
  matchData : Params                   (* the field [match] *)
}.

Inductive Event :=
| ChainStep (r : Route)
| HandlerCall (f : HandlerId).

(** [type BuiltResponse]: [tasks] and [response] ([None]: a falsy value
    that a response builder returned); its two other fields are the
    request and response objects themselves. *)
Record BuiltResponse := {
  built_tasks : list Task;
  built_response : option Response
}.

Record Dispatch := {
  settled : Settled BuiltResponse;
  final : Ctx;
  events : list Event
}.

(** The chained setters of [RouterResponse], on the response object. *)
Definition onOptions (f : ResponseOptions -> ResponseOptions) (c : Ctx) : Ctx :=
  {| request := request c;
     response := {| res_router := res_router (response c);
                    responseOptions := f (responseOptions (response c));
                    locals := locals (response c) |};
     variables := variables c |}.

Definition setMatchedParams (m : Params) (c : Ctx) : Ctx :=
  {| request := {| req_router := req_router (request c);
                   req_url := req_url (request c);
                   req_path := req_path (request c);
                   req_method := req_method (request c);
                   req_headers := req_headers (request c);
                   matchedParams := Some m |};
     response := response c;
     variables := variables c |}.

Section Host.

Variable urlMatch : string -> string -> option Params.
Variable handlers : HandlerId -> FunctionalHandler.

(** [Route.matchesPath] *)
Definition matchesPath (rt : Route) (p : string) : option Params :=
  urlMatch (fixed (path rt)) p.

(** The [for] loop of [getMatchingRoutesByPath] over [this.routes];
    [recur child fillArray] is
    [child.getMatchingRoutesByPath(totalPath, fillArray)]. *)
Fixpoint matchLoop
  (recur : RouterId -> list Matched -> Completion (list Matched))
  (totalPath : string) (rs : list Route) (fillArray : list Matched)
  : Completion (list Matched) :=
  match rs with
  | [] => Normal fillArray
  | rt :: rest =>
      match handler rt with
      | RouterHandler child =>
          match recur child fillArray with
          | Normal fillArray' => matchLoop recur totalPath rest fillArray'
          | Throw e => Throw e
          end
      | FunctionHandler _ =>
          match matchesPath rt totalPath with
          | Some checkMatch =>
              matchLoop recur totalPath rest
                (fillArray ++ [{| route := rt; matchData := checkMatch |}])
          | None =>
              if String.eqb (fixed (path rt)) "*" then
                matchLoop recur totalPath rest
                  (fillArray ++ [{| route := rt; matchData := [] |}])
              else matchLoop recur totalPath rest fillArray
          end
      end
  end.

(** [Router.getMatchingRoutesByPath]; [depth] bounds the call stack. *)
Fixpoint getMatchingRoutesByPath (depth : nat) (w : World) (rid : RouterId)
  (totalPath : string) (fillArray : list Matched)
  : Completion (list Matched) :=
  match depth with
  | 0 => Throw stackOverflow
  | S d =>
      match routers w !! rid with
      | None => Throw typeError
      | Some r =>
          matchLoop
            (fun child fill => getMatchingRoutesByPath d w child totalPath fill)
            totalPath (routes r) fillArray
      end
  end.

(** [Router.getMatchingRoutesByPathAndMethod] *)
Definition getMatchingRoutesByPathAndMethod (depth : nat) (w : World)
  (rid : RouterId) (p : string) (m : string) : Completion (list Matched) :=
  match getMatchingRoutesByPath depth w rid p [] with
  | Throw e => Throw e
  | Normal matchedByPath =>
      Normal (List.filter (fun matched =>
                        existsb (fun compareMethod =>
                                   String.eqb (methodName (method (route matched)))
                                     compareMethod)
                          [m; "ANY"])
                matchedByPath)
  end.

(** [RouterResponse.build] *)
Definition build (w : World) (c : Ctx) : Completion BuiltResponse * Ctx :=
  match routers w !! res_router (response c) with
  | None => (Throw typeError, c)
  | Some r =>
      let o := responseOptions (response c) in
      let '(finalResponse, c') :=
        match customResponseBuilder r with
        | Some builder =>
            let '(v, c') := builder c in (Normal v, c')
        | None =>
            match type o with
            | redirect =>
                match redirectToUrl (redirectInfo o) with
                | Some (String a u) =>
                    (Some <$> construct (host w)
                                (ResponseRedirect (Some (String a u))
                                   (redirectStatusCode (redirectInfo o))),
                     c)
                | _ => (Throw "No redirect URL provided for redirect!", c)
                end
            | normal => (Some <$> construct (host w) (normalResponse o), c)
            | custom =>
                match customResponse o with
                | Some resp => (Normal (Some resp), c)
                | None =>
                    (Throw "Attempted to use custom response but no custom response was set!",
                     c)
                end
            end
        end in
      match finalResponse with
      | Throw e => (Throw e, c')
      | Normal None =>
          (Throw "Error when attempting to return final response, no valid final response value!",
           c')
      | Normal (Some resp) =>
          (Normal {| built_tasks := tasks (responseOptions (response c'));
                     built_response := Some resp |}, c')
      end
  end.

(** [Router.finishResponse] *)
Definition finishResponse (w : World) (rid : RouterId) (c : Ctx)
  : Completion BuiltResponse * Ctx :=
  match build w c with
  | (Throw e, c1) => (Throw e, c1)
  | (Normal builtResponse, c1) =>
      match routers w !! rid with
      | None => (Throw typeError, c1)
      | Some r =>
          match customResponseBuilder r with
          | Some builder =>
              let '(v, c2) := builder c1 in
              (Normal {| built_tasks := built_tasks builtResponse;
                         built_response := v |}, c2)
          | None => (Normal builtResponse, c1)
          end
      end
  end.

(** [Router.executeMiddleware] *)
Definition executeMiddleware (middleware : Route) (c : Ctx)
  : Settled bool * Ctx * list Event :=
  match handler middleware with
  | FunctionHandler f =>
      let h := handlers f in
      let hasNextCallback := arity h =? 3 in
      if hasNextCallback then
        let run := invoke h c in
        (match calledNext run with
         | Some proceed => Resolved (default true proceed)
         | None => Pending
         end, after run, [HandlerCall f])
      else
        (* [await (async () => handler(routerRequest, routerResponse))]
           awaits the arrow function itself, which is never called *)
        (Resolved true, c, [])
  | RouterHandler _ => (Resolved true, c, [])
  end.

(** The loop of [processRequest] over [middlewareMatches]; a rejection
    is caught and, being an [Error], ends the loop. *)
Fixpoint runMiddlewares (ms : list Matched) (c : Ctx) (log : list Event)
  : Settled bool * Ctx * list Event :=
  match ms with
  | [] => (Resolved true, c, log)
  | m :: rest =>
      let '(middlewareSuccess, c', called) :=
        executeMiddleware (route m) c in
      let log' := log ++ ChainStep (route m) :: called in
      match middlewareSuccess with
      | Resolved true => runMiddlewares rest c' log'
      | Resolved false => (Resolved false, c', log')
      | Rejected e => (Resolved false, c', log')
      | Pending => (Pending, c', log')
      end
  end.

Definition settle (r : Completion BuiltResponse * Ctx) (log : list Event)
  : Dispatch :=
  {| settled := match fst r with
                | Normal a => Resolved a
                | Throw e => Rejected e
                end;
     final := snd r;
     events := log |}.

(** [Router.processRequest] *)
Definition processRequest (depth : nat) (w : World) (rid : RouterId) (c : Ctx)
  : Dispatch :=
  match getMatchingRoutesByPath depth w rid (req_path (request c)) [] with
  | Throw e => {| settled := Rejected e; final := c; events := [] |}
  | Normal foundMatchingRoutes =>
      let middlewareMatches :=
        List.filter (fun m => match handler (route m) with
                         | RouterHandler _ => false
                         | FunctionHandler _ => true
                         end)
          (List.filter (fun m => isMiddleware (route m)) foundMatchingRoutes) in
      let responseMatch :=
        List.hd_error
          (List.filter (fun m => negb (isMiddleware (route m)))
             foundMatchingRoutes) in
      match responseMatch with
      | None =>
          settle
            (finishResponse w rid
               (onOptions (text "Error 404 - not found!")
                  (onOptions (setStatus "Not found")
                     (onOptions (setStatusCode 404) c))))
            []
      | Some responseMatch =>
          match handler (route responseMatch) with
          | RouterHandler _ =>
              {| settled :=
                   Rejected ("Response handler for route "
                             +:+ req_method (request c) +:+ " "
                             +:+ req_path (request c));
                 final := c; events := [] |}
          | FunctionHandler f =>
              match runMiddlewares middlewareMatches c [] with
              | (Pending, c2, log) =>
                  {| settled := Pending; final := c2; events := log |}
              | (Rejected e, c2, log) =>
                  {| settled := Rejected e; final := c2; events := log |}
              | (Resolved false, c2, log) =>
                  settle (finishResponse w rid c2) log
              | (Resolved true, c2, log) =>
                  let c3 := setMatchedParams (matchData responseMatch) c2 in
                  let run := invoke (handlers f) c3 in
                  let log' := log ++ [HandlerCall f] in
                  match ended run with
                  | Rejected e =>
                      {| settled := Rejected e; final := after run;
                         events := log' |}
                  | Pending =>
                      {| settled := Pending; final := after run;
                         events := log' |}
                  | Resolved _ =>
                      settle (finishResponse w rid (after run)) log'
                  end
              end
          end
      end
  end.

(** [new RouterRequest(router, rawRequest)] *)
Definition newRouterRequest (pathname : string -> option string)
  (rid : RouterId) (rawRequest : IncomingRequest) : Completion RouterRequest :=
  let url := fixRequestUrl (in_url rawRequest) in
  match pathname url with
  | None => Throw "TypeError: Invalid URL"
  | Some p =>
      Normal {| req_router := rid;
                req_url := url;
                req_path := p;
                req_method :=
                  JsCase.toUpperCase
                    (if String.eqb (in_method rawRequest) "" then "GET"
                     else in_method rawRequest);
                req_headers := parseHeaders (in_headers rawRequest);
                matchedParams := None |}
  end.

(** [new RouterResponse(router, routerRequest)] *)
Definition newRouterResponse (rid : RouterId) : RouterResponse :=
  {| res_router := rid;
     responseOptions := initialResponseOptions;
     locals := ∅ |}.

(** [Router.serveRequest].  It changes no router; the variables of the
    program after the dispatch are those of its [final] objects. *)
Definition serveRequest (pathname : string -> option string) (depth : nat)
  (w : World) (rid : RouterId) (request : IncomingRequest) : Dispatch :=
  match newRouterRequest pathname rid request with
  | Throw e =>
      {| settled := Rejected e;
         final := {| request :=
                       {| req_router := rid; req_url := ""; req_path := "";
                          req_method := ""; req_headers := ∅;
                          matchedParams := None |};
                     response := newRouterResponse rid;
                     variables := programVariables w |};
         events := [] |}
  | Normal routerRequest =>
      processRequest depth w rid
        {| request := routerRequest; response := newRouterResponse rid;
           variables := programVariables w |}
  end.

End Host.

End Legacy.

(* ===================================================================== *)
(** ** A small host for the examples *)
(* ===================================================================== *)

(** Stand-ins for the pieces of the host that the router calls, for the
    inputs of the examples: a matcher for the patterns that are literal
    text with an optional final [*] (what url-pattern does on such
    patterns, the wildcard text being reported under ["_"]);
    [new URL(url).pathname] for the URLs of one origin; the two refusals
    of [new UrlPattern] that do not depend on the pattern language (the
    empty string, whitespace); and the checks of the Fetch standard on
    the status of a response and on the target of a redirect. *)
Module ExampleHost.

Fixpoint urlMatch (pattern p : string) : option Params :=
  match pattern with
  | EmptyString => match p with EmptyString => Some [] | _ => None end
  | String c rest =>
      if Ascii.eqb c "*" && String.eqb rest "" then Some [("_", p)]
      else match p with
           | EmptyString => None
           | String d q => if Ascii.eqb c d then urlMatch rest q else None
           end
  end.

Definition origin : string := "https://x".

Definition pathname (url : string) : option string :=
  if JsString.startsWith url origin then
    let rest := JsString.slice url (String.length origin) (String.length url) in
    Some (match String.index 0 "?" rest with
          | Some i => JsString.slice rest 0 i
          | None => rest
          end)
  else None.

Fixpoint hasSpace (s : string) : bool :=
  match s with
  | EmptyString => false
  | String c r => Ascii.eqb c " " || hasSpace r
  end.

Definition patternError (path : string) : option Error :=
  if String.eqb path "" then Some "argument must not be the empty string"
  else if hasSpace path then Some "argument must not contain whitespace"
  else None.

Definition responseError (resp : Response) : option Error :=
  match resp with
  | NewResponse body status _ _ =>
      if (status <? 200)%Z || (599 <? status)%Z
      then Some "RangeError: The status provided is outside the range [200, 599]."
      else if bool_decide (is_Some body)
              && existsb (Z.eqb status) [204; 205; 304]%Z
      then Some "TypeError: Response with null body status cannot have body"
      else None
  | ResponseRedirect url status =>
      match url ≫= pathname with
      | None => Some "TypeError: Invalid URL"
      | Some _ =>
          if existsb (Z.eqb (default 302%Z status)) [301; 302; 303; 307; 308]%Z
          then None
          else Some "RangeError: Invalid status code"
      end
  | HostResponse _ => None
  end.

Definition host : Host := Build_Host patternError responseError.

(** The program on this host before it has created a router. *)
Definition world : Tree.World := Tree.emptyWorld host.
Definition legacyWorld : Legacy.World := Legacy.emptyWorld host.

End ExampleHost.

(* ===================================================================== *)
(** ** Vocabulary of the properties *)
(* ===================================================================== *)

Module Spec.

(** What a match says about the route it selected, leaving out which
    router object owns the route and the registration index: method,
    compiled path, handler, middleware flag and matched parameters. *)
Definition selected (m : Tree.MatchingRoute)
  : Methods * string * Tree.RouteHandler * bool * option Params :=
  (Tree.method (Tree.route m), Tree.fixedPath (Tree.path (Tree.route m)),
   Tree.handler (Tree.route m), Tree.isMiddleware (Tree.route m),
   Tree.matchData m).

(** The match outcome of a request at a router: the routes found, in
    the order of discovery (the first one that is no middleware is the
    route that answers). *)
Definition matchOutcome (urlMatch : string -> string -> option Params)
  (depth : nat) (w : Tree.World) (rid : Tree.RouterId)
  (req : Tree.RouterRequest) :=
  match Tree.findMatchingRoutes urlMatch depth w rid req with
  | Normal l => Normal (map selected l)
  | Throw e => Throw e
  end.

Definition legacySelected (m : Legacy.Matched)
  : Methods * string * Legacy.RouteHandler * bool * Params :=
  (Legacy.method (Legacy.route m), Legacy.fixed (Legacy.path (Legacy.route m)),
   Legacy.handler (Legacy.route m), Legacy.isMiddleware (Legacy.route m),
   Legacy.matchData m).

Definition legacyMatchOutcome (urlMatch : string -> string -> option Params)
  (depth : nat) (w : Legacy.World) (rid : Legacy.RouterId) (p : string) :=
  match Legacy.getMatchingRoutesByPath urlMatch depth w rid p [] with
  | Normal l => Normal (map legacySelected l)
  | Throw e => Throw e
  end.

(** [root.use("/api", sub); sub.<method>("/time", h)] and
    [root.<method>("/api/time", h)] on fresh routers, in the documented
    revision, in [src/router] and in the legacy router. *)
Definition mountedApiTime (m : Methods) (h : Tree.HandlerId)
  : Tree.M Tree.RouterId :=
  root ← Unnamed.newRouter Tree.noOptions;
  sub ← Unnamed.newRouter Tree.noOptions;
  Unnamed.use root (Tree.UsePath "/api" (Tree.RouterHandler sub));;
  Tree.addFor m sub "/time" (Tree.FunctionHandler h);;
  mret root.

Definition directApiTime (m : Methods) (h : Tree.HandlerId)
  : Tree.M Tree.RouterId :=
  root ← Unnamed.newRouter Tree.noOptions;
  Tree.addFor m root "/api/time" (Tree.FunctionHandler h);;
  mret root.

Definition mountedApiTimeRouterDir (m : Methods) (h : Tree.HandlerId)
  : Tree.M Tree.RouterId :=
  root ← RouterDir.newRouter Tree.noOptions;
  sub ← RouterDir.newRouter Tree.noOptions;
  RouterDir.use root (Tree.UsePath "/api" (Tree.RouterHandler sub));;
  Tree.addFor m sub "/time" (Tree.FunctionHandler h);;
  mret root.

Definition legacyMountedApiTime (m : Methods) (h : Legacy.HandlerId)
  : Legacy.M Legacy.RouterId :=
  root ← Legacy.newRouter;
  sub ← Legacy.newRouter;
  Legacy.use 2 root (Legacy.UsePath "/api" (Legacy.RouterHandler sub));;
  Legacy.addPathHandler sub m "/time" (Legacy.FunctionHandler h) None;;
  mret root.

Definition legacyDirectApiTime (m : Methods) (h : Legacy.HandlerId)
  : Legacy.M Legacy.RouterId :=
  root ← Legacy.newRouter;
  Legacy.addPathHandler root m "/api/time" (Legacy.FunctionHandler h) None;;
  mret root.

(** The routers reachable from [rid] through mounts form a tree of
    height at most [n] (no router is mounted below itself). *)
Inductive Ranked (w : Tree.World) : nat -> Tree.RouterId -> Prop :=
| ranked_router (n : nat) (rid : Tree.RouterId) (r : Tree.Router) :
    Tree.routers w !! rid = Some r ->
    (forall rt, In rt (Tree.routes r) ->
       Tree.isHandlerRouter rt = true ->
       exists child, Tree.handler rt = Tree.RouterHandler child) ->
    (forall rt child, In rt (Tree.routes r) ->
       Tree.handler rt = Tree.RouterHandler child ->
       Ranked w n child) ->
    Ranked w (S n) rid.

Inductive LegacyRanked (w : Legacy.World) : nat -> Legacy.RouterId -> Prop :=
| legacy_ranked_router (n : nat) (rid : Legacy.RouterId) (r : Legacy.Router) :
    Legacy.routers w !! rid = Some r ->
    (forall rt child, In rt (Legacy.routes r) ->
       Legacy.handler rt = Legacy.RouterHandler child ->
       LegacyRanked w n child) ->
    LegacyRanked w (S n) rid.

(** No router refers to a main router: the field [mainRouter] of every
    router is [null]. *)
Definition NoMainRef (w : Tree.World) : Prop :=
  forall rid r, Tree.routers w !! rid = Some r -> Tree.mainRouter r = None.

(** The call [c] keeps [NoMainRef], and what it returns satisfies [Q]. *)
Definition keeps {A} (c : Tree.M A) (Q : A -> Prop) : Prop :=
  forall w, NoMainRef w ->
    NoMainRef (snd (c w)) /\ forall a, fst (c w) = Normal a -> Q a.

(** The response options after the three setters that the legacy router
    calls when no route answers:
    [statusCode(404).status("Not found").text("Error 404 - not found!")]. *)
Definition notFound (o : ResponseOptions) : ResponseOptions :=
  text "Error 404 - not found!" (setStatus "Not found" (setStatusCode 404 o)).

(** The entry that the legacy walk adds for a route whose fixed path is
    "*": the result of its pattern when it matches, the empty object if
    not. *)
Definition starEntry (urlMatch : string -> string -> option Params)
  (totalPath : string) (rt : Legacy.Route) : Legacy.Matched :=
  {| Legacy.route := rt;
     Legacy.matchData := default [] (urlMatch "*" totalPath) |}.

(** The route [rt] belongs to the router [rid] or to a router mounted
    below it. *)
Inductive LegacyReach (w : Legacy.World) : Legacy.RouterId -> Legacy.Route -> Prop :=
| legacy_reach_here (rid : Legacy.RouterId) (r : Legacy.Router)
    (rt : Legacy.Route) :
    Legacy.routers w !! rid = Some r -> In rt (Legacy.routes r) ->
    LegacyReach w rid rt
| legacy_reach_below (rid child : Legacy.RouterId) (r : Legacy.Router)
    (mount rt : Legacy.Route) :
    Legacy.routers w !! rid = Some r -> In mount (Legacy.routes r) ->
    Legacy.handler mount = Legacy.RouterHandler child ->
    LegacyReach w child rt ->
    LegacyReach w rid rt.

(** The middleware routes whose chain step was started, in order. *)
Definition chainSteps (es : list Tree.Event) : list Tree.Route :=
  omap (fun e => match e with
                 | Tree.ChainStep r => Some r
                 | Tree.HandlerCall _ => None
                 end) es.

(** The handler functions that were called, in order. *)
Definition handlerCalls (es : list Tree.Event) : list Tree.HandlerId :=
  omap (fun e => match e with
                 | Tree.ChainStep _ => None
                 | Tree.HandlerCall f => Some f
                 end) es.

Definition legacyChainSteps (es : list Legacy.Event) : list Legacy.Route :=
  omap (fun e => match e with
                 | Legacy.ChainStep r => Some r
                 | Legacy.HandlerCall _ => None
                 end) es.

Definition legacyHandlerCalls (es : list Legacy.Event)
  : list Legacy.HandlerId :=
  omap (fun e => match e with
                 | Legacy.ChainStep _ => None
                 | Legacy.HandlerCall f => Some f
                 end) es.

End Spec.

(* ===================================================================== *)
(** ** Example programs *)
(* ===================================================================== *)

Module Examples.
Import Tree.

(** [GET https://x<p>] *)
Definition incoming (p : string) : IncomingRequest :=
  {| in_url := ExampleHost.origin +:+ p; in_method := "GET";
     in_headers := [] |}.

Definition withLocals (l : gmap string string) (c : Ctx) : Ctx :=
  {| request := request c;
     response := {| responseOptions := responseOptions (response c);
                    res_matchedRoute := res_matchedRoute (response c);
                    locals := Some l |};
     variables := variables c |}.

Definition onOptions (f : ResponseOptions -> ResponseOptions) (c : Ctx) : Ctx :=
  {| request := request c;
     response := {| responseOptions := f (responseOptions (response c));
                    res_matchedRoute := res_matchedRoute (response c);
                    locals := locals (response c) |};
     variables := variables c |}.

Definition setVariable (name : string) (value : Z) (c : Ctx) : Ctx :=
  {| request := request c; response := response c;
     variables := <[name := value]> (variables c) |}.

(** [(req, res, ..., next) => { res.locals[key] = "yes"; next(); }] with
    [n] declared parameters.  On a response without [locals] the
    assignment throws a [TypeError] and [next] is not reached. *)
Definition mark (n : nat) (key : string) : FunctionalHandler :=
  {| arity := n;
     invoke := fun c =>
       match locals (response c) with
       | Some l => {| after := withLocals (assign key "yes" l) c;
                      calledNext := Some None;
                      ended := Resolved tt |}
       | None => {| after := c; calledNext := None;
                    ended := Rejected typeError |}
       end |}.

(** [(req, res, ..., next) => next()] with [n] declared parameters *)
Definition pass (n : nat) : FunctionalHandler :=
  {| arity := n;
     invoke := fun c => {| after := c; calledNext := Some None;
                           ended := Resolved tt |} |}.

(** [(req, res) => res.text(t)] *)
Definition answer (t : string) : FunctionalHandler :=
  {| arity := 2;
     invoke := fun c => {| after := onOptions (text t) c;
                           calledNext := None;
                           ended := Resolved tt |} |}.

(** [(req, res, ..., next) => { throw new Error("boom"); }] with [n]
    declared parameters *)
Definition failing (n : nat) : FunctionalHandler :=
  {| arity := n;
     invoke := fun c => {| after := c; calledNext := None;
                           ended := Rejected "boom" |} |}.

(** [(req, res) => { res.locals[key] = "yes"; }] *)
Definition touch (key : string) : FunctionalHandler :=
  {| arity := 2;
     invoke := fun c =>
       match locals (response c) with
       | Some l => {| after := withLocals (assign key "yes" l) c;
                      calledNext := None;
                      ended := Resolved tt |}
       | None => {| after := c; calledNext := None;
                    ended := Rejected typeError |}
       end |}.

(** [(req, res, next) => next(false)] *)
Definition refuse : FunctionalHandler :=
  {| arity := 3;
     invoke := fun c => {| after := c; calledNext := Some (Some false);
                           ended := Resolved tt |} |}.

(** [(req, res) => res.text(res.locals.hasTouched ? "yes" : "no")] *)
Definition reportTouched : FunctionalHandler :=
  {| arity := 2;
     invoke := fun c =>
       match locals (response c) with
       | Some l =>
           {| after := onOptions
                         (text (if bool_decide (is_Some (l !! "hasTouched"))
                                then "yes" else "no")) c;
              calledNext := None;
              ended := Resolved tt |}
       | None => {| after := c; calledNext := None;
                    ended := Rejected typeError |}
       end |}.

(** [(req, res) => res.redirectTo("https://x/new", 301)] *)
Definition redirecting : FunctionalHandler :=
  {| arity := 2;
     invoke := fun c =>
       {| after := onOptions (redirectTo "https://x/new" (Some 301%Z)) c;
          calledNext := None;
          ended := Resolved tt |} |}.

(** [(req, res) => res.redirectTo("/new", 301)]: a target that the host
    cannot parse on its own *)
Definition redirectingRelative : FunctionalHandler :=
  {| arity := 2;
     invoke := fun c =>
       {| after := onOptions (redirectTo "/new" (Some 301%Z)) c;
          calledNext := None;
          ended := Resolved tt |} |}.

(** [(req, res) => res.json([true])] *)
Definition answerJson : FunctionalHandler :=
  {| arity := 2;
     invoke := fun c => {| after := onOptions (json "[true]") c;
                           calledNext := None;
                           ended := Resolved tt |} |}.

(** The handler functions of the examples, by number. *)
Definition handlers (f : HandlerId) : FunctionalHandler :=
  match f with
  | 0 => answer "done"
  | 1 => pass 4
  | 2 => pass 4
  | 3 => touch "hasTouched"
  | 4 => failing 2
  | 5 => mark 3 "first"
  | 6 => mark 3 "second"
  | 7 => failing 3
  | 8 => refuse
  | 9 => reportTouched
  | 10 => redirecting
  | 11 => answerJson
  | 12 => mark 3 "hasTouched"
  | 13 => redirectingRelative
  | _ => answer "other"
  end.

(** The program of the end-to-end scenarios:
    [router.get("/", ...); router.use("/api", api);
     api.get("/time", ...); router.use("/*", touch);
     router.get("/has-touched", ...); router.get("/old", ...)]. *)
Definition site : M RouterId :=
  root ← Unnamed.newRouter noOptions;
  api ← Unnamed.newRouter noOptions;
  get root "/" (FunctionHandler 0);;
  Unnamed.use root (UsePath "/api" (RouterHandler api));;
  get api "/time" (FunctionHandler 11);;
  Unnamed.use root (UsePath "/*" (FunctionHandler 12));;
  get root "/has-touched" (FunctionHandler 9);;
  get root "/old" (FunctionHandler 10);;
  mret root.

(** [router.use("/*", a); router.use("/*", b); router.get("/a", h)] in
    [src/router] *)
Definition twoMiddlewaresRouterDir (a b h : HandlerId) : M RouterId :=
  root ← RouterDir.newRouter noOptions;
  RouterDir.use root (UsePath "/*" (FunctionHandler a));;
  RouterDir.use root (UsePath "/*" (FunctionHandler b));;
  get root "/a" (FunctionHandler h);;
  mret root.

(** The same program in the documented revision. *)
Definition twoMiddlewares (a b h : HandlerId) : M RouterId :=
  root ← Unnamed.newRouter noOptions;
  Unnamed.use root (UsePath "/*" (FunctionHandler a));;
  Unnamed.use root (UsePath "/*" (FunctionHandler b));;
  get root "/a" (FunctionHandler h);;
  mret root.

(** [sub.use("/*", a); root.use("/*", b); root.use("/api", sub);
     sub.get("/a", h)]: the walk finds [b] before [a], [a] was registered
    first. *)
Definition nestedMiddlewares (a b h : HandlerId) : M RouterId :=
  root ← Unnamed.newRouter noOptions;
  sub ← Unnamed.newRouter noOptions;
  Unnamed.use root (UsePath "/unused" (FunctionHandler h));;
  Unnamed.use sub (UsePath "/*" (FunctionHandler a));;
  Unnamed.use root (UsePath "/*" (FunctionHandler b));;
  Unnamed.use root (UsePath "/api" (RouterHandler sub));;
  get sub "/a" (FunctionHandler h);;
  mret root.

(** [router.use("/*", mw); router.get("/a", h)] *)
Definition oneMiddleware (mw h : HandlerId) : M RouterId :=
  root ← Unnamed.newRouter noOptions;
  Unnamed.use root (UsePath "/*" (FunctionHandler mw));;
  get root "/a" (FunctionHandler h);;
  mret root.

(** [router.get("/a", h)] *)
Definition oneRoute (h : HandlerId) : M RouterId :=
  root ← Unnamed.newRouter noOptions;
  get root "/a" (FunctionHandler h);;
  mret root.

(** [root.use("/api", sub)] *)
Definition rootAndSub : M (RouterId * RouterId) :=
  root ← Unnamed.newRouter noOptions;
  sub ← Unnamed.newRouter noOptions;
  Unnamed.use root (UsePath "/api" (RouterHandler sub));;
  get sub "/a" (FunctionHandler 0);;
  mret (root, sub).

Definition rootAndSubRouterDir : M (RouterId * RouterId) :=
  root ← RouterDir.newRouter noOptions;
  sub ← RouterDir.newRouter noOptions;
  RouterDir.use root (UsePath "/api" (RouterHandler sub));;
  get sub "/a" (FunctionHandler 0);;
  mret (root, sub).

(** A response builder that counts its calls in a variable of its own
    and leaves the objects that it receives alone:
    [let calls = 0; r => new Response(null, { status: 200 + calls++ })].
    The response is its own, made where the host makes it. *)
Definition countingBuilder : ResponseBuilder :=
  fun c =>
    let calls := default 0%Z (variables c !! "calls") in
    (Some (NewResponse None (200 + calls) "" ∅),
     setVariable "calls" (calls + 1) c).

End Examples.

Module LegacyExamples.
Import Legacy.

Definition onLocals (f : gmap string string -> gmap string string) (c : Ctx)
  : Ctx :=
  {| request := request c;
     response := {| res_router := res_router (response c);
                    responseOptions := responseOptions (response c);
                    locals := f (locals (response c)) |};
     variables := variables c |}.

Definition setVariable (name : string) (value : Z) (c : Ctx) : Ctx :=
  {| request := request c; response := response c;
     variables := <[name := value]> (variables c) |}.

Definition mark (n : nat) (key : string) : FunctionalHandler :=
  {| arity := n;
     invoke := fun c => {| after := onLocals (assign key "yes") c;
                           calledNext := Some None;
                           ended := Resolved tt |} |}.

Definition answer (t : string) : FunctionalHandler :=
  {| arity := 2;
     invoke := fun c => {| after := onOptions (text t) c;
                           calledNext := None;
                           ended := Resolved tt |} |}.

Definition failing (n : nat) : FunctionalHandler :=
  {| arity := n;
     invoke := fun c => {| after := c; calledNext := None;
                           ended := Rejected "boom" |} |}.

Definition touch (key : string) : FunctionalHandler :=
  {| arity := 2;
     invoke := fun c => {| after := onLocals (assign key "yes") c;
                           calledNext := None;
                           ended := Resolved tt |} |}.

Definition refuse : FunctionalHandler :=
  {| arity := 3;
     invoke := fun c => {| after := c; calledNext := Some (Some false);
                           ended := Resolved tt |} |}.

Definition handlers (f : HandlerId) : FunctionalHandler :=
  match f with
  | 0 => answer "done"
  | 3 => touch "hasTouched"
  | 4 => failing 2
  | 5 => mark 3 "first"
  | 6 => mark 3 "second"
  | 7 => failing 3
  | 8 => refuse
  | _ => answer "other"
  end.

(** [router.use("/*", a); router.use("/*", b); router.get("/a", h)] *)
Definition twoMiddlewares (a b h : HandlerId) : M RouterId :=
  root ← newRouter;
  use 1 root (UsePath "/*" (FunctionHandler a));;
  use 1 root (UsePath "/*" (FunctionHandler b));;
  get root "/a" (FunctionHandler h);;
  mret root.

(** [router.get("/a", h)] *)
Definition oneRoute (h : HandlerId) : M RouterId :=
  root ← newRouter;
  get root "/a" (FunctionHandler h);;
  mret root.

(** [router.get("*", h)] *)
Definition starRoute (h : HandlerId) : M RouterId :=
  root ← newRouter;
  get root "*" (FunctionHandler h);;
  mret root.

(** [let calls = 0; r => new Response(null, { status: 200 + calls++ })] *)
Definition countingBuilder : ResponseBuilder :=
  fun c =>
    let calls := default 0%Z (variables c !! "calls") in
    (Some (NewResponse None (200 + calls) "" ∅),
     setVariable "calls" (calls + 1) c).

(** A router with a response builder and [router.get("/a", h)]. *)
Definition withBuilder (b : ResponseBuilder) (h : HandlerId) : M RouterId :=
  root ← newRouter;
  setCustomResponseBuilder root (Some b);;
  get root "/a" (FunctionHandler h);;
  mret root.

(** The request and response objects of a new request for [p]. *)
Definition fresh (rid : RouterId) (p : string) : Ctx :=
  {| request := {| req_router := rid; req_url := ExampleHost.origin +:+ p;
                   req_path := p; req_method := "GET"; req_headers := ∅;
                   matchedParams := None |};
     response := newRouterResponse rid;
     variables := ∅ |}.

End LegacyExamples.

(* ===================================================================== *)
(** ** Vocabulary for the properties of the route walks *)
(* ===================================================================== *)

Module Walk.

(** The route [rt] belongs to the router [rid], or to a router that a
    route of [rid] mounts, and so on downwards. *)
Inductive Reach (w : Tree.World) : Tree.RouterId -> Tree.Route -> Prop :=
| reach_here (rid : Tree.RouterId) (r : Tree.Router) (rt : Tree.Route) :
    Tree.routers w !! rid = Some r -> In rt (Tree.routes r) ->
    Reach w rid rt
| reach_below (rid child : Tree.RouterId) (r : Tree.Router)
    (mount rt : Tree.Route) :
    Tree.routers w !! rid = Some r -> In mount (Tree.routes r) ->
    Tree.isHandlerRouter mount = true ->
    Tree.handler mount = Tree.RouterHandler child ->
    Reach w child rt ->
    Reach w rid rt.

(** The entry that [findMatchingRoutes] pushes for a route: the route
    with the result of its pattern on the path of the request. *)
Definition entry (urlMatch : string -> string -> option Params)
  (req : Tree.RouterRequest) (rt : Tree.Route) : Tree.MatchingRoute :=
  {| Tree.route := rt;
     Tree.matchData :=
       urlMatch (Tree.fixedPath (Tree.path rt)) (Tree.req_path req) |}.

(** The route takes the request: its pattern matches the path, and its
    method is "ANY" or the method of the request, letter case aside. *)
Definition accepts (urlMatch : string -> string -> option Params)
  (req : Tree.RouterRequest) (rt : Tree.Route) : Prop :=
  is_Some (urlMatch (Tree.fixedPath (Tree.path rt)) (Tree.req_path req))
  /\ (Tree.method rt = ANY
      \/ methodName (Tree.method rt)
         = JsCase.toUpperCase (Tree.req_method req)).

(** What one route of the loop of [findMatchingRoutes] adds to the
    array, [recur child] being the walk of the router [child]. *)
Definition contributes (urlMatch : string -> string -> option Params)
  (req : Tree.RouterRequest)
  (recur : Tree.RouterId -> Completion (list Tree.MatchingRoute))
  (rt : Tree.Route) (m : Tree.MatchingRoute) : Prop :=
  if Tree.isHandlerRouter rt then
    exists child sub,
      Tree.handler rt = Tree.RouterHandler child
      /\ recur child = Normal sub /\ In m sub
  else accepts urlMatch req rt /\ m = entry urlMatch req rt.

(** The entry that the legacy walk pushes for a route on a path: the
    result of the pattern, or the empty object for the pattern "*" when
    the pattern itself does not match. *)
Definition legacyEntry (urlMatch : string -> string -> option Params)
  (totalPath : string) (rt : Legacy.Route) : option Legacy.Matched :=
  match urlMatch (Legacy.fixed (Legacy.path rt)) totalPath with
  | Some checkMatch =>
      Some {| Legacy.route := rt; Legacy.matchData := checkMatch |}
  | None =>
      if String.eqb (Legacy.fixed (Legacy.path rt)) "*"
      then Some {| Legacy.route := rt; Legacy.matchData := [] |}
      else None
  end.

(** What one route of the loop of [getMatchingRoutesByPath] adds to the
    array, [recur child []] being the walk of the router [child]. *)
Definition legacyContributes (urlMatch : string -> string -> option Params)
  (totalPath : string)
  (recur : Legacy.RouterId -> list Legacy.Matched
           -> Completion (list Legacy.Matched))
  (rt : Legacy.Route) (m : Legacy.Matched) : Prop :=
  match Legacy.handler rt with
  | Legacy.RouterHandler child =>
      exists sub, recur child [] = Normal sub /\ In m sub
  | Legacy.FunctionHandler _ => legacyEntry urlMatch totalPath rt = Some m
  end.

(** A recursive walk only appends to the array it is given. *)
Definition appends (recur : Legacy.RouterId -> list Legacy.Matched
                            -> Completion (list Legacy.Matched)) : Prop :=
  forall child acc,
    recur child acc
    = match recur child [] with
      | Normal l => Normal (acc ++ l)
      | Throw e => Throw e
      end.

End Walk.

(* ===================================================================== *)
(** ** Vocabulary for the properties of registration *)
(* ===================================================================== *)

Module Registration.

(** The world with another value of the counter [lastRouteIndex]. *)
Definition withLastRouteIndex (n : nat) (w : Tree.World) : Tree.World :=
  {| Tree.routers := Tree.routers w;
     Tree.lastRouteIndex := n;
     Tree.nextRouter := Tree.nextRouter w;
     Tree.programVariables := Tree.programVariables w;
     Tree.host := Tree.host w |}.

(** The world with the router [rid] replaced by [r]. *)
Definition withRouter (rid : Tree.RouterId) (r : Tree.Router)
  (w : Tree.World) : Tree.World :=
  {| Tree.routers := <[rid := r]> (Tree.routers w);
     Tree.lastRouteIndex := Tree.lastRouteIndex w;
     Tree.nextRouter := Tree.nextRouter w;
     Tree.programVariables := Tree.programVariables w;
     Tree.host := Tree.host w |}.

(** The route that [new Route(router, options)] builds at a router with
    base path [b] when the route gets the index [index]. *)
Definition builtRoute (rid : Tree.RouterId) (b : string) (index : nat)
  (o : Tree.RouteOptions) : Tree.Route :=
  {| Tree.router := rid;
     Tree.method := Tree.opt_method o;
     Tree.path := {| Tree.inputPath := Tree.opt_path o;
                     Tree.fixedPath := Paths.fixPath b (Tree.opt_path o) |};
     Tree.handler := Tree.opt_handler o;
     Tree.isMiddleware := Tree.opt_isMiddleware o;
     Tree.isHandlerRouter :=
       match Tree.opt_handler o with
       | Tree.RouterHandler _ => true
       | Tree.FunctionHandler _ => false
       end;
     Tree.routeIndex := index |}.

(** The index that the constructor of [Route] takes for given options,
    and the counter afterwards: [options.routeIndex || lastRouteIndex++]. *)
Definition takenIndex (o : Tree.RouteOptions) (counter : nat) : nat * nat :=
  match Tree.opt_routeIndex o with
  | Some (S n) => (S n, counter)
  | _ => (counter, S counter)
  end.

(** [new] is [old] made again at the router [rid] under the base path
    [b]: same method, handler, middleware flag and input path, the fixed
    path computed anew, the index kept unless it was 0, in which case it
    is a fresh one from the counter range [lo, hi). *)
Definition rebased (rid : Tree.RouterId) (b : string) (lo hi : nat)
  (old new : Tree.Route) : Prop :=
  Tree.router new = rid
  /\ Tree.method new = Tree.method old
  /\ Tree.handler new = Tree.handler old
  /\ Tree.isMiddleware new = Tree.isMiddleware old
  /\ Tree.inputPath (Tree.path new) = Tree.inputPath (Tree.path old)
  /\ Tree.fixedPath (Tree.path new)
     = Paths.fixPath b (Tree.inputPath (Tree.path old))
  /\ (Tree.routeIndex old <> 0 -> Tree.routeIndex new = Tree.routeIndex old)
  /\ (Tree.routeIndex old = 0 -> lo <= Tree.routeIndex new < hi).


(** The fixed path that the legacy constructor of [Route] computes at a
    router with base path [b]: [fixUsePath] for a middleware route,
    [fixHandlerPath] for any other. *)
Definition legacyFixed (b : option string) (isMiddleware : bool)
  (rawInput : string) : string :=
  if isMiddleware then Paths.fixUsePath b rawInput
  else Paths.fixHandlerPath b rawInput.

(** Every router has in [w'] the base path it has in [w]. *)
Definition sameBases (w w' : Legacy.World) : Prop :=
  forall x, Legacy.basePath <$> Legacy.routers w' !! x
            = Legacy.basePath <$> Legacy.routers w !! x.

(** The fixed path of the route is the one its router computes from the
    raw input under the base path [b]. *)
Definition upToDate (b : option string) (rt : Legacy.Route) : Prop :=
  Legacy.fixed (Legacy.path rt)
  = legacyFixed b (Legacy.isMiddleware rt) (Legacy.rawInput (Legacy.path rt)).

(** The route that [refreshRoutes] puts in the place of [old] at the
    router [rid] with base path [b]: [new Route(this, { handler, method,
    inputPath: oldRoute.path.rawInput, isMiddleware })]. *)
Definition remade (rid : Legacy.RouterId) (b : option string)
  (old : Legacy.Route) : Legacy.Route :=
  {| Legacy.router := rid;
     Legacy.handler := Legacy.handler old;
     Legacy.method := Legacy.method old;
     Legacy.isMiddleware := Legacy.isMiddleware old;
     Legacy.path :=
       {| Legacy.rawInput := Legacy.rawInput (Legacy.path old);
          Legacy.fixed :=
            legacyFixed b (Legacy.isMiddleware old)
              (Legacy.rawInput (Legacy.path old)) |} |}.

(** The legacy router has no mounted router among its routes. *)
Definition flat (r : Legacy.Router) : Prop :=
  Forall (fun rt => Legacy.isMiddleware rt = true ->
                    exists g, Legacy.handler rt = Legacy.FunctionHandler g)
    (Legacy.routes r).

End Registration.

(* ===================================================================== *)
(** ** More setters of [RouterResponse] *)
(* ===================================================================== *)

(** [src/RouterResponse.ts] *)
Module LegacyResponse.

(** [redirect(redirectUrl, statusCode = 302)] *)
Definition redirect (redirectUrl : string) (code : option Z)
  (o : ResponseOptions) : ResponseOptions :=
  {| type := redirect; status := status o;
     statusCode := statusCode o; headers := headers o; cookies := cookies o;
     tasks := tasks o; body := body o;
     redirectInfo := {| redirectToUrl := Some redirectUrl;
                        redirectStatusCode := Some (default 302%Z code) |};
     customResponse := customResponse o |}.

(** [setCustomResponse(response)] *)
Definition setCustomResponse (response : Response) (o : ResponseOptions)
  : ResponseOptions :=
  {| type := custom; status := status o; statusCode := statusCode o;
     headers := headers o; cookies := cookies o; tasks := tasks o;
     body := body o; redirectInfo := redirectInfo o;
     customResponse := Some response |}.

(** [addTask(task)], with one task or an array of tasks *)
Definition addTask (ts : list Task) (o : ResponseOptions) : ResponseOptions :=
  {| type := type o; status := status o; statusCode := statusCode o;
     headers := headers o; cookies := cookies o; tasks := tasks o ++ ts;
     body := body o; redirectInfo := redirectInfo o;
     customResponse := customResponse o |}.

(** A call of one of the chained setters. *)
Inductive Call :=
| Json (serialized : string)
| Raw (body : option string) (contentType : string)
| Text (text : string)
| Status (statusText : string)
| StatusCode (statusCode : Z)
| AddTask (ts : list Task)
| Redirect (redirectUrl : string) (code : option Z)
| SetCustomResponse (response : Response)
| SetContentType (contentType : string).

Definition call (c : Call) (o : ResponseOptions) : ResponseOptions :=
  match c with
  | Json serialized => json serialized o
  | Raw b contentType => raw b contentType o
  | Text t => text t o
  | Status statusText => setStatus statusText o
  | StatusCode code => setStatusCode code o
  | AddTask ts => addTask ts o
  | Redirect redirectUrl code => redirect redirectUrl code o
  | SetCustomResponse response => setCustomResponse response o
  | SetContentType contentType => setContentType contentType o
  end.

(** [res.a(..).b(..)...]: the calls in order, on the options [o]. *)
Definition chain (cs : list Call) (o : ResponseOptions) : ResponseOptions :=
  fold_left (fun o c => call c o) cs o.

(** The tasks that a call hands over. *)
Definition tasksOf (c : Call) : list Task :=
  match c with AddTask ts => ts | _ => [] end.

End LegacyResponse.

(** [RouterResponse] of [src/router/Route.ts] and of the documented
    revision; [setCookie] exists in [src/router] only. *)
Module TreeResponse.

(** [setCookie(name, value, _options)] *)
Definition setCookie (name value : string) (o : ResponseOptions)
  : ResponseOptions :=
  {| type := type o; status := status o; statusCode := statusCode o;
     headers := headers o; cookies := assign name value (cookies o);
     tasks := tasks o; body := body o; redirectInfo := redirectInfo o;
     customResponse := customResponse o |}.

(** [setCustomResponse(response)]: the type of the response stays. *)
Definition setCustomResponse (response : Response) (o : ResponseOptions)
  : ResponseOptions :=
  {| type := type o; status := status o; statusCode := statusCode o;
     headers := headers o; cookies := cookies o; tasks := tasks o;
     body := body o; redirectInfo := redirectInfo o;
     customResponse := Some response |}.

Inductive Call :=
| Json (serialized : string)
| Raw (body : option string) (contentType : string)
| Text (text : string)
| Status (statusText : string)
| StatusCode (statusCode : Z)
| AddTasks (ts : list Task)
| SetCookie (name value : string)
| RedirectTo (redirectUrl : string) (code : option Z)
| SetCustomResponse (response : Response)
| SetContentType (contentType : string).

Definition call (c : Call) (o : ResponseOptions) : ResponseOptions :=
  match c with
  | Json serialized => json serialized o
  | Raw b contentType => raw b contentType o
  | Text t => text t o
  | Status statusText => setStatus statusText o
  | StatusCode code => setStatusCode code o
  | AddTasks ts => addTasks ts o
  | SetCookie name value => setCookie name value o
  | RedirectTo redirectUrl code => redirectTo redirectUrl code o
  | SetCustomResponse response => setCustomResponse response o
  | SetContentType contentType => setContentType contentType o
  end.

Definition chain (cs : list Call) (o : ResponseOptions) : ResponseOptions :=
  fold_left (fun o c => call c o) cs o.

Definition tasksOf (c : Call) : list Task :=
  match c with AddTasks ts => ts | _ => [] end.

Definition isSetCustomResponse (c : Call) : bool :=
  match c with SetCustomResponse _ => true | _ => false end.

(** The options without the custom response. *)
Definition withoutCustomResponse (o : ResponseOptions) : ResponseOptions :=
  {| type := type o; status := status o; statusCode := statusCode o;
     headers := headers o; cookies := cookies o; tasks := tasks o;
     body := body o; redirectInfo := redirectInfo o;
     customResponse := None |}.

(** The response object with other options. *)
Definition withOptions (o : ResponseOptions) (c : Tree.Ctx) : Tree.Ctx :=
  {| Tree.request := Tree.request c;
     Tree.response :=
       {| Tree.responseOptions := o;
          Tree.res_matchedRoute := Tree.res_matchedRoute (Tree.response c);
          Tree.locals := Tree.locals (Tree.response c) |};
     Tree.variables := Tree.variables c |}.

End TreeResponse.


(* ===================================================================== *)
(** ** [useBulk] *)
(* ===================================================================== *)

(** [src/router/Router.ts] and the documented [Router]: [useBulk] calls
    [use] once for each entry of its list, in the order of the list. *)
Module Bulk.

(** An entry [{ path?, handler }] of the list. *)
Record Entry := {
  entry_path : option string;
  entry_handler : Tree.RouteHandler
}.

(** The arguments of [this.use(listEntry.path || listEntry.handler,
    listEntry.handler)]: a missing path and the empty path are falsy. *)
Definition useArgs (listEntry : Entry) : Tree.UseArgs :=
  match entry_path listEntry with
  | Some p =>
      if String.eqb p ""
      then Tree.UseHandler (entry_handler listEntry)
             (Some (entry_handler listEntry))
      else Tree.UsePath p (entry_handler listEntry)
  | None =>
      Tree.UseHandler (entry_handler listEntry)
        (Some (entry_handler listEntry))
  end.

(** The loop of [useBulk] over the [use] of the revision. *)
Fixpoint useBulk (use : Tree.RouterId -> Tree.UseArgs -> Tree.M unit)
  (rid : Tree.RouterId) (list : list Entry) : Tree.M unit :=
  match list with
  | [] => ret tt
  | listEntry :: rest =>
      use rid (useArgs listEntry);; useBulk use rid rest
  end.

(** The path that [use] starts from for an entry. *)
Definition usePath (listEntry : Entry) : string :=
  match entry_path listEntry with
  | Some p => if String.eqb p "" then "/" else p
  | None => "/"
  end.

End Bulk.
(* ===================================================================== *)
(** * Properties *)
(* ===================================================================== *)

Import JsString Paths.

(** ** Strings and path normalization *)

Lemma lastChar_cons (c : ascii) (r : string) :
  exists d, lastChar (String c r) = Some d.
Proof.
  revert c. induction r as [|b r IH]; intros c; [now exists c|].
  destruct (IH b) as [d Hd]. exists d. exact Hd.
Qed.

Lemma substring_one (c : ascii) (r : string) (n : nat) :
  String.length (String c r) = S n ->
  String.substring n 1 (String c r) =
    match lastChar (String c r) with Some d => char d | None => "" end.
Proof.
  revert c r. induction n as [|n IH]; intros c r Hlen.
  - destruct r as [|d r]; [reflexivity | discriminate Hlen].
  - destruct r as [|d r]; [discriminate Hlen|].
    change (String.substring (S n) 1 (String c (String d r)))
      with (String.substring n 1 (String d r)).
    rewrite IH by (simpl in *; lia). reflexivity.
Qed.

(** For a one-character suffix, [endsWith] tests the last character. *)
Lemma endsWith_char (s : string) (c : ascii) :
  endsWith s (char c) =
    match lastChar s with Some d => Ascii.eqb d c | None => false end.
Proof.
  unfold endsWith. destruct s as [|a r]; [reflexivity|].
  change (String.length (char c)) with 1.
  assert (Hlen : String.length (String a r) = S (String.length r))
    by reflexivity.
  rewrite Hlen.
  replace (S (String.length r) - 1) with (String.length r) by lia.
  rewrite (substring_one a r (String.length r) Hlen).
  destruct (lastChar_cons a r) as [d ->].
  simpl. destruct (Ascii.eqb d c); reflexivity.
Qed.

Lemma lastChar_app (a b : string) :
  b <> "" -> lastChar (a +:+ b) = lastChar b.
Proof.
  intros Hb. induction a as [|c a IH]; [reflexivity|].
  simpl. destruct (a +:+ b) as [|d r] eqn:Hab.
  - destruct a; simpl in Hab; [contradiction | discriminate].
  - exact IH.
Qed.

Lemma lastChar_snoc (a : string) (c : ascii) :
  lastChar (a +:+ char c) = Some c.
Proof. rewrite lastChar_app; [reflexivity | discriminate]. Qed.

Lemma fixPath_unfold (basePath inputPath : string) :
  fixPath basePath inputPath =
    let fixedPath :=
      basePath +:+ (if startsWith inputPath "/" then slice1 inputPath
                    else inputPath) in
    if closed fixedPath then fixedPath else fixedPath +:+ "/".
Proof.
  unfold fixPath, closed. cbv zeta.
  destruct (endsWith _ "/"); cbn [negb andb orb]; [reflexivity|].
  match goal with |- context [existsb ?f ?l] => destruct (existsb f l) end;
    reflexivity.
Qed.

Lemma endsWith_snoc (s : string) (c : ascii) :
  endsWith (s +:+ char c) (char c) = true.
Proof.
  rewrite endsWith_char, lastChar_snoc. apply Ascii.eqb_refl.
Qed.

Lemma endsWith_app (a b : string) (c : ascii) :
  b <> "" -> endsWith (a +:+ b) (char c) = endsWith b (char c).
Proof. intros Hb. now rewrite !endsWith_char, lastChar_app. Qed.

Lemma closed_fixPath (basePath inputPath : string) :
  closed (fixPath basePath inputPath) = true.
Proof.
  rewrite fixPath_unfold. cbv zeta.
  set (q := basePath +:+ _).
  destruct (closed q) eqn:Hc; [exact Hc|].
  unfold closed. change "/" with (char "/").
  now rewrite endsWith_snoc.
Qed.

Lemma startsWith_slash (s : string) :
  startsWith s "/" = true -> s = "/" +:+ slice1 s.
Proof.
  unfold startsWith. destruct s as [|c r]; cbn [String.prefix];
    [discriminate|].
  destruct (Ascii.ascii_dec "/"%char c) as [e|n]; [now subst c | discriminate].
Qed.

Lemma startsWith_cons (c : ascii) (s : string) :
  startsWith (String c s) (char c) = true.
Proof.
  unfold startsWith, char. cbn [String.prefix].
  destruct (Ascii.ascii_dec c c) as [_|n]; [|now elim n].
  destruct s; reflexivity.
Qed.

(** Re-normalizing at a router whose base path is "/" gives back a path
    that was normalized under a base path that starts with a slash. *)
Lemma fixPath_root_fixPath (b p : string) :
  fixPath "/" (fixPath ("/" +:+ b) p) = fixPath ("/" +:+ b) p.
Proof.
  pose proof (closed_fixPath ("/" +:+ b) p) as Hc.
  assert (Hs : startsWith (fixPath ("/" +:+ b) p) "/" = true).
  { clear Hc. rewrite fixPath_unfold. cbv zeta.
    set (q := ("/" +:+ b) +:+ _). destruct (closed q); subst q; apply (startsWith_cons "/"). }
  set (F := fixPath ("/" +:+ b) p) in *.
  rewrite (fixPath_unfold "/" F). cbv zeta. rewrite Hs.
  rewrite <- (startsWith_slash _ Hs). now rewrite Hc.
Qed.



Example fixPath_examples :
  fixPath "/" "/api" = "/api/"
  /\ fixPath "/" "/api/" = "/api/"
  /\ fixPath "/api/" "/time" = "/api/time/"
  /\ fixPath "/" "/*" = "/*"
  /\ fixPath "/" "/file(.ext)" = "/file(.ext)"
  /\ fixPath "/" "" = "/".
Proof. repeat split; reflexivity. Qed.

(** [fixUsePath] takes one trailing slash away at each application, so
    it moves a path that ends with two slashes twice. *)
Example fixUsePath_strips_again :
  fixUsePath None "/api//" = "/api/"
  /\ fixUsePath None (fixUsePath None "/api//") = "/api".
Proof. split; reflexivity. Qed.





(** ** Mounting *)

Ltac eval_lookups :=
  repeat match goal with
  | |- context [@lookup ?K ?A ?M ?L ?k ?m] =>
      let t := constr:(@lookup K A M L k m) in
      let v := eval vm_compute in t in
      progress change t with v
  end.

Ltac run_setup c E :=
  let r := fresh "root" in
  let e := fresh "e" in
  let w := fresh "w" in
  destruct c as [[r|e] w] eqn:E; vm_compute in E; [|discriminate E];
  injection E as <- <-.


Ltac pose_value x t :=
  let v := eval vm_compute in t in
  match v with
  | Some ?a => pose (x := a)
  | Normal ?a => pose (x := a)
  end.

Ltac run_on_host E H1 H2 :=
  vm_compute in E; rewrite ?H1, ?H2 in E;
  vm_compute in E; rewrite ?H1, ?H2 in E;
  vm_compute in E; rewrite ?H1, ?H2 in E;
  vm_compute in E.

(** C5: mounting a sub-router at "/api" and registering "/time" on it
    gives, for every request, the same match outcome (matched or not, the
    route selected and its parameters) as registering "/api/time" on the
    root; in the documented revision, in [src/router] and in the legacy
    router, for every method, handler and matcher, on every host whose
    url-pattern compiles the paths that the registrations fix ("/api/"
    and "/api/time/", in the legacy router "/api" and "/api/time/"), so
    that the registrations return. *)
Theorem mount_then_register_matches_as_direct
  (urlMatch : string -> string -> option Params) (m : Methods) (h : nat)
  (depth : nat) (host : Host) :
  patternError host "/api/time/" = None ->
  (patternError host "/api/" = None ->
   forall req : Tree.RouterRequest,
     match Spec.mountedApiTime m h (Tree.emptyWorld host),
           Spec.directApiTime m h (Tree.emptyWorld host) with
     | (Normal root, w), (Normal root', w') =>
         Spec.matchOutcome urlMatch (2 + depth) w root req
         = Spec.matchOutcome urlMatch (2 + depth) w' root' req
         /\ exists l, Spec.matchOutcome urlMatch (2 + depth) w root req
                      = Normal l
     | _, _ => False
     end)
  /\ (patternError host "/api/" = None ->
      forall req : Tree.RouterRequest,
        match Spec.mountedApiTimeRouterDir m h (Tree.emptyWorld host),
              Spec.directApiTime m h (Tree.emptyWorld host) with
        | (Normal root, w), (Normal root', w') =>
            Spec.matchOutcome urlMatch (2 + depth) w root req
            = Spec.matchOutcome urlMatch (2 + depth) w' root' req
        | _, _ => False
        end)
  /\ (patternError host "/api" = None ->
      forall p : string,
        match Spec.legacyMountedApiTime m h (Legacy.emptyWorld host),
              Spec.legacyDirectApiTime m h (Legacy.emptyWorld host) with
        | (Normal root, w), (Normal root', w') =>
            Spec.legacyMatchOutcome urlMatch (2 + depth) w root p
            = Spec.legacyMatchOutcome urlMatch (2 + depth) w' root' p
            /\ exists l, Spec.legacyMatchOutcome urlMatch (2 + depth) w root p
                         = Normal l
        | _, _ => False
        end).
Proof.
  destruct host as [pe re]. cbn [patternError]. intros Htime.
  split; [|split].
  - intros Hapi req.
    destruct (Spec.mountedApiTime m h (Tree.emptyWorld (Build_Host pe re)))
      as [[root|e] w] eqn:E1; run_on_host E1 Hapi Htime; [|discriminate E1].
    injection E1 as <- <-.
    destruct (Spec.directApiTime m h (Tree.emptyWorld (Build_Host pe re)))
      as [[root'|e] w'] eqn:E2; run_on_host E2 Hapi Htime; [|discriminate E2].
    injection E2 as <- <-.
    unfold Spec.matchOutcome.
    cbn [Tree.findMatchingRoutes Nat.add Tree.routers]. eval_lookups.
    cbn [Tree.routes Tree.isHandlerRouter Tree.handler Tree.findLoop
         Tree.findMatchingRoutes Tree.routers]. eval_lookups.
    cbn [Tree.routes Tree.isHandlerRouter Tree.handler Tree.findLoop app].
    unfold Tree.matchesRequest, Tree.matchesInputPath.
    cbn [fst snd Tree.path Tree.fixedPath Tree.method].
    match goal with |- context [if ?b then _ else _] => destruct b end;
      (split; [reflexivity | eexists; reflexivity]).
  - intros Hapi req.
    destruct (Spec.mountedApiTimeRouterDir m h
                (Tree.emptyWorld (Build_Host pe re)))
      as [[root|e] w] eqn:E1; run_on_host E1 Hapi Htime; [|discriminate E1].
    injection E1 as <- <-.
    destruct (Spec.directApiTime m h (Tree.emptyWorld (Build_Host pe re)))
      as [[root'|e] w'] eqn:E2; run_on_host E2 Hapi Htime; [|discriminate E2].
    injection E2 as <- <-.
    unfold Spec.matchOutcome.
    cbn [Tree.findMatchingRoutes Nat.add Tree.routers]. eval_lookups.
    cbn [Tree.routes Tree.isHandlerRouter Tree.handler Tree.findLoop
         Tree.findMatchingRoutes Tree.routers]. eval_lookups.
    cbn [Tree.routes Tree.isHandlerRouter Tree.handler Tree.findLoop app].
    unfold Tree.matchesRequest, Tree.matchesInputPath.
    cbn [fst snd Tree.path Tree.fixedPath Tree.method].
    match goal with |- context [if ?b then _ else _] => destruct b end;
      reflexivity.
  - intros Hapi p.
    destruct (Spec.legacyMountedApiTime m h
                (Legacy.emptyWorld (Build_Host pe re)))
      as [[root|e] w] eqn:E1; run_on_host E1 Hapi Htime; [|discriminate E1].
    injection E1 as <- <-.
    destruct (Spec.legacyDirectApiTime m h
                (Legacy.emptyWorld (Build_Host pe re)))
      as [[root'|e] w'] eqn:E2; run_on_host E2 Hapi Htime; [|discriminate E2].
    injection E2 as <- <-.
    unfold Spec.legacyMatchOutcome.
    cbn [Legacy.getMatchingRoutesByPath Nat.add Legacy.routers]. eval_lookups.
    cbn [Legacy.routes Legacy.handler Legacy.getMatchingRoutesByPath
         Legacy.matchLoop Legacy.routers]. eval_lookups.
    cbn [Legacy.routes Legacy.handler Legacy.matchLoop app].
    unfold Legacy.matchesPath. cbn [Legacy.path Legacy.fixed].
    destruct (urlMatch "/api/time/" p) as [params|];
      (split; [reflexivity | eexists; reflexivity]).
Qed.

(** On the example host, whose url-pattern compiles the three paths:
    [GET /api/time/] selects the one route in both programs. *)
Lemma mount_then_register_matches_as_direct_witness :
  let req := {| Tree.req_url := "https://x/api/time/";
                Tree.req_path := "/api/time/";
                Tree.req_method := "GET"; Tree.req_headers := ∅;
                Tree.matchedParams := None;
                Tree.req_matchedRoute := None |} in
  match Spec.mountedApiTime GET 7 ExampleHost.world,
        Spec.directApiTime GET 7 ExampleHost.world with
  | (Normal root, w), (Normal root', w') =>
      Spec.matchOutcome ExampleHost.urlMatch 2 w root req
      = Spec.matchOutcome ExampleHost.urlMatch 2 w' root' req
      /\ Spec.matchOutcome ExampleHost.urlMatch 2 w root req
         = Normal [(GET, "/api/time/", Tree.FunctionHandler 7, false,
                    Some [])]
  | _, _ => False
  end.
Proof.
  intros req.
  destruct (mount_then_register_matches_as_direct ExampleHost.urlMatch GET 7
              0 ExampleHost.host eq_refl) as (H & _ & _).
  specialize (H eq_refl req).
  change (Tree.emptyWorld ExampleHost.host) with ExampleHost.world in H.
  destruct (Spec.mountedApiTime GET 7 ExampleHost.world) as [[root|e] w] eqn:E;
    [|exact H].
  destruct (Spec.directApiTime GET 7 ExampleHost.world) as [[root'|e'] w'];
    [|exact H].
  split; [exact (proj1 H)|].
  vm_compute in E. injection E as <- <-. vm_compute. reflexivity.
Defined.

(** The scenario of the README on the example host: the mounted route
    answers "/api/time/" and nothing else. *)
Example mounted_route_is_selected :
  match Spec.mountedApiTime GET 7 ExampleHost.world with
  | (Normal root, w) =>
      forall req,
        Tree.req_path req = "/api/time/" -> Tree.req_method req = "GET" ->
        Spec.matchOutcome ExampleHost.urlMatch 2 w root req
        = Normal [(GET, "/api/time/", Tree.FunctionHandler 7, false, Some [])]
  | _ => False
  end.
Proof.
  run_setup (Spec.mountedApiTime GET 7 ExampleHost.world) E1.
  intros [u p me hs mp mr] Hp Hm. simpl in Hp, Hm. subst p me.
  vm_compute. reflexivity.
Qed.

(** ** Sorting *)

Section SortFacts.
Context {A : Type} (before : A -> A -> bool).
Hypothesis before_total : forall a b, before a b = true \/ before b a = true.
Hypothesis before_trans :
  forall a b c, before a b = true -> before b c = true -> before a c = true.

Lemma insertSorted_perm (x : A) (l : list A) :
  Permutation (insertSorted before x l) (x :: l).
Proof.
  induction l as [|y ys IH]; simpl; [reflexivity|].
  destruct (before x y); [reflexivity|].
  rewrite IH. apply perm_swap.
Qed.

Lemma sortBy_perm (l : list A) : Permutation (sortBy before l) l.
Proof.
  induction l as [|x xs IH]; simpl; [reflexivity|].
  rewrite insertSorted_perm. apply perm_skip, IH.
Qed.

Lemma insertSorted_sorted (x : A) (l : list A) :
  StronglySorted (fun a b => before a b = true) l ->
  StronglySorted (fun a b => before a b = true) (insertSorted before x l).
Proof.
  induction 1 as [|y ys Hs IH Hall]; simpl.
  - constructor; constructor.
  - destruct (before x y) eqn:Hxy.
    + constructor; [constructor; assumption|].
      constructor; [exact Hxy|].
      apply List.Forall_forall. intros z Hz.
      rewrite List.Forall_forall in Hall.
      eapply before_trans; [exact Hxy | now apply Hall].
    + constructor; [exact IH|].
      apply List.Forall_forall. intros z Hz.
      apply (Permutation_in _ (insertSorted_perm x ys)) in Hz.
      destruct Hz as [<-|Hz].
      * destruct (before_total x y) as [H|H]; [congruence | exact H].
      * rewrite List.Forall_forall in Hall. now apply Hall.
Qed.

Lemma sortBy_sorted (l : list A) :
  StronglySorted (fun a b => before a b = true) (sortBy before l).
Proof.
  induction l as [|x xs IH]; simpl; [constructor|].
  now apply insertSorted_sorted.
Qed.

End SortFacts.

Lemma StronglySorted_app_l {A} (R : A -> A -> Prop) (l1 l2 : list A) :
  StronglySorted R (l1 ++ l2) -> StronglySorted R l1.
Proof.
  induction l1 as [|x xs IH]; simpl; intros H; [constructor|].
  inversion H as [|? ? Hs Hall]; subst. constructor; [now apply IH|].
  rewrite List.Forall_forall in *. intros y Hy. apply Hall.
  apply in_or_app. now left.
Qed.

Lemma StronglySorted_map {A B} (f : A -> B) (R : B -> B -> Prop) (l : list A) :
  StronglySorted (fun a b => R (f a) (f b)) l -> StronglySorted R (map f l).
Proof.
  induction 1 as [|x xs Hs IH Hall]; simpl; constructor; [exact IH|].
  rewrite List.Forall_forall in *. intros y Hy.
  apply in_map_iff in Hy. destruct Hy as (z & <- & Hz). now apply Hall.
Qed.

(** ** The middleware chain of the documented revision *)

Section UnnamedChain.
Variable urlMatch : string -> string -> option Params.
Variable handlers : Tree.HandlerId -> Tree.FunctionalHandler.

Lemma chainSteps_app (a b : list Tree.Event) :
  Spec.chainSteps (a ++ b) = Spec.chainSteps a ++ Spec.chainSteps b.
Proof. unfold Spec.chainSteps. apply omap_app. Qed.

Lemma Unnamed_executeMiddleware_steps (rt : Tree.Route) (c : Tree.Ctx) :
  Spec.chainSteps (snd (Unnamed.executeMiddleware handlers rt c)) = [].
Proof.
  unfold Unnamed.executeMiddleware.
  destruct (Tree.handler rt) as [child|f]; [reflexivity|].
  destruct (Tree.arity (handlers f) =? 3); reflexivity.
Qed.

(** The chain steps started by the loop are a first part of the list it
    was given, in the order of that list. *)
Lemma Unnamed_runMiddlewares_steps (ms : list Tree.MatchingRoute)
  (c : Tree.Ctx) (log : list Tree.Event) :
  exists k,
    Spec.chainSteps (snd (Unnamed.runMiddlewares handlers ms c log))
    = Spec.chainSteps log ++ map Tree.route (take k ms).
Proof.
  revert c log. induction ms as [|m rest IH]; intros c log.
  - exists 0. simpl. now rewrite app_nil_r.
  - simpl.
    pose proof (Unnamed_executeMiddleware_steps (Tree.route m) c) as Hc.
    destruct (Unnamed.executeMiddleware handlers (Tree.route m) c)
      as [[s c'] called].
    simpl in Hc.
    assert (Hlog : Spec.chainSteps (log ++ Tree.ChainStep (Tree.route m) :: called)
                   = Spec.chainSteps log ++ [Tree.route m]).
    { rewrite chainSteps_app. f_equal.
      change (Tree.ChainStep (Tree.route m) :: called)
        with ([Tree.ChainStep (Tree.route m)] ++ called).
      rewrite chainSteps_app, Hc. reflexivity. }
    destruct s as [[|]|e|].
    + destruct (IH c' (log ++ Tree.ChainStep (Tree.route m) :: called))
        as [k Hk].
      exists (S k). rewrite Hk, Hlog. simpl. now rewrite <- app_assoc.
    + exists 1. simpl. rewrite Hlog. now destruct rest.
    + exists 1. simpl. rewrite Hlog. now destruct rest.
    + exists 1. simpl. rewrite Hlog. now destruct rest.
Qed.

Lemma Unnamed_settle_events r log :
  Tree.events (Tree.settle r log) = log.
Proof. reflexivity. Qed.

(** The chain steps of a dispatch are a first part of the matched
    middlewares sorted by [routeIndex]; a dispatch that finds no route to
    answer starts none. *)
Lemma Unnamed_processRequest_steps (depth : nat) (w : Tree.World)
  (rid : Tree.RouterId) (c : Tree.Ctx) :
  exists found k,
    Spec.chainSteps
      (Tree.events (Unnamed.processRequest urlMatch handlers depth w rid c))
    = map Tree.route
        (take k
           (sortBy (fun a b => Tree.routeIndex (Tree.route a)
                               <=? Tree.routeIndex (Tree.route b))
              (List.filter
                 (fun m => negb (Tree.isHandlerRouter (Tree.route m)))
                 (List.filter (fun m => Tree.isMiddleware (Tree.route m))
                    found))))
    /\ (k = 0
        \/ Tree.findMatchingRoutes urlMatch depth w rid (Tree.request c)
           = Normal found).
Proof.
  unfold Unnamed.processRequest.
  destruct (Tree.findMatchingRoutes urlMatch depth w rid (Tree.request c))
    as [found|e].
  2:{ exists [], 0. split; [reflexivity | now left]. }
  destruct (head (List.filter _ found)) as [rh|].
  2:{ exists found, 0. split; [reflexivity | now left]. }
  set (ms := sortBy _ _).
  destruct (Unnamed_runMiddlewares_steps ms (Tree.setMatched rh c) [])
    as [k Hk].
  exists found, k. split; [|now right].
  destruct (Unnamed.runMiddlewares handlers ms (Tree.setMatched rh c) [])
    as [[s c2] log].
  simpl in Hk.
  destruct s as [[|]|e|]; try exact Hk.
  destruct (Tree.handler (Tree.route rh)) as [child|f]; [exact Hk|].
  assert (Hk' : Spec.chainSteps (log ++ [Tree.HandlerCall f])
                = map Tree.route (take k ms)).
  { rewrite chainSteps_app, Hk. simpl. apply app_nil_r. }
  destruct (Tree.ended (Tree.invoke (handlers f) c2)); exact Hk'.
Qed.

End UnnamedChain.

(** In the documented revision the chain steps of every dispatch are
    started in ascending order of [routeIndex], whatever the depth at
    which the routes were registered and the order in which the walk
    found them, and each started step belongs to a matched middleware
    whose handler is a function. *)
Theorem Unnamed_middlewares_run_in_ascending_order
  (urlMatch : string -> string -> option Params)
  (handlers : Tree.HandlerId -> Tree.FunctionalHandler)
  (depth : nat) (w : Tree.World) (rid : Tree.RouterId) (c : Tree.Ctx) :
  let steps :=
    Spec.chainSteps
      (Tree.events (Unnamed.processRequest urlMatch handlers depth w rid c)) in
  StronglySorted (fun a b => Tree.routeIndex a <= Tree.routeIndex b) steps
  /\ (forall rt, In rt steps ->
        Tree.isMiddleware rt = true /\ Tree.isHandlerRouter rt = false
        /\ exists found,
             Tree.findMatchingRoutes urlMatch depth w rid (Tree.request c)
             = Normal found
             /\ In rt (map Tree.route found)).
Proof.
  cbv zeta.
  destruct (Unnamed_processRequest_steps urlMatch handlers depth w rid c)
    as (found & k & Hsteps & Hk).
  rewrite Hsteps. set (ms := sortBy _ _).
  assert (Hsorted :
    StronglySorted
      (fun a b => (Tree.routeIndex (Tree.route a)
                   <=? Tree.routeIndex (Tree.route b)) = true) ms).
  { apply sortBy_sorted.
    - intros a b.
      destruct (Nat.leb_spec (Tree.routeIndex (Tree.route a))
                  (Tree.routeIndex (Tree.route b))); [now left|].
      right. apply Nat.leb_le. lia.
    - intros a b d Hab Hbd. apply Nat.leb_le in Hab, Hbd.
      apply Nat.leb_le. lia. }
  split.
  - apply (StronglySorted_map Tree.route).
    rewrite <- (take_drop k ms) in Hsorted.
    apply StronglySorted_app_l in Hsorted.
    eapply StronglySorted_ind with (P := fun l => StronglySorted _ l);
      [constructor | | exact Hsorted].
    intros a l Hs IH Hall. constructor; [exact IH|].
    rewrite List.Forall_forall in *. intros x Hx.
    apply Nat.leb_le. now apply Hall.
  - intros rt Hin.
    apply in_map_iff in Hin. destruct Hin as (m & <- & Hm).
    assert (Hm' : In m ms).
    { rewrite <- (take_drop k ms). apply in_or_app. now left. }
    unfold ms in Hm'.
    apply (Permutation_in _ (sortBy_perm _ _)) in Hm'.
    apply filter_In in Hm'. destruct Hm' as [Hm' Hr].
    apply filter_In in Hm'. destruct Hm' as [Hf Hmw].
    split; [exact Hmw|]. split; [now apply negb_true_iff in Hr|].
    destruct Hk as [->|Hfound]; [now rewrite take_0 in Hm|].
    exists found. split; [exact Hfound|]. now apply in_map.
Qed.

Lemma NoDup_map_filter {A B} (g : A -> B) (p : A -> bool) (l : list A) :
  List.NoDup (map g l) -> List.NoDup (map g (List.filter p l)).
Proof.
  induction l as [|x xs IH]; simpl; intros H; [constructor|].
  inversion H as [|? ? Hx Hxs]; subst.
  destruct (p x); [|now apply IH].
  simpl. constructor; [|now apply IH].
  intros Hin. apply Hx. apply in_map_iff in Hin.
  destruct Hin as (y & Hy & Hin). apply filter_In in Hin.
  apply in_map_iff. exists y. tauto.
Qed.

Lemma StronglySorted_le_lt {A} (g : A -> nat) (l : list A) :
  StronglySorted (fun a b => g a <= g b) l ->
  List.NoDup (map g l) ->
  StronglySorted (fun a b => g a < g b) l.
Proof.
  induction 1 as [|x xs Hs IH Hall]; simpl; intros Hnd; [constructor|].
  inversion Hnd as [|? ? Hx Hxs]; subst.
  constructor; [now apply IH|].
  rewrite List.Forall_forall in *. intros y Hy.
  specialize (Hall y Hy).
  assert (g x <> g y).
  { intros Heq. apply Hx. rewrite Heq. now apply in_map. }
  lia.
Qed.

(** When the matched routes have different indices, the order of the
    chain steps is strictly ascending. *)
Theorem Unnamed_middlewares_run_in_strictly_ascending_order
  (urlMatch : string -> string -> option Params)
  (handlers : Tree.HandlerId -> Tree.FunctionalHandler)
  (depth : nat) (w : Tree.World) (rid : Tree.RouterId) (c : Tree.Ctx) :
  (forall found,
     Tree.findMatchingRoutes urlMatch depth w rid (Tree.request c)
     = Normal found ->
     List.NoDup (map (fun m => Tree.routeIndex (Tree.route m)) found)) ->
  StronglySorted (fun a b => Tree.routeIndex a < Tree.routeIndex b)
    (Spec.chainSteps
       (Tree.events (Unnamed.processRequest urlMatch handlers depth w rid c))).
Proof.
  intros Hnd.
  apply StronglySorted_le_lt;
    [apply Unnamed_middlewares_run_in_ascending_order|].
  destruct (Unnamed_processRequest_steps urlMatch handlers depth w rid c)
    as (found & k & Hsteps & Hk).
  rewrite Hsteps. set (ms := sortBy _ _).
  destruct Hk as [->|Hfound]; [rewrite take_0; constructor|].
  specialize (Hnd found Hfound).
  rewrite map_map.
  assert (Hms : List.NoDup
                  (map (fun m => Tree.routeIndex (Tree.route m)) ms)).
  { unfold ms.
    eapply Permutation_NoDup;
      [apply Permutation_map; symmetry; apply sortBy_perm|].
    now do 2 apply NoDup_map_filter. }
  rewrite <- (take_drop k ms), map_app in Hms.
  now apply NoDup_app_remove_r in Hms.
Qed.

Lemma Unnamed_middlewares_run_in_strictly_ascending_order_witness :
  match Examples.nestedMiddlewares 5 6 0 ExampleHost.world with
  | (Normal root, w) =>
      forall c,
        Tree.req_path (Tree.request c) = "/api/a/" ->
        Tree.req_method (Tree.request c) = "GET" ->
        StronglySorted (fun a b => Tree.routeIndex a < Tree.routeIndex b)
          (Spec.chainSteps
             (Tree.events
                (Unnamed.processRequest ExampleHost.urlMatch
                   Examples.handlers 2 w root c)))
  | _ => False
  end.
Proof.
  destruct (Examples.nestedMiddlewares 5 6 0 ExampleHost.world)
    as [[root|e] w] eqn:E; vm_compute in E; [|discriminate E].
  injection E as <- <-.
  intros [[u p me hs mp mr] res] Hp Hme. simpl in Hp, Hme. subst p me.
  apply Unnamed_middlewares_run_in_strictly_ascending_order.
  intros found Hfound. vm_compute in Hfound. injection Hfound as <-.
  cbn [map Tree.routeIndex Tree.route].
  repeat constructor; simpl; intuition discriminate.
Defined.

(** The walk finds the middleware of the root before the one of the
    mounted router, which was registered first; the dispatch runs them in
    the order of registration. *)
Example nested_middlewares_run_in_registration_order :
  match Examples.nestedMiddlewares 5 6 0 ExampleHost.world with
  | (Normal root, w) =>
      let req := {| Tree.req_url := ""; Tree.req_path := "/api/a/";
                    Tree.req_method := "GET"; Tree.req_headers := ∅;
                    Tree.matchedParams := None;
                    Tree.req_matchedRoute := None |} in
      let d := Unnamed.processRequest ExampleHost.urlMatch Examples.handlers
                 2 w root
                 {| Tree.request := req;
                    Tree.response := Unnamed.newRouterResponse;
                    Tree.variables := ∅ |} in
      match Tree.findMatchingRoutes ExampleHost.urlMatch 2 w root req with
      | Normal found =>
          map (fun m => Tree.routeIndex (Tree.route m)) found = [2; 1; 4]
      | Throw _ => False
      end
      /\ map Tree.routeIndex (Spec.chainSteps (Tree.events d)) = [1; 2]
      /\ Spec.handlerCalls (Tree.events d) = [5; 6; 0]
  | _ => False
  end.
Proof. vm_compute. repeat split. Qed.

(** The route created first has index 0, which [updateSelfRoutes] takes
    for a missing index: mounting its router gives it a fresh, later
    index, and it then runs after a middleware registered after it. *)
Example first_route_is_renumbered_on_mount :
  match (root ← Unnamed.newRouter Tree.noOptions;
         sub ← Unnamed.newRouter Tree.noOptions;
         Unnamed.use sub (Tree.UsePath "/*" (Tree.FunctionHandler 5));;
         Unnamed.use root (Tree.UsePath "/*" (Tree.FunctionHandler 6));;
         Unnamed.use root (Tree.UsePath "/api" (Tree.RouterHandler sub));;
         Tree.get sub "/a" (Tree.FunctionHandler 0);;
         mret root) ExampleHost.world with
  | (Normal root, w) =>
      let d := Unnamed.processRequest ExampleHost.urlMatch Examples.handlers
                 2 w root
                 {| Tree.request :=
                      {| Tree.req_url := ""; Tree.req_path := "/api/a/";
                         Tree.req_method := "GET"; Tree.req_headers := ∅;
                         Tree.matchedParams := None;
                         Tree.req_matchedRoute := None |};
                    Tree.response := Unnamed.newRouterResponse;
                    Tree.variables := ∅ |} in
      map Tree.routeIndex (Spec.chainSteps (Tree.events d)) = [1; 2]
      /\ Spec.handlerCalls (Tree.events d) = [6; 5; 0]
  | _ => False
  end.
Proof. vm_compute. repeat split. Qed.

(** C1 at [src/router/Router.ts]: its comparator is
    [b.route.routeIndex - a.route.routeIndex], so of two middlewares
    registered in the order 0, 1 for the same path the dispatch runs
    index 1 first and index 0 second; the documented revision runs the
    same program in the order 0, 1. *)
Theorem RouterDir_middlewares_run_in_descending_order :
  match Examples.twoMiddlewaresRouterDir 1 2 0 ExampleHost.world,
        Examples.twoMiddlewares 5 6 0 ExampleHost.world with
  | (Normal root, w), (Normal root', w') =>
      let d := snd (RouterDir.serveRequest ExampleHost.urlMatch
                      Examples.handlers ExampleHost.pathname 1 w root
                      (Examples.incoming "/a")) in
      let d' := snd (Unnamed.serveRequest ExampleHost.urlMatch
                       Examples.handlers ExampleHost.pathname 1 w' root'
                       (Examples.incoming "/a")) in
      map Tree.routeIndex (Spec.chainSteps (Tree.events d)) = [1; 0]
      /\ Spec.handlerCalls (Tree.events d) = [2; 1; 0]
      /\ map Tree.routeIndex (Spec.chainSteps (Tree.events d')) = [0; 1]
      /\ Spec.handlerCalls (Tree.events d') = [5; 6; 0]
  | _, _ => False
  end.
Proof. vm_compute. repeat split. Qed.

(** ** Chain steps *)

(** C3 on the code: for a middleware whose handler declares no
    continuation parameter ([handler.length] is not 3), the chain step
    resolves to [true] at once, leaves the request and response objects
    as they are and calls nothing: the handler is never run, whatever it
    would do, also when it would throw.  (The step awaits the arrow
    function [async () => handler(...)] itself and never calls it.)  The
    same holds in the legacy router and, with four parameters for three,
    in [src/router]. *)
Theorem auto_continue_handler_is_never_called :
  (forall (handlers : Tree.HandlerId -> Tree.FunctionalHandler)
          (rt : Tree.Route) (f : Tree.HandlerId) (c : Tree.Ctx),
     Tree.handler rt = Tree.FunctionHandler f ->
     Tree.arity (handlers f) <> 3 ->
     Unnamed.executeMiddleware handlers rt c = (Resolved true, c, []))
  /\ (forall (handlers : Legacy.HandlerId -> Legacy.FunctionalHandler)
             (rt : Legacy.Route) (f : Legacy.HandlerId) (c : Legacy.Ctx),
        Legacy.handler rt = Legacy.FunctionHandler f ->
        Legacy.arity (handlers f) <> 3 ->
        Legacy.executeMiddleware handlers rt c = (Resolved true, c, []))
  /\ (forall (handlers : Tree.HandlerId -> Tree.FunctionalHandler)
             (rt : Tree.Route) (f : Tree.HandlerId) (c : Tree.Ctx),
        Tree.handler rt = Tree.FunctionHandler f ->
        Tree.arity (handlers f) <> 4 ->
        RouterDir.executeMiddleware handlers rt c = (Resolved true, c, [])).
Proof.
  split; [|split]; intros handlers rt f c Hf Har.
  - unfold Unnamed.executeMiddleware. rewrite Hf.
    apply Nat.eqb_neq in Har. now rewrite Har.
  - unfold Legacy.executeMiddleware. rewrite Hf.
    apply Nat.eqb_neq in Har. now rewrite Har.
  - unfold RouterDir.executeMiddleware. rewrite Hf.
    apply Nat.eqb_neq in Har. now rewrite Har.
Qed.

(** The failing input of C3: [router.use("/*", (req, res) => {
    res.locals.hasTouched = "yes" }); router.get("/a", h)] and
    [GET /a].  The step of the middleware is started and the route
    answers, but the middleware function is not among the calls and
    [locals] stays empty; a middleware that would throw lets the chain
    advance all the same. *)
Lemma auto_continue_handler_is_never_called_witness :
  match Examples.oneMiddleware 3 0 ExampleHost.world,
        Examples.oneMiddleware 4 0 ExampleHost.world with
  | (Normal root, w), (Normal root', w') =>
      let d := snd (Unnamed.serveRequest ExampleHost.urlMatch
                      Examples.handlers ExampleHost.pathname 1 w root
                      (Examples.incoming "/a")) in
      let d' := snd (Unnamed.serveRequest ExampleHost.urlMatch
                       Examples.handlers ExampleHost.pathname 1 w' root'
                       (Examples.incoming "/a")) in
      (forall rt c, Tree.handler rt = Tree.FunctionHandler 3 ->
         Unnamed.executeMiddleware Examples.handlers rt c
         = (Resolved true, c, []))
      /\ (forall rt c, Legacy.handler rt = Legacy.FunctionHandler 4 ->
            Legacy.executeMiddleware LegacyExamples.handlers rt c
            = (Resolved true, c, []))
      /\ map Tree.routeIndex (Spec.chainSteps (Tree.events d)) = [0]
      /\ Spec.handlerCalls (Tree.events d) = [0]
      /\ Tree.locals (Tree.response (Tree.final d)) = Some ∅
      /\ Spec.handlerCalls (Tree.events d') = [0]
  | _, _ => False
  end.
Proof.
  destruct auto_continue_handler_is_never_called as (HU & HL & _).
  vm_compute Examples.oneMiddleware.
  split; [|split].
  - intros rt c Hrt. apply (HU Examples.handlers rt 3 c Hrt).
    vm_compute. lia.
  - intros rt c Hrt. apply (HL LegacyExamples.handlers rt 4 c Hrt).
    vm_compute. lia.
  - vm_compute. repeat split.
Defined.

(** ** Abort *)

Section UnnamedAbort.
Variable urlMatch : string -> string -> option Params.
Variable handlers : Tree.HandlerId -> Tree.FunctionalHandler.

Lemma Unnamed_runMiddlewares_app (ms1 ms2 : list Tree.MatchingRoute)
  (c : Tree.Ctx) (log : list Tree.Event) :
  Unnamed.runMiddlewares handlers (ms1 ++ ms2) c log
  = match Unnamed.runMiddlewares handlers ms1 c log with
    | (Resolved true, c', log') => Unnamed.runMiddlewares handlers ms2 c' log'
    | r => r
    end.
Proof.
  revert c log. induction ms1 as [|m rest IH]; intros c log; [reflexivity|].
  simpl.
  destruct (Unnamed.executeMiddleware handlers (Tree.route m) c)
    as [[s c'] called].
  destruct s as [[|]|e|]; try reflexivity. apply IH.
Qed.

(** A loop that ends with every middleware successful started all the
    steps. *)
Lemma Unnamed_runMiddlewares_all (ms : list Tree.MatchingRoute)
  (c c' : Tree.Ctx) (log log' : list Tree.Event) :
  Unnamed.runMiddlewares handlers ms c log = (Resolved true, c', log') ->
  Spec.chainSteps log' = Spec.chainSteps log ++ map Tree.route ms.
Proof.
  revert c log. induction ms as [|m rest IH]; intros c log H.
  - simpl in H. injection H as <- <-. simpl. now rewrite app_nil_r.
  - simpl in H.
    pose proof (Unnamed_executeMiddleware_steps handlers (Tree.route m) c)
      as Hc.
    destruct (Unnamed.executeMiddleware handlers (Tree.route m) c)
      as [[s c1] called].
    simpl in Hc.
    destruct s as [[|]|e|]; try discriminate H.
    apply IH in H. rewrite H, chainSteps_app.
    change (Tree.ChainStep (Tree.route m) :: called)
      with ([Tree.ChainStep (Tree.route m)] ++ called).
    rewrite chainSteps_app, Hc. simpl. now rewrite <- app_assoc.
Qed.

(** When the step at some position resolves to [false], the loop ends
    there: the log holds the steps before it and this step, nothing of
    what comes after. *)
Lemma Unnamed_runMiddlewares_abort (ms1 ms2 : list Tree.MatchingRoute)
  (m : Tree.MatchingRoute) (c c1 c2 : Tree.Ctx)
  (log1 called : list Tree.Event) :
  Unnamed.runMiddlewares handlers ms1 c [] = (Resolved true, c1, log1) ->
  Unnamed.executeMiddleware handlers (Tree.route m) c1
  = (Resolved false, c2, called) ->
  Unnamed.runMiddlewares handlers (ms1 ++ m :: ms2) c []
  = (Resolved false, c2, log1 ++ Tree.ChainStep (Tree.route m) :: called).
Proof.
  intros H1 H2. rewrite Unnamed_runMiddlewares_app, H1. simpl.
  now rewrite H2.
Qed.

(** X21.  In the documented revision, a middleware whose continuation is
    called with [false] ends the chain: no later middleware is started,
    the route that would answer is not called, and the dispatch settles
    as [finishResponse] does on the objects this middleware left. *)
Theorem Unnamed_abort_skips_rest (depth : nat) (w : Tree.World)
  (rid : Tree.RouterId) (c c1 c2 : Tree.Ctx)
  (found ms1 ms2 : list Tree.MatchingRoute) (m rh : Tree.MatchingRoute)
  (log1 called : list Tree.Event) :
  Tree.findMatchingRoutes urlMatch depth w rid (Tree.request c)
  = Normal found ->
  head (List.filter (fun m => negb (Tree.isMiddleware (Tree.route m))) found)
  = Some rh ->
  sortBy (fun a b => Tree.routeIndex (Tree.route a)
                     <=? Tree.routeIndex (Tree.route b))
    (List.filter (fun m => negb (Tree.isHandlerRouter (Tree.route m)))
       (List.filter (fun m => Tree.isMiddleware (Tree.route m)) found))
  = ms1 ++ m :: ms2 ->
  Unnamed.runMiddlewares handlers ms1 (Tree.setMatched rh c) []
  = (Resolved true, c1, log1) ->
  Unnamed.executeMiddleware handlers (Tree.route m) c1
  = (Resolved false, c2, called) ->
  let d := Unnamed.processRequest urlMatch handlers depth w rid c in
  d = Tree.settle (Unnamed.finishResponse depth w rid c2)
        (log1 ++ Tree.ChainStep (Tree.route m) :: called)
  /\ Spec.chainSteps (Tree.events d) = map Tree.route (ms1 ++ [m])
  /\ Spec.handlerCalls (Tree.events d)
     = Spec.handlerCalls log1 ++ Spec.handlerCalls called.
Proof.
  intros Hfound Hrh Hsort H1 H2. cbv zeta.
  assert (Hd : Unnamed.processRequest urlMatch handlers depth w rid c
               = Tree.settle (Unnamed.finishResponse depth w rid c2)
                   (log1 ++ Tree.ChainStep (Tree.route m) :: called)).
  { unfold Unnamed.processRequest. rewrite Hfound, Hrh, Hsort.
    now rewrite (Unnamed_runMiddlewares_abort ms1 ms2 m _ c1 c2 log1 called). }
  rewrite Hd. split; [reflexivity|]. rewrite Unnamed_settle_events.
  pose proof (Unnamed_runMiddlewares_all _ _ _ _ _ H1) as Hk.
  simpl in Hk.
  pose proof (Unnamed_executeMiddleware_steps handlers (Tree.route m) c1)
    as Hc.
  rewrite H2 in Hc. simpl in Hc.
  split.
  - rewrite chainSteps_app. 
    change (Tree.ChainStep (Tree.route m) :: called)
      with ([Tree.ChainStep (Tree.route m)] ++ called).
    rewrite chainSteps_app, Hc, map_app, Hk. reflexivity.
  - unfold Spec.handlerCalls. rewrite omap_app. reflexivity.
Qed.

End UnnamedAbort.

(** [router.use("/*", refuse); router.use("/*", mark); router.get("/a",
    h)]: the first middleware calls [next(false)]; the second one and the
    route are not run and the dispatch resolves with the response as it
    stands. *)
Example refusing_middleware_ends_the_chain :
  match Examples.twoMiddlewares 8 5 0 ExampleHost.world with
  | (Normal root, w) =>
      let d := snd (Unnamed.serveRequest ExampleHost.urlMatch
                      Examples.handlers ExampleHost.pathname 1 w root
                      (Examples.incoming "/a")) in
      map Tree.routeIndex (Spec.chainSteps (Tree.events d)) = [0]
      /\ Spec.handlerCalls (Tree.events d) = [8]
      /\ Tree.settled d
         = Resolved {| Tree.built_tasks := [];
                       Tree.built_response :=
                         Some (NewResponse None 200 "OK" ∅) |}
  | _ => False
  end.
Proof. vm_compute. repeat split. Qed.

Section LegacyChain.
Variable urlMatch : string -> string -> option Params.
Variable handlers : Legacy.HandlerId -> Legacy.FunctionalHandler.

Lemma legacyChainSteps_app (a b : list Legacy.Event) :
  Spec.legacyChainSteps (a ++ b)
  = Spec.legacyChainSteps a ++ Spec.legacyChainSteps b.
Proof. unfold Spec.legacyChainSteps. apply omap_app. Qed.

Lemma Legacy_executeMiddleware_steps (rt : Legacy.Route) (c : Legacy.Ctx) :
  Spec.legacyChainSteps (snd (Legacy.executeMiddleware handlers rt c)) = [].
Proof.
  unfold Legacy.executeMiddleware.
  destruct (Legacy.handler rt) as [child|f]; [reflexivity|].
  destruct (Legacy.arity (handlers f) =? 3); reflexivity.
Qed.

(** [executeMiddleware] never rejects: its promise settles only through
    [resolve]. *)
Lemma Legacy_executeMiddleware_never_rejects (rt : Legacy.Route)
  (c : Legacy.Ctx) (e : Error) :
  fst (fst (Legacy.executeMiddleware handlers rt c)) <> Rejected e.
Proof.
  unfold Legacy.executeMiddleware.
  destruct (Legacy.handler rt) as [child|f]; [discriminate|].
  destruct (Legacy.arity (handlers f) =? 3); [|discriminate].
  simpl. destruct (Legacy.calledNext _); discriminate.
Qed.

(** A handler with a continuation parameter that ends without calling
    it, by an exception or otherwise, leaves the step pending. *)
Lemma Legacy_executeMiddleware_pending (rt : Legacy.Route)
  (f : Legacy.HandlerId) (c : Legacy.Ctx) :
  Legacy.handler rt = Legacy.FunctionHandler f ->
  Legacy.arity (handlers f) = 3 ->
  Legacy.calledNext (Legacy.invoke (handlers f) c) = None ->
  Legacy.executeMiddleware handlers rt c
  = (Pending, Legacy.after (Legacy.invoke (handlers f) c),
     [Legacy.HandlerCall f]).
Proof.
  intros Hf Har Hn. unfold Legacy.executeMiddleware.
  now rewrite Hf, Har, Hn.
Qed.

Lemma Legacy_runMiddlewares_app (ms1 ms2 : list Legacy.Matched)
  (c : Legacy.Ctx) (log : list Legacy.Event) :
  Legacy.runMiddlewares handlers (ms1 ++ ms2) c log
  = match Legacy.runMiddlewares handlers ms1 c log with
    | (Resolved true, c', log') => Legacy.runMiddlewares handlers ms2 c' log'
    | r => r
    end.
Proof.
  revert c log. induction ms1 as [|m rest IH]; intros c log; [reflexivity|].
  simpl.
  destruct (Legacy.executeMiddleware handlers (Legacy.route m) c)
    as [[s c'] called].
  destruct s as [[|]|e|]; try reflexivity. apply IH.
Qed.

Lemma Legacy_runMiddlewares_all (ms : list Legacy.Matched)
  (c c' : Legacy.Ctx) (log log' : list Legacy.Event) :
  Legacy.runMiddlewares handlers ms c log = (Resolved true, c', log') ->
  Spec.legacyChainSteps log'
  = Spec.legacyChainSteps log ++ map Legacy.route ms.
Proof.
  revert c log. induction ms as [|m rest IH]; intros c log H.
  - simpl in H. injection H as <- <-. simpl. now rewrite app_nil_r.
  - simpl in H.
    pose proof (Legacy_executeMiddleware_steps (Legacy.route m) c) as Hc.
    destruct (Legacy.executeMiddleware handlers (Legacy.route m) c)
      as [[s c1] called].
    simpl in Hc.
    destruct s as [[|]|e|]; try discriminate H.
    apply IH in H. rewrite H, legacyChainSteps_app.
    change (Legacy.ChainStep (Legacy.route m) :: called)
      with ([Legacy.ChainStep (Legacy.route m)] ++ called).
    rewrite legacyChainSteps_app, Hc. simpl. now rewrite <- app_assoc.
Qed.

(** X22.  In the legacy router, a middleware whose continuation is
    called with [false] ends the chain: no later middleware is started, the route
    that would answer is not called, and the dispatch settles as
    [finishResponse] does. *)
Theorem Legacy_abort_skips_rest (depth : nat) (w : Legacy.World)
  (rid : Legacy.RouterId) (c c1 c2 : Legacy.Ctx)
  (found ms1 ms2 : list Legacy.Matched) (m rh : Legacy.Matched)
  (f : Legacy.HandlerId) (log1 called : list Legacy.Event) :
  Legacy.getMatchingRoutesByPath urlMatch depth w rid
    (Legacy.req_path (Legacy.request c)) [] = Normal found ->
  head (List.filter (fun m => negb (Legacy.isMiddleware (Legacy.route m)))
          found) = Some rh ->
  Legacy.handler (Legacy.route rh) = Legacy.FunctionHandler f ->
  List.filter (fun m => match Legacy.handler (Legacy.route m) with
                        | Legacy.RouterHandler _ => false
                        | Legacy.FunctionHandler _ => true
                        end)
    (List.filter (fun m => Legacy.isMiddleware (Legacy.route m)) found)
  = ms1 ++ m :: ms2 ->
  Legacy.runMiddlewares handlers ms1 c [] = (Resolved true, c1, log1) ->
  Legacy.executeMiddleware handlers (Legacy.route m) c1
  = (Resolved false, c2, called) ->
  let d := Legacy.processRequest urlMatch handlers depth w rid c in
  d = Legacy.settle (Legacy.finishResponse w rid c2)
        (log1 ++ Legacy.ChainStep (Legacy.route m) :: called)
  /\ Spec.legacyChainSteps (Legacy.events d) = map Legacy.route (ms1 ++ [m])
  /\ Spec.legacyHandlerCalls (Legacy.events d)
     = Spec.legacyHandlerCalls log1 ++ Spec.legacyHandlerCalls called.
Proof.
  intros Hfound Hrh Hf Hms H1 H2. cbv zeta.
  assert (Hd : Legacy.processRequest urlMatch handlers depth w rid c
               = Legacy.settle (Legacy.finishResponse w rid c2)
                   (log1 ++ Legacy.ChainStep (Legacy.route m) :: called)).
  { unfold Legacy.processRequest. rewrite Hfound, Hrh, Hf, Hms.
    rewrite Legacy_runMiddlewares_app, H1. simpl. now rewrite H2. }
  rewrite Hd. split; [reflexivity|].
  change (Legacy.events (Legacy.settle _ ?l)) with l.
  pose proof (Legacy_runMiddlewares_all _ _ _ _ _ H1) as Hk. simpl in Hk.
  pose proof (Legacy_executeMiddleware_steps (Legacy.route m) c1) as Hc.
  rewrite H2 in Hc. simpl in Hc.
  split.
  - rewrite legacyChainSteps_app.
    change (Legacy.ChainStep (Legacy.route m) :: called)
      with ([Legacy.ChainStep (Legacy.route m)] ++ called).
    rewrite legacyChainSteps_app, Hc, map_app, Hk. reflexivity.
  - unfold Spec.legacyHandlerCalls. rewrite omap_app. reflexivity.
Qed.

End LegacyChain.

(** C9 at its failing input, in the legacy router:
    [router.use("/*", (req, res, next) => { throw new Error("boom") });
     router.use("/*", second); router.get("/a", h)] and [GET /a].  The
    first middleware is called and throws inside the [async] executor of
    the promise of its step, which therefore never settles: the second
    middleware and the route are not run, but the dispatch stays pending
    and nothing is finalized.  The [catch] and the [instanceof Error]
    test of [processRequest] never see the error.  The documented
    revision does the same. *)
Theorem failing_middleware_leaves_dispatch_pending :
  match LegacyExamples.twoMiddlewares 7 5 0 ExampleHost.legacyWorld,
        Examples.twoMiddlewares 7 5 0 ExampleHost.world with
  | (Normal root, w), (Normal root', w') =>
      let d := Legacy.serveRequest ExampleHost.urlMatch
                 LegacyExamples.handlers ExampleHost.pathname 1 w root
                 (Examples.incoming "/a") in
      let d' := snd (Unnamed.serveRequest ExampleHost.urlMatch
                       Examples.handlers ExampleHost.pathname 1 w' root'
                       (Examples.incoming "/a")) in
      Legacy.settled d = Pending
      /\ map (fun r => Legacy.handler r) (Spec.legacyChainSteps (Legacy.events d))
         = [Legacy.FunctionHandler 7]
      /\ Spec.legacyHandlerCalls (Legacy.events d) = [7]
      /\ Legacy.ended (Legacy.invoke (LegacyExamples.handlers 7)
                         (Legacy.final d)) = Rejected "boom"
      /\ Tree.settled d' = Pending
      /\ Spec.handlerCalls (Tree.events d') = [7]
  | _, _ => False
  end.
Proof. vm_compute. repeat split. Qed.

(** ** The walk of the legacy router *)

Section LegacyWalk.
Variable urlMatch : string -> string -> option Params.
Variable w : Legacy.World.
Variable totalPath : string.

(** The loop keeps what the array holds and adds to it; it adds the
    entry of every function route with fixed path "*", and whatever the
    walk of a mounted router adds. *)
Lemma Legacy_matchLoop_grows
  (recur : Legacy.RouterId -> list Legacy.Matched
           -> Completion (list Legacy.Matched))
  (rs : list Legacy.Route) :
  (forall rt child, In rt rs ->
     Legacy.handler rt = Legacy.RouterHandler child ->
     forall acc, exists l, recur child acc = Normal (acc ++ l)) ->
  forall acc,
  exists l,
    Legacy.matchLoop urlMatch recur totalPath rs acc = Normal (acc ++ l)
    /\ (forall rt f, In rt rs ->
          Legacy.handler rt = Legacy.FunctionHandler f ->
          Legacy.fixed (Legacy.path rt) = "*" ->
          In (Spec.starEntry urlMatch totalPath rt) l)
    /\ (forall mount child x, In mount rs ->
          Legacy.handler mount = Legacy.RouterHandler child ->
          (forall acc', exists l',
             recur child acc' = Normal (acc' ++ l') /\ In x l') ->
          In x l).
Proof.
  induction rs as [|rt rest IH]; intros Hrec acc.
  - exists []. simpl. rewrite app_nil_r.
    split; [reflexivity|]. split; intros; contradiction.
  - assert (Hrest : forall rt0 child, In rt0 rest ->
              Legacy.handler rt0 = Legacy.RouterHandler child ->
              forall acc0, exists l, recur child acc0 = Normal (acc0 ++ l)).
    { intros rt0 child Hin. apply Hrec. now right. }
    specialize (IH Hrest). simpl.
    destruct (Legacy.handler rt) as [child|f] eqn:Hh.
    + destruct (Hrec rt child (or_introl eq_refl) Hh acc) as [l0 Hl0].
      rewrite Hl0.
      destruct (IH (acc ++ l0)) as (l1 & Hl1 & Hstar & Hmount).
      exists (l0 ++ l1). rewrite Hl1, <- app_assoc.
      split; [reflexivity|]. split.
      * intros rt' f [<-|Hin] Hf Hfix; [congruence|].
        apply in_or_app. right. eapply Hstar; eassumption.
      * intros mount child' x [<-|Hin] Hm Hx.
        -- assert (child' = child) by congruence. subst child'.
           destruct (Hx acc) as (l' & Hl' & Hin').
           rewrite Hl0 in Hl'. injection Hl' as Hl'.
           apply app_inv_head in Hl'. subst l'.
           apply in_or_app. now left.
        -- apply in_or_app. right. eapply Hmount; eassumption.
    + unfold Legacy.matchesPath.
      destruct (urlMatch (Legacy.fixed (Legacy.path rt)) totalPath)
        as [checkMatch|] eqn:Hm.
      * destruct (IH (acc ++ [{| Legacy.route := rt;
                                 Legacy.matchData := checkMatch |}]))
          as (l1 & Hl1 & Hstar & Hmount).
        exists ({| Legacy.route := rt; Legacy.matchData := checkMatch |}
                :: l1).
        rewrite Hl1, <- app_assoc. split; [reflexivity|]. split.
        -- intros rt' f' [<-|Hin] Hf Hfix.
           ++ left. unfold Spec.starEntry. rewrite Hfix in Hm. now rewrite Hm.
           ++ right. eapply Hstar; eassumption.
        -- intros mount child x [<-|Hin] Hmo Hx; [congruence|].
           right. eapply Hmount; eassumption.
      * destruct (String.eqb (Legacy.fixed (Legacy.path rt)) "*") eqn:Hs.
        -- destruct (IH (acc ++ [{| Legacy.route := rt;
                                    Legacy.matchData := [] |}]))
             as (l1 & Hl1 & Hstar & Hmount).
           exists ({| Legacy.route := rt; Legacy.matchData := [] |} :: l1).
           rewrite Hl1, <- app_assoc. split; [reflexivity|]. split.
           ++ intros rt' f' [<-|Hin] Hf Hfix.
              ** left. unfold Spec.starEntry. rewrite Hfix in Hm.
                 now rewrite Hm.
              ** right. eapply Hstar; eassumption.
           ++ intros mount child x [<-|Hin] Hmo Hx; [congruence|].
              right. eapply Hmount; eassumption.
        -- destruct (IH acc) as (l1 & Hl1 & Hstar & Hmount).
           exists l1. split; [exact Hl1|]. split.
           ++ intros rt' f' [<-|Hin] Hf Hfix.
              ** rewrite Hfix in Hs. discriminate Hs.
              ** eapply Hstar; eassumption.
           ++ intros mount child x [<-|Hin] Hmo Hx; [congruence|].
              eapply Hmount; eassumption.
Qed.

(** On a tree of routers of height at most [depth] the walk returns; it
    adds to the array the entry of every function route with fixed path
    "*" of the router and of the routers mounted below it. *)
Lemma Legacy_walk_finds_star (n : nat) (rid : Legacy.RouterId) :
  Spec.LegacyRanked w n rid ->
  forall depth, n <= depth ->
  forall acc,
  exists l,
    Legacy.getMatchingRoutesByPath urlMatch depth w rid totalPath acc
    = Normal (acc ++ l)
    /\ (forall rt f, Spec.LegacyReach w rid rt ->
          Legacy.handler rt = Legacy.FunctionHandler f ->
          Legacy.fixed (Legacy.path rt) = "*" ->
          In (Spec.starEntry urlMatch totalPath rt) l).
Proof.
  induction 1 as [n rid r Hlook Hch IH]; intros depth Hd acc.
  destruct depth as [|d]; [lia|]. simpl. rewrite Hlook.
  destruct (Legacy_matchLoop_grows
              (fun child fill =>
                 Legacy.getMatchingRoutesByPath urlMatch d w child
                   totalPath fill)
              (Legacy.routes r)) with (acc := acc)
    as (l & Hl & Hstar & Hmount).
  { intros rt child Hin Hh acc0.
    destruct (IH rt child Hin Hh d ltac:(lia) acc0) as (l0 & Hl0 & _).
    now exists l0. }
  exists l. split; [exact Hl|].
  intros rt f Hreach Hf Hfix.
  destruct Hreach as [rid r' rt Hlook' Hin
                     |rid child r' mount rt Hlook' Hin Hmo Hbelow].
  - assert (r' = r) by congruence. subst r'.
    eapply Hstar; eassumption.
  - assert (r' = r) by congruence. subst r'.
    apply (Hmount mount child); [exact Hin | exact Hmo|].
    intros acc'.
    destruct (IH mount child Hin Hmo d ltac:(lia) acc') as (l' & Hl' & Hs').
    exists l'. split; [exact Hl'|]. eapply Hs'; eassumption.
Qed.

End LegacyWalk.

(** C10, as stated, fails: the entry of a route with fixed path "*" does
    not carry the empty parameter map for every request path.  The walk
    asks the pattern of the route first, and the pattern "*" of
    url-pattern matches "/anything/" and reports the text under "_": for
    [router.get("*", h)] the match set of "/anything/" holds the route
    with the parameters [_ = "/anything/"], and no entry with the empty
    map. *)
Lemma star_route_entry_carries_the_matched_text :
  match LegacyExamples.starRoute 0 ExampleHost.legacyWorld with
  | (Normal root, w) =>
      exists rt,
        (Legacy.routes <$> Legacy.routers w !! root) = Some [rt]
        /\ Legacy.fixed (Legacy.path rt) = "*"
        /\ Legacy.getMatchingRoutesByPath ExampleHost.urlMatch 1 w root
             "/anything/" []
           = Normal [{| Legacy.route := rt;
                        Legacy.matchData := [("_", "/anything/")] |}]
        /\ ~ In {| Legacy.route := rt; Legacy.matchData := [] |}
               [{| Legacy.route := rt;
                   Legacy.matchData := [("_", "/anything/")] |}]
  | _ => False
  end.
Proof.
  destruct (LegacyExamples.starRoute 0 ExampleHost.legacyWorld)
    as [[root|e] w] eqn:E; vm_compute in E; [|discriminate E].
  injection E as <- <-.
  eexists. split; [vm_compute; reflexivity|].
  split; [reflexivity|]. split; [vm_compute; reflexivity|].
  intros [H|[]]. discriminate H.
Qed.

(** C10, amended: in the legacy router, a function route whose fixed path
    is exactly "*", in the router that serves or in a router mounted
    below it, is in the match set of every request path: with the
    parameters that its pattern reports when the pattern matches, and
    with the empty parameter map only when the pattern fails.  So it is
    among the matches by path and method of every request whose method
    is the route's, and of every request when the route's method is ANY.
    (The router tree has a finite height, within the call stack.) *)
Theorem star_route_matches_every_path
  (urlMatch : string -> string -> option Params) (w : Legacy.World)
  (n depth : nat) (rid : Legacy.RouterId) (rt : Legacy.Route)
  (f : Legacy.HandlerId) (totalPath : string) :
  Spec.LegacyRanked w n rid -> n <= depth ->
  Spec.LegacyReach w rid rt ->
  Legacy.handler rt = Legacy.FunctionHandler f ->
  Legacy.fixed (Legacy.path rt) = "*" ->
  exists found,
    Legacy.getMatchingRoutesByPath urlMatch depth w rid totalPath []
    = Normal found
    /\ In (Spec.starEntry urlMatch totalPath rt) found
    /\ (forall params, urlMatch "*" totalPath = Some params ->
        In {| Legacy.route := rt; Legacy.matchData := params |} found)
    /\ (urlMatch "*" totalPath = None ->
        In {| Legacy.route := rt; Legacy.matchData := [] |} found)
    /\ (forall m : string,
          Legacy.method rt = ANY \/ methodName (Legacy.method rt) = m ->
          exists byMethod,
            Legacy.getMatchingRoutesByPathAndMethod urlMatch depth w rid
              totalPath m = Normal byMethod
            /\ In (Spec.starEntry urlMatch totalPath rt) byMethod).
Proof.
  intros Hrank Hd Hreach Hf Hfix.
  destruct (Legacy_walk_finds_star urlMatch w totalPath n rid Hrank depth Hd [])
    as (l & Hl & Hstar).
  simpl in Hl. exists l. split; [exact Hl|].
  pose proof (Hstar rt f Hreach Hf Hfix) as Hin.
  split; [exact Hin|]. split; [|split].
  - intros params Hsome. unfold Spec.starEntry in Hin.
    now rewrite Hsome in Hin.
  - intros Hnone. unfold Spec.starEntry in Hin. now rewrite Hnone in Hin.
  - intros m Hm. unfold Legacy.getMatchingRoutesByPathAndMethod.
    rewrite Hl. eexists. split; [reflexivity|].
    apply filter_In. split; [exact Hin|].
    apply existsb_exists. cbn [Spec.starEntry Legacy.route].
    destruct Hm as [Hany|Hm].
    + exists "ANY". split; [right; left; reflexivity|].
      now rewrite Hany.
    + exists m. split; [left; reflexivity|].
      rewrite Hm. apply String.eqb_refl.
Qed.

(** [router.get("*", h)] on a fresh router has fixed path "*"; its route
    is matched for "/anything/" with what the pattern reports. *)
Lemma star_route_matches_every_path_witness :
  match LegacyExamples.starRoute 0 ExampleHost.legacyWorld with
  | (Normal root, w) =>
      match Legacy.routes <$> Legacy.routers w !! root with
      | Some [rt] =>
          Legacy.rawInput (Legacy.path rt) = "*"
          /\ Legacy.fixed (Legacy.path rt) = "*"
          /\ Legacy.isMiddleware rt = false
          /\ exists found,
               Legacy.getMatchingRoutesByPath ExampleHost.urlMatch 1 w
                 root "/anything/" [] = Normal found
               /\ In {| Legacy.route := rt;
                        Legacy.matchData := [("_", "/anything/")] |} found
      | _ => False
      end
  | _ => False
  end.
Proof.
  destruct (LegacyExamples.starRoute 0 ExampleHost.legacyWorld)
    as [[root|e] w] eqn:E;
    vm_compute in E; [|discriminate E].
  injection E as <- <-.
  match goal with
  | |- context [Legacy.routers ?W !! 0] => set (w := W)
  end.
  destruct (Legacy.routers w !! 0) as [r|] eqn:Hlook;
    vm_compute in Hlook; [|discriminate Hlook].
  injection Hlook as <-.
  cbn [fmap option_fmap option_map Legacy.routes].
  split; [reflexivity|]. split; [reflexivity|]. split; [reflexivity|].
  match goal with
  | |- exists found, _ /\ In {| Legacy.route := ?RT |} found =>
      set (rt := RT)
  end.
  destruct (star_route_matches_every_path ExampleHost.urlMatch w 1 1 0
              rt 0 "/anything/") as (found & Hfound & _ & Hsome & _).
  - eapply Spec.legacy_ranked_router; [vm_compute; reflexivity|].
    intros rt' child [<-|[]] Hh. discriminate Hh.
  - lia.
  - eapply Spec.legacy_reach_here; [vm_compute; reflexivity|].
    left. reflexivity.
  - reflexivity.
  - reflexivity.
  - exists found. split; [exact Hfound|]. apply Hsome. reflexivity.
Defined.

(** ** End-to-end scenarios *)

(** The scenarios of the README and of the tests, in the documented
    revision on the example host: a route answers with its text; a
    mounted route answers with JSON; a middleware for "/*" marks the
    response before the route reads the mark; a redirect is built from
    its target and status; a request for a missing route is rejected. *)
Example end_to_end_scenarios :
  match Examples.site ExampleHost.world with
  | (Normal root, w) =>
      let serve p :=
        Tree.settled
          (snd (Unnamed.serveRequest ExampleHost.urlMatch Examples.handlers
                  ExampleHost.pathname 2 w root (Examples.incoming p))) in
      let ok b ct :=
        Resolved {| Tree.built_tasks := [];
                    Tree.built_response :=
                      Some (NewResponse (Some b) 200 "OK"
                              {["content-type" := ct]}) |} in
      serve "/" = ok "done" "text/plain"
      /\ serve "/api/time" = ok "[true]" "application/json"
      /\ serve "/api/time/?a=1" = ok "[true]" "application/json"
      /\ serve "/has-touched" = ok "yes" "text/plain"
      /\ serve "/old"
         = Resolved {| Tree.built_tasks := [];
                       Tree.built_response :=
                         Some (ResponseRedirect (Some "https://x/new")
                                 (Some 301%Z)) |}
      /\ serve "/missing"
         = Rejected "Could not find a response handler for the request!"
  | _ => False
  end.
Proof. vm_compute. repeat split. Qed.

(** ** No route answers *)

Section NoRoute.
Variable urlMatch : string -> string -> option Params.

Lemma Unnamed_processRequest_no_terminal
  (handlers : Tree.HandlerId -> Tree.FunctionalHandler)
  (depth : nat) (w : Tree.World) (rid : Tree.RouterId) (c : Tree.Ctx)
  (found : list Tree.MatchingRoute) :
  Tree.findMatchingRoutes urlMatch depth w rid (Tree.request c)
  = Normal found ->
  List.filter (fun m => negb (Tree.isMiddleware (Tree.route m))) found = [] ->
  Unnamed.processRequest urlMatch handlers depth w rid c
  = {| Tree.settled :=
         Rejected "Could not find a response handler for the request!";
       Tree.final := c; Tree.events := [] |}.
Proof.
  intros Hfound Hnone. unfold Unnamed.processRequest.
  now rewrite Hfound, Hnone.
Qed.

Lemma RouterDir_processRequest_no_terminal
  (handlers : Tree.HandlerId -> Tree.FunctionalHandler)
  (depth : nat) (w : Tree.World) (rid : Tree.RouterId) (c : Tree.Ctx)
  (found : list Tree.MatchingRoute) :
  Tree.findMatchingRoutes urlMatch depth w rid (Tree.request c)
  = Normal found ->
  List.filter (fun m => negb (Tree.isMiddleware (Tree.route m))) found = [] ->
  RouterDir.processRequest urlMatch handlers depth w rid c
  = {| Tree.settled :=
         Rejected "Could not find a response handler for the request!";
       Tree.final := c; Tree.events := [] |}.
Proof.
  intros Hfound Hnone. unfold RouterDir.processRequest.
  now rewrite Hfound, Hnone.
Qed.

Lemma Legacy_processRequest_not_found
  (handlers : Legacy.HandlerId -> Legacy.FunctionalHandler)
  (depth : nat) (w : Legacy.World) (rid : Legacy.RouterId) (c : Legacy.Ctx)
  (found : list Legacy.Matched) (r : Legacy.Router) :
  Legacy.getMatchingRoutesByPath urlMatch depth w rid
    (Legacy.req_path (Legacy.request c)) [] = Normal found ->
  List.filter (fun m => negb (Legacy.isMiddleware (Legacy.route m))) found
  = [] ->
  Legacy.routers w !! rid = Some r ->
  Legacy.customResponseBuilder r = None ->
  Legacy.res_router (Legacy.response c) = rid ->
  type (Legacy.responseOptions (Legacy.response c)) = normal ->
  let notFound :=
    normalResponse (Spec.notFound (Legacy.responseOptions
                                     (Legacy.response c))) in
  Legacy.processRequest urlMatch handlers depth w rid c
  = {| Legacy.settled :=
         match responseError (Legacy.host w) notFound with
         | None =>
             Resolved
               {| Legacy.built_tasks :=
                    tasks (Legacy.responseOptions (Legacy.response c));
                  Legacy.built_response := Some notFound |}
         | Some e => Rejected e
         end;
       Legacy.final := Legacy.onOptions Spec.notFound c;
       Legacy.events := [] |}.
Proof.
  intros Hfound Hnone Hr Hb Hrid Hty notFound. unfold Legacy.processRequest.
  rewrite Hfound, Hnone. cbn [List.hd_error].
  change (Legacy.onOptions (text "Error 404 - not found!")
            (Legacy.onOptions (setStatus "Not found")
               (Legacy.onOptions (setStatusCode 404) c)))
    with (Legacy.onOptions Spec.notFound c).
  assert (Hty' : type (Spec.notFound (Legacy.responseOptions
                                        (Legacy.response c))) = normal)
    by exact Hty.
  unfold Legacy.settle, Legacy.finishResponse, Legacy.build.
  cbn [Legacy.onOptions Legacy.response Legacy.res_router
       Legacy.responseOptions].
  rewrite Hrid, Hr, Hb, Hty'. unfold construct. fold notFound.
  destruct (responseError (Legacy.host w) notFound); [reflexivity|].
  reflexivity.
Qed.

End NoRoute.

(** C2, as stated, fails on the router revisions: with one route for
    "/a", [GET /missing] makes [serveRequest] reject with an [Error], in
    [src/router] and in the documented revision; no 404 response is
    built. *)
Lemma no_route_rejects_in_router_revisions :
  match Examples.oneRoute 0 ExampleHost.world with
  | (Normal root, w) =>
      Tree.settled
        (snd (Unnamed.serveRequest ExampleHost.urlMatch Examples.handlers
                ExampleHost.pathname 1 w root (Examples.incoming "/missing")))
      = Rejected "Could not find a response handler for the request!"
      /\ Tree.settled
           (snd (RouterDir.serveRequest ExampleHost.urlMatch Examples.handlers
                   ExampleHost.pathname 1 w root
                   (Examples.incoming "/missing")))
         = Rejected "Could not find a response handler for the request!"
  | _ => False
  end.
Proof. vm_compute. split; reflexivity. Qed.

(** C2, amended: when no route that is not a middleware matches, the
    legacy router, serving a tree of finite height without a custom
    response builder, resolves to an artifact whose response has status
    404, status text "Not found", the plain-text body
    "Error 404 - not found!" and no background task, and runs no handler
    (were the host to refuse that response, the error of its constructor
    would reject the dispatch); the dispatchers of [src/router] and of
    the documented revision reject with the error "Could not find a
    response handler for the request!". *)
Theorem no_route_answers_404_in_legacy_only
  (urlMatch : string -> string -> option Params) :
  (forall (handlers : Legacy.HandlerId -> Legacy.FunctionalHandler)
          (pathname : string -> option string) (w : Legacy.World)
          (n depth : nat) (rid : Legacy.RouterId) (r : Legacy.Router)
          (incoming : IncomingRequest) (p : string),
     Spec.LegacyRanked w n rid -> n <= depth ->
     Legacy.routers w !! rid = Some r ->
     Legacy.customResponseBuilder r = None ->
     pathname (fixRequestUrl (in_url incoming)) = Some p ->
     (forall found,
        Legacy.getMatchingRoutesByPath urlMatch depth w rid p [] = Normal found ->
        List.filter (fun m => negb (Legacy.isMiddleware (Legacy.route m)))
          found = []) ->
     let d := Legacy.serveRequest urlMatch handlers pathname depth w rid
                incoming in
     let notFound := NewResponse (Some "Error 404 - not found!") 404
                       "Not found" {["content-type" := "text/plain"]} in
     Legacy.settled d
     = match responseError (Legacy.host w) notFound with
       | None =>
           Resolved {| Legacy.built_tasks := [];
                       Legacy.built_response := Some notFound |}
       | Some e => Rejected e
       end
     /\ Legacy.events d = [])
  /\ (forall (handlers : Tree.HandlerId -> Tree.FunctionalHandler)
             (depth : nat) (w : Tree.World) (rid : Tree.RouterId)
             (c : Tree.Ctx) (found : list Tree.MatchingRoute),
        Tree.findMatchingRoutes urlMatch depth w rid (Tree.request c)
        = Normal found ->
        List.filter (fun m => negb (Tree.isMiddleware (Tree.route m))) found
        = [] ->
        Tree.settled (Unnamed.processRequest urlMatch handlers depth w rid c)
        = Rejected "Could not find a response handler for the request!"
        /\ Tree.settled
             (RouterDir.processRequest urlMatch handlers depth w rid c)
           = Rejected "Could not find a response handler for the request!").
Proof.
  split.
  - intros handlers pathname w n depth rid r incoming p
      Hrank Hd Hr Hb Hp Hnone. cbv zeta.
    destruct (Legacy_walk_finds_star urlMatch w p n rid Hrank depth Hd [])
      as (found & Hfound & _).
    simpl in Hfound.
    unfold Legacy.serveRequest, Legacy.newRouterRequest. rewrite Hp.
    erewrite Legacy_processRequest_not_found;
      [ | exact Hfound | exact (Hnone found Hfound) | exact Hr | exact Hb
        | reflexivity | reflexivity ].
    split; reflexivity.
  - intros handlers depth w rid c found Hfound Hnone.
    rewrite (Unnamed_processRequest_no_terminal urlMatch handlers depth w
               rid c found Hfound Hnone).
    rewrite (RouterDir_processRequest_no_terminal urlMatch handlers depth w
               rid c found Hfound Hnone).
    split; reflexivity.
Qed.

(** [router.get("/a", h)] and [GET /missing]: 404 from the legacy
    router, a rejection from the documented revision. *)
Lemma no_route_answers_404_in_legacy_only_witness :
  match LegacyExamples.oneRoute 0 ExampleHost.legacyWorld,
        Examples.oneRoute 0 ExampleHost.world with
  | (Normal root, w), (Normal root', w') =>
      Legacy.settled
        (Legacy.serveRequest ExampleHost.urlMatch LegacyExamples.handlers
           ExampleHost.pathname 1 w root (Examples.incoming "/missing"))
      = Resolved
          {| Legacy.built_tasks := [];
             Legacy.built_response :=
               Some (NewResponse (Some "Error 404 - not found!") 404
                       "Not found" {["content-type" := "text/plain"]}) |}
      /\ forall c,
           Tree.req_path (Tree.request c) = "/missing/" ->
           Tree.settled
             (Unnamed.processRequest ExampleHost.urlMatch Examples.handlers
                1 w' root' c)
           = Rejected "Could not find a response handler for the request!"
  | _, _ => False
  end.
Proof.
  destruct (no_route_answers_404_in_legacy_only ExampleHost.urlMatch)
    as [HL HT].
  destruct (LegacyExamples.oneRoute 0 ExampleHost.legacyWorld) as [[root|e] w] eqn:E;
    vm_compute in E; [|discriminate E].
  injection E as <- <-.
  destruct (Examples.oneRoute 0 ExampleHost.world) as [[root'|e'] w'] eqn:E';
    vm_compute in E'; [|discriminate E'].
  injection E' as <- <-.
  split.
  - match goal with
    | |- context [Legacy.serveRequest _ _ _ _ ?W] => set (w := W)
    end.
    eapply (HL LegacyExamples.handlers ExampleHost.pathname w 1 1 0 _
              (Examples.incoming "/missing") "/missing/").
    + eapply Spec.legacy_ranked_router; [vm_compute; reflexivity|].
      intros rt child [<-|[]] Hh. discriminate Hh.
    + lia.
    + vm_compute. reflexivity.
    + reflexivity.
    + vm_compute. reflexivity.
    + intros found Hfound. vm_compute in Hfound.
      injection Hfound as <-. reflexivity.
  - intros [[u p me hs mp mr] res] Hp. simpl in Hp. subst p.
    eapply HT; [vm_compute; reflexivity | reflexivity].
Defined.

(** ** What [serveRequest] resolves to *)

Section ServeRequest.
Variable urlMatch : string -> string -> option Params.
Variable handlers : Tree.HandlerId -> Tree.FunctionalHandler.
Variable pathname : string -> option string.



End ServeRequest.




(** ** The main router *)

(** [assignSelfAsMainRouter] succeeds on every router whose [mainRouter]
    field is [null], and no statement of the program assigns that field:
    it only sets [isMainRouter]. *)
Lemma assignSelfAsMainRouter_succeeds (w : Tree.World) (rid : Tree.RouterId)
  (r : Tree.Router) :
  Tree.routers w !! rid = Some r ->
  Tree.mainRouter r = None ->
  Tree.assignSelfAsMainRouter rid w
  = (Normal tt, snd (Tree.setRouter rid (Tree.withIsMainRouter true r) w)).
Proof.
  intros Hr Hm.
  unfold Tree.assignSelfAsMainRouter, mbind, Js_bind, bind, Tree.getRouter.
  now rewrite Hr, Hm.
Qed.

Lemma keeps_ret {A} (a : A) (Q : A -> Prop) :
  Q a -> Spec.keeps (mret a) Q.
Proof.
  intros Ha w Hw. split; [exact Hw|]. intros a' Heq.
  injection Heq as <-. exact Ha.
Qed.

Lemma keeps_throw {A} (e : Error) (Q : A -> Prop) :
  Spec.keeps (throw e) Q.
Proof. intros w Hw. split; [exact Hw|]. intros a Heq. discriminate Heq. Qed.

Lemma keeps_bind {A B} (c : Tree.M A) (k : A -> Tree.M B)
  (Q : A -> Prop) (R : B -> Prop) :
  Spec.keeps c Q -> (forall a, Q a -> Spec.keeps (k a) R) ->
  Spec.keeps (c ≫= k) R.
Proof.
  intros Hc Hk w Hw. unfold mbind, Js_bind, bind.
  destruct (Hc w Hw) as [Hw' Hq].
  destruct (c w) as [[a|e] w']; simpl in *.
  - apply (Hk a (Hq a eq_refl) w' Hw').
  - split; [exact Hw'|]. intros b Heq. discriminate Heq.
Qed.

Lemma keeps_weaken {A} (c : Tree.M A) (Q R : A -> Prop) :
  Spec.keeps c Q -> (forall a, Q a -> R a) -> Spec.keeps c R.
Proof.
  intros Hc HQR w Hw. destruct (Hc w Hw) as [Hw' Hq].
  split; [exact Hw'|]. intros a Ha. apply HQR, Hq, Ha.
Qed.

Lemma keeps_getRouter (rid : Tree.RouterId) :
  Spec.keeps (Tree.getRouter rid) (fun r => Tree.mainRouter r = None).
Proof.
  intros w Hw. unfold Tree.getRouter.
  destruct (Tree.routers w !! rid) as [r|] eqn:Hr; simpl.
  - split; [exact Hw|]. intros a Heq. injection Heq as <-.
    exact (Hw rid r Hr).
  - split; [exact Hw|]. intros a Heq. discriminate Heq.
Qed.

Lemma keeps_setRouter (rid : Tree.RouterId) (r : Tree.Router) :
  Tree.mainRouter r = None ->
  Spec.keeps (Tree.setRouter rid r) (fun _ => True).
Proof.
  intros Hr w Hw. split; [|trivial].
  intros rid' r' Hlook. cbn [Tree.setRouter snd Tree.routers] in Hlook.
  destruct (decide (rid = rid')) as [<-|Hne].
  - rewrite lookup_insert_eq in Hlook. injection Hlook as <-. exact Hr.
  - rewrite lookup_insert_ne in Hlook by exact Hne. exact (Hw rid' r' Hlook).
Qed.

Lemma keeps_allocRouter (r : Tree.Router) :
  Tree.mainRouter r = None ->
  Spec.keeps (Tree.allocRouter r) (fun _ => True).
Proof.
  intros Hr w Hw. split; [|trivial].
  intros rid' r' Hlook. cbn [Tree.allocRouter snd Tree.routers] in Hlook.
  destruct (decide (Tree.nextRouter w = rid')) as [<-|Hne].
  - rewrite lookup_insert_eq in Hlook. injection Hlook as <-. exact Hr.
  - rewrite lookup_insert_ne in Hlook by exact Hne. exact (Hw rid' r' Hlook).
Qed.

Lemma keeps_postIncrementRouteIndex :
  Spec.keeps Tree.postIncrementRouteIndex (fun _ => True).
Proof. intros w Hw. split; [exact Hw | trivial]. Qed.

Lemma keeps_forEach {A B} (f : A -> Tree.M B) (l : list A) :
  (forall x, Spec.keeps (f x) (fun _ => True)) ->
  Spec.keeps (forEach f l) (fun _ => True).
Proof.
  intros Hf. induction l as [|x xs IH]; simpl.
  - now apply keeps_ret.
  - eapply keeps_bind; [apply Hf|]. intros y _.
    eapply keeps_bind; [apply IH|]. intros ys _. now apply keeps_ret.
Qed.

Ltac keeps_step :=
  first
    [ eapply keeps_bind; [apply keeps_getRouter|]; intros ? ?
    | eapply keeps_bind; [apply keeps_setRouter; assumption|]; intros ? _
    | apply keeps_setRouter; assumption
    | apply keeps_ret; trivial
    | apply keeps_throw ].

Lemma keeps_newUrlPattern (path : string) :
  Spec.keeps (Tree.newUrlPattern path) (fun _ => True).
Proof.
  intros w Hw. unfold Tree.newUrlPattern.
  destruct (patternError (Tree.host w) path); split; trivial.
Qed.

Lemma keeps_newRoute (rid : Tree.RouterId) (options : Tree.RouteOptions) :
  Spec.keeps (Tree.newRoute rid options) (fun _ => True).
Proof.
  unfold Tree.newRoute, Tree.fixPath.
  eapply keeps_bind.
  { eapply keeps_bind; [apply keeps_getRouter|]. intros r _.
    apply keeps_ret with (Q := fun _ => True). trivial. }
  intros fixed _. eapply keeps_bind; [apply keeps_newUrlPattern|].
  intros _ _. eapply keeps_bind with (Q := fun _ => True).
  { destruct (Tree.opt_routeIndex options) as [[|n]|];
      [apply keeps_postIncrementRouteIndex | now apply keeps_ret
      | apply keeps_postIncrementRouteIndex]. }
  intros index _. now apply keeps_ret.
Qed.

Lemma keeps_createRouteAndAdd (rid : Tree.RouterId)
  (options : Tree.RouteOptions) :
  Spec.keeps (Tree.createRouteAndAdd rid options) (fun _ => True).
Proof.
  unfold Tree.createRouteAndAdd, Tree.createRoute.
  eapply keeps_bind; [apply keeps_newRoute|]. intros rt _.
  repeat keeps_step.
Qed.

Lemma keeps_updateSelfRoutes (rid : Tree.RouterId) :
  Spec.keeps (Tree.updateSelfRoutes rid) (fun _ => True).
Proof.
  unfold Tree.updateSelfRoutes. keeps_step.
  eapply keeps_bind.
  { apply keeps_forEach. intros old. apply keeps_newRoute. }
  intros newRoutes _. repeat keeps_step.
Qed.

Lemma keeps_init (rid : Tree.RouterId) (newBasePath : string)
  (parent : option Tree.RouterId) :
  Spec.keeps (Unnamed.init rid newBasePath parent) (fun _ => True)
  /\ Spec.keeps (RouterDir.init rid newBasePath parent) (fun _ => True).
Proof.
  split.
  - unfold Unnamed.init, Tree.fixPath. do 2 keeps_step.
    eapply keeps_bind with (Q := fun _ => True).
    { keeps_step. keeps_step. }
    intros fixed _. do 4 keeps_step. apply keeps_updateSelfRoutes.
  - unfold RouterDir.init, Tree.fixPath. do 2 keeps_step.
    eapply keeps_bind with (Q := fun _ => True).
    { keeps_step. keeps_step. }
    intros fixed _. repeat keeps_step.
Qed.

Lemma keeps_use (rid : Tree.RouterId) (args : Tree.UseArgs) :
  Spec.keeps (Unnamed.use rid args) (fun _ => True)
  /\ Spec.keeps (RouterDir.use rid args) (fun _ => True).
Proof.
  assert (Hinit : forall (h : Tree.RouteHandler) (p : string),
            Spec.keeps
              (match h with
               | Tree.RouterHandler child => Unnamed.init child p (Some rid)
               | Tree.FunctionHandler _ => mret tt
               end) (fun _ => True)
            /\ Spec.keeps
                 (match h with
                  | Tree.RouterHandler child =>
                      RouterDir.init child p (Some rid)
                  | Tree.FunctionHandler _ => mret tt
                  end) (fun _ => True)).
  { intros [child|f] p; [apply keeps_init|].
    split; now apply keeps_ret. }
  split.
  - unfold Unnamed.use, Tree.fixPath.
    eapply keeps_bind with (Q := fun _ => True).
    { keeps_step. keeps_step. }
    intros usePath _. eapply keeps_bind with (Q := fun _ => True).
    { apply Hinit. }
    intros _ _. eapply keeps_bind; [apply keeps_createRouteAndAdd|].
    intros _ _. now apply keeps_ret.
  - unfold RouterDir.use.
    eapply keeps_bind with (Q := fun _ => True).
    { apply Hinit. }
    intros _ _. eapply keeps_bind; [apply keeps_createRouteAndAdd|].
    intros _ _. now apply keeps_ret.
Qed.

Lemma keeps_addFor (m : Methods) (rid : Tree.RouterId) (p : string)
  (h : Tree.RouteHandler) :
  Spec.keeps (Tree.addFor m rid p h) (fun _ => True).
Proof.
  unfold Tree.addFor.
  eapply keeps_bind; [apply keeps_createRouteAndAdd|].
  intros _ _. now apply keeps_ret.
Qed.

Lemma keeps_assignSelfAsMainRouter (rid : Tree.RouterId) :
  Spec.keeps (Tree.assignSelfAsMainRouter rid) (fun _ => True).
Proof.
  unfold Tree.assignSelfAsMainRouter. keeps_step.
  destruct (Tree.mainRouter a) eqn:Hm; [apply keeps_throw|].
  now apply keeps_setRouter.
Qed.

(** X23.  No call of the registration interface, and no [serveRequest],
    ever assigns the field [mainRouter]: starting from no routers, it is
    [null] in every router, and [assignSelfAsMainRouter] never throws. *)
Theorem mainRouter_is_never_assigned :
  (forall host, Spec.NoMainRef (Tree.emptyWorld host))
  /\ (forall options,
        Spec.keeps (Unnamed.newRouter options) (fun _ => True)
        /\ Spec.keeps (RouterDir.newRouter options) (fun _ => True))
  /\ (forall rid args,
        Spec.keeps (Unnamed.use rid args) (fun _ => True)
        /\ Spec.keeps (RouterDir.use rid args) (fun _ => True))
  /\ (forall m rid p h, Spec.keeps (Tree.addFor m rid p h) (fun _ => True))
  /\ (forall urlMatch handlers pathname depth w rid incoming,
        Spec.NoMainRef w ->
        Spec.NoMainRef
          (fst (Unnamed.serveRequest urlMatch handlers pathname depth w rid
                  incoming))
        /\ Spec.NoMainRef
             (fst (RouterDir.serveRequest urlMatch handlers pathname depth w
                     rid incoming)))
  /\ (forall w rid r,
        Spec.NoMainRef w -> Tree.routers w !! rid = Some r ->
        fst (Tree.assignSelfAsMainRouter rid w) = Normal tt).
Proof.
  split; [|split; [|split; [|split; [|split]]]].
  - intros host rid r Hr. unfold Tree.emptyWorld in Hr.
    cbn [Tree.routers] in Hr. rewrite lookup_empty in Hr. discriminate Hr.
  - intros options. split; apply keeps_allocRouter; reflexivity.
  - exact keeps_use.
  - exact keeps_addFor.
  - intros urlMatch handlers pathname depth w rid incoming Hw.
    unfold Unnamed.serveRequest, RouterDir.serveRequest.
    destruct (Tree.routers w !! rid) as [r|] eqn:Hr; [|split; exact Hw].
    pose proof (keeps_assignSelfAsMainRouter rid w Hw) as [Hw' _].
    split.
    + destruct (negb (bool_decide (is_Some (Tree.mainRouter r)))
                && negb (Tree.isMainRouter r)).
      * destruct (Tree.assignSelfAsMainRouter rid w) as [[[]|e] w'];
          [|exact Hw'].
        destruct (Unnamed.newRouterRequest pathname incoming); exact Hw'.
      * destruct (Unnamed.newRouterRequest pathname incoming); exact Hw.
    + destruct (negb (Tree.isMainRouter r)).
      * destruct (Tree.assignSelfAsMainRouter rid w) as [[[]|e] w'];
          [|exact Hw'].
        destruct (RouterDir.newRouterRequest pathname incoming); exact Hw'.
      * destruct (RouterDir.newRouterRequest pathname incoming); exact Hw.
  - intros w rid r Hw Hr.
    now rewrite (assignSelfAsMainRouter_succeeds w rid r Hr (Hw rid r Hr)).
Qed.

(** A router that is already main is not assigned again: [serveRequest]
    leaves the routers as they are (the functions of the program may
    have changed its variables). *)
Lemma serveRequest_assigns_once
  (urlMatch : string -> string -> option Params)
  (handlers : Tree.HandlerId -> Tree.FunctionalHandler)
  (pathname : string -> option string) (depth : nat) (w : Tree.World)
  (rid : Tree.RouterId) (r : Tree.Router) (incoming : IncomingRequest) :
  Tree.routers w !! rid = Some r ->
  Tree.isMainRouter r = true ->
  Tree.routers
    (fst (Unnamed.serveRequest urlMatch handlers pathname depth w rid
            incoming))
  = Tree.routers w
  /\ Tree.routers
       (fst (RouterDir.serveRequest urlMatch handlers pathname depth w rid
               incoming))
     = Tree.routers w.
Proof.
  intros Hr Hmain.
  unfold Unnamed.serveRequest, RouterDir.serveRequest.
  rewrite Hr, Hmain. rewrite andb_false_r. cbn [negb].
  destruct (Unnamed.newRouterRequest pathname incoming);
    destruct (RouterDir.newRouterRequest pathname incoming);
    split; reflexivity.
Qed.

(** C6 at its failing input: [root.use("/api", sub)], then
    [root.serveRequest(...)] and [sub.serveRequest(...)].  The second
    call marks [sub] as main although [root], its parent, is main
    already: the tree then has two routers with [isMainRouter = true],
    and no error was raised (the second dispatch resolves).  A direct
    call of [sub.assignSelfAsMainRouter()] returns as well.  The same
    happens in [src/router]. *)
Theorem second_router_becomes_main_without_error :
  match Examples.rootAndSub ExampleHost.world,
        Examples.rootAndSubRouterDir ExampleHost.world with
  | (Normal (root, sub), w), (Normal (root', sub'), w') =>
      let s1 := Unnamed.serveRequest ExampleHost.urlMatch Examples.handlers
                  ExampleHost.pathname 2 w root (Examples.incoming "/api/a") in
      let s2 := Unnamed.serveRequest ExampleHost.urlMatch Examples.handlers
                  ExampleHost.pathname 2 (fst s1) sub
                  (Examples.incoming "/api/a") in
      let t1 := RouterDir.serveRequest ExampleHost.urlMatch Examples.handlers
                  ExampleHost.pathname 2 w' root'
                  (Examples.incoming "/api/a") in
      let t2 := RouterDir.serveRequest ExampleHost.urlMatch Examples.handlers
                  ExampleHost.pathname 2 (fst t1) sub'
                  (Examples.incoming "/api/a") in
      (Tree.parentRouter <$> Tree.routers (fst s2) !! sub) = Some (Some root)
      /\ (Tree.isMainRouter <$> Tree.routers (fst s1) !! root) = Some true
      /\ (Tree.isMainRouter <$> Tree.routers (fst s2) !! root) = Some true
      /\ (Tree.isMainRouter <$> Tree.routers (fst s2) !! sub) = Some true
      /\ Tree.settled (snd s2)
         = Resolved {| Tree.built_tasks := [];
                       Tree.built_response :=
                         Some (NewResponse (Some "done") 200 "OK"
                                 {["content-type" := "text/plain"]}) |}
      /\ fst (Tree.assignSelfAsMainRouter sub (fst s1)) = Normal tt
      /\ (Tree.isMainRouter <$> Tree.routers (fst t2) !! root') = Some true
      /\ (Tree.isMainRouter <$> Tree.routers (fst t2) !! sub') = Some true
      /\ Tree.settled (snd t2) = Tree.settled (snd s2)
  | _, _ => False
  end.
Proof. vm_compute. repeat split. Qed.

(** ** Building the response twice *)

(** C8, as stated, fails: [build] has no guard against a second call and
    calls the configured response builder each time.  With a builder that
    counts its calls in a variable of its own, the first [build] on a new
    response returns a response with status 200 and the second, on the
    same request and response objects, which the builder did not touch,
    one with status 201; neither raises an error.  One dispatch already
    calls the builder twice ([build], then [finishResponse]): its
    artifact carries status 201. *)
Lemma second_build_differs_with_builder :
  match LegacyExamples.withBuilder LegacyExamples.countingBuilder 0
          ExampleHost.legacyWorld with
  | (Normal root, w) =>
      let c := LegacyExamples.fresh root "/a/" in
      let b1 := Legacy.build w c in
      let b2 := Legacy.build w (snd b1) in
      fst b1 = Normal {| Legacy.built_tasks := [];
                         Legacy.built_response :=
                           Some (NewResponse None 200 "" ∅) |}
      /\ Legacy.request (snd b1) = Legacy.request c
      /\ Legacy.response (snd b1) = Legacy.response c
      /\ fst b2 = Normal {| Legacy.built_tasks := [];
                            Legacy.built_response :=
                              Some (NewResponse None 201 "" ∅) |}
      /\ fst b1 <> fst b2
      /\ Legacy.settled
           (Legacy.processRequest ExampleHost.urlMatch LegacyExamples.handlers
              1 w root c)
         = Resolved {| Legacy.built_tasks := [];
                       Legacy.built_response :=
                         Some (NewResponse None 201 "" ∅) |}
  | _ => False
  end.
Proof. vm_compute. repeat split. discriminate. Qed.

(** C8, amended: no call of [build] fails for being the second.  When no
    response builder is configured, [build] leaves the objects and the
    variables of the program as they are, and a second [build] returns
    what the first returned, the same artifact or the same error, in the
    legacy router and in the documented revision; in [src/router] [build]
    calls no builder and what it returns is determined by the response
    options.  When a builder is configured, every [build] is one more
    call of the builder, on the objects and variables as the calls
    before left them, and returns what that call returns: the second
    artifact differs from the first whenever the results of the builder
    do. *)
Theorem second_build_repeats_first :
  (forall (w : Legacy.World) (c : Legacy.Ctx) (r : Legacy.Router),
     Legacy.routers w !! Legacy.res_router (Legacy.response c) = Some r ->
     (Legacy.customResponseBuilder r = None ->
      snd (Legacy.build w c) = c
      /\ Legacy.build w (snd (Legacy.build w c)) = Legacy.build w c)
     /\ (forall b, Legacy.customResponseBuilder r = Some b ->
           Legacy.build w c
           = (match fst (b c) with
              | Some resp =>
                  Normal {| Legacy.built_tasks :=
                              tasks (Legacy.responseOptions
                                       (Legacy.response (snd (b c))));
                            Legacy.built_response := Some resp |}
              | None =>
                  Throw "Error when attempting to return final response, no valid final response value!"
              end, snd (b c))))
  /\ (forall (depth : nat) (w : Tree.World) (c : Tree.Ctx)
             (m : Tree.Route) (mainId : Tree.RouterId) (main : Tree.Router),
        Tree.req_matchedRoute (Tree.request c) = Some m ->
        Tree.getMainRouter depth w (Tree.router m) = Normal mainId ->
        Tree.routers w !! mainId = Some main ->
        (Tree.customResponseBuilder main = None ->
         snd (Unnamed.build depth w c) = c
         /\ Unnamed.build depth w (snd (Unnamed.build depth w c))
            = Unnamed.build depth w c)
        /\ (forall b, Tree.customResponseBuilder main = Some b ->
              Unnamed.build depth w c
              = (Normal {| Tree.built_tasks :=
                             tasks (Tree.responseOptions
                                      (Tree.response (snd (b c))));
                           Tree.built_response := fst (b c) |},
                 snd (b c))))
  /\ (forall (w : Tree.World) (c c' : Tree.Ctx),
        Tree.responseOptions (Tree.response c)
        = Tree.responseOptions (Tree.response c') ->
        RouterDir.build w c = RouterDir.build w c').
Proof.
  split; [|split].
  - intros w c r Hr. split.
    + intros Hb.
      assert (Hsnd : snd (Legacy.build w c) = c).
      { unfold Legacy.build. rewrite Hr, Hb.
        destruct (type (Legacy.responseOptions (Legacy.response c))).
        - destruct (construct _ _); reflexivity.
        - destruct (redirectToUrl _) as [[|a u]|]; try reflexivity.
          destruct (construct _ _); reflexivity.
        - destruct (customResponse _); reflexivity. }
      split; [exact Hsnd | now rewrite Hsnd].
    + intros b Hb. unfold Legacy.build. rewrite Hr, Hb.
      destruct (b c) as [[resp|] c']; reflexivity.
  - intros depth w c m mainId main Hm Hmain Hl. split.
    + intros Hb.
      assert (Hsnd : snd (Unnamed.build depth w c) = c).
      { unfold Unnamed.build. rewrite Hm, Hmain, Hl, Hb.
        destruct (type (Tree.responseOptions (Tree.response c)));
          try destruct (construct _ _); reflexivity. }
      split; [exact Hsnd | now rewrite Hsnd].
    + intros b Hb. unfold Unnamed.build. rewrite Hm, Hmain, Hl, Hb.
      destruct (b c) as [v c']. reflexivity.
  - intros w c c' Heq. unfold RouterDir.build. now rewrite Heq.
Qed.

(** A router without a builder: the second [build] repeats the first. *)
Lemma second_build_repeats_first_witness :
  match LegacyExamples.oneRoute 0 ExampleHost.legacyWorld with
  | (Normal root, w) =>
      let c := LegacyExamples.fresh root "/a/" in
      Legacy.build w (snd (Legacy.build w c)) = Legacy.build w c
      /\ fst (Legacy.build w c)
         = Normal {| Legacy.built_tasks := [];
                     Legacy.built_response :=
                       Some (NewResponse None 200 "OK" ∅) |}
  | _ => False
  end.
Proof.
  destruct second_build_repeats_first as (HL & _ & _).
  destruct (LegacyExamples.oneRoute 0 ExampleHost.legacyWorld)
    as [[root|e] w] eqn:E;
    vm_compute in E; [|discriminate E].
  injection E as <- <-.
  cbv zeta. split.
  - match goal with
    | |- context [Legacy.build ?W _] => set (w := W)
    end.
    pose_value r (Legacy.routers w !! 0).
    destruct (HL w (LegacyExamples.fresh 0 "/a/") r) as (Hnone & _);
      [vm_compute; reflexivity|].
    apply Hnone. reflexivity.
  - vm_compute. reflexivity.
Defined.

(* ===================================================================== *)
(** ** Request URLs and headers *)
(* ===================================================================== *)

Lemma append_nil (s : string) : "" +:+ s = s.
Proof. reflexivity. Qed.

Lemma append_cons (c : ascii) (a b : string) :
  String c a +:+ b = String c (a +:+ b).
Proof. reflexivity. Qed.

Lemma app_empty_r (s : string) : s +:+ "" = s.
Proof.
  induction s as [|c s IH]; [reflexivity|].
  rewrite append_cons. now f_equal.
Qed.

Lemma app_assoc_string (a b c : string) : (a +:+ b) +:+ c = a +:+ (b +:+ c).
Proof.
  induction a as [|x a IH]; [reflexivity|].
  rewrite !append_cons. now f_equal.
Qed.

Lemma length_app_string (a b : string) :
  String.length (a +:+ b) = String.length a + String.length b.
Proof.
  induction a as [|x a IH]; [reflexivity|].
  rewrite append_cons. cbn [String.length Nat.add]. now f_equal.
Qed.

Lemma substring_prefix (a b : string) :
  String.substring 0 (String.length a) (a +:+ b) = a.
Proof.
  induction a as [|x a IH]; [now destruct b|].
  rewrite append_cons. cbn [String.length String.substring]. now f_equal.
Qed.

Lemma substring_full (s : string) :
  String.substring 0 (String.length s) s = s.
Proof.
  induction s as [|x s IH]; [reflexivity|].
  cbn [String.length String.substring]. now f_equal.
Qed.

Lemma substring_suffix (a b : string) :
  String.substring (String.length a) (String.length b) (a +:+ b) = b.
Proof. induction a as [|x a IH]; [apply substring_full|]. exact IH. Qed.

Lemma get_last (c : ascii) (r : string) :
  String.get (String.length r) (String c r) = lastChar (String c r).
Proof.
  revert c. induction r as [|d r IH]; intros c; [reflexivity|].
  change (String.get (String.length r) (String d r)
          = lastChar (String d r)).
  apply IH.
Qed.

Lemma get_app_l (a b : string) (i : nat) :
  i < String.length a -> String.get i (a +:+ b) = String.get i a.
Proof.
  revert i. induction a as [|x a IH]; intros i Hi;
    [cbn [String.length] in Hi; lia|].
  rewrite append_cons.
  destruct i as [|i]; [reflexivity|]. cbn [String.get]. apply IH.
  cbn [String.length] in Hi. lia.
Qed.

(** Where the first question mark of a URL is. *)
Lemma index_question (pre post : string) :
  String.index 0 "?" pre = None ->
  String.index 0 "?" (pre +:+ post)
  = match String.index 0 "?" post with
    | Some i => Some (String.length pre + i)
    | None => None
    end.
Proof.
  induction pre as [|c pre IH]; intros Hpre.
  - rewrite append_nil. cbn [String.length Nat.add].
    now destruct (String.index 0 "?" post).
  - rewrite append_cons. cbn [String.index String.length Nat.add] in *.
    cbn [String.prefix] in *.
    destruct (Ascii.ascii_dec "?" c) as [e|n].
    + destruct pre; discriminate Hpre.
    + destruct (String.index 0 "?" pre) eqn:Hi; [discriminate|].
      rewrite IH by reflexivity.
      now destruct (String.index 0 "?" post).
Qed.

Lemma index_question_head (q : string) :
  String.index 0 "?" (String "?" q) = Some 0.
Proof.
  cbn [String.index String.prefix].
  destruct (Ascii.ascii_dec "?" "?") as [_|n]; [|now elim n].
  now destruct q.
Qed.

(** Every URL splits at its first question mark. *)
Lemma split_at_question (url : string) :
  exists pre post,
    url = pre +:+ post
    /\ String.index 0 "?" pre = None
    /\ (post = "" \/ startsWith post "?" = true).
Proof.
  induction url as [|c url (pre & post & -> & Hpre & Hpost)].
  - exists "", "". split; [reflexivity|]. split; [reflexivity|]. now left.
  - destruct (Ascii.ascii_dec "?" c) as [<-|n].
    + exists "", (String "?" (pre +:+ post)).
      split; [reflexivity|]. split; [reflexivity|].
      right. apply (startsWith_cons "?").
    + exists (String c pre), post.
      split; [reflexivity|]. split; [|exact Hpost].
      cbn [String.index String.prefix].
      destruct (Ascii.ascii_dec "?" c) as [e|_]; [contradiction|].
      now rewrite Hpre.
Qed.

Lemma fixRequestUrl_split (pre post : string) :
  String.index 0 "?" pre = None ->
  post = "" \/ startsWith post "?" = true ->
  fixRequestUrl (pre +:+ post)
  = if endsWith pre "/" then pre +:+ post else pre +:+ "/" +:+ post.
Proof.
  intros Hpre Hpost. unfold fixRequestUrl.
  assert (Hend : match String.index 0 "?" (pre +:+ post) with
                 | Some i => i
                 | None => String.length (pre +:+ post)
                 end = String.length pre).
  { rewrite (index_question _ _ Hpre). destruct Hpost as [->|Hq].
    - simpl. now rewrite app_empty_r.
    - destruct post as [|c q]; [discriminate|].
      unfold startsWith in Hq. cbn [String.prefix] in Hq.
      destruct (Ascii.ascii_dec "?" c) as [<-|n]; [|discriminate].
      rewrite index_question_head; lia. }
  rewrite Hend. clear Hend.
  change "/" with (char "/") at 2. rewrite endsWith_char.
  assert (Hc : match String.length pre with
               | 0 => None
               | S i => String.get i (pre +:+ post)
               end = lastChar pre).
  { destruct pre as [|c r]; [reflexivity|].
    cbn [String.length]. rewrite get_app_l by (simpl; lia).
    apply get_last. }
  rewrite Hc. clear Hc.
  unfold slice. rewrite Nat.sub_0_r, substring_prefix.
  rewrite length_app_string.
  replace (String.length pre + String.length post - String.length pre)
    with (String.length post) by lia.
  rewrite substring_suffix.
  destruct (lastChar pre) as [d|].
  - destruct (Ascii.eqb_spec d "/") as [->|n].
    + now rewrite bool_decide_eq_true_2.
    + rewrite bool_decide_eq_false_2; [reflexivity|]. congruence.
  - now rewrite bool_decide_eq_false_2.
Qed.

Lemma index_question_snoc_slash (pre : string) :
  String.index 0 "?" pre = None ->
  String.index 0 "?" (pre +:+ "/") = None.
Proof. intros H. now rewrite (index_question _ _ H). Qed.

(** X1.  [fixRequestUrl] puts a slash at the end of the part of the URL
    that precedes its first question mark, unless that part ends with a
    slash already; the query string is kept as it is, and fixing a fixed
    URL changes nothing. *)
Theorem fixRequestUrl_slash_before_query (url : string) :
  exists pre post,
    url = pre +:+ post
    /\ String.index 0 "?" pre = None
    /\ (post = "" \/ startsWith post "?" = true)
    /\ fixRequestUrl url
       = (if endsWith pre "/" then pre else pre +:+ "/") +:+ post
    /\ fixRequestUrl (fixRequestUrl url) = fixRequestUrl url.
Proof.
  destruct (split_at_question url) as (pre & post & -> & Hpre & Hpost).
  exists pre, post. split; [reflexivity|]. split; [exact Hpre|].
  split; [exact Hpost|].
  rewrite (fixRequestUrl_split _ _ Hpre Hpost).
  destruct (endsWith pre "/") eqn:He.
  - split; [reflexivity|].
    now rewrite (fixRequestUrl_split _ _ Hpre Hpost), He.
  - rewrite app_assoc_string. split; [reflexivity|].
    rewrite <- app_assoc_string.
    rewrite (fixRequestUrl_split _ _ (index_question_snoc_slash _ Hpre) Hpost).
    change "/" with (char "/"). now rewrite endsWith_snoc.
Qed.

Lemma lowerChar_idempotent (c : ascii) :
  JsCase.lowerChar (JsCase.lowerChar c) = JsCase.lowerChar c.
Proof. destruct c as [[] [] [] [] [] [] [] []]; reflexivity. Qed.


Lemma toLowerCase_idempotent (s : string) :
  JsCase.toLowerCase (JsCase.toLowerCase s) = JsCase.toLowerCase s.
Proof.
  unfold JsCase.toLowerCase. induction s as [|c s IH]; [reflexivity|].
  cbn [JsCase.mapChars]. now rewrite lowerChar_idempotent, IH.
Qed.


Lemma find_snoc {A} (p : A -> bool) (l : list A) (x : A) :
  List.find p (l ++ [x])
  = match List.find p l with
    | Some y => Some y
    | None => if p x then Some x else None
    end.
Proof.
  induction l as [|y l IH]; [reflexivity|].
  cbn [List.find app]. destruct (p y); [reflexivity | exact IH].
Qed.

(** The own properties of the headers object after the loop of
    [parseHeaders] over [hs], started from the object [acc]. *)
Lemma parseHeaders_fold (hs : list (string * string))
  (acc : gmap string string) (k : string) :
  foldl (fun acc h => assign (JsCase.toLowerCase (fst h)) (snd h) acc) acc hs
  !! k
  = match (if String.eqb k "__proto__" then None
           else List.find
                  (fun h => String.eqb (JsCase.toLowerCase (fst h)) k)
                  (rev hs)) with
    | Some h => Some (snd h)
    | None => acc !! k
    end.
Proof.
  revert acc. induction hs as [|h hs IH]; intros acc.
  { cbn [foldl rev List.find]. now destruct (String.eqb k "__proto__"). }
  cbn [foldl rev]. rewrite IH, find_snoc.
  destruct (String.eqb k "__proto__") eqn:Hk.
  - apply String.eqb_eq in Hk. unfold assign.
    destruct (String.eqb (JsCase.toLowerCase (fst h)) "__proto__") eqn:E;
      [reflexivity|].
    apply String.eqb_neq in E. rewrite lookup_insert_ne; congruence.
  - apply String.eqb_neq in Hk.
    destruct (List.find _ (rev hs)); [reflexivity|].
    unfold assign.
    destruct (String.eqb (JsCase.toLowerCase (fst h)) k) eqn:E.
    + apply String.eqb_eq in E.
      destruct (String.eqb (JsCase.toLowerCase (fst h)) "__proto__") eqn:E';
        [apply String.eqb_eq in E'; congruence|].
      rewrite <- E. now rewrite lookup_insert_eq.
    + apply String.eqb_neq in E.
      destruct (String.eqb (JsCase.toLowerCase (fst h)) "__proto__");
        [reflexivity|].
      now rewrite lookup_insert_ne.
Qed.

(** X2.  [parseHeaders] files every header under its lower-cased name, as
    an own property of the plain object [headers]: a name other than
    "__proto__" is an own property exactly when it is the lower-cased
    name of some header, and its value is the one of the last such
    header; every own property has a lower-case name; and a header whose
    lower-cased name is "__proto__" is not stored at all (the assignment
    goes to the accessor of [Object.prototype]).  What a read of
    [headers[name]] gives for a name that is no own property is up to
    [Object.prototype]. *)
Theorem parseHeaders_last_header_wins (hs : list (string * string))
  (k : string) :
  parseHeaders hs !! k
  = (if String.eqb k "__proto__" then None
     else snd <$> List.find
                    (fun h => String.eqb (JsCase.toLowerCase (fst h)) k)
                    (rev hs))
  /\ (is_Some (parseHeaders hs !! k) ->
      JsCase.toLowerCase k = k /\ k <> "__proto__").
Proof.
  unfold parseHeaders. rewrite parseHeaders_fold.
  destruct (String.eqb k "__proto__") eqn:Hk.
  - rewrite lookup_empty. split; [reflexivity|].
    intros [v Hv]. discriminate Hv.
  - apply String.eqb_neq in Hk.
    destruct (List.find _ (rev hs)) as [h|] eqn:Hf.
    + split; [reflexivity|]. intros _. split; [|exact Hk].
      apply List.find_some in Hf. destruct Hf as [_ Hk'].
      apply String.eqb_eq in Hk'. rewrite <- Hk'.
      apply toLowerCase_idempotent.
    + rewrite lookup_empty. split; [reflexivity|].
      intros [v Hv]. discriminate Hv.
Qed.

Lemma parseHeaders_last_header_wins_witness :
  let hs := [("Content-Type", "text/html"); ("X-Id", "7");
             ("__Proto__", "x"); ("content-type", "text/plain")] in
  is_Some (parseHeaders hs !! "content-type")
  /\ JsCase.toLowerCase "content-type" = "content-type"
  /\ parseHeaders hs !! "content-type" = Some "text/plain"
  /\ parseHeaders hs !! "Content-Type" = None
  /\ parseHeaders hs !! "__proto__" = None.
Proof.
  intros hs.
  assert (H : is_Some (parseHeaders hs !! "content-type"))
    by (exists "text/plain"; vm_compute; reflexivity).
  split; [exact H|].
  split;
    [exact (proj1 (proj2 (parseHeaders_last_header_wins hs "content-type")
                     H))|].
  split; [|split].
  - rewrite (proj1 (parseHeaders_last_header_wins hs "content-type")).
    reflexivity.
  - rewrite (proj1 (parseHeaders_last_header_wins hs "Content-Type")).
    reflexivity.
  - rewrite (proj1 (parseHeaders_last_header_wins hs "__proto__")).
    reflexivity.
Defined.

(* ===================================================================== *)
(** ** More on path normalization *)
(* ===================================================================== *)

Lemma startsWith_app (b x : string) : startsWith (b +:+ x) b = true.
Proof.
  unfold startsWith. induction b as [|c b IH]; [now destruct x|].
  rewrite append_cons. cbn [String.prefix].
  destruct (Ascii.ascii_dec c c) as [_|n]; [exact IH | now elim n].
Qed.

Lemma closed_lastChar (s : string) :
  closed s = true ->
  exists c, lastChar s = Some c /\ In c ["/"; "*"; ")"; "?"]%char.
Proof.
  unfold closed, NO_APPEND_SLASH_IF_CHARACTERS. cbn [existsb].
  change "/" with (char "/"). change "*" with (char "*").
  change ")" with (char ")"). change "?" with (char "?").
  rewrite !endsWith_char.
  destruct (lastChar s) as [d|]; [|discriminate].
  intros H. exists d. split; [reflexivity|].
  repeat (apply orb_prop in H; destruct H as [H|H]);
    try discriminate H; apply Ascii.eqb_eq in H; subst d; cbn; auto.
Qed.

Lemma closed_app (a b : string) : b <> "" -> closed (a +:+ b) = closed b.
Proof.
  intros Hb. unfold closed, NO_APPEND_SLASH_IF_CHARACTERS. cbn [existsb].
  change "/" with (char "/"). change "*" with (char "*").
  change ")" with (char ")"). change "?" with (char "?").
  now rewrite !endsWith_app.
Qed.

Lemma closed_snoc_slash (a : string) : closed (a +:+ "/") = true.
Proof.
  unfold closed. change "/" with (char "/"). now rewrite endsWith_snoc.
Qed.

(** X3.  Whatever the base path and the input, the path that [fixPath]
    returns starts with the base path and ends with a slash or with one
    of the characters "*", ")" and "?". *)
Theorem fixPath_starts_with_base_and_ends_closed (b p : string) :
  startsWith (fixPath b p) b = true
  /\ exists c, lastChar (fixPath b p) = Some c
               /\ In c ["/"; "*"; ")"; "?"]%char.
Proof.
  split; [|apply closed_lastChar, closed_fixPath].
  rewrite fixPath_unfold. cbv zeta.
  match goal with |- context [closed ?q] => destruct (closed q) end.
  - apply startsWith_app.
  - rewrite app_assoc_string. apply startsWith_app.
Qed.

Lemma fixPath_plain (b p : string) :
  p <> "" -> startsWith p "/" = false -> closed p = false ->
  fixPath b p = b +:+ p +:+ "/".
Proof.
  intros Hp Hs Hc. rewrite fixPath_unfold. cbv zeta. rewrite Hs.
  rewrite closed_app, Hc by exact Hp. apply app_assoc_string.
Qed.

(** X4.  A slash in front of the input and a slash behind it make no
    difference to [fixPath]: for an input that has neither (and does not
    end with "*", ")" or "?"), the four spellings give the base path,
    the input and one slash. *)
Theorem fixPath_ignores_outer_slashes (b p : string) :
  p <> "" -> startsWith p "/" = false -> closed p = false ->
  fixPath b p = b +:+ p +:+ "/"
  /\ fixPath b ("/" +:+ p) = fixPath b p
  /\ fixPath b (p +:+ "/") = fixPath b p
  /\ fixPath b ("/" +:+ p +:+ "/") = fixPath b p.
Proof.
  intros Hp Hs Hc. rewrite (fixPath_plain b p Hp Hs Hc).
  assert (Hs' : startsWith (p +:+ "/") "/" = false).
  { destruct p as [|c r]; [now elim Hp|].
    unfold startsWith in *. rewrite append_cons.
    cbn [String.prefix] in *.
    destruct (Ascii.ascii_dec "/" c); [|reflexivity].
    destruct r; discriminate Hs. }
  split; [reflexivity|]. split; [|split].
  - rewrite fixPath_unfold. cbv zeta.
    change ("/" +:+ p) with (String "/" p).
    pose proof (startsWith_cons "/" p) as E.
    change (char "/") with "/" in E. rewrite E. cbn [slice1].
    rewrite closed_app, Hc by exact Hp. apply app_assoc_string.
  - rewrite fixPath_unfold. cbv zeta. rewrite Hs'.
    rewrite <- app_assoc_string, closed_snoc_slash.
    now rewrite ?app_assoc_string.
  - rewrite fixPath_unfold. cbv zeta.
    change ("/" +:+ p +:+ "/") with (String "/" (p +:+ "/")).
    pose proof (startsWith_cons "/" (p +:+ "/")) as E.
    change (char "/") with "/" in E. rewrite E. cbn [slice1].
    rewrite <- app_assoc_string, closed_snoc_slash.
    now rewrite ?app_assoc_string.
Qed.

Lemma fixPath_ignores_outer_slashes_witness :
  fixPath "/api/" "time" = "/api/time/"
  /\ fixPath "/api/" "/time" = fixPath "/api/" "time"
  /\ fixPath "/api/" "time/" = fixPath "/api/" "time"
  /\ fixPath "/api/" "/time/" = fixPath "/api/" "time".
Proof.
  apply (fixPath_ignores_outer_slashes "/api/" "time");
    [discriminate | reflexivity | reflexivity].
Defined.

Lemma endsWith_slash_snoc (p : string) : endsWith (p +:+ "/") "/" = true.
Proof. change "/" with (char "/"). apply endsWith_snoc. Qed.

Lemma startsWith_snoc (p x : string) :
  p <> "" -> startsWith (p +:+ x) "/" = startsWith p "/".
Proof.
  intros Hp. destruct p as [|c r]; [now elim Hp|].
  unfold startsWith. rewrite append_cons. cbn [String.prefix].
  destruct (Ascii.ascii_dec "/" c); [|reflexivity].
  now destruct r, x.
Qed.

Lemma fixUsePath_core (b : option string) (p : string) :
  p <> "" -> startsWith p "/" = false -> endsWith p "/" = false ->
  fixUsePath b p = default "" b +:+ "/" +:+ p
  /\ fixUsePath b ("/" +:+ p) = default "" b +:+ "/" +:+ p
  /\ fixUsePath b (p +:+ "/") = default "" b +:+ "/" +:+ p
  /\ fixUsePath b ("/" +:+ p +:+ "/") = default "" b +:+ "/" +:+ p.
Proof.
  intros Hp Hs He. unfold fixUsePath, slice.
  pose proof (startsWith_cons "/" p) as E1.
  pose proof (startsWith_cons "/" (p +:+ "/")) as E2.
  change (char "/") with "/" in E1, E2.
  change ("/" +:+ p +:+ "/") with (String "/" (p +:+ "/")).
  change ("/" +:+ p) with (String "/" p).
  rewrite E1, E2, Hs, He, (startsWith_snoc p "/" Hp), Hs.
  rewrite (endsWith_slash_snoc p).
  change (endsWith (String "/" (p +:+ "/")) "/")
    with (endsWith (("/" +:+ p) +:+ "/") "/").
  rewrite (endsWith_slash_snoc ("/" +:+ p)).
  change (endsWith (String "/" p) "/") with (endsWith ("/" +:+ p) (char "/")).
  rewrite (endsWith_app "/" p "/" Hp). change (char "/") with "/".
  rewrite He.
  cbn [String.length]. rewrite !length_app_string. cbn [String.length].
  replace (String.length p - 0) with (String.length p) by lia.
  replace (S (String.length p) - 1) with (String.length p) by lia.
  replace (String.length p + 1 - 1 - 0) with (String.length p) by lia.
  replace (S (String.length p + 1) - 1 - 1) with (String.length p) by lia.
  cbn [String.substring].
  rewrite substring_full, substring_prefix. repeat split; reflexivity.
Qed.

(** X5.  The legacy path functions.  [fixUsePath] drops one slash in
    front of the mount path and one behind it, so the four spellings of
    a mount path give the same prefix, which has no slash at its end;
    [fixHandlerPath] puts the base path in front of the route path as it
    is written, so a route path needs its own leading slash: without it
    the route lands on the glued text. *)
Theorem legacy_mount_prefix_has_no_trailing_slash (b : option string)
  (p q : string) :
  p <> "" -> startsWith p "/" = false -> endsWith p "/" = false ->
  q <> "" -> closed q = false ->
  let base := default "" b +:+ "/" +:+ p in
  fixUsePath b p = base
  /\ fixUsePath b ("/" +:+ p) = base
  /\ fixUsePath b (p +:+ "/") = base
  /\ fixUsePath b ("/" +:+ p +:+ "/") = base
  /\ fixHandlerPath (Some base) ("/" +:+ q) = base +:+ "/" +:+ q +:+ "/"
  /\ fixHandlerPath (Some base) q = base +:+ q +:+ "/".
Proof.
  intros Hp Hs He Hq Hc base.
  destruct (fixUsePath_core b p Hp Hs He) as (H1 & H2 & H3 & H4).
  repeat (split; [assumption|]).
  assert (Hq' : endsWith q "/" = false
                /\ existsb (fun char => endsWith q char)
                     NO_APPEND_SLASH_IF_CHARACTERS = false).
  { unfold closed in Hc. now apply orb_false_elim in Hc. }
  destruct Hq' as [Hq1 Hq2].
  assert (Hsq : forall c, endsWith ("/" +:+ q) (char c) = endsWith q (char c))
    by (intros c; now apply endsWith_app).
  unfold fixHandlerPath. cbn [default].
  split.
  - assert (Hsl : endsWith ("/" +:+ q) "/" = false)
      by (transitivity (endsWith q "/"); [exact (Hsq "/"%char) | exact Hq1]).
    assert (Hex : existsb (fun char => endsWith ("/" +:+ q) char)
                    NO_APPEND_SLASH_IF_CHARACTERS = false).
    { unfold NO_APPEND_SLASH_IF_CHARACTERS in Hq2 |- *.
      cbn [existsb] in Hq2 |- *.
      now rewrite (Hsq "*"%char : endsWith ("/" +:+ q) "*" = endsWith q "*"),
        (Hsq ")"%char : endsWith ("/" +:+ q) ")" = endsWith q ")"),
        (Hsq "?"%char : endsWith ("/" +:+ q) "?" = endsWith q "?"). }
    rewrite Hsl, Hex. cbn [negb]. now rewrite !app_assoc_string.
  - rewrite Hq1, Hq2. cbn [negb]. reflexivity.
Qed.

Lemma legacy_mount_prefix_has_no_trailing_slash_witness :
  fixUsePath None "api" = "/api"
  /\ fixUsePath None "/api" = "/api"
  /\ fixUsePath None "api/" = "/api"
  /\ fixUsePath None "/api/" = "/api"
  /\ fixHandlerPath (Some "/api") "/time" = "/api/time/"
  /\ fixHandlerPath (Some "/api") "time" = "/apitime/".
Proof.
  apply (legacy_mount_prefix_has_no_trailing_slash None "api" "time");
    [discriminate | reflexivity | reflexivity | discriminate | reflexivity].
Defined.

(* ===================================================================== *)
(** ** What the route walks find *)
(* ===================================================================== *)

Lemma methodName_upper (m : Methods) :
  JsCase.toUpperCase (methodName m) = methodName m.
Proof. destruct m; reflexivity. Qed.

Lemma methodName_ANY (m : Methods) : methodName m = "ANY" -> m = ANY.
Proof. destruct m; intros H; try reflexivity; discriminate H. Qed.

Section TreeWalk.
Variable urlMatch : string -> string -> option Params.
Variable w : Tree.World.
Variable req : Tree.RouterRequest.

Lemma matchesRequest_accepts (rt : Tree.Route) :
  fst (fst (Tree.matchesRequest urlMatch rt req)) = true
  <-> Walk.accepts urlMatch req rt.
Proof.
  unfold Tree.matchesRequest, Tree.matchesInputPath, Walk.accepts.
  cbn [fst snd]. rewrite andb_true_iff, bool_decide_eq_true.
  apply and_iff_compat_l.
  destruct (Tree.method rt) eqn:Hm;
    try (rewrite String.eqb_eq;
         rewrite (methodName_upper); split;
         [intros H; right; exact H | intros [H|H]; [discriminate H | exact H]]).
  split; [now left | reflexivity].
Qed.

Lemma matchesRequest_data (rt : Tree.Route) :
  {| Tree.route := rt;
     Tree.matchData := snd (fst (Tree.matchesRequest urlMatch rt req)) |}
  = Walk.entry urlMatch req rt.
Proof. reflexivity. Qed.

Lemma findLoop_acc (recur : Tree.RouterId
                            -> Completion (list Tree.MatchingRoute))
  (rs : list Tree.Route) (acc : list Tree.MatchingRoute) :
  Tree.findLoop urlMatch recur req rs acc
  = match Tree.findLoop urlMatch recur req rs [] with
    | Normal l => Normal (acc ++ l)
    | Throw e => Throw e
    end.
Proof.
  revert acc. induction rs as [|rt rest IH]; intros acc.
  - cbn [Tree.findLoop]. now rewrite app_nil_r.
  - cbn [Tree.findLoop]. destruct (Tree.isHandlerRouter rt).
    + destruct (Tree.handler rt) as [child|f]; [|reflexivity].
      destruct (recur child) as [sub|e]; [|reflexivity].
      rewrite (IH (acc ++ sub)), (IH ([] ++ sub)).
      destruct (Tree.findLoop urlMatch recur req rest []); [|reflexivity].
      now rewrite app_nil_l, app_assoc.
    + destruct (fst (fst (Tree.matchesRequest urlMatch rt req))).
      * rewrite (IH (acc ++ _)), (IH ([] ++ _)).
        destruct (Tree.findLoop urlMatch recur req rest []); [|reflexivity].
        now rewrite app_nil_l, app_assoc.
      * apply IH.
Qed.

Lemma findLoop_members (recur : Tree.RouterId
                                -> Completion (list Tree.MatchingRoute))
  (rs : list Tree.Route) (l : list Tree.MatchingRoute) :
  Tree.findLoop urlMatch recur req rs [] = Normal l ->
  (forall m, In m l
             <-> exists rt, In rt rs
                            /\ Walk.contributes urlMatch req recur rt m)
  /\ (forall rt, In rt rs -> Tree.isHandlerRouter rt = true ->
        exists child sub, Tree.handler rt = Tree.RouterHandler child
                          /\ recur child = Normal sub).
Proof.
  revert l. induction rs as [|rt rest IH]; intros l.
  - cbn [Tree.findLoop]. intros [= <-]. split.
    + intros m. split; [intros []|intros (rt & [] & _)].
    + intros rt [].
  - cbn [Tree.findLoop].
    destruct (Tree.isHandlerRouter rt) eqn:Hr.
    + destruct (Tree.handler rt) as [child|f] eqn:Hh; [|discriminate].
      destruct (recur child) as [sub|e] eqn:Hc; [|discriminate].
      rewrite findLoop_acc.
      destruct (Tree.findLoop urlMatch recur req rest []) as [l'|e] eqn:Hl;
        [|discriminate].
      intros [= <-]. destruct (IH l' eq_refl) as [IH1 IH2]. split.
      * intros m. rewrite ?app_nil_l, in_app_iff, IH1. split.
        -- intros [Hm|(rt' & Hin & Hrt')].
           ++ exists rt. split; [now left|]. unfold Walk.contributes.
              rewrite Hr. exists child, sub. now rewrite Hh.
           ++ exists rt'. split; [now right | exact Hrt'].
        -- intros (rt' & [<-|Hin] & Hrt').
           ++ left. unfold Walk.contributes in Hrt'. rewrite Hr in Hrt'.
              destruct Hrt' as (child' & sub' & Hh' & Hc' & Hm).
              rewrite Hh in Hh'. injection Hh' as <-.
              rewrite Hc in Hc'. now injection Hc' as <-.
           ++ right. now exists rt'.
      * intros rt' [<-|Hin] Hr'.
        -- exists child, sub. now rewrite Hh.
        -- now apply IH2.
    + destruct (fst (fst (Tree.matchesRequest urlMatch rt req))) eqn:Hm.
      * rewrite findLoop_acc.
        destruct (Tree.findLoop urlMatch recur req rest []) as [l'|e] eqn:Hl;
          [|discriminate].
        intros [= <-]. destruct (IH l' eq_refl) as [IH1 IH2]. split.
        -- intros m.
           change (In m (Walk.entry urlMatch req rt :: l')
                   <-> exists rt0, In rt0 (rt :: rest)
                         /\ Walk.contributes urlMatch req recur rt0 m).
           cbn [In]. rewrite IH1. split.
           ++ intros [<-|(rt' & Hin & Hrt')].
              ** exists rt. split; [now left|]. unfold Walk.contributes.
                 rewrite Hr. split; [|reflexivity].
                 now apply matchesRequest_accepts.
              ** exists rt'. split; [now right | exact Hrt'].
           ++ intros (rt' & [<-|Hin] & Hrt').
              ** left. unfold Walk.contributes in Hrt'. rewrite Hr in Hrt'.
                 destruct Hrt' as [_ ->]. reflexivity.
              ** right. now exists rt'.
        -- intros rt' [<-|Hin] Hr'; [congruence | now apply IH2].
      * intros Hl. destruct (IH l Hl) as [IH1 IH2]. split.
        -- intros m. rewrite IH1. split.
           ++ intros (rt' & Hin & Hrt'). exists rt'. split; [now right|].
              exact Hrt'.
           ++ intros (rt' & [<-|Hin] & Hrt').
              ** unfold Walk.contributes in Hrt'. rewrite Hr in Hrt'.
                 destruct Hrt' as [Ha _].
                 apply matchesRequest_accepts in Ha. congruence.
              ** now exists rt'.
        -- intros rt' [<-|Hin] Hr'; [congruence | now apply IH2].
Qed.

Lemma findLoop_total (recur : Tree.RouterId
                              -> Completion (list Tree.MatchingRoute))
  (rs : list Tree.Route) :
  (forall rt, In rt rs -> Tree.isHandlerRouter rt = true ->
     exists child sub, Tree.handler rt = Tree.RouterHandler child
                       /\ recur child = Normal sub) ->
  exists l, Tree.findLoop urlMatch recur req rs [] = Normal l.
Proof.
  induction rs as [|rt rest IH]; intros H; [now exists []|].
  destruct IH as [l Hl]; [intros rt' Hin; apply H; now right|].
  cbn [Tree.findLoop]. destruct (Tree.isHandlerRouter rt) eqn:Hr.
  - destruct (H rt (or_introl eq_refl) Hr) as (child & sub & -> & ->).
    rewrite findLoop_acc, Hl. eauto.
  - destruct (fst (fst (Tree.matchesRequest urlMatch rt req))).
    + rewrite findLoop_acc, Hl. eauto.
    + eauto.
Qed.

Lemma findLoop_mono (recur1 recur2 : Tree.RouterId
                                     -> Completion (list Tree.MatchingRoute))
  (rs : list Tree.Route) (acc l : list Tree.MatchingRoute) :
  (forall child sub, recur1 child = Normal sub -> recur2 child = Normal sub) ->
  Tree.findLoop urlMatch recur1 req rs acc = Normal l ->
  Tree.findLoop urlMatch recur2 req rs acc = Normal l.
Proof.
  intros H. revert acc. induction rs as [|rt rest IH]; intros acc;
    [trivial|].
  cbn [Tree.findLoop]. destruct (Tree.isHandlerRouter rt).
  - destruct (Tree.handler rt) as [child|f]; [|trivial].
    destruct (recur1 child) as [sub|e] eqn:Hc; [|discriminate].
    rewrite (H _ _ Hc). apply IH.
  - destruct (fst (fst (Tree.matchesRequest urlMatch rt req))); apply IH.
Qed.

Lemma findMatchingRoutes_mono (d d' : nat) (rid : Tree.RouterId)
  (l : list Tree.MatchingRoute) :
  d <= d' ->
  Tree.findMatchingRoutes urlMatch d w rid req = Normal l ->
  Tree.findMatchingRoutes urlMatch d' w rid req = Normal l.
Proof.
  revert d' rid l. induction d as [|d IH]; intros d' rid l Hle;
    [discriminate|].
  destruct d' as [|d']; [lia|].
  cbn [Tree.findMatchingRoutes].
  destruct (Tree.routers w !! rid) as [r|]; [|trivial].
  apply findLoop_mono. intros child sub. apply IH. lia.
Qed.

Lemma findMatchingRoutes_sound (d : nat) (rid : Tree.RouterId)
  (l : list Tree.MatchingRoute) (m : Tree.MatchingRoute) :
  Tree.findMatchingRoutes urlMatch d w rid req = Normal l ->
  In m l ->
  Walk.Reach w rid (Tree.route m)
  /\ Tree.isHandlerRouter (Tree.route m) = false
  /\ Walk.accepts urlMatch req (Tree.route m)
  /\ m = Walk.entry urlMatch req (Tree.route m).
Proof.
  revert rid l. induction d as [|d IH]; intros rid l; [discriminate|].
  cbn [Tree.findMatchingRoutes].
  destruct (Tree.routers w !! rid) as [r|] eqn:Hrid; [|discriminate].
  intros Hl Hm. destruct (findLoop_members _ _ _ Hl) as [H1 _].
  apply H1 in Hm. destruct Hm as (rt & Hin & Hc).
  unfold Walk.contributes in Hc.
  destruct (Tree.isHandlerRouter rt) eqn:Hr.
  - destruct Hc as (child & sub & Hh & Hsub & Hm).
    destruct (IH child sub Hsub Hm) as (Hreach & Hrest).
    split; [|exact Hrest].
    now apply (Walk.reach_below w rid child r rt).
  - destruct Hc as [Ha ->]. cbn [Walk.entry Tree.route].
    split; [now apply (Walk.reach_here w rid r)|].
    split; [exact Hr|]. split; [exact Ha | reflexivity].
Qed.

Lemma findMatchingRoutes_complete (rid : Tree.RouterId) (rt : Tree.Route) :
  Walk.Reach w rid rt ->
  Tree.isHandlerRouter rt = false ->
  Walk.accepts urlMatch req rt ->
  forall d l,
    Tree.findMatchingRoutes urlMatch d w rid req = Normal l ->
    In (Walk.entry urlMatch req rt) l.
Proof.
  intros Hreach Hr Ha.
  induction Hreach as [rid r rt Hrid Hin
                      |rid child r mount rt Hrid Hin Hmr Hmh Hreach IH];
    intros d l; (destruct d as [|d]; [discriminate|]);
    cbn [Tree.findMatchingRoutes]; rewrite Hrid; intros Hl;
    destruct (findLoop_members _ _ _ Hl) as [H1 H2]; apply H1.
  - exists rt. split; [exact Hin|]. unfold Walk.contributes.
    now rewrite Hr.
  - exists mount. split; [exact Hin|]. unfold Walk.contributes.
    rewrite Hmr. destruct (H2 mount Hin Hmr) as (child' & sub & Hh & Hsub).
    rewrite Hmh in Hh. injection Hh as <-.
    exists child, sub. split; [exact Hmh|]. split; [exact Hsub|].
    now apply (IH Hr Ha d).
Qed.

Lemma findMatchingRoutes_total (n : nat) (rid : Tree.RouterId) :
  Spec.Ranked w n rid ->
  exists l, Tree.findMatchingRoutes urlMatch n w rid req = Normal l.
Proof.
  revert rid. induction n as [|n IH]; intros rid Hrk;
    inversion Hrk as [n' rid' r Hrid Hshape Hchildren]; subst.
  cbn [Tree.findMatchingRoutes]. rewrite Hrid.
  apply findLoop_total. intros rt Hin Hr.
  destruct (Hshape rt Hin Hr) as [child Hh].
  destruct (IH child (Hchildren rt child Hin Hh)) as [sub Hsub].
  now exists child, sub.
Qed.
End TreeWalk.

(** X6.  [findMatchingRoutes] finds exactly the matching routes: when
    the walk returns, its array holds an entry for a route if and only if
    the route belongs to the router or to a router mounted below it, is
    no mount itself, and takes the request (its pattern matches the path
    and its method is "ANY" or the method of the request, letter case
    aside); the entry carries the result of the pattern.  Hence the
    second filter of [processRequest] (no router handlers among the
    middlewares) removes nothing. *)
Theorem findMatchingRoutes_finds_exactly_the_matching_routes
  (urlMatch : string -> string -> option Params) (depth : nat)
  (w : Tree.World) (rid : Tree.RouterId) (req : Tree.RouterRequest)
  (found : list Tree.MatchingRoute) :
  Tree.findMatchingRoutes urlMatch depth w rid req = Normal found ->
  (forall m, In m found
             <-> (Walk.Reach w rid (Tree.route m)
                  /\ Tree.isHandlerRouter (Tree.route m) = false
                  /\ Walk.accepts urlMatch req (Tree.route m)
                  /\ m = Walk.entry urlMatch req (Tree.route m)))
  /\ List.filter (fun m => negb (Tree.isHandlerRouter (Tree.route m)))
       (List.filter (fun m => Tree.isMiddleware (Tree.route m)) found)
     = List.filter (fun m => Tree.isMiddleware (Tree.route m)) found.
Proof.
  intros Hl. split.
  - intros m. split.
    + now apply (findMatchingRoutes_sound urlMatch w req depth rid found).
    + intros (Hreach & Hr & Ha & ->).
      now apply (findMatchingRoutes_complete urlMatch w req rid _ Hreach Hr Ha
                   depth).
  - apply forallb_filter_id. apply forallb_forall. intros m Hm.
    apply filter_In in Hm. destruct Hm as [Hm _].
    destruct (findMatchingRoutes_sound urlMatch w req depth rid found m Hl Hm)
      as (_ & Hr & _).
    now rewrite Hr.
Qed.

(** X7.  On a tree of routers (no router mounted below itself) of height
    at most [n], the walk returns, and with any call-stack bound of at
    least [n] it returns the same array. *)
Theorem findMatchingRoutes_returns_on_trees
  (urlMatch : string -> string -> option Params) (n : nat)
  (w : Tree.World) (rid : Tree.RouterId) (req : Tree.RouterRequest) :
  Spec.Ranked w n rid ->
  exists found,
    forall depth, n <= depth ->
      Tree.findMatchingRoutes urlMatch depth w rid req = Normal found.
Proof.
  intros Hrk.
  destruct (findMatchingRoutes_total urlMatch w req n rid Hrk) as [l Hl].
  exists l. intros depth Hle.
  now apply (findMatchingRoutes_mono urlMatch w req n depth).
Qed.

Lemma findMatchingRoutes_finds_exactly_the_matching_routes_witness :
  match Spec.mountedApiTime GET 7 ExampleHost.world with
  | (Normal root, w) =>
      let req := {| Tree.req_url := ""; Tree.req_path := "/api/time/";
                    Tree.req_method := "get"; Tree.req_headers := ∅;
                    Tree.matchedParams := None;
                    Tree.req_matchedRoute := None |} in
      exists found,
        Tree.findMatchingRoutes ExampleHost.urlMatch 2 w root req
        = Normal found
        /\ map Spec.selected found
           = [(GET, "/api/time/", Tree.FunctionHandler 7, false, Some [])]
        /\ forall m, In m found
                     <-> (Walk.Reach w root (Tree.route m)
                          /\ Tree.isHandlerRouter (Tree.route m) = false
                          /\ Walk.accepts ExampleHost.urlMatch req
                               (Tree.route m)
                          /\ m = Walk.entry ExampleHost.urlMatch req
                                   (Tree.route m))
  | _ => False
  end.
Proof.
  destruct (Spec.mountedApiTime GET 7 ExampleHost.world) as [[root|e] w] eqn:E;
    vm_compute in E; [|discriminate E].
  injection E as <- <-.
  match goal with
  | |- let req := ?R in exists found,
         Tree.findMatchingRoutes _ _ ?W _ _ = _ /\ _ =>
      set (w := W); set (req := R)
  end.
  cbv zeta.
  destruct (Tree.findMatchingRoutes ExampleHost.urlMatch 2 w 0 req)
    as [found|e] eqn:Hfound; [|vm_compute in Hfound; discriminate Hfound].
  exists found. split; [reflexivity|].
  split; [vm_compute in Hfound; injection Hfound as <-; reflexivity|].
  exact (proj1 (findMatchingRoutes_finds_exactly_the_matching_routes
                  ExampleHost.urlMatch 2 w 0 req found Hfound)).
Defined.

Lemma findMatchingRoutes_returns_on_trees_witness :
  match Spec.mountedApiTime GET 7 ExampleHost.world with
  | (Normal root, w) =>
      Spec.Ranked w 2 root
      /\ forall req, exists found,
           forall depth, 2 <= depth ->
             Tree.findMatchingRoutes ExampleHost.urlMatch depth w root req
             = Normal found
  | _ => False
  end.
Proof.
  destruct (Spec.mountedApiTime GET 7 ExampleHost.world) as [[root|e] w] eqn:E;
    vm_compute in E; [|discriminate E].
  injection E as <- <-.
  match goal with |- Spec.Ranked ?W _ _ /\ _ => set (w := W) end.
  assert (Hrk : Spec.Ranked w 2 0).
  { eapply Spec.ranked_router; [vm_compute; reflexivity | |].
    - intros rt [<-|[]] _. now exists 1.
    - intros rt child [<-|[]] [= <-].
      eapply Spec.ranked_router; [vm_compute; reflexivity | |].
      + intros rt [<-|[]] Hr. discriminate Hr.
      + intros rt child [<-|[]] Hh. discriminate Hh. }
  split; [exact Hrk|]. intros req.
  exact (findMatchingRoutes_returns_on_trees ExampleHost.urlMatch 2 w 0 req
           Hrk).
Defined.

Section LegacyWalkMembers.
Variable urlMatch : string -> string -> option Params.
Variable w : Legacy.World.
Variable totalPath : string.

Lemma matchLoop_acc
  (recur : Legacy.RouterId -> list Legacy.Matched
           -> Completion (list Legacy.Matched))
  (rs : list Legacy.Route) (acc : list Legacy.Matched) :
  Walk.appends recur ->
  Legacy.matchLoop urlMatch recur totalPath rs acc
  = match Legacy.matchLoop urlMatch recur totalPath rs [] with
    | Normal l => Normal (acc ++ l)
    | Throw e => Throw e
    end.
Proof.
  intros Hrec. revert acc. induction rs as [|rt rest IH]; intros acc.
  - cbn [Legacy.matchLoop]. now rewrite app_nil_r.
  - cbn [Legacy.matchLoop]. destruct (Legacy.handler rt) as [child|f].
    + rewrite (Hrec child acc).
      destruct (recur child []) as [sub|e]; [|reflexivity].
      rewrite (IH (acc ++ sub)), (IH sub).
      destruct (Legacy.matchLoop urlMatch recur totalPath rest []);
        [|reflexivity].
      now rewrite app_assoc.
    + unfold Legacy.matchesPath.
      destruct (urlMatch (Legacy.fixed (Legacy.path rt)) totalPath).
      * rewrite (IH (acc ++ _)), (IH ([] ++ _)).
        destruct (Legacy.matchLoop urlMatch recur totalPath rest []);
          [|reflexivity].
        now rewrite app_nil_l, app_assoc.
      * destruct (String.eqb (Legacy.fixed (Legacy.path rt)) "*").
        -- rewrite (IH (acc ++ _)), (IH ([] ++ _)).
           destruct (Legacy.matchLoop urlMatch recur totalPath rest []);
             [|reflexivity].
           now rewrite app_nil_l, app_assoc.
        -- apply IH.
Qed.

Lemma getMatchingRoutesByPath_appends (d : nat) :
  Walk.appends
    (fun child fill =>
       Legacy.getMatchingRoutesByPath urlMatch d w child totalPath fill).
Proof.
  induction d as [|d IH]; intros rid acc; [reflexivity|].
  cbn [Legacy.getMatchingRoutesByPath].
  destruct (Legacy.routers w !! rid) as [r|]; [|reflexivity].
  now apply matchLoop_acc.
Qed.

Lemma matchLoop_members
  (recur : Legacy.RouterId -> list Legacy.Matched
           -> Completion (list Legacy.Matched))
  (rs : list Legacy.Route) (l : list Legacy.Matched) :
  Walk.appends recur ->
  Legacy.matchLoop urlMatch recur totalPath rs [] = Normal l ->
  (forall m, In m l
             <-> exists rt, In rt rs
                   /\ Walk.legacyContributes urlMatch totalPath recur rt m)
  /\ (forall rt child, In rt rs ->
        Legacy.handler rt = Legacy.RouterHandler child ->
        exists sub, recur child [] = Normal sub).
Proof.
  intros Hrec. revert l. induction rs as [|rt rest IH]; intros l.
  - cbn [Legacy.matchLoop]. intros [= <-]. split.
    + intros m. split; [intros []|intros (rt & [] & _)].
    + intros rt child [].
  - cbn [Legacy.matchLoop].
    assert (Hcons : forall (here : list Legacy.Matched) l',
              (forall m, In m here
                         <-> Walk.legacyContributes urlMatch totalPath recur
                               rt m) ->
              (forall m, In m l'
                 <-> exists rt', In rt' rest
                       /\ Walk.legacyContributes urlMatch totalPath recur
                            rt' m) ->
              forall m, In m (here ++ l')
                 <-> exists rt', In rt' (rt :: rest)
                       /\ Walk.legacyContributes urlMatch totalPath recur
                            rt' m).
    { intros here l' Hhere Hl' m. rewrite in_app_iff, Hhere, Hl'. split.
      - intros [H|(rt' & Hin & H)].
        + exists rt. split; [now left | exact H].
        + exists rt'. split; [now right | exact H].
      - intros (rt' & [<-|Hin] & H); [now left|]. right. now exists rt'. }
    destruct (Legacy.handler rt) as [child|f] eqn:Hh.
    + destruct (recur child []) as [sub|e] eqn:Hc; [|discriminate].
      rewrite (matchLoop_acc recur rest sub Hrec).
      destruct (Legacy.matchLoop urlMatch recur totalPath rest [])
        as [l'|e] eqn:Hl; [|discriminate].
      intros [= <-]. destruct (IH l' eq_refl) as [IH1 IH2]. split.
      * apply Hcons; [|exact IH1]. intros m.
        unfold Walk.legacyContributes. rewrite Hh. split.
        -- intros Hm. now exists sub.
        -- intros (sub' & Hc' & Hm). rewrite Hc in Hc'.
           now injection Hc' as <-.
      * intros rt' child' [<-|Hin] Hh'.
        -- rewrite Hh in Hh'. injection Hh' as <-. now exists sub.
        -- now apply (IH2 rt').
    + assert (Hhere : forall here,
                Walk.legacyEntry urlMatch totalPath rt
                = match here with [m] => Some m | _ => None end ->
                length here <= 1 ->
                forall m, In m here
                          <-> Walk.legacyContributes urlMatch totalPath recur
                                rt m).
      { intros here He Hlen m. unfold Walk.legacyContributes.
        rewrite Hh, He. destruct here as [|m0 [|m1 here]].
        - split; [intros [] | discriminate].
        - split; [intros [<-|[]]; reflexivity | intros [= ->]; now left].
        - cbn [length] in Hlen. lia. }
      unfold Legacy.matchesPath.
      destruct (urlMatch (Legacy.fixed (Legacy.path rt)) totalPath)
        as [checkMatch|] eqn:Hmatch;
        [|destruct (String.eqb (Legacy.fixed (Legacy.path rt)) "*") eqn:Hstar].
      * rewrite app_nil_l, (matchLoop_acc recur rest _ Hrec).
        destruct (Legacy.matchLoop urlMatch recur totalPath rest [])
          as [l'|e] eqn:Hl; [|discriminate].
        intros [= <-]. destruct (IH l' eq_refl) as [IH1 IH2]. split.
        -- refine (Hcons [_] l' _ IH1). apply Hhere; [|cbn [length]; lia].
           unfold Walk.legacyEntry. now rewrite Hmatch.
        -- intros rt' child' [<-|Hin] Hh'; [congruence|].
           now apply (IH2 rt').
      * rewrite app_nil_l, (matchLoop_acc recur rest _ Hrec).
        destruct (Legacy.matchLoop urlMatch recur totalPath rest [])
          as [l'|e] eqn:Hl; [|discriminate].
        intros [= <-]. destruct (IH l' eq_refl) as [IH1 IH2]. split.
        -- refine (Hcons [_] l' _ IH1). apply Hhere; [|cbn [length]; lia].
           unfold Walk.legacyEntry. now rewrite Hmatch, Hstar.
        -- intros rt' child' [<-|Hin] Hh'; [congruence|].
           now apply (IH2 rt').
      * intros Hl. destruct (IH l Hl) as [IH1 IH2]. split.
        -- apply (Hcons [] l); [|exact IH1]. apply Hhere; [|cbn [length]; lia].
           unfold Walk.legacyEntry. now rewrite Hmatch, Hstar.
        -- intros rt' child' [<-|Hin] Hh'; [congruence|].
           now apply (IH2 rt').
Qed.

Lemma getMatchingRoutesByPath_sound (d : nat) (rid : Legacy.RouterId)
  (l : list Legacy.Matched) (m : Legacy.Matched) :
  Legacy.getMatchingRoutesByPath urlMatch d w rid totalPath [] = Normal l ->
  In m l ->
  Spec.LegacyReach w rid (Legacy.route m)
  /\ (exists f, Legacy.handler (Legacy.route m) = Legacy.FunctionHandler f)
  /\ Walk.legacyEntry urlMatch totalPath (Legacy.route m) = Some m.
Proof.
  revert rid l. induction d as [|d IH]; intros rid l; [discriminate|].
  cbn [Legacy.getMatchingRoutesByPath].
  destruct (Legacy.routers w !! rid) as [r|] eqn:Hrid; [|discriminate].
  intros Hl Hm.
  destruct (matchLoop_members _ _ _ (getMatchingRoutesByPath_appends d) Hl)
    as [H1 _].
  apply H1 in Hm. destruct Hm as (rt & Hin & Hc).
  unfold Walk.legacyContributes in Hc.
  destruct (Legacy.handler rt) as [child|f] eqn:Hh.
  - destruct Hc as (sub & Hsub & Hm).
    destruct (IH child sub Hsub Hm) as (Hreach & Hrest).
    split; [|exact Hrest].
    now apply (Spec.legacy_reach_below w rid child r rt).
  - assert (Hroute : Legacy.route m = rt).
    { unfold Walk.legacyEntry in Hc.
      destruct (urlMatch _ _); [now injection Hc as <-|].
      destruct (String.eqb _ _); [now injection Hc as <-|discriminate]. }
    rewrite Hroute. split; [now apply (Spec.legacy_reach_here w rid r)|].
    split; [now exists f | exact Hc].
Qed.

Lemma getMatchingRoutesByPath_complete (rid : Legacy.RouterId)
  (rt : Legacy.Route) (f : Legacy.HandlerId) (m : Legacy.Matched) :
  Spec.LegacyReach w rid rt ->
  Legacy.handler rt = Legacy.FunctionHandler f ->
  Walk.legacyEntry urlMatch totalPath rt = Some m ->
  forall d l,
    Legacy.getMatchingRoutesByPath urlMatch d w rid totalPath [] = Normal l ->
    In m l.
Proof.
  intros Hreach Hf He.
  induction Hreach as [rid r rt Hrid Hin
                      |rid child r mount rt Hrid Hin Hmh Hreach IH];
    intros d l; (destruct d as [|d]; [discriminate|]);
    cbn [Legacy.getMatchingRoutesByPath]; rewrite Hrid; intros Hl;
    destruct (matchLoop_members _ _ _ (getMatchingRoutesByPath_appends d) Hl)
      as [H1 H2]; apply H1.
  - exists rt. split; [exact Hin|]. unfold Walk.legacyContributes.
    now rewrite Hf.
  - exists mount. split; [exact Hin|]. unfold Walk.legacyContributes.
    rewrite Hmh. destruct (H2 mount child Hin Hmh) as (sub & Hsub).
    exists sub. split; [exact Hsub|]. now apply (IH Hf He d).
Qed.
End LegacyWalkMembers.

(** X8.  The legacy walk finds exactly the routes that take the path:
    when [getMatchingRoutesByPath] returns, its array holds an entry for
    a route if and only if the route belongs to the router or to a router
    mounted below it, its handler is a function, and either its pattern
    matches the path (the entry carries the result) or its fixed path is
    "*" (the entry carries the empty object).  The method of the request
    plays no part; and as every entry has a function for a handler, the
    check of [processRequest] for a router as response handler never
    fires. *)
Theorem getMatchingRoutesByPath_finds_exactly_the_matching_routes
  (urlMatch : string -> string -> option Params) (depth : nat)
  (w : Legacy.World) (rid : Legacy.RouterId) (totalPath : string)
  (found : list Legacy.Matched) :
  Legacy.getMatchingRoutesByPath urlMatch depth w rid totalPath []
  = Normal found ->
  (forall m, In m found
             <-> (Spec.LegacyReach w rid (Legacy.route m)
                  /\ (exists f, Legacy.handler (Legacy.route m)
                                = Legacy.FunctionHandler f)
                  /\ Walk.legacyEntry urlMatch totalPath (Legacy.route m)
                     = Some m))
  /\ (forall responseMatch,
        List.hd_error
          (List.filter (fun m => negb (Legacy.isMiddleware (Legacy.route m)))
             found) = Some responseMatch ->
        exists f, Legacy.handler (Legacy.route responseMatch)
                  = Legacy.FunctionHandler f).
Proof.
  intros Hl. split.
  - intros m. split.
    + now apply (getMatchingRoutesByPath_sound urlMatch w totalPath depth rid
                   found).
    + intros (Hreach & [f Hf] & He).
      now apply (getMatchingRoutesByPath_complete urlMatch w totalPath rid _ f
                   m Hreach Hf He depth found).
  - intros rm Hrm.
    assert (Hin : In rm found).
    { destruct (List.filter _ found) as [|x xs] eqn:Hfil; [discriminate|].
      injection Hrm as ->.
      assert (Hx : In rm (List.filter
                            (fun m => negb (Legacy.isMiddleware
                                              (Legacy.route m))) found))
        by (rewrite Hfil; now left).
      now apply filter_In in Hx. }
    now destruct (getMatchingRoutesByPath_sound urlMatch w totalPath depth rid
                    found rm Hl Hin) as (_ & Hf & _).
Qed.

Lemma getMatchingRoutesByPath_finds_exactly_the_matching_routes_witness :
  match Spec.legacyMountedApiTime POST 7 ExampleHost.legacyWorld with
  | (Normal root, w) =>
      exists found,
        Legacy.getMatchingRoutesByPath ExampleHost.urlMatch 2 w root
          "/api/time/" [] = Normal found
        /\ map Spec.legacySelected found
           = [(POST, "/api/time/", Legacy.FunctionHandler 7, false, [])]
        /\ forall responseMatch,
             List.hd_error
               (List.filter
                  (fun m => negb (Legacy.isMiddleware (Legacy.route m)))
                  found) = Some responseMatch ->
             exists f, Legacy.handler (Legacy.route responseMatch)
                       = Legacy.FunctionHandler f
  | _ => False
  end.
Proof.
  destruct (Spec.legacyMountedApiTime POST 7 ExampleHost.legacyWorld)
    as [[root|e] w] eqn:E; vm_compute in E; [|discriminate E].
  injection E as <- <-.
  match goal with
  | |- exists found, Legacy.getMatchingRoutesByPath _ _ ?W _ _ _ = _ /\ _ =>
      set (w := W)
  end.
  destruct (Legacy.getMatchingRoutesByPath ExampleHost.urlMatch 2 w 0
              "/api/time/" [])
    as [found|e] eqn:Hfound; [|vm_compute in Hfound; discriminate Hfound].
  exists found. split; [reflexivity|].
  split; [vm_compute in Hfound; injection Hfound as <-; reflexivity|].
  exact (proj2 (getMatchingRoutesByPath_finds_exactly_the_matching_routes
                  ExampleHost.urlMatch 2 w 0 "/api/time/" found Hfound)).
Defined.

(* ===================================================================== *)
(** ** The main router *)
(* ===================================================================== *)

Lemma getMainRouter_mono (d d' : nat) (w : Tree.World) (rid m : Tree.RouterId) :
  d <= d' ->
  Tree.getMainRouter d w rid = Normal m ->
  Tree.getMainRouter d' w rid = Normal m.
Proof.
  revert d' rid. induction d as [|d IH]; intros d' rid Hle; [discriminate|].
  destruct d' as [|d']; [lia|]. cbn [Tree.getMainRouter].
  destruct (Tree.routers w !! rid) as [r|]; [|trivial].
  destruct (Tree.parentRouter r) as [p|]; [|trivial].
  apply IH. lia.
Qed.

Lemma getMainRouter_top (d : nat) (w : Tree.World) (rid m : Tree.RouterId) :
  Tree.getMainRouter d w rid = Normal m ->
  exists main,
    Tree.routers w !! m = Some main
    /\ Tree.parentRouter main = None
    /\ Tree.isMainRouter main = true.
Proof.
  revert rid. induction d as [|d IH]; intros rid; [discriminate|].
  cbn [Tree.getMainRouter].
  destruct (Tree.routers w !! rid) as [r|] eqn:Hrid; [|discriminate].
  destruct (Tree.parentRouter r) as [p|] eqn:Hp; [apply IH|].
  destruct (Tree.isMainRouter r) eqn:Hm; [|discriminate].
  intros [= <-]. now exists r.
Qed.

(** X9.  What [getMainRouter] returns is a router of the program that has
    no parent and is marked as main router; asked again, that router
    names itself, and a larger call-stack bound gives the same answer.
    So [finishResponse] and [build] always find the router object whose
    response builder they read. *)
Theorem getMainRouter_returns_the_marked_top (depth : nat) (w : Tree.World)
  (rid mainId : Tree.RouterId) :
  Tree.getMainRouter depth w rid = Normal mainId ->
  (exists main,
     Tree.routers w !! mainId = Some main
     /\ Tree.parentRouter main = None
     /\ Tree.isMainRouter main = true)
  /\ Tree.getMainRouter depth w mainId = Normal mainId
  /\ (forall depth', depth <= depth' ->
        Tree.getMainRouter depth' w rid = Normal mainId).
Proof.
  intros H. destruct (getMainRouter_top _ _ _ _ H) as (main & Hm & Hp & Hi).
  split; [now exists main|]. split.
  - destruct depth as [|d]; [discriminate|]. cbn [Tree.getMainRouter].
    now rewrite Hm, Hp, Hi.
  - intros depth' Hle. now apply (getMainRouter_mono depth depth').
Qed.

Lemma getMainRouter_returns_the_marked_top_witness :
  match (root ← Unnamed.newRouter Tree.noOptions;
         sub ← Unnamed.newRouter Tree.noOptions;
         Unnamed.use root (Tree.UsePath "/api" (Tree.RouterHandler sub));;
         Tree.assignSelfAsMainRouter root;;
         mret (root, sub)) ExampleHost.world with
  | (Normal (root, sub), w) =>
      Tree.getMainRouter 2 w sub = Normal root
      /\ Tree.getMainRouter 2 w root = Normal root
      /\ Tree.getMainRouter 7 w sub = Normal root
      /\ Tree.getMainRouter 1 w sub = Throw stackOverflow
  | _ => False
  end.
Proof.
  match goal with
  | |- match ?c with _ => _ end =>
      destruct c as [[[root sub]|e] w] eqn:E; vm_compute in E;
        [|discriminate E]
  end.
  injection E as <- <- <-.
  match goal with |- Tree.getMainRouter 2 ?W 1 = _ /\ _ => set (w := W) end.
  assert (H : Tree.getMainRouter 2 w 1 = Normal 0) by (vm_compute; reflexivity).
  destruct (getMainRouter_returns_the_marked_top 2 w 1 0 H) as (_ & H2 & H3).
  split; [exact H|]. split; [exact H2|]. split; [apply H3; lia|].
  vm_compute. reflexivity.
Defined.

(* ===================================================================== *)
(** ** Registration: routes, mounts and re-basing *)
(* ===================================================================== *)

Ltac js_unfold :=
  unfold mbind, mret, Js_bind, Js_ret, bind, ret, throw.

Lemma getRouter_run (w : Tree.World) (rid : Tree.RouterId) (r : Tree.Router) :
  Tree.routers w !! rid = Some r -> Tree.getRouter rid w = (Normal r, w).
Proof. intros H. unfold Tree.getRouter. now rewrite H. Qed.

Lemma bind_run {A B} (c : Tree.M A) (k : A -> Tree.M B) (w w' : Tree.World)
  (a : A) :
  c w = (Normal a, w') -> (c ≫= k) w = k a w'.
Proof. intros H. js_unfold. now rewrite H. Qed.

Lemma lookup_withRouter_eq (w : Tree.World) (rid : Tree.RouterId)
  (r : Tree.Router) :
  Tree.routers (Registration.withRouter rid r w) !! rid = Some r.
Proof. apply lookup_insert_eq. Qed.

Lemma lookup_withRouter_ne (w : Tree.World) (rid other : Tree.RouterId)
  (r : Tree.Router) :
  other <> rid ->
  Tree.routers (Registration.withRouter rid r w) !! other
  = Tree.routers w !! other.
Proof. intros H. now apply lookup_insert_ne. Qed.

Lemma withRouter_twice (w : Tree.World) (rid : Tree.RouterId)
  (r r' : Tree.Router) :
  Registration.withRouter rid r' (Registration.withRouter rid r w)
  = Registration.withRouter rid r' w.
Proof.
  unfold Registration.withRouter. cbn [Tree.routers Tree.lastRouteIndex
                                       Tree.nextRouter].
  now rewrite insert_insert_eq.
Qed.

Lemma setRouter_run (w : Tree.World) (rid : Tree.RouterId) (r : Tree.Router) :
  Tree.setRouter rid r w = (Normal tt, Registration.withRouter rid r w).
Proof. reflexivity. Qed.

Lemma host_withLastRouteIndex (n : nat) (w : Tree.World) :
  Tree.host (Registration.withLastRouteIndex n w) = Tree.host w.
Proof. reflexivity. Qed.

Lemma host_withRouter (rid : Tree.RouterId) (r : Tree.Router)
  (w : Tree.World) :
  Tree.host (Registration.withRouter rid r w) = Tree.host w.
Proof. reflexivity. Qed.

Lemma bind_throw {A B} (c : Tree.M A) (k : A -> Tree.M B) (w w' : Tree.World)
  (e : Error) :
  c w = (Throw e, w') -> (c ≫= k) w = (Throw e, w').
Proof. intros H. js_unfold. now rewrite H. Qed.

Lemma newUrlPattern_run (w : Tree.World) (path : string) :
  patternError (Tree.host w) path = None ->
  Tree.newUrlPattern path w = (Normal tt, w).
Proof. intros H. unfold Tree.newUrlPattern. now rewrite H. Qed.

Lemma newUrlPattern_throw (w : Tree.World) (path : string) (e : Error) :
  patternError (Tree.host w) path = Some e ->
  Tree.newUrlPattern path w = (Throw e, w).
Proof. intros H. unfold Tree.newUrlPattern. now rewrite H. Qed.

Lemma newRoute_run (w : Tree.World) (rid : Tree.RouterId) (r : Tree.Router)
  (o : Tree.RouteOptions) :
  Tree.routers w !! rid = Some r ->
  patternError (Tree.host w) (Paths.fixPath (Tree.basePath r) (Tree.opt_path o))
  = None ->
  Tree.newRoute rid o w
  = (Normal (Registration.builtRoute rid (Tree.basePath r)
               (fst (Registration.takenIndex o (Tree.lastRouteIndex w))) o),
     Registration.withLastRouteIndex
       (snd (Registration.takenIndex o (Tree.lastRouteIndex w))) w).
Proof.
  intros H Hc. unfold Tree.newRoute, Tree.fixPath.
  rewrite (bind_run _ _ w w (Paths.fixPath (Tree.basePath r) (Tree.opt_path o))).
  2:{ rewrite (bind_run _ _ w w r) by now apply getRouter_run. reflexivity. }
  rewrite (bind_run _ _ w w tt) by now apply newUrlPattern_run.
  unfold Registration.takenIndex, Registration.builtRoute.
  destruct w as [rs li nx pv hst].
  destruct (Tree.opt_routeIndex o) as [[|n]|]; js_unfold;
    unfold Tree.postIncrementRouteIndex, Registration.withLastRouteIndex;
    cbn [Tree.routers Tree.lastRouteIndex Tree.nextRouter
         Tree.programVariables Tree.host fst snd];
    now rewrite orb_false_r.
Qed.

Lemma newRoute_throw (w : Tree.World) (rid : Tree.RouterId) (r : Tree.Router)
  (o : Tree.RouteOptions) (e : Error) :
  Tree.routers w !! rid = Some r ->
  patternError (Tree.host w) (Paths.fixPath (Tree.basePath r) (Tree.opt_path o))
  = Some e ->
  Tree.newRoute rid o w = (Throw e, w).
Proof.
  intros H Hc. unfold Tree.newRoute, Tree.fixPath.
  rewrite (bind_run _ _ w w (Paths.fixPath (Tree.basePath r) (Tree.opt_path o))).
  2:{ rewrite (bind_run _ _ w w r) by now apply getRouter_run. reflexivity. }
  apply bind_throw. now apply newUrlPattern_throw.
Qed.

Lemma createRouteAndAdd_run (w : Tree.World) (rid : Tree.RouterId)
  (r : Tree.Router) (o : Tree.RouteOptions) :
  Tree.routers w !! rid = Some r ->
  patternError (Tree.host w) (Paths.fixPath (Tree.basePath r) (Tree.opt_path o))
  = None ->
  let rt := Registration.builtRoute rid (Tree.basePath r)
              (fst (Registration.takenIndex o (Tree.lastRouteIndex w))) o in
  Tree.createRouteAndAdd rid o w
  = (Normal rt,
     Registration.withRouter rid (Tree.withRoutes (Tree.routes r ++ [rt]) r)
       (Registration.withLastRouteIndex
          (snd (Registration.takenIndex o (Tree.lastRouteIndex w))) w)).
Proof.
  intros H Hc rt. unfold Tree.createRouteAndAdd, Tree.createRoute.
  rewrite (bind_run _ _ _ _ _ (newRoute_run w rid r o H Hc)).
  rewrite (bind_run _ _ _ _ r) by now apply getRouter_run.
  reflexivity.
Qed.

Lemma createRouteAndAdd_throw (w : Tree.World) (rid : Tree.RouterId)
  (r : Tree.Router) (o : Tree.RouteOptions) (e : Error) :
  Tree.routers w !! rid = Some r ->
  patternError (Tree.host w) (Paths.fixPath (Tree.basePath r) (Tree.opt_path o))
  = Some e ->
  Tree.createRouteAndAdd rid o w = (Throw e, w).
Proof.
  intros H Hc. unfold Tree.createRouteAndAdd, Tree.createRoute.
  apply bind_throw. now apply newRoute_throw with (r := r).
Qed.

Lemma rebased_widen (rid : Tree.RouterId) (b : string) (lo lo' hi hi' : nat)
  (old new : Tree.Route) :
  lo' <= lo -> hi <= hi' ->
  Registration.rebased rid b lo hi old new ->
  Registration.rebased rid b lo' hi' old new.
Proof.
  intros Hlo Hhi (H1 & H2 & H3 & H4 & H5 & H6 & H7 & H8).
  repeat (split; [assumption|]). intros H0. specialize (H8 H0). lia.
Qed.

Lemma forEach_createRoute_run (rid : Tree.RouterId) (r : Tree.Router)
  (olds : list Tree.Route) (w : Tree.World) :
  Tree.routers w !! rid = Some r ->
  List.Forall (fun old => patternError (Tree.host w)
                       (Paths.fixPath (Tree.basePath r)
                          (Tree.inputPath (Tree.path old))) = None) olds ->
  exists news hi,
    forEach (fun oldRoute =>
               Tree.createRoute rid
                 {| Tree.opt_path := Tree.inputPath (Tree.path oldRoute);
                    Tree.opt_method := Tree.method oldRoute;
                    Tree.opt_handler := Tree.handler oldRoute;
                    Tree.opt_isMiddleware := Tree.isMiddleware oldRoute;
                    Tree.opt_routeIndex := Some (Tree.routeIndex oldRoute) |})
      olds w
    = (Normal news, Registration.withLastRouteIndex hi w)
    /\ Tree.lastRouteIndex w <= hi
    /\ Forall2 (Registration.rebased rid (Tree.basePath r)
                  (Tree.lastRouteIndex w) hi) olds news.
Proof.
  revert w. induction olds as [|old rest IH]; intros w H Hc.
  - exists [], (Tree.lastRouteIndex w). split; [now destruct w|].
    split; [lia | constructor].
  - apply List.Forall_cons_iff in Hc. destruct Hc as [Hc1 Hc2].
    cbn [forEach]. unfold Tree.createRoute at 1.
    pose (o := {| Tree.opt_path := Tree.inputPath (Tree.path old);
                  Tree.opt_method := Tree.method old;
                  Tree.opt_handler := Tree.handler old;
                  Tree.opt_isMiddleware := Tree.isMiddleware old;
                  Tree.opt_routeIndex := Some (Tree.routeIndex old) |}).
    rewrite (bind_run _ _ _ _ _ (newRoute_run w rid r o H Hc1)).
    set (ix := Registration.takenIndex o (Tree.lastRouteIndex w)).
    destruct (IH (Registration.withLastRouteIndex (snd ix) w) H Hc2)
      as (news & hi & Hrun & Hle & Hall).
    cbn [Registration.withLastRouteIndex Tree.lastRouteIndex] in Hle, Hall.
    assert (Hix : Tree.lastRouteIndex w <= snd ix
                  /\ (Tree.routeIndex old <> 0
                      -> fst ix = Tree.routeIndex old)
                  /\ (Tree.routeIndex old = 0
                      -> fst ix = Tree.lastRouteIndex w
                         /\ snd ix = S (Tree.lastRouteIndex w))).
    { subst ix o. unfold Registration.takenIndex. cbn [Tree.opt_routeIndex].
      destruct (Tree.routeIndex old) as [|n]; cbn [fst snd];
        (split; [lia|]); split; intros; try lia; try congruence; now split. }
    destruct Hix as (Hix1 & Hix2 & Hix3).
    exists (Registration.builtRoute rid (Tree.basePath r) (fst ix) o :: news), hi.
    split; [|split; [lia|]].
    + rewrite (bind_run _ _ _ _ _ Hrun). reflexivity.
    + constructor.
      * unfold Registration.rebased, Registration.builtRoute. subst o.
        cbn [Tree.router Tree.method Tree.handler Tree.isMiddleware Tree.path
             Tree.inputPath Tree.fixedPath Tree.routeIndex Tree.opt_path
             Tree.opt_method Tree.opt_handler Tree.opt_isMiddleware].
        repeat (split; [reflexivity|]). split; [exact Hix2|].
        intros H0. destruct (Hix3 H0) as [-> Hs]. lia.
      * eapply Forall2_impl; [exact Hall|]. intros old' new'.
        apply rebased_widen; lia.
Qed.

Lemma forEach_createRoute_throw (rid : Tree.RouterId) (r : Tree.Router)
  (olds : list Tree.Route) (w : Tree.World) :
  Tree.routers w !! rid = Some r ->
  List.Exists (fun old => patternError (Tree.host w)
                       (Paths.fixPath (Tree.basePath r)
                          (Tree.inputPath (Tree.path old))) <> None) olds ->
  exists e hi old,
    forEach (fun oldRoute =>
               Tree.createRoute rid
                 {| Tree.opt_path := Tree.inputPath (Tree.path oldRoute);
                    Tree.opt_method := Tree.method oldRoute;
                    Tree.opt_handler := Tree.handler oldRoute;
                    Tree.opt_isMiddleware := Tree.isMiddleware oldRoute;
                    Tree.opt_routeIndex := Some (Tree.routeIndex oldRoute) |})
      olds w
    = (Throw e, Registration.withLastRouteIndex hi w)
    /\ In old olds
    /\ patternError (Tree.host w)
         (Paths.fixPath (Tree.basePath r) (Tree.inputPath (Tree.path old)))
       = Some e.
Proof.
  revert w. induction olds as [|old rest IH]; intros w H Hc.
  - inversion Hc.
  - cbn [forEach]. unfold Tree.createRoute at 1.
    pose (o := {| Tree.opt_path := Tree.inputPath (Tree.path old);
                  Tree.opt_method := Tree.method old;
                  Tree.opt_handler := Tree.handler old;
                  Tree.opt_isMiddleware := Tree.isMiddleware old;
                  Tree.opt_routeIndex := Some (Tree.routeIndex old) |}).
    destruct (patternError (Tree.host w)
                (Paths.fixPath (Tree.basePath r)
                   (Tree.inputPath (Tree.path old)))) as [e|] eqn:He.
    + exists e, (Tree.lastRouteIndex w), old.
      split; [|split; [now left | exact He]].
      apply bind_throw.
      replace (Registration.withLastRouteIndex (Tree.lastRouteIndex w) w)
        with w by now destruct w.
      exact (newRoute_throw w rid r o e H He).
    + rewrite (bind_run _ _ _ _ _ (newRoute_run w rid r o H He)).
      set (ix := Registration.takenIndex o (Tree.lastRouteIndex w)).
      assert (Hrest : List.Exists
                (fun old => patternError (Tree.host w)
                     (Paths.fixPath (Tree.basePath r)
                        (Tree.inputPath (Tree.path old))) <> None) rest).
      { apply List.Exists_cons in Hc. destruct Hc as [Hc|Hc]; [|exact Hc].
        now elim Hc. }
      destruct (IH (Registration.withLastRouteIndex (snd ix) w) H Hrest)
        as (e & hi & bad & Hrun & Hin & Hbad).
      exists e, hi, bad. split; [|split; [now right | exact Hbad]].
      rewrite (bind_throw _ _ _ _ _ Hrun). reflexivity.
Qed.

Lemma updateSelfRoutes_run (w : Tree.World) (rid : Tree.RouterId)
  (r : Tree.Router) :
  Tree.routers w !! rid = Some r ->
  List.Forall (fun old => patternError (Tree.host w)
                       (Paths.fixPath (Tree.basePath r)
                          (Tree.inputPath (Tree.path old))) = None)
    (Tree.routes r) ->
  exists news hi,
    Tree.updateSelfRoutes rid w
    = (Normal tt,
       Registration.withRouter rid (Tree.withRoutes news r)
         (Registration.withLastRouteIndex hi w))
    /\ Tree.lastRouteIndex w <= hi
    /\ Forall2 (Registration.rebased rid (Tree.basePath r)
                  (Tree.lastRouteIndex w) hi) (Tree.routes r) news.
Proof.
  intros H Hc. unfold Tree.updateSelfRoutes.
  rewrite (bind_run _ _ _ _ r) by now apply getRouter_run.
  destruct (forEach_createRoute_run rid r (Tree.routes r) w H Hc)
    as (news & hi & Hrun & Hle & Hall).
  exists news, hi. split; [|now split].
  rewrite (bind_run _ _ _ _ _ Hrun).
  rewrite (bind_run _ _ _ _ r) by now apply getRouter_run.
  reflexivity.
Qed.

Lemma updateSelfRoutes_throw (w : Tree.World) (rid : Tree.RouterId)
  (r : Tree.Router) :
  Tree.routers w !! rid = Some r ->
  List.Exists (fun old => patternError (Tree.host w)
                       (Paths.fixPath (Tree.basePath r)
                          (Tree.inputPath (Tree.path old))) <> None)
    (Tree.routes r) ->
  exists e hi old,
    Tree.updateSelfRoutes rid w
    = (Throw e, Registration.withLastRouteIndex hi w)
    /\ In old (Tree.routes r)
    /\ patternError (Tree.host w)
         (Paths.fixPath (Tree.basePath r) (Tree.inputPath (Tree.path old)))
       = Some e.
Proof.
  intros H Hc. unfold Tree.updateSelfRoutes.
  rewrite (bind_run _ _ _ _ r) by now apply getRouter_run.
  destruct (forEach_createRoute_throw rid r (Tree.routes r) w H Hc)
    as (e & hi & old & Hrun & Hin & Hbad).
  exists e, hi, old. split; [|now split].
  now apply bind_throw.
Qed.

Lemma fixPath_run (w : Tree.World) (rid : Tree.RouterId) (r : Tree.Router)
  (p : string) :
  Tree.routers w !! rid = Some r ->
  Tree.fixPath rid p w = (Normal (Paths.fixPath (Tree.basePath r) p), w).
Proof.
  intros H. unfold Tree.fixPath.
  rewrite (bind_run _ _ _ _ r) by now apply getRouter_run. reflexivity.
Qed.

Lemma RouterDir_init_run (w : Tree.World) (rid : Tree.RouterId)
  (r : Tree.Router) (newBasePath : string) (parent : option Tree.RouterId) :
  Tree.routers w !! rid = Some r ->
  RouterDir.init rid newBasePath parent w
  = (Normal tt,
     Registration.withRouter rid
       (Tree.withParentRouter parent
          (Tree.withBasePath
             (Paths.fixPath "/" (if String.eqb newBasePath "" then "/"
                                 else newBasePath)) r)) w).
Proof.
  intros H. unfold RouterDir.init.
  rewrite (bind_run _ _ _ _ r) by now apply getRouter_run.
  rewrite (bind_run _ _ _ _ tt (setRouter_run _ _ _)).
  rewrite (bind_run _ _ _ _ _
             (fixPath_run _ rid _ _ (lookup_withRouter_eq _ _ _))).
  rewrite (bind_run _ _ _ _ _
             (getRouter_run _ rid _ (lookup_withRouter_eq _ _ _))).
  rewrite (bind_run _ _ _ _ tt (setRouter_run _ _ _)).
  rewrite (bind_run _ _ _ _ _
             (getRouter_run _ rid _ (lookup_withRouter_eq _ _ _))).
  rewrite setRouter_run, !withRouter_twice. reflexivity.
Qed.

Lemma Unnamed_init_run (w : Tree.World) (rid : Tree.RouterId)
  (r : Tree.Router) (newBasePath : string) (parent : option Tree.RouterId) :
  Tree.routers w !! rid = Some r ->
  let b := Paths.fixPath "/" (if String.eqb newBasePath "" then "/"
                              else newBasePath) in
  List.Forall (fun old => patternError (Tree.host w)
                       (Paths.fixPath b (Tree.inputPath (Tree.path old)))
                     = None) (Tree.routes r) ->
  exists news hi,
    Unnamed.init rid newBasePath parent w
    = (Normal tt,
       Registration.withRouter rid
         (Tree.withRoutes news
            (Tree.withParentRouter parent (Tree.withBasePath b r)))
         (Registration.withLastRouteIndex hi w))
    /\ Tree.lastRouteIndex w <= hi
    /\ Forall2 (Registration.rebased rid b (Tree.lastRouteIndex w) hi)
         (Tree.routes r) news.
Proof.
  intros H b Hc. unfold Unnamed.init.
  rewrite (bind_run _ _ _ _ r) by now apply getRouter_run.
  rewrite (bind_run _ _ _ _ tt (setRouter_run _ _ _)).
  rewrite (bind_run _ _ _ _ _
             (fixPath_run _ rid _ _ (lookup_withRouter_eq _ _ _))).
  rewrite (bind_run _ _ _ _ _
             (getRouter_run _ rid _ (lookup_withRouter_eq _ _ _))).
  rewrite (bind_run _ _ _ _ tt (setRouter_run _ _ _)).
  rewrite (bind_run _ _ _ _ _
             (getRouter_run _ rid _ (lookup_withRouter_eq _ _ _))).
  rewrite (bind_run _ _ _ _ tt (setRouter_run _ _ _)).
  rewrite !withRouter_twice.
  cbn [Tree.withBasePath Tree.basePath].
  set (r3 := Tree.withParentRouter parent _).
  destruct (updateSelfRoutes_run (Registration.withRouter rid r3 w) rid r3
              (lookup_withRouter_eq _ _ _) Hc)
    as (news & hi & Hrun & Hle & Hall).
  exists news, hi. split; [|split; [exact Hle | exact Hall]].
  rewrite Hrun. f_equal.
  unfold Registration.withRouter, Registration.withLastRouteIndex.
  cbn [Tree.routers Tree.lastRouteIndex Tree.nextRouter].
  now rewrite insert_insert_eq.
Qed.

Lemma Unnamed_init_throw (w : Tree.World) (rid : Tree.RouterId)
  (r : Tree.Router) (newBasePath : string) (parent : option Tree.RouterId) :
  Tree.routers w !! rid = Some r ->
  let b := Paths.fixPath "/" (if String.eqb newBasePath "" then "/"
                              else newBasePath) in
  List.Exists (fun old => patternError (Tree.host w)
                       (Paths.fixPath b (Tree.inputPath (Tree.path old)))
                     <> None) (Tree.routes r) ->
  exists e hi old,
    Unnamed.init rid newBasePath parent w
    = (Throw e,
       Registration.withRouter rid
         (Tree.withParentRouter parent (Tree.withBasePath b r))
         (Registration.withLastRouteIndex hi w))
    /\ In old (Tree.routes r)
    /\ patternError (Tree.host w)
         (Paths.fixPath b (Tree.inputPath (Tree.path old))) = Some e.
Proof.
  intros H b Hc. unfold Unnamed.init.
  rewrite (bind_run _ _ _ _ r) by now apply getRouter_run.
  rewrite (bind_run _ _ _ _ tt (setRouter_run _ _ _)).
  rewrite (bind_run _ _ _ _ _
             (fixPath_run _ rid _ _ (lookup_withRouter_eq _ _ _))).
  rewrite (bind_run _ _ _ _ _
             (getRouter_run _ rid _ (lookup_withRouter_eq _ _ _))).
  rewrite (bind_run _ _ _ _ tt (setRouter_run _ _ _)).
  rewrite (bind_run _ _ _ _ _
             (getRouter_run _ rid _ (lookup_withRouter_eq _ _ _))).
  rewrite (bind_run _ _ _ _ tt (setRouter_run _ _ _)).
  rewrite !withRouter_twice.
  cbn [Tree.withBasePath Tree.basePath].
  set (r3 := Tree.withParentRouter parent _).
  destruct (updateSelfRoutes_throw (Registration.withRouter rid r3 w) rid r3
              (lookup_withRouter_eq _ _ _) Hc)
    as (e & hi & old & Hrun & Hin & Hbad).
  exists e, hi, old. split; [|split; [exact Hin | exact Hbad]].
  rewrite Hrun. reflexivity.
Qed.

(** X10.  [init] of the documented revision moves a router under a new
    base path.  It sets the base path to the normalized path and the
    parent, and then makes every route of the router again under the new
    base path.  When url-pattern compiles each of the re-based paths,
    [init] returns: every route is there again with its method, handler,
    middleware flag and input path, and with its index unless that was 0
    (then it gets a fresh one).  When url-pattern refuses one of them,
    [init] throws the error of url-pattern for such a route, and the
    router is left with the new base path and the new parent but with
    its old routes, fixed paths included.  Either way no other router
    changes, so the routes of a router that was mounted below this one
    earlier keep their old paths. *)
Theorem Unnamed_init_rebases_own_routes_only (w : Tree.World)
  (rid : Tree.RouterId) (r : Tree.Router) (newBasePath : string)
  (parent : option Tree.RouterId) :
  Tree.routers w !! rid = Some r ->
  let b := Paths.fixPath "/" (if String.eqb newBasePath "" then "/"
                              else newBasePath) in
  (List.Forall (fun old => patternError (Tree.host w)
                        (Paths.fixPath b (Tree.inputPath (Tree.path old)))
                      = None) (Tree.routes r) ->
   exists w' r',
     Unnamed.init rid newBasePath parent w = (Normal tt, w')
     /\ Tree.routers w' !! rid = Some r'
     /\ Tree.basePath r' = b
     /\ Tree.parentRouter r' = parent
     /\ Tree.isMainRouter r' = Tree.isMainRouter r
     /\ Forall2 (Registration.rebased rid b (Tree.lastRouteIndex w)
                   (Tree.lastRouteIndex w'))
          (Tree.routes r) (Tree.routes r')
     /\ (forall other, other <> rid ->
           Tree.routers w' !! other = Tree.routers w !! other)
     /\ Tree.nextRouter w' = Tree.nextRouter w)
  /\ (List.Exists (fun old => patternError (Tree.host w)
                           (Paths.fixPath b (Tree.inputPath (Tree.path old)))
                         <> None) (Tree.routes r) ->
      exists e w' old,
        Unnamed.init rid newBasePath parent w = (Throw e, w')
        /\ In old (Tree.routes r)
        /\ patternError (Tree.host w)
             (Paths.fixPath b (Tree.inputPath (Tree.path old))) = Some e
        /\ Tree.routers w' !! rid
           = Some (Tree.withParentRouter parent (Tree.withBasePath b r))
        /\ (forall other, other <> rid ->
              Tree.routers w' !! other = Tree.routers w !! other)
        /\ Tree.nextRouter w' = Tree.nextRouter w).
Proof.
  intros H b. split; intros Hc.
  - destruct (Unnamed_init_run w rid r newBasePath parent H Hc)
      as (news & hi & Hrun & Hle & Hall).
    eexists _, _. split; [exact Hrun|].
    split; [apply lookup_withRouter_eq|].
    repeat (split; [reflexivity|]).
    split; [exact Hall|]. split; [|reflexivity].
    intros other Hne. now rewrite lookup_withRouter_ne.
  - destruct (Unnamed_init_throw w rid r newBasePath parent H Hc)
      as (e & hi & old & Hrun & Hin & Hbad).
    eexists e, _, old. split; [exact Hrun|].
    split; [exact Hin|]. split; [exact Hbad|].
    split; [apply lookup_withRouter_eq|]. split; [|reflexivity].
    intros other Hne. now rewrite lookup_withRouter_ne.
Qed.

Lemma Unnamed_init_rebases_own_routes_only_witness :
  match (sub ← Unnamed.newRouter Tree.noOptions;
         Tree.get sub "/a" (Tree.FunctionHandler 0);;
         Tree.get sub "/b" (Tree.FunctionHandler 1);;
         mret sub) ExampleHost.world with
  | (Normal sub, w) =>
      match Unnamed.init sub "/api" None w with
      | (Normal _, w') =>
          (map (fun rt => (Tree.fixedPath (Tree.path rt), Tree.routeIndex rt))
             <$> (Tree.routes <$> Tree.routers w !! sub))
          = Some [("/a/", 0); ("/b/", 1)]
          /\ (map (fun rt => (Tree.fixedPath (Tree.path rt), Tree.routeIndex rt))
                <$> (Tree.routes <$> Tree.routers w' !! sub))
             = Some [("/api/a/", 2); ("/api/b/", 1)]
          /\ exists r r',
               Tree.routers w !! sub = Some r
               /\ Tree.routers w' !! sub = Some r'
               /\ Forall2 (Registration.rebased sub "/api/"
                             (Tree.lastRouteIndex w) (Tree.lastRouteIndex w'))
                    (Tree.routes r) (Tree.routes r')
      | _ => False
      end
      /\ match Unnamed.init sub "/x y" None w with
         | (Throw e, w') =>
             e = "argument must not contain whitespace"
             /\ ((fun r => (Tree.basePath r,
                            map (fun rt => Tree.fixedPath (Tree.path rt))
                              (Tree.routes r)))
                   <$> Tree.routers w' !! sub)
                = Some ("/x y/", ["/a/"; "/b/"])
         | _ => False
         end
  | _ => False
  end.
Proof.
  match goal with
  | |- match ?c with _ => _ end =>
      destruct c as [[sub|e] w] eqn:E; vm_compute in E; [|discriminate E]
  end.
  injection E as <- <-.
  match goal with |- match Unnamed.init 0 _ _ ?W with _ => _ end /\ _ =>
    set (w := W) end.
  pose_value r (Tree.routers w !! 0).
  assert (Hr : Tree.routers w !! 0 = Some r) by (vm_compute; reflexivity).
  split.
  - destruct (proj1 (Unnamed_init_rebases_own_routes_only w 0 r "/api" None
                       Hr))
      as (w' & r' & Hrun & Hr' & _ & _ & _ & Hall & _).
    { repeat (apply List.Forall_cons; [vm_compute; reflexivity|]).
      apply List.Forall_nil. }
    rewrite Hrun.
    split; [vm_compute; reflexivity|].
    split.
    + vm_compute in Hrun. injection Hrun as <-. vm_compute. reflexivity.
    + exists r, r'. split; [exact Hr|]. split; [exact Hr'|]. exact Hall.
  - destruct (proj2 (Unnamed_init_rebases_own_routes_only w 0 r "/x y" None
                       Hr))
      as (e & w' & old & Hrun & _ & _ & Hr' & _).
    { apply List.Exists_cons_hd. vm_compute. discriminate. }
    rewrite Hrun. vm_compute in Hrun. injection Hrun as <- <-.
    split; [reflexivity|]. vm_compute. reflexivity.
Defined.

(** X11.  [init] of [src/router/Router.ts] sets the base path and the
    parent and nothing else: the routes of the router keep the fixed
    paths they were registered with, so a route that is registered on a
    router before the router is mounted stays at its unmounted path. *)
Theorem RouterDir_init_leaves_the_routes (w : Tree.World)
  (rid : Tree.RouterId) (r : Tree.Router) (newBasePath : string)
  (parent : option Tree.RouterId) :
  Tree.routers w !! rid = Some r ->
  exists w' r',
    RouterDir.init rid newBasePath parent w = (Normal tt, w')
    /\ Tree.routers w' !! rid = Some r'
    /\ Tree.basePath r'
       = Paths.fixPath "/" (if String.eqb newBasePath "" then "/"
                            else newBasePath)
    /\ Tree.parentRouter r' = parent
    /\ Tree.routes r' = Tree.routes r
    /\ (forall other, other <> rid ->
          Tree.routers w' !! other = Tree.routers w !! other)
    /\ Tree.lastRouteIndex w' = Tree.lastRouteIndex w.
Proof.
  intros H. eexists _, _.
  split; [exact (RouterDir_init_run w rid r newBasePath parent H)|].
  split; [apply lookup_withRouter_eq|].
  repeat (split; [reflexivity|]). split; [|reflexivity].
  intros other Hne. now rewrite lookup_withRouter_ne.
Qed.

Lemma RouterDir_init_leaves_the_routes_witness :
  match (root ← RouterDir.newRouter Tree.noOptions;
         sub ← RouterDir.newRouter Tree.noOptions;
         Tree.get sub "/a" (Tree.FunctionHandler 0);;
         mret (root, sub)) ExampleHost.world with
  | (Normal (root, sub), w) =>
      match RouterDir.use root (Tree.UsePath "/api" (Tree.RouterHandler sub))
              w with
      | (Normal _, w') =>
          (exists r r', Tree.routers w !! sub = Some r
                        /\ Tree.routers w' !! sub = Some r'
                        /\ Tree.basePath r' = "/api/"
                        /\ Tree.routes r' = Tree.routes r)
          /\ forall req,
               Tree.req_method req = "GET" ->
               (Tree.req_path req = "/api/a/" ->
                Spec.matchOutcome ExampleHost.urlMatch 2 w' root req
                = Normal [])
               /\ (Tree.req_path req = "/a/" ->
                   Spec.matchOutcome ExampleHost.urlMatch 2 w' root req
                   = Normal [(GET, "/a/", Tree.FunctionHandler 0, false,
                              Some [])])
      | _ => False
      end
  | _ => False
  end.
Proof.
  match goal with
  | |- match ?c with _ => _ end =>
      destruct c as [[[root sub]|e] w] eqn:E; vm_compute in E;
        [|discriminate E]
  end.
  injection E as <- <- <-.
  match goal with |- match RouterDir.use 0 _ ?W with _ => _ end =>
    set (w := W) end.
  assert (Hr : exists r, Tree.routers w !! 1 = Some r)
    by (eexists; vm_compute; reflexivity).
  destruct Hr as [r Hr].
  destruct (RouterDir_init_leaves_the_routes w 1 r "/api" (Some 0) Hr)
    as (w1 & r1 & Hrun & Hr1 & Hb & _ & Hroutes & _).
  destruct (RouterDir.use 0 (Tree.UsePath "/api" (Tree.RouterHandler 1)) w)
    as [[u|e] w'] eqn:E; vm_compute in E; [|discriminate E].
  injection E as <- <-.
  split.
  - exists r, r1. split; [exact Hr|].
    split; [|split; [exact Hb | exact Hroutes]].
    vm_compute in Hrun. injection Hrun as <-.
    vm_compute in Hr1. injection Hr1 as <-. vm_compute. reflexivity.
  - intros [u p me hs mp mr] Hme. cbn in Hme. subst me.
    split; intros Hp; cbn in Hp; subst p; vm_compute; reflexivity.
Defined.

Lemma addFor_run (w : Tree.World) (rid : Tree.RouterId) (r : Tree.Router)
  (m : Methods) (p : string) (h : Tree.RouteHandler) :
  Tree.routers w !! rid = Some r ->
  patternError (Tree.host w) (Paths.fixPath (Tree.basePath r) p) = None ->
  let rt := Registration.builtRoute rid (Tree.basePath r)
              (Tree.lastRouteIndex w)
              {| Tree.opt_path := p; Tree.opt_handler := h;
                 Tree.opt_method := m; Tree.opt_isMiddleware := false;
                 Tree.opt_routeIndex := None |} in
  Tree.addFor m rid p h w
  = (Normal tt,
     Registration.withRouter rid (Tree.withRoutes (Tree.routes r ++ [rt]) r)
       (Registration.withLastRouteIndex (S (Tree.lastRouteIndex w)) w)).
Proof.
  intros H Hc rt. unfold Tree.addFor.
  pose (o := {| Tree.opt_path := p; Tree.opt_handler := h;
                Tree.opt_method := m; Tree.opt_isMiddleware := false;
                Tree.opt_routeIndex := None |}).
  rewrite (bind_run _ _ _ _ _ (createRouteAndAdd_run w rid r o H Hc)).
  reflexivity.
Qed.


Lemma Unnamed_use_function_run (w : Tree.World) (rid : Tree.RouterId)
  (r : Tree.Router) (args : Tree.UseArgs) (f : Tree.HandlerId) :
  Tree.routers w !! rid = Some r ->
  match args with
  | Tree.UsePath _ arg1 => arg1
  | Tree.UseHandler arg0 arg1 => default arg0 arg1
  end = Tree.FunctionHandler f ->
  let usePath :=
    Paths.fixPath (Tree.basePath r)
      match args with
      | Tree.UsePath arg0 _ => arg0
      | Tree.UseHandler _ _ => "/"
      end in
  patternError (Tree.host w) (Paths.fixPath (Tree.basePath r) usePath)
  = None ->
  let rt := Registration.builtRoute rid (Tree.basePath r)
              (Tree.lastRouteIndex w)
              {| Tree.opt_path := usePath;
                 Tree.opt_handler := Tree.FunctionHandler f;
                 Tree.opt_method := ANY; Tree.opt_isMiddleware := true;
                 Tree.opt_routeIndex := None |} in
  Unnamed.use rid args w
  = (Normal tt,
     Registration.withRouter rid (Tree.withRoutes (Tree.routes r ++ [rt]) r)
       (Registration.withLastRouteIndex (S (Tree.lastRouteIndex w)) w)).
Proof.
  intros H Hf usePath Hc rt. unfold Unnamed.use. rewrite Hf.
  rewrite (bind_run _ _ _ _ _ (fixPath_run w rid r _ H)).
  rewrite (bind_run _ _ w w tt) by reflexivity.
  pose (o := {| Tree.opt_path := usePath;
                Tree.opt_handler := Tree.FunctionHandler f;
                Tree.opt_method := ANY; Tree.opt_isMiddleware := true;
                Tree.opt_routeIndex := None |}).
  rewrite (bind_run _ _ _ _ _ (createRouteAndAdd_run w rid r o H Hc)).
  reflexivity.
Qed.

Lemma Unnamed_use_function_throw (w : Tree.World) (rid : Tree.RouterId)
  (r : Tree.Router) (args : Tree.UseArgs) (f : Tree.HandlerId) (e : Error) :
  Tree.routers w !! rid = Some r ->
  match args with
  | Tree.UsePath _ arg1 => arg1
  | Tree.UseHandler arg0 arg1 => default arg0 arg1
  end = Tree.FunctionHandler f ->
  let usePath :=
    Paths.fixPath (Tree.basePath r)
      match args with
      | Tree.UsePath arg0 _ => arg0
      | Tree.UseHandler _ _ => "/"
      end in
  patternError (Tree.host w) (Paths.fixPath (Tree.basePath r) usePath)
  = Some e ->
  Unnamed.use rid args w = (Throw e, w).
Proof.
  intros H Hf usePath Hc. unfold Unnamed.use. rewrite Hf.
  rewrite (bind_run _ _ _ _ _ (fixPath_run w rid r _ H)).
  rewrite (bind_run _ _ w w tt) by reflexivity.
  apply bind_throw.
  pose (o := {| Tree.opt_path := usePath;
                Tree.opt_handler := Tree.FunctionHandler f;
                Tree.opt_method := ANY; Tree.opt_isMiddleware := true;
                Tree.opt_routeIndex := None |}).
  exact (createRouteAndAdd_throw w rid r o e H Hc).
Qed.

Lemma RouterDir_use_function_run (w : Tree.World) (rid : Tree.RouterId)
  (r : Tree.Router) (args : Tree.UseArgs) (f : Tree.HandlerId) :
  Tree.routers w !! rid = Some r ->
  match args with
  | Tree.UsePath _ arg1 => arg1
  | Tree.UseHandler arg0 arg1 => default arg0 arg1
  end = Tree.FunctionHandler f ->
  let usePath :=
    match args with
    | Tree.UsePath arg0 _ => arg0
    | Tree.UseHandler _ _ => "/"
    end in
  patternError (Tree.host w) (Paths.fixPath (Tree.basePath r) usePath)
  = None ->
  let rt := Registration.builtRoute rid (Tree.basePath r)
              (Tree.lastRouteIndex w)
              {| Tree.opt_path := usePath;
                 Tree.opt_handler := Tree.FunctionHandler f;
                 Tree.opt_method := ANY; Tree.opt_isMiddleware := true;
                 Tree.opt_routeIndex := None |} in
  RouterDir.use rid args w
  = (Normal tt,
     Registration.withRouter rid (Tree.withRoutes (Tree.routes r ++ [rt]) r)
       (Registration.withLastRouteIndex (S (Tree.lastRouteIndex w)) w)).
Proof.
  intros H Hf usePath Hc rt. unfold RouterDir.use. rewrite Hf.
  rewrite (bind_run _ _ w w tt) by reflexivity.
  pose (o := {| Tree.opt_path := usePath;
                Tree.opt_handler := Tree.FunctionHandler f;
                Tree.opt_method := ANY; Tree.opt_isMiddleware := true;
                Tree.opt_routeIndex := None |}).
  rewrite (bind_run _ _ _ _ _ (createRouteAndAdd_run w rid r o H Hc)).
  reflexivity.
Qed.

Lemma RouterDir_use_function_throw (w : Tree.World) (rid : Tree.RouterId)
  (r : Tree.Router) (args : Tree.UseArgs) (f : Tree.HandlerId) (e : Error) :
  Tree.routers w !! rid = Some r ->
  match args with
  | Tree.UsePath _ arg1 => arg1
  | Tree.UseHandler arg0 arg1 => default arg0 arg1
  end = Tree.FunctionHandler f ->
  let usePath :=
    match args with
    | Tree.UsePath arg0 _ => arg0
    | Tree.UseHandler _ _ => "/"
    end in
  patternError (Tree.host w) (Paths.fixPath (Tree.basePath r) usePath)
  = Some e ->
  RouterDir.use rid args w = (Throw e, w).
Proof.
  intros H Hf usePath Hc. unfold RouterDir.use. rewrite Hf.
  rewrite (bind_run _ _ w w tt) by reflexivity.
  apply bind_throw.
  pose (o := {| Tree.opt_path := usePath;
                Tree.opt_handler := Tree.FunctionHandler f;
                Tree.opt_method := ANY; Tree.opt_isMiddleware := true;
                Tree.opt_routeIndex := None |}).
  exact (createRouteAndAdd_throw w rid r o e H Hc).
Qed.




Lemma fixPath_nonempty (b p : string) : String.eqb (fixPath b p) "" = false.
Proof.
  pose proof (closed_fixPath b p) as Hc.
  destruct (fixPath b p); [discriminate Hc | reflexivity].
Qed.

Lemma Unnamed_mount_run (w : Tree.World) (rid child : Tree.RouterId)
  (r c : Tree.Router) (p : string) :
  rid <> child ->
  Tree.routers w !! rid = Some r ->
  Tree.routers w !! child = Some c ->
  let b := Tree.basePath r in
  List.Forall (fun old => patternError (Tree.host w)
                       (Paths.fixPath (Paths.fixPath "/" (Paths.fixPath b p))
                          (Tree.inputPath (Tree.path old))) = None)
    (Tree.routes c) ->
  patternError (Tree.host w) (Paths.fixPath b (Paths.fixPath b p)) = None ->
  exists w' c' mount,
     Unnamed.use rid (Tree.UsePath p (Tree.RouterHandler child)) w
     = (Normal tt, w')
     /\ Tree.host w' = Tree.host w
     /\ Tree.routers w' !! child = Some c'
     /\ Tree.basePath c' = Paths.fixPath "/" (Paths.fixPath b p)
     /\ Tree.parentRouter c' = Some rid
     /\ Forall2 (Registration.rebased child
                   (Paths.fixPath "/" (Paths.fixPath b p))
                   (Tree.lastRouteIndex w) (Tree.routeIndex mount))
          (Tree.routes c) (Tree.routes c')
     /\ Tree.routers w' !! rid
        = Some (Tree.withRoutes (Tree.routes r ++ [mount]) r)
     /\ Tree.handler mount = Tree.RouterHandler child
     /\ Tree.isHandlerRouter mount = true
     /\ Tree.isMiddleware mount = true /\ Tree.method mount = ANY
     /\ Tree.lastRouteIndex w' = S (Tree.routeIndex mount)
     /\ (forall other, other <> rid -> other <> child ->
           Tree.routers w' !! other = Tree.routers w !! other).
Proof.
  intros Hne Hr Hc b Hcr Hcm.
  pose proof (Unnamed_init_run w child c (Paths.fixPath b p) (Some rid) Hc)
    as Hinit.
  cbv zeta in Hinit. rewrite fixPath_nonempty in Hinit.
  destruct (Hinit Hcr) as (news & hi & Hrun & Hle & Hall).
  set (c' := Tree.withRoutes news _) in Hrun.
  set (w1 := Registration.withRouter child c' _) in Hrun.
  assert (Hr1 : Tree.routers w1 !! rid = Some r).
  { subst w1. now rewrite lookup_withRouter_ne. }
  pose proof (createRouteAndAdd_run w1 rid r
                {| Tree.opt_handler := Tree.RouterHandler child;
                   Tree.opt_path := Paths.fixPath b p;
                   Tree.opt_method := ANY; Tree.opt_isMiddleware := true;
                   Tree.opt_routeIndex := None |} Hr1 Hcm) as Hadd.
  cbv zeta in Hadd.
  eexists _, c',
    (Registration.builtRoute rid b hi
       {| Tree.opt_handler := Tree.RouterHandler child;
          Tree.opt_path := Paths.fixPath b p;
          Tree.opt_method := ANY; Tree.opt_isMiddleware := true;
          Tree.opt_routeIndex := None |}).
  split.
  { unfold Unnamed.use.
    rewrite (bind_run _ _ _ _ _ (fixPath_run w rid r _ Hr)).
    rewrite (bind_run _ _ _ _ _ Hrun).
    rewrite (bind_run _ _ _ _ _ Hadd). reflexivity. }
  split; [reflexivity|].
  split.
  { rewrite lookup_withRouter_ne by congruence. subst w1.
    apply lookup_withRouter_eq. }
  split; [reflexivity|]. split; [reflexivity|].
  split; [exact Hall|].
  split; [apply lookup_withRouter_eq|].
  repeat (split; [reflexivity|]).
  intros other H1 H2. subst w1.
  unfold Registration.withRouter, Registration.withLastRouteIndex.
  cbn [Tree.routers]. now rewrite !lookup_insert_ne by congruence.
Qed.

Lemma Unnamed_mount_throw_child (w : Tree.World) (rid child : Tree.RouterId)
  (r c : Tree.Router) (p : string) :
  rid <> child ->
  Tree.routers w !! rid = Some r ->
  Tree.routers w !! child = Some c ->
  let b' := Paths.fixPath "/" (Paths.fixPath (Tree.basePath r) p) in
  List.Exists (fun old => patternError (Tree.host w)
                       (Paths.fixPath b' (Tree.inputPath (Tree.path old)))
                     <> None) (Tree.routes c) ->
  exists e w' old,
    Unnamed.use rid (Tree.UsePath p (Tree.RouterHandler child)) w
    = (Throw e, w')
    /\ In old (Tree.routes c)
    /\ patternError (Tree.host w)
         (Paths.fixPath b' (Tree.inputPath (Tree.path old))) = Some e
    /\ Tree.routers w' !! rid = Some r
    /\ Tree.routers w' !! child
       = Some (Tree.withParentRouter (Some rid) (Tree.withBasePath b' c)).
Proof.
  intros Hne Hr Hc b' Hcr.
  pose proof (Unnamed_init_throw w child c
                (Paths.fixPath (Tree.basePath r) p) (Some rid) Hc) as Hinit.
  cbv zeta in Hinit. rewrite fixPath_nonempty in Hinit.
  destruct (Hinit Hcr) as (e & hi & old & Hrun & Hin & Hbad).
  eexists e, _, old. split.
  { unfold Unnamed.use.
    rewrite (bind_run _ _ _ _ _ (fixPath_run w rid r _ Hr)).
    apply bind_throw. exact Hrun. }
  split; [exact Hin|]. split; [exact Hbad|].
  split; [|apply lookup_withRouter_eq].
  now rewrite lookup_withRouter_ne.
Qed.

Lemma Unnamed_mount_throw_route (w : Tree.World) (rid child : Tree.RouterId)
  (r c : Tree.Router) (p : string) (e : Error) :
  rid <> child ->
  Tree.routers w !! rid = Some r ->
  Tree.routers w !! child = Some c ->
  let b := Tree.basePath r in
  let b' := Paths.fixPath "/" (Paths.fixPath b p) in
  List.Forall (fun old => patternError (Tree.host w)
                       (Paths.fixPath b' (Tree.inputPath (Tree.path old)))
                     = None) (Tree.routes c) ->
  patternError (Tree.host w) (Paths.fixPath b (Paths.fixPath b p)) = Some e ->
  exists w' c',
    Unnamed.use rid (Tree.UsePath p (Tree.RouterHandler child)) w
    = (Throw e, w')
    /\ Tree.routers w' !! rid = Some r
    /\ Tree.routers w' !! child = Some c'
    /\ Tree.basePath c' = b'
    /\ Tree.parentRouter c' = Some rid.
Proof.
  intros Hne Hr Hc b b' Hcr Hcm.
  pose proof (Unnamed_init_run w child c (Paths.fixPath b p) (Some rid) Hc)
    as Hinit.
  cbv zeta in Hinit. rewrite fixPath_nonempty in Hinit.
  destruct (Hinit Hcr) as (news & hi & Hrun & Hle & Hall).
  set (c' := Tree.withRoutes news _) in Hrun.
  set (w1 := Registration.withRouter child c' _) in Hrun.
  assert (Hr1 : Tree.routers w1 !! rid = Some r).
  { subst w1. now rewrite lookup_withRouter_ne. }
  pose proof (createRouteAndAdd_throw w1 rid r
                {| Tree.opt_handler := Tree.RouterHandler child;
                   Tree.opt_path := Paths.fixPath b p;
                   Tree.opt_method := ANY; Tree.opt_isMiddleware := true;
                   Tree.opt_routeIndex := None |} e Hr1 Hcm) as Hadd.
  exists w1, c'. split.
  { unfold Unnamed.use.
    rewrite (bind_run _ _ _ _ _ (fixPath_run w rid r _ Hr)).
    rewrite (bind_run _ _ _ _ _ Hrun).
    apply bind_throw. exact Hadd. }
  split; [exact Hr1|].
  split; [subst w1; apply lookup_withRouter_eq|].
  split; reflexivity.
Qed.

Lemma RouterDir_mount_run (w : Tree.World) (rid child : Tree.RouterId)
  (r c : Tree.Router) (p : string) :
  rid <> child ->
  Tree.routers w !! rid = Some r ->
  Tree.routers w !! child = Some c ->
  patternError (Tree.host w) (Paths.fixPath (Tree.basePath r) p) = None ->
  exists w' c' mount,
        RouterDir.use rid (Tree.UsePath p (Tree.RouterHandler child)) w
        = (Normal tt, w')
        /\ Tree.host w' = Tree.host w
        /\ Tree.routers w' !! child = Some c'
        /\ Tree.basePath c'
           = Paths.fixPath "/" (if String.eqb p "" then "/" else p)
        /\ Tree.parentRouter c' = Some rid
        /\ Tree.routes c' = Tree.routes c
        /\ Tree.routers w' !! rid
           = Some (Tree.withRoutes (Tree.routes r ++ [mount]) r)
        /\ Tree.handler mount = Tree.RouterHandler child
        /\ Tree.isHandlerRouter mount = true
        /\ Tree.isMiddleware mount = true /\ Tree.method mount = ANY
        /\ Tree.routeIndex mount = Tree.lastRouteIndex w
        /\ Tree.lastRouteIndex w' = S (Tree.lastRouteIndex w)
        /\ (forall other, other <> rid -> other <> child ->
              Tree.routers w' !! other = Tree.routers w !! other).
Proof.
  intros Hne Hr Hc Hcm.
  pose proof (RouterDir_init_run w child c p (Some rid) Hc) as Hrun.
  set (c' := Tree.withParentRouter _ _) in Hrun.
  set (w1 := Registration.withRouter child c' w) in Hrun.
  assert (Hr1 : Tree.routers w1 !! rid = Some r).
  { subst w1. now rewrite lookup_withRouter_ne. }
  pose proof (createRouteAndAdd_run w1 rid r
                {| Tree.opt_handler := Tree.RouterHandler child;
                   Tree.opt_path := p;
                   Tree.opt_method := ANY; Tree.opt_isMiddleware := true;
                   Tree.opt_routeIndex := None |} Hr1 Hcm) as Hadd.
  cbv zeta in Hadd.
  eexists _, c', _. split.
  { unfold RouterDir.use.
    rewrite (bind_run _ _ _ _ _ Hrun).
    rewrite (bind_run _ _ _ _ _ Hadd). reflexivity. }
  split; [reflexivity|].
  split.
  { rewrite lookup_withRouter_ne by congruence. subst w1.
    apply lookup_withRouter_eq. }
  split; [reflexivity|]. split; [reflexivity|]. split; [reflexivity|].
  split; [apply lookup_withRouter_eq|].
  repeat (split; [reflexivity|]).
  intros other H1 H2. subst w1.
  unfold Registration.withRouter, Registration.withLastRouteIndex.
  cbn [Tree.routers]. now rewrite !lookup_insert_ne by congruence.
Qed.

Lemma RouterDir_mount_throw (w : Tree.World) (rid child : Tree.RouterId)
  (r c : Tree.Router) (p : string) (e : Error) :
  Tree.routers w !! rid = Some r ->
  Tree.routers w !! child = Some c ->
  rid <> child ->
  patternError (Tree.host w) (Paths.fixPath (Tree.basePath r) p) = Some e ->
  RouterDir.use rid (Tree.UsePath p (Tree.RouterHandler child)) w
  = (Throw e,
     Registration.withRouter child
       (Tree.withParentRouter (Some rid)
          (Tree.withBasePath
             (Paths.fixPath "/" (if String.eqb p "" then "/" else p)) c)) w).
Proof.
  intros Hr Hc Hne Hcm.
  pose proof (RouterDir_init_run w child c p (Some rid) Hc) as Hrun.
  set (c' := Tree.withParentRouter _ _) in Hrun |- *.
  set (w1 := Registration.withRouter child c' w) in Hrun |- *.
  assert (Hr1 : Tree.routers w1 !! rid = Some r).
  { subst w1. now rewrite lookup_withRouter_ne. }
  unfold RouterDir.use.
  rewrite (bind_run _ _ _ _ _ Hrun).
  apply bind_throw.
  exact (createRouteAndAdd_throw w1 rid r
           {| Tree.opt_handler := Tree.RouterHandler child;
              Tree.opt_path := p;
              Tree.opt_method := ANY; Tree.opt_isMiddleware := true;
              Tree.opt_routeIndex := None |} e Hr1 Hcm).
Qed.

(** X13.  Mounting a router with [use(path, child)].  In the documented
    revision the child moves under [fixPath("/", fixPath(base, path))],
    [base] being the base path of the router it is mounted on: its
    routes are made again under that path and a nested mount keeps the
    outer prefix.  In [src/router] the child moves under
    [fixPath("/", path)] whatever the base path of the router it is
    mounted on, and its routes are left as they are.  In both, when
    url-pattern compiles the paths that the call fixes (in the
    documented revision the re-based paths of the routes of the child
    and [fixPath(base, fixPath(base, path))] of the mount route, in
    [src/router] [fixPath(base, path)] of the mount route), the call
    returns, the parent of the child is set, the mounting router gets
    one middleware route for "ANY" whose handler is the child, and no
    third router changes.  When url-pattern refuses one of these paths
    the call throws the error of url-pattern and the mounting router
    gets no route, but the child has been moved already: it has the new
    base path and the new parent (and, when only the re-basing of its
    routes failed, still its old routes). *)
Theorem mounting_a_router (w : Tree.World) (rid child : Tree.RouterId)
  (r c : Tree.Router) (p : string) :
  rid <> child ->
  Tree.routers w !! rid = Some r ->
  Tree.routers w !! child = Some c ->
  let b := Tree.basePath r in
  let b' := Paths.fixPath "/" (Paths.fixPath b p) in
  let compiles (path : string) := patternError (Tree.host w) path = None in
  (List.Forall (fun old => compiles (Paths.fixPath b'
                                       (Tree.inputPath (Tree.path old))))
     (Tree.routes c) ->
   compiles (Paths.fixPath b (Paths.fixPath b p)) ->
   exists w' c' mount,
     Unnamed.use rid (Tree.UsePath p (Tree.RouterHandler child)) w
     = (Normal tt, w')
     /\ Tree.routers w' !! child = Some c'
     /\ Tree.basePath c' = b'
     /\ Tree.parentRouter c' = Some rid
     /\ Forall2 (Registration.rebased child b'
                   (Tree.lastRouteIndex w) (Tree.routeIndex mount))
          (Tree.routes c) (Tree.routes c')
     /\ Tree.routers w' !! rid
        = Some (Tree.withRoutes (Tree.routes r ++ [mount]) r)
     /\ Tree.handler mount = Tree.RouterHandler child
     /\ Tree.isHandlerRouter mount = true
     /\ Tree.isMiddleware mount = true /\ Tree.method mount = ANY
     /\ Tree.lastRouteIndex w' = S (Tree.routeIndex mount)
     /\ (forall other, other <> rid -> other <> child ->
           Tree.routers w' !! other = Tree.routers w !! other))
  /\ (List.Exists (fun old => ~ compiles (Paths.fixPath b'
                                           (Tree.inputPath (Tree.path old))))
        (Tree.routes c) ->
      exists e w' old,
        Unnamed.use rid (Tree.UsePath p (Tree.RouterHandler child)) w
        = (Throw e, w')
        /\ In old (Tree.routes c)
        /\ patternError (Tree.host w)
             (Paths.fixPath b' (Tree.inputPath (Tree.path old))) = Some e
        /\ Tree.routers w' !! rid = Some r
        /\ Tree.routers w' !! child
           = Some (Tree.withParentRouter (Some rid) (Tree.withBasePath b' c)))
  /\ (List.Forall (fun old => compiles (Paths.fixPath b'
                                          (Tree.inputPath (Tree.path old))))
        (Tree.routes c) ->
      forall e,
        patternError (Tree.host w) (Paths.fixPath b (Paths.fixPath b p))
        = Some e ->
        exists w' c',
          Unnamed.use rid (Tree.UsePath p (Tree.RouterHandler child)) w
          = (Throw e, w')
          /\ Tree.routers w' !! rid = Some r
          /\ Tree.routers w' !! child = Some c'
          /\ Tree.basePath c' = b'
          /\ Tree.parentRouter c' = Some rid)
  /\ (compiles (Paths.fixPath b p) ->
      exists w' c' mount,
        RouterDir.use rid (Tree.UsePath p (Tree.RouterHandler child)) w
        = (Normal tt, w')
        /\ Tree.routers w' !! child = Some c'
        /\ Tree.basePath c'
           = Paths.fixPath "/" (if String.eqb p "" then "/" else p)
        /\ Tree.parentRouter c' = Some rid
        /\ Tree.routes c' = Tree.routes c
        /\ Tree.routers w' !! rid
           = Some (Tree.withRoutes (Tree.routes r ++ [mount]) r)
        /\ Tree.handler mount = Tree.RouterHandler child
        /\ Tree.isHandlerRouter mount = true
        /\ Tree.isMiddleware mount = true /\ Tree.method mount = ANY
        /\ Tree.routeIndex mount = Tree.lastRouteIndex w
        /\ Tree.lastRouteIndex w' = S (Tree.lastRouteIndex w)
        /\ (forall other, other <> rid -> other <> child ->
              Tree.routers w' !! other = Tree.routers w !! other))
  /\ (forall e,
        patternError (Tree.host w) (Paths.fixPath b p) = Some e ->
        RouterDir.use rid (Tree.UsePath p (Tree.RouterHandler child)) w
        = (Throw e,
           Registration.withRouter child
             (Tree.withParentRouter (Some rid)
                (Tree.withBasePath
                   (Paths.fixPath "/" (if String.eqb p "" then "/" else p))
                   c)) w)).
Proof.
  intros Hne Hr Hc b b' compiles.
  split; [|split; [|split; [|split]]].
  - intros Hcr Hcm.
    destruct (Unnamed_mount_run w rid child r c p Hne Hr Hc Hcr Hcm)
      as (w' & c' & mount & Hrun & _ & Hrest).
    exists w', c', mount. split; [exact Hrun | exact Hrest].
  - exact (Unnamed_mount_throw_child w rid child r c p Hne Hr Hc).
  - intros Hcr e Hcm.
    exact (Unnamed_mount_throw_route w rid child r c p e Hne Hr Hc Hcr Hcm).
  - intros Hcm.
    destruct (RouterDir_mount_run w rid child r c p Hne Hr Hc Hcm)
      as (w' & c' & mount & Hrun & _ & Hrest).
    exists w', c', mount. split; [exact Hrun | exact Hrest].
  - intros e Hcm. exact (RouterDir_mount_throw w rid child r c p e Hr Hc Hne Hcm).
Qed.

Lemma mounting_a_router_witness :
  match (root ← Unnamed.newRouter Tree.noOptions;
         api ← Unnamed.newRouter Tree.noOptions;
         v1 ← Unnamed.newRouter Tree.noOptions;
         Tree.get v1 "/a" (Tree.FunctionHandler 0);;
         mret (root, api, v1)) ExampleHost.world with
  | (Normal (root, api, v1), w) =>
      let mount parent path child (w : Tree.World) :=
        snd (Unnamed.use parent
               (Tree.UsePath path (Tree.RouterHandler child)) w) in
      let mountRouterDir parent path child (w : Tree.World) :=
        snd (RouterDir.use parent
               (Tree.UsePath path (Tree.RouterHandler child)) w) in
      let paths (w : Tree.World) :=
        (fun r => (Tree.basePath r,
                   map (fun rt => Tree.fixedPath (Tree.path rt))
                     (Tree.routes r)))
        <$> Tree.routers w !! v1 in
      paths (mount api "/v1" v1 (mount root "/api" api w))
      = Some ("/api/v1/", ["/api/v1/a/"])
      /\ paths (mountRouterDir api "/v1" v1 (mountRouterDir root "/api" api w))
         = Some ("/v1/", ["/a/"])
      /\ paths (mount root "/api" api (mount api "/v1" v1 w))
         = Some ("/v1/", ["/v1/a/"])
      /\ fst (Unnamed.use root (Tree.UsePath "/x y" (Tree.RouterHandler v1)) w)
         = Throw "argument must not contain whitespace"
      /\ paths (mount root "/x y" v1 w) = Some ("/x y/", ["/a/"])
      /\ Tree.routes <$> Tree.routers (mount root "/x y" v1 w) !! root
         = Some []
  | _ => False
  end.
Proof.
  match goal with
  | |- match ?c with _ => _ end =>
      destruct c as [[[[root api] v1]|e] w] eqn:E; vm_compute in E;
        [|discriminate E]
  end.
  injection E as <- <- <- <-.
  cbv zeta beta.
  match goal with |- context [Unnamed.use 0 _ ?W] => set (w := W) end.
  pose_value r0 (Tree.routers w !! 0).
  pose_value r1 (Tree.routers w !! 1).
  pose_value r2 (Tree.routers w !! 2).
  assert (H0 : Tree.routers w !! 0 = Some r0) by (vm_compute; reflexivity).
  assert (H1 : Tree.routers w !! 1 = Some r1) by (vm_compute; reflexivity).
  assert (H2 : Tree.routers w !! 2 = Some r2) by (vm_compute; reflexivity).
  destruct (mounting_a_router w 0 1 r0 r1 "/api" ltac:(discriminate) H0 H1)
    as (Hu & _ & _ & Hd & _).
  destruct Hu as (w1 & c1 & m1 & Hrun1 & _);
    [apply List.Forall_nil | vm_compute; reflexivity |].
  destruct Hd as (w2 & c2 & m2 & Hrun2 & _); [vm_compute; reflexivity|].
  destruct (mounting_a_router w 0 2 r0 r2 "/x y" ltac:(discriminate) H0 H2)
    as (_ & Hbad & _).
  destruct Hbad as (e & w3 & old & Hrun3 & _ & _ & Hroot & Hv1).
  { apply List.Exists_cons_hd. vm_compute. discriminate. }
  rewrite Hrun1, Hrun2, Hrun3. cbn [fst snd].
  rewrite Hroot, Hv1.
  vm_compute in Hrun1. injection Hrun1 as <-.
  vm_compute in Hrun2. injection Hrun2 as <-.
  vm_compute in Hrun3. injection Hrun3 as <- <-.
  repeat split; vm_compute; reflexivity.
Defined.

Lemma fixPath_slash_plain (b p : string) :
  p <> "" -> startsWith p "/" = false -> closed p = false ->
  fixPath b ("/" +:+ p) = b +:+ p +:+ "/".
Proof.
  intros Hp Hs Hc. rewrite fixPath_unfold. cbv zeta.
  pose proof (startsWith_cons "/" p) as E.
  change (char "/") with "/" in E.
  change ("/" +:+ p) with (String "/" p). rewrite E. cbn [slice1].
  rewrite closed_app, Hc by exact Hp. apply app_assoc_string.
Qed.

Lemma joined_plain (p q : string) :
  p <> "" -> startsWith p "/" = false ->
  q <> "" -> closed q = false ->
  p +:+ "/" +:+ q <> ""
  /\ startsWith (p +:+ "/" +:+ q) "/" = false
  /\ closed (p +:+ "/" +:+ q) = false.
Proof.
  intros Hp Hs Hq Hc. split; [|split].
  - destruct p; [now elim Hp | discriminate].
  - now rewrite startsWith_snoc.
  - rewrite closed_app by discriminate.
    change ("/" +:+ q) with (char "/" +:+ q).
    now rewrite closed_app.
Qed.

(** X14.  Mount, then register: on a router whose base path is "/",
    [use("/p", child)] followed by [child.get("/q", h)] (or any other
    method) leaves on the child a route whose fixed path is "/p/q/", the
    path that registering "/p/q" on the mounting router itself computes;
    in the documented revision and in [src/router], for every [p] and
    [q] that neither start with a slash nor end with "/", "*", ")" or
    "?", when url-pattern compiles "/p/" (the path of the mount route)
    and "/p/q/" and, in the documented revision, the paths under "/p/"
    of the routes that the child has already. *)
Theorem mount_then_register_joins_the_paths (w : Tree.World)
  (root child : Tree.RouterId) (r c : Tree.Router) (p q : string)
  (m : Methods) (h : Tree.RouteHandler) :
  root <> child ->
  Tree.routers w !! root = Some r ->
  Tree.routers w !! child = Some c ->
  Tree.basePath r = "/" ->
  p <> "" -> startsWith p "/" = false -> closed p = false ->
  q <> "" -> startsWith q "/" = false -> closed q = false ->
  let joined := "/" +:+ p +:+ "/" +:+ q +:+ "/" in
  patternError (Tree.host w) ("/" +:+ p +:+ "/") = None ->
  patternError (Tree.host w) joined = None ->
  Paths.fixPath "/" ("/" +:+ p +:+ "/" +:+ q) = joined
  /\ (List.Forall (fun old => patternError (Tree.host w)
                          (Paths.fixPath ("/" +:+ p +:+ "/")
                             (Tree.inputPath (Tree.path old))) = None)
        (Tree.routes c) ->
      exists w' c' rt,
        (Unnamed.use root (Tree.UsePath ("/" +:+ p) (Tree.RouterHandler child));;
         Tree.addFor m child ("/" +:+ q) h) w = (Normal tt, w')
        /\ Tree.routers w' !! child = Some c'
        /\ last (Tree.routes c') = Some rt
        /\ Tree.method rt = m /\ Tree.handler rt = h
        /\ Tree.isMiddleware rt = false
        /\ Tree.fixedPath (Tree.path rt) = joined)
  /\ (exists w' c' rt,
        (RouterDir.use root
           (Tree.UsePath ("/" +:+ p) (Tree.RouterHandler child));;
         Tree.addFor m child ("/" +:+ q) h) w = (Normal tt, w')
        /\ Tree.routers w' !! child = Some c'
        /\ last (Tree.routes c') = Some rt
        /\ Tree.method rt = m /\ Tree.handler rt = h
        /\ Tree.isMiddleware rt = false
        /\ Tree.fixedPath (Tree.path rt) = joined).
Proof.
  intros Hne Hr Hc Hb Hp Hps Hpc Hq Hqs Hqc joined Hcp Hcj.
  assert (Hbase : Paths.fixPath "/" ("/" +:+ p) = "/" +:+ p +:+ "/")
    by now apply fixPath_slash_plain.
  assert (Hroute : Paths.fixPath ("/" +:+ p +:+ "/") ("/" +:+ q) = joined).
  { rewrite fixPath_slash_plain by assumption. subst joined.
    now rewrite !app_assoc_string. }
  assert (Hidem : fixPath "/" ("/" +:+ p +:+ "/") = "/" +:+ p +:+ "/").
  { rewrite <- Hbase.
    exact (fixPath_root_fixPath "" ("/" +:+ p)). }
  split; [|split].
  - destruct (joined_plain p q Hp Hps Hq Hqc) as (H1 & H2 & H3).
    rewrite fixPath_slash_plain by assumption. subst joined.
    now rewrite !app_assoc_string.
  - intros Hcr.
    pose proof (Unnamed_mount_run w root child r c ("/" +:+ p) Hne Hr Hc)
      as Hmount.
    cbv zeta in Hmount. rewrite Hb, Hbase, Hidem in Hmount.
    destruct (Hmount Hcr Hcp)
      as (w1 & c1 & mount & Hrun & Hh & Hc1 & Hb1 & _).
    eexists _, _, _. split.
    { rewrite (bind_run _ _ _ _ _ Hrun).
      apply (addFor_run w1 child c1 m ("/" +:+ q) h Hc1).
      rewrite Hh, Hb1, Hroute. exact Hcj. }
    split; [apply lookup_withRouter_eq|].
    split; [cbn [Tree.withRoutes Tree.routes]; apply last_snoc|].
    repeat (split; [reflexivity|]).
    cbn [Registration.builtRoute Tree.path Tree.fixedPath Tree.opt_path].
    now rewrite Hb1.
  - pose proof (RouterDir_mount_run w root child r c ("/" +:+ p) Hne Hr Hc)
      as Hmount.
    rewrite Hb, Hbase in Hmount.
    destruct (Hmount Hcp) as (w1 & c1 & mount & Hrun & Hh & Hc1 & Hb1 & _).
    change (if String.eqb ("/" +:+ p) "" then "/" else "/" +:+ p)
      with ("/" +:+ p) in Hb1.
    rewrite Hbase in Hb1.
    eexists _, _, _. split.
    { rewrite (bind_run _ _ _ _ _ Hrun).
      apply (addFor_run w1 child c1 m ("/" +:+ q) h Hc1).
      rewrite Hh, Hb1, Hroute. exact Hcj. }
    split; [apply lookup_withRouter_eq|].
    split; [cbn [Tree.withRoutes Tree.routes]; apply last_snoc|].
    repeat (split; [reflexivity|]).
    cbn [Registration.builtRoute Tree.path Tree.fixedPath Tree.opt_path].
    now rewrite Hb1.
Qed.

Lemma mount_then_register_joins_the_paths_witness :
  match (root ← Unnamed.newRouter Tree.noOptions;
         sub ← Unnamed.newRouter Tree.noOptions;
         mret (root, sub)) ExampleHost.world with
  | (Normal (root, sub), w) =>
      Paths.fixPath "/" "/files/list" = "/files/list/"
      /\ (exists w' c' rt,
            (Unnamed.use root
               (Tree.UsePath "/files" (Tree.RouterHandler sub));;
             Tree.addFor POST sub "/list" (Tree.FunctionHandler 7)) w
            = (Normal tt, w')
            /\ Tree.routers w' !! sub = Some c'
            /\ last (Tree.routes c') = Some rt
            /\ Tree.method rt = POST
            /\ Tree.handler rt = Tree.FunctionHandler 7
            /\ Tree.isMiddleware rt = false
            /\ Tree.fixedPath (Tree.path rt) = "/files/list/")
      /\ (exists w' c' rt,
            (RouterDir.use root
               (Tree.UsePath "/files" (Tree.RouterHandler sub));;
             Tree.addFor POST sub "/list" (Tree.FunctionHandler 7)) w
            = (Normal tt, w')
            /\ Tree.routers w' !! sub = Some c'
            /\ last (Tree.routes c') = Some rt
            /\ Tree.method rt = POST
            /\ Tree.handler rt = Tree.FunctionHandler 7
            /\ Tree.isMiddleware rt = false
            /\ Tree.fixedPath (Tree.path rt) = "/files/list/")
  | _ => False
  end.
Proof.
  match goal with
  | |- match ?c with _ => _ end =>
      destruct c as [[[root sub]|e] w] eqn:E; vm_compute in E;
        [|discriminate E]
  end.
  injection E as <- <- <-.
  match goal with
  | |- _ /\ (exists w' c' rt, _ ?W = _ /\ _) /\ _ => set (w := W)
  end.
  pose_value r0 (Tree.routers w !! 0).
  pose_value r1 (Tree.routers w !! 1).
  assert (H0 : Tree.routers w !! 0 = Some r0) by (vm_compute; reflexivity).
  assert (H1 : Tree.routers w !! 1 = Some r1) by (vm_compute; reflexivity).
  destruct (mount_then_register_joins_the_paths w 0 1 r0 r1 "files" "list"
              POST (Tree.FunctionHandler 7) ltac:(discriminate) H0 H1 eq_refl
              ltac:(discriminate) eq_refl eq_refl
              ltac:(discriminate) eq_refl eq_refl
              ltac:(vm_compute; reflexivity) ltac:(vm_compute; reflexivity))
    as (Hj & Hu & Hd).
  split; [exact Hj|]. split; [|exact Hd].
  apply Hu. apply List.Forall_nil.
Defined.

(* ===================================================================== *)
(** ** Registration in the legacy router *)
(* ===================================================================== *)

Lemma legacy_bind_run {A B} (c : Legacy.M A) (k : A -> Legacy.M B)
  (w w' : Legacy.World) (a : A) :
  c w = (Normal a, w') -> (c ≫= k) w = k a w'.
Proof. intros H. js_unfold. now rewrite H. Qed.

Lemma legacy_bind_throw {A B} (c : Legacy.M A) (k : A -> Legacy.M B)
  (w w' : Legacy.World) (e : Error) :
  c w = (Throw e, w') -> (c ≫= k) w = (Throw e, w').
Proof. intros H. js_unfold. now rewrite H. Qed.

Lemma legacy_getRouter_run (w : Legacy.World) (rid : Legacy.RouterId)
  (r : Legacy.Router) :
  Legacy.routers w !! rid = Some r -> Legacy.getRouter rid w = (Normal r, w).
Proof. intros H. unfold Legacy.getRouter. now rewrite H. Qed.

Lemma legacy_getRouter_none (w : Legacy.World) (rid : Legacy.RouterId) :
  Legacy.routers w !! rid = None ->
  Legacy.getRouter rid w = (Throw typeError, w).
Proof. intros H. unfold Legacy.getRouter. now rewrite H. Qed.

Lemma legacy_fixed_run (w : Legacy.World) (rid : Legacy.RouterId)
  (r : Legacy.Router) (o : Legacy.RouteOptions) :
  Legacy.routers w !! rid = Some r ->
  (if Legacy.opt_isMiddleware o
   then Legacy.fixUsePath rid (Legacy.opt_inputPath o)
   else Legacy.fixHandlerPath rid (Legacy.opt_inputPath o)) w
  = (Normal (Registration.legacyFixed (Legacy.basePath r)
               (Legacy.opt_isMiddleware o) (Legacy.opt_inputPath o)), w).
Proof.
  intros H. unfold Registration.legacyFixed, Legacy.fixUsePath,
    Legacy.fixHandlerPath.
  destruct (Legacy.opt_isMiddleware o);
    rewrite (legacy_bind_run _ _ w w r) by (now apply legacy_getRouter_run);
    reflexivity.
Qed.

Lemma legacy_newRoute_run (w : Legacy.World) (rid : Legacy.RouterId)
  (r : Legacy.Router) (o : Legacy.RouteOptions) :
  Legacy.routers w !! rid = Some r ->
  patternError (Legacy.host w)
    (Registration.legacyFixed (Legacy.basePath r)
       (Legacy.opt_isMiddleware o) (Legacy.opt_inputPath o)) = None ->
  Legacy.newRoute rid o w
  = (Normal {| Legacy.router := rid;
               Legacy.handler := Legacy.opt_handler o;
               Legacy.method := Legacy.opt_method o;
               Legacy.isMiddleware := Legacy.opt_isMiddleware o;
               Legacy.path :=
                 {| Legacy.rawInput := Legacy.opt_inputPath o;
                    Legacy.fixed :=
                      Registration.legacyFixed (Legacy.basePath r)
                        (Legacy.opt_isMiddleware o)
                        (Legacy.opt_inputPath o) |} |}, w).
Proof.
  intros H Hc. unfold Legacy.newRoute.
  rewrite (legacy_bind_run _ _ w w _ (legacy_fixed_run w rid r o H)).
  rewrite (legacy_bind_run _ _ w w tt)
    by (unfold Legacy.newUrlPattern; now rewrite Hc).
  reflexivity.
Qed.

Lemma legacy_newRoute_throw (w : Legacy.World) (rid : Legacy.RouterId)
  (r : Legacy.Router) (o : Legacy.RouteOptions) (e : Error) :
  Legacy.routers w !! rid = Some r ->
  patternError (Legacy.host w)
    (Registration.legacyFixed (Legacy.basePath r)
       (Legacy.opt_isMiddleware o) (Legacy.opt_inputPath o)) = Some e ->
  Legacy.newRoute rid o w = (Throw e, w).
Proof.
  intros H Hc. unfold Legacy.newRoute.
  rewrite (legacy_bind_run _ _ w w _ (legacy_fixed_run w rid r o H)).
  apply legacy_bind_throw. unfold Legacy.newUrlPattern. now rewrite Hc.
Qed.

Lemma legacy_newRoute_inv (w w' : Legacy.World) (rid : Legacy.RouterId)
  (r : Legacy.Router) (o : Legacy.RouteOptions) (rt : Legacy.Route) :
  Legacy.routers w !! rid = Some r ->
  Legacy.newRoute rid o w = (Normal rt, w') ->
  w' = w
  /\ rt = {| Legacy.router := rid;
             Legacy.handler := Legacy.opt_handler o;
             Legacy.method := Legacy.opt_method o;
             Legacy.isMiddleware := Legacy.opt_isMiddleware o;
             Legacy.path :=
               {| Legacy.rawInput := Legacy.opt_inputPath o;
                  Legacy.fixed :=
                    Registration.legacyFixed (Legacy.basePath r)
                      (Legacy.opt_isMiddleware o)
                      (Legacy.opt_inputPath o) |} |}.
Proof.
  intros H Hrun.
  destruct (patternError (Legacy.host w)
              (Registration.legacyFixed (Legacy.basePath r)
                 (Legacy.opt_isMiddleware o) (Legacy.opt_inputPath o)))
    as [e|] eqn:Hc.
  - rewrite (legacy_newRoute_throw w rid r o e H Hc) in Hrun.
    discriminate Hrun.
  - rewrite (legacy_newRoute_run w rid r o H Hc) in Hrun.
    injection Hrun as <- <-. now split.
Qed.

Lemma legacy_newRoute_world (w : Legacy.World) (rid : Legacy.RouterId)
  (o : Legacy.RouteOptions) :
  snd (Legacy.newRoute rid o w) = w.
Proof.
  destruct (Legacy.routers w !! rid) as [r|] eqn:H.
  - destruct (patternError (Legacy.host w)
                (Registration.legacyFixed (Legacy.basePath r)
                   (Legacy.opt_isMiddleware o) (Legacy.opt_inputPath o)))
      as [e|] eqn:Hc.
    + now rewrite (legacy_newRoute_throw w rid r o e H Hc).
    + now rewrite (legacy_newRoute_run w rid r o H Hc).
  - unfold Legacy.newRoute, Legacy.fixUsePath, Legacy.fixHandlerPath.
    assert (Hfix : forall g : option string -> string -> string,
              (Legacy.getRouter rid
               ≫= λ r0, mret (g (Legacy.basePath r0)
                                (Legacy.opt_inputPath o))) w
              = (Throw typeError, w)).
    { intros g. now rewrite (legacy_bind_throw _ _ w w typeError)
        by now apply legacy_getRouter_none. }
    destruct (Legacy.opt_isMiddleware o).
    + now rewrite (legacy_bind_throw _ _ w w _ (Hfix Paths.fixUsePath)).
    + now rewrite (legacy_bind_throw _ _ w w _ (Hfix Paths.fixHandlerPath)).
Qed.

Lemma sameBases_refl (w : Legacy.World) : Registration.sameBases w w.
Proof. intros x. reflexivity. Qed.

Lemma sameBases_trans (w1 w2 w3 : Legacy.World) :
  Registration.sameBases w1 w2 -> Registration.sameBases w2 w3 ->
  Registration.sameBases w1 w3.
Proof. intros H1 H2 x. now rewrite H2, H1. Qed.

Lemma sameBases_bind {A B} (c : Legacy.M A) (k : A -> Legacy.M B)
  (w : Legacy.World) :
  Registration.sameBases w (snd (c w)) ->
  (forall a, fst (c w) = Normal a ->
     Registration.sameBases (snd (c w)) (snd (k a (snd (c w))))) ->
  Registration.sameBases w (snd ((c ≫= k) w)).
Proof.
  intros H1 H2. js_unfold. destruct (c w) as [[a|e] w1]; cbn [fst snd] in *.
  - eapply sameBases_trans; [exact H1 | now apply H2].
  - exact H1.
Qed.

Lemma sameBases_setRoutes (w : Legacy.World) (rid : Legacy.RouterId)
  (r : Legacy.Router) (rs : list Legacy.Route) :
  Legacy.routers w !! rid = Some r ->
  Registration.sameBases w
    (snd (Legacy.setRouter rid (Legacy.withRoutes rs r) w)).
Proof.
  intros H x. cbn [Legacy.setRouter snd Legacy.routers].
  destruct (decide (x = rid)) as [->|Hne].
  - now rewrite lookup_insert_eq, H.
  - now rewrite lookup_insert_ne.
Qed.

Lemma sameBases_forEach {A B} (f : A -> Legacy.M B) (l : list A) :
  (forall x w, Registration.sameBases w (snd (f x w))) ->
  forall w, Registration.sameBases w (snd (forEach f l w)).
Proof.
  intros Hf. induction l as [|x xs IH]; intros w; [apply sameBases_refl|].
  cbn [forEach]. apply sameBases_bind; [apply Hf|]. intros y _.
  apply sameBases_bind; [apply IH|]. intros ys _. apply sameBases_refl.
Qed.

Lemma refreshRoutes_sameBases (depth : nat) (rid : Legacy.RouterId)
  (w : Legacy.World) :
  Registration.sameBases w (snd (Legacy.refreshRoutes depth rid w)).
Proof.
  revert rid w. induction depth as [|d IH]; intros rid w;
    [apply sameBases_refl|].
  cbn [Legacy.refreshRoutes].
  apply sameBases_bind; [|intros r Hr].
  { unfold Legacy.getRouter. destruct (Legacy.routers w !! rid);
      apply sameBases_refl. }
  assert (Hw : snd (Legacy.getRouter rid w) = w)
    by (unfold Legacy.getRouter; now destruct (Legacy.routers w !! rid)).
  rewrite Hw. clear Hw Hr.
  apply sameBases_bind.
  { apply sameBases_forEach. intros old w0.
    apply sameBases_bind.
    - destruct (Legacy.isMiddleware old); [|apply sameBases_refl].
      destruct (Legacy.handler old); [apply IH | apply sameBases_refl].
    - intros _ _. rewrite legacy_newRoute_world. apply sameBases_refl. }
  intros news _.
  set (w1 := snd (forEach _ (Legacy.routes r) w)).
  apply sameBases_bind.
  { unfold Legacy.getRouter. destruct (Legacy.routers w1 !! rid);
      apply sameBases_refl. }
  intros r' Hr'. unfold Legacy.getRouter in Hr' |- *.
  destruct (Legacy.routers w1 !! rid) as [r1|] eqn:H1; [|discriminate Hr'].
  cbn [fst snd] in Hr' |- *. injection Hr' as <-.
  now apply sameBases_setRoutes.
Qed.

Lemma legacy_bind_inv {A B} (c : Legacy.M A) (k : A -> Legacy.M B)
  (w w' : Legacy.World) (b : B) :
  (c ≫= k) w = (Normal b, w') ->
  exists a w1, c w = (Normal a, w1) /\ k a w1 = (Normal b, w').
Proof.
  js_unfold. destruct (c w) as [[a|e] w1]; [|discriminate].
  intros H. now exists a, w1.
Qed.

Lemma sameBases_lookup (w w' : Legacy.World) (x : Legacy.RouterId)
  (r : Legacy.Router) :
  Registration.sameBases w w' ->
  Legacy.routers w !! x = Some r ->
  exists r', Legacy.routers w' !! x = Some r'
             /\ Legacy.basePath r' = Legacy.basePath r.
Proof.
  intros Hs H. specialize (Hs x). rewrite H in Hs.
  destruct (Legacy.routers w' !! x) as [r'|]; [|discriminate Hs].
  exists r'. split; [reflexivity|]. now injection Hs.
Qed.

Lemma forEach_refresh_upToDate (d : nat) (rid : Legacy.RouterId)
  (r : Legacy.Router) (w : Legacy.World) (olds : list Legacy.Route) :
  Legacy.routers w !! rid = Some r ->
  forall w0 news w1,
    Registration.sameBases w w0 ->
    forEach (fun oldRoute =>
               (if Legacy.isMiddleware oldRoute then
                  match Legacy.handler oldRoute with
                  | Legacy.RouterHandler child => Legacy.refreshRoutes d child
                  | Legacy.FunctionHandler _ => mret tt
                  end
                else mret tt);;
               Legacy.newRoute rid
                 {| Legacy.opt_handler := Legacy.handler oldRoute;
                    Legacy.opt_method := Legacy.method oldRoute;
                    Legacy.opt_inputPath :=
                      Legacy.rawInput (Legacy.path oldRoute);
                    Legacy.opt_isMiddleware := Legacy.isMiddleware oldRoute |})
      olds w0 = (Normal news, w1) ->
    Forall (Registration.upToDate (Legacy.basePath r)) news.
Proof.
  intros Hr. induction olds as [|old rest IH]; intros w0 news w1 Hs.
  - cbn [forEach]. intros [= <- <-]. constructor.
  - cbn [forEach]. intros H.
    apply legacy_bind_inv in H. destruct H as (rt & w2 & Hbody & H).
    apply legacy_bind_inv in H. destruct H as (news' & w3 & Hrest & H).
    injection H as <- <-.
    apply legacy_bind_inv in Hbody. destruct Hbody as ([] & w4 & Hpre & Hnew).
    assert (Hs4 : Registration.sameBases w w4).
    { eapply sameBases_trans; [exact Hs|].
      replace w4 with (snd ((if Legacy.isMiddleware old then
                               match Legacy.handler old with
                               | Legacy.RouterHandler child =>
                                   Legacy.refreshRoutes d child
                               | Legacy.FunctionHandler _ => mret tt
                               end
                             else mret tt) w0)) by now rewrite Hpre.
      destruct (Legacy.isMiddleware old); [|apply sameBases_refl].
      destruct (Legacy.handler old);
        [apply refreshRoutes_sameBases | apply sameBases_refl]. }
    destruct (sameBases_lookup w w4 rid r Hs4 Hr) as (r4 & Hr4 & Hb4).
    apply (legacy_newRoute_inv w4 w2 rid r4 _ rt Hr4) in Hnew.
    destruct Hnew as [-> ->]. constructor.
    + unfold Registration.upToDate.
      cbn [Legacy.path Legacy.fixed Legacy.isMiddleware Legacy.rawInput
           Legacy.opt_isMiddleware Legacy.opt_inputPath].
      now rewrite Hb4.
    + now apply (IH w4 news' w3).
Qed.

Lemma refreshRoutes_upToDate (depth : nat) (rid : Legacy.RouterId)
  (w w' : Legacy.World) :
  Legacy.refreshRoutes depth rid w = (Normal tt, w') ->
  exists r', Legacy.routers w' !! rid = Some r'
             /\ Forall (Registration.upToDate (Legacy.basePath r'))
                  (Legacy.routes r').
Proof.
  destruct depth as [|d]; [discriminate|]. cbn [Legacy.refreshRoutes].
  intros H. apply legacy_bind_inv in H. destruct H as (rx & w0 & Hget & H).
  unfold Legacy.getRouter in Hget.
  destruct (Legacy.routers w !! rid) as [r|] eqn:Hr; [|discriminate Hget].
  injection Hget as <- <-.
  apply legacy_bind_inv in H. destruct H as (news & w1 & Hloop & H).
  apply legacy_bind_inv in H. destruct H as (r1x & w2 & Hget & H).
  unfold Legacy.getRouter in Hget.
  destruct (Legacy.routers w1 !! rid) as [r1|] eqn:Hr1; [|discriminate Hget].
  injection Hget as <- <-. cbn [Legacy.setRouter] in H. injection H as <-.
  exists (Legacy.withRoutes news r1).
  split; [apply lookup_insert_eq|].
  cbn [Legacy.withRoutes Legacy.basePath Legacy.routes].
  assert (Hb : Legacy.basePath r1 = Legacy.basePath r).
  { assert (Hs : Registration.sameBases w w1).
    { replace w1 with (snd (forEach (fun oldRoute =>
               (if Legacy.isMiddleware oldRoute then
                  match Legacy.handler oldRoute with
                  | Legacy.RouterHandler child => Legacy.refreshRoutes d child
                  | Legacy.FunctionHandler _ => mret tt
                  end
                else mret tt);;
               Legacy.newRoute rid
                 {| Legacy.opt_handler := Legacy.handler oldRoute;
                    Legacy.opt_method := Legacy.method oldRoute;
                    Legacy.opt_inputPath :=
                      Legacy.rawInput (Legacy.path oldRoute);
                    Legacy.opt_isMiddleware := Legacy.isMiddleware oldRoute |})
              (Legacy.routes r) w)) by now rewrite Hloop.
      apply sameBases_forEach. intros old w3.
      apply sameBases_bind.
      - destruct (Legacy.isMiddleware old); [|apply sameBases_refl].
        destruct (Legacy.handler old);
          [apply refreshRoutes_sameBases | apply sameBases_refl].
      - intros _ _. rewrite legacy_newRoute_world. apply sameBases_refl. }
    destruct (sameBases_lookup w w1 rid r Hs Hr) as (r1'' & Hr1'' & Hb).
    rewrite Hr1 in Hr1''. now injection Hr1'' as <-. }
  rewrite Hb.
  exact (forEach_refresh_upToDate d rid r w (Legacy.routes r) Hr w news w1
           (sameBases_refl w) Hloop).
Qed.

Lemma pushRoute_sameBases (rid : Legacy.RouterId) (rt : Legacy.Route)
  (w : Legacy.World) :
  Registration.sameBases w (snd (Legacy.pushRoute rid rt w)).
Proof.
  unfold Legacy.pushRoute. apply sameBases_bind.
  - unfold Legacy.getRouter. destruct (Legacy.routers w !! rid);
      apply sameBases_refl.
  - intros r Hr. unfold Legacy.getRouter in Hr |- *.
    destruct (Legacy.routers w !! rid) as [r0|] eqn:H0; [|discriminate Hr].
    cbn [fst snd] in Hr |- *. injection Hr as <-.
    now apply sameBases_setRoutes.
Qed.

(** X15.  Mounting in the legacy router: [use(path, child)] sets the
    base path of the child to the base path of the mounting router, then
    the base path of the mounting router once more, a slash and the mount
    path without its outer slashes.  On a router that was not mounted
    itself the base path is empty and the child lands where it was asked
    to; on a mounted router the prefix is there twice.  No other base
    path changes, and when [use] returns, every route of the mounting
    router has the fixed path that its raw input gives under the base
    path of the router ([refreshRoutes] made them again). *)
Theorem Legacy_use_sets_the_child_base_path (depth : nat)
  (w w' : Legacy.World) (rid child : Legacy.RouterId)
  (r c : Legacy.Router) (p : string) :
  Legacy.routers w !! rid = Some r ->
  Legacy.routers w !! child = Some c ->
  Legacy.use depth rid (Legacy.UsePath p (Legacy.RouterHandler child)) w
  = (Normal tt, w') ->
  let B := default "" (Legacy.basePath r) in
  (Legacy.basePath <$> Legacy.routers w' !! child)
  = Some (Some (B +:+ B +:+ Paths.fixUsePath None p))
  /\ (forall other, other <> child ->
        (Legacy.basePath <$> Legacy.routers w' !! other)
        = (Legacy.basePath <$> Legacy.routers w !! other))
  /\ exists r', Legacy.routers w' !! rid = Some r'
                /\ Forall (Registration.upToDate (Legacy.basePath r'))
                     (Legacy.routes r').
Proof.
  intros Hr Hc Huse B. unfold Legacy.use in Huse.
  apply legacy_bind_inv in Huse. destruct Huse as ([] & w3 & Hreg & Hrefresh).
  unfold Legacy.fixUsePath in Hreg.
  rewrite (legacy_bind_run _ _ w w (Paths.fixUsePath (Legacy.basePath r) p))
    in Hreg.
  2:{ rewrite (legacy_bind_run _ _ w w r) by now apply legacy_getRouter_run.
      reflexivity. }
  set (w1 := snd (Legacy.setRouter child
                    (Legacy.withBasePath
                       (Some (B +:+ Paths.fixUsePath (Legacy.basePath r) p))
                       c) w)).
  rewrite (legacy_bind_run _ _ w w1 tt) in Hreg.
  2:{ rewrite (legacy_bind_run _ _ w w r) by now apply legacy_getRouter_run.
      rewrite (legacy_bind_run _ _ w w c) by now apply legacy_getRouter_run.
      reflexivity. }
  assert (Hs13 : Registration.sameBases w1 w3).
  { replace w3 with (snd ((Legacy.newRoute rid
                             {| Legacy.opt_handler :=
                                  Legacy.RouterHandler child;
                                Legacy.opt_inputPath := p;
                                Legacy.opt_method := ANY;
                                Legacy.opt_isMiddleware := true |}
                           ≫= λ rt, Legacy.pushRoute rid rt) w1))
      by now rewrite Hreg.
    apply sameBases_bind.
    - rewrite legacy_newRoute_world. apply sameBases_refl.
    - intros rt _. rewrite legacy_newRoute_world. apply pushRoute_sameBases. }
  assert (Hs3 : Registration.sameBases w3 w').
  { replace w' with (snd (Legacy.refreshRoutes depth rid w3))
      by now rewrite Hrefresh.
    apply refreshRoutes_sameBases. }
  assert (Hs : Registration.sameBases w1 w')
    by (eapply sameBases_trans; eassumption).
  split; [|split].
  - rewrite (Hs child). subst w1. cbn [Legacy.setRouter snd Legacy.routers].
    rewrite lookup_insert_eq. reflexivity.
  - intros other Hne. rewrite (Hs other). subst w1.
    cbn [Legacy.setRouter snd Legacy.routers].
    now rewrite lookup_insert_ne by congruence.
  - exact (refreshRoutes_upToDate depth rid w3 w' Hrefresh).
Qed.

Lemma Legacy_use_sets_the_child_base_path_witness :
  match (root ← Legacy.newRouter;
         api ← Legacy.newRouter;
         v1 ← Legacy.newRouter;
         Legacy.use 3 root (Legacy.UsePath "/api" (Legacy.RouterHandler api));;
         mret (api, v1)) ExampleHost.legacyWorld with
  | (Normal (api, v1), w) =>
      match Legacy.use 3 api (Legacy.UsePath "/v1/" (Legacy.RouterHandler v1))
              w with
      | (Normal _, w') =>
          (Legacy.basePath <$> Legacy.routers w !! api) = Some (Some "/api")
          /\ (Legacy.basePath <$> Legacy.routers w' !! v1)
             = Some (Some "/api/api/v1")
          /\ (Legacy.basePath <$> Legacy.routers w' !! api)
             = Some (Some "/api")
      | _ => False
      end
  | _ => False
  end.
Proof.
  match goal with
  | |- match ?c with _ => _ end =>
      destruct c as [[[api v1]|e] w] eqn:E; vm_compute in E;
        [|discriminate E]
  end.
  injection E as <- <- <-.
  match goal with |- context [Legacy.use 3 1 _ ?W] => set (w := W) end.
  assert (H1 : exists r, Legacy.routers w !! 1 = Some r
                         /\ Legacy.basePath r = Some "/api")
    by (eexists; vm_compute; split; reflexivity).
  assert (H2 : exists r, Legacy.routers w !! 2 = Some r)
    by (eexists; vm_compute; reflexivity).
  destruct H1 as (r1 & H1 & Hb). destruct H2 as [r2 H2].
  destruct (Legacy.use 3 1 (Legacy.UsePath "/v1/" (Legacy.RouterHandler 2)) w)
    as [[[]|e] w'] eqn:Huse; [|vm_compute in Huse; discriminate Huse].
  destruct (Legacy_use_sets_the_child_base_path 3 w w' 1 2 r1 r2 "/v1/" H1 H2
              Huse) as (Hchild & Hothers & _).
  split; [vm_compute; reflexivity|]. split.
  - rewrite Hchild, Hb. reflexivity.
  - rewrite (Hothers 1) by discriminate. vm_compute. reflexivity.
Defined.

(* ===================================================================== *)
(** ** The setters of the response and what [build] makes of them *)
(* ===================================================================== *)

Lemma legacy_chain_snoc (cs : list LegacyResponse.Call)
  (c : LegacyResponse.Call) (o : ResponseOptions) :
  LegacyResponse.chain (cs ++ [c]) o
  = LegacyResponse.call c (LegacyResponse.chain cs o).
Proof. unfold LegacyResponse.chain. now rewrite fold_left_app. Qed.

Lemma legacy_chain_tasks (cs : list LegacyResponse.Call)
  (o : ResponseOptions) :
  tasks (LegacyResponse.chain cs o)
  = tasks o ++ concat (map LegacyResponse.tasksOf cs).
Proof.
  revert o. induction cs as [|c cs IH]; intros o.
  - cbn. now rewrite app_nil_r.
  - change (LegacyResponse.chain (c :: cs) o)
      with (LegacyResponse.chain cs (LegacyResponse.call c o)).
    rewrite IH. cbn [map concat]. rewrite app_assoc. f_equal.
    destruct c; cbn; now rewrite ?app_nil_r.
Qed.

Lemma legacy_chain_typed (cs : list LegacyResponse.Call)
  (o : ResponseOptions) :
  match type o with
  | normal => True
  | redirect => is_Some (redirectToUrl (redirectInfo o))
  | custom => is_Some (customResponse o)
  end ->
  match type (LegacyResponse.chain cs o) with
  | normal => True
  | redirect =>
      is_Some (redirectToUrl (redirectInfo (LegacyResponse.chain cs o)))
  | custom => is_Some (customResponse (LegacyResponse.chain cs o))
  end.
Proof.
  revert o. induction cs as [|c cs IH]; intros o Ho; [exact Ho|].
  change (LegacyResponse.chain (c :: cs) o)
    with (LegacyResponse.chain cs (LegacyResponse.call c o)).
  apply IH. destruct c; cbn; try exact Ho; eauto.
Qed.

(** X16.  The legacy [build] after the chained setters, on a router
    without a response builder.  Whatever setters were called on a fresh
    response, in whatever order, the type of the response is the one
    that the last of [redirect] and [setCustomResponse] left ("normal"
    when neither was called), and [build] leaves the response object as
    it is.  For the type "custom" it returns the custom response that
    was set.  For "redirect" with the empty URL it throws "No redirect
    URL provided for redirect!".  For "normal" and for "redirect" with
    another URL it asks the host for the response, [new Response(body,
    init)] or [Response.redirect(url, status)]: when the host refuses
    the arguments (a status outside 200..599, a body with a null-body
    status, a redirect URL that it cannot parse, a status that is no
    redirect status), [build] throws the error of the host; otherwise
    it returns the response.  What it returns comes with the tasks of
    all [addTask] calls in call order.  The two other errors of [build]
    (no custom response, no final response value) cannot be reached
    through the setters. *)
Theorem Legacy_build_after_setters (w : Legacy.World) (c : Legacy.Ctx)
  (r : Legacy.Router) (cs : list LegacyResponse.Call) :
  Legacy.routers w !! Legacy.res_router (Legacy.response c) = Some r ->
  Legacy.customResponseBuilder r = None ->
  Legacy.responseOptions (Legacy.response c)
  = LegacyResponse.chain cs initialResponseOptions ->
  let o := Legacy.responseOptions (Legacy.response c) in
  let returned (resp : Response) :=
    Normal {| Legacy.built_tasks := concat (map LegacyResponse.tasksOf cs);
              Legacy.built_response := Some resp |} in
  let asked (resp : Response) :=
    match responseError (Legacy.host w) resp with
    | Some e => Throw e
    | None => returned resp
    end in
  match type o with
  | normal => Legacy.build w c = (asked (normalResponse o), c)
  | redirect =>
      exists u,
        redirectToUrl (redirectInfo o) = Some u
        /\ Legacy.build w c
           = (if String.eqb u ""
              then Throw "No redirect URL provided for redirect!"
              else asked (ResponseRedirect (Some u)
                            (redirectStatusCode (redirectInfo o))), c)
  | custom =>
      exists resp,
        customResponse o = Some resp
        /\ Legacy.build w c = (returned resp, c)
  end.
Proof.
  intros Hr Hb Ho o returned asked.
  pose proof (legacy_chain_typed cs initialResponseOptions I) as Hty.
  pose proof (legacy_chain_tasks cs initialResponseOptions) as Hts.
  rewrite <- Ho in Hty, Hts. fold o in Hty, Hts.
  cbn [tasks initialResponseOptions app] in Hts.
  unfold Legacy.build. rewrite Hr, Hb. fold o.
  subst asked returned. cbv beta. rewrite <- Hts.
  destruct (type o) eqn:Ht.
  - unfold construct.
    destruct (responseError (Legacy.host w) (normalResponse o));
      reflexivity.
  - destruct Hty as [u Hu]. exists u. split; [exact Hu|]. rewrite Hu.
    destruct u as [|a u]; [reflexivity|].
    change (String.eqb (String a u) "") with false. cbv iota.
    unfold construct.
    destruct (responseError (Legacy.host w) _); reflexivity.
  - destruct Hty as [resp Hresp]. exists resp. split; [exact Hresp|].
    now rewrite Hresp.
Qed.

Lemma Legacy_build_after_setters_witness :
  match LegacyExamples.oneRoute 0 ExampleHost.legacyWorld with
  | (Normal root, w) =>
      let c := LegacyExamples.fresh root "/a/" in
      let after cs :=
        Legacy.onOptions (fun _ => LegacyResponse.chain cs
                                     initialResponseOptions) c in
      fst (Legacy.build w
             (after [LegacyResponse.AddTask [1]; LegacyResponse.Redirect "/x" None;
                     LegacyResponse.StatusCode 201;
                     LegacyResponse.SetCustomResponse (HostResponse "mine");
                     LegacyResponse.AddTask [2; 3]]))
      = Normal {| Legacy.built_tasks := [1; 2; 3];
                  Legacy.built_response := Some (HostResponse "mine") |}
      /\ fst (Legacy.build w
                (after [LegacyResponse.Text "hi";
                        LegacyResponse.Redirect "" None]))
         = Throw "No redirect URL provided for redirect!"
      /\ fst (Legacy.build w
                (after [LegacyResponse.Text "hi";
                        LegacyResponse.Redirect "/new" (Some 301%Z)]))
         = Throw "TypeError: Invalid URL"
      /\ fst (Legacy.build w
                (after [LegacyResponse.Text "hi";
                        LegacyResponse.StatusCode 204]))
         = Throw "TypeError: Response with null body status cannot have body"
      /\ fst (Legacy.build w
                (after [LegacyResponse.AddTask [4];
                        LegacyResponse.StatusCode 201]))
         = Normal {| Legacy.built_tasks := [4];
                     Legacy.built_response :=
                       Some (NewResponse None 201 "OK" ∅) |}
  | _ => False
  end.
Proof.
  destruct (LegacyExamples.oneRoute 0 ExampleHost.legacyWorld) as [[root|e] w] eqn:E;
    vm_compute in E; [|discriminate E].
  injection E as <- <-.
  match goal with |- context [Legacy.build ?W _] => set (w := W) end.
  intros c after.
  pose_value r (Legacy.routers w !! 0).
  assert (Hr : Legacy.routers w !! 0 = Some r) by (vm_compute; reflexivity).
  assert (Hb : Legacy.customResponseBuilder r = None) by reflexivity.
  assert (Hrun : forall cs,
            match type (Legacy.responseOptions (Legacy.response (after cs)))
            with
            | normal =>
                Legacy.build w (after cs)
                = (match responseError (Legacy.host w)
                           (normalResponse
                              (Legacy.responseOptions
                                 (Legacy.response (after cs)))) with
                   | Some e => Throw e
                   | None =>
                       Normal {| Legacy.built_tasks :=
                                   concat (map LegacyResponse.tasksOf cs);
                                 Legacy.built_response :=
                                   Some (normalResponse
                                           (Legacy.responseOptions
                                              (Legacy.response (after cs))))
                              |}
                   end, after cs)
            | redirect =>
                exists u,
                  redirectToUrl
                    (redirectInfo
                       (Legacy.responseOptions (Legacy.response (after cs))))
                  = Some u
                  /\ Legacy.build w (after cs)
                     = (if String.eqb u ""
                        then Throw "No redirect URL provided for redirect!"
                        else
                          match responseError (Legacy.host w)
                                  (ResponseRedirect (Some u)
                                     (redirectStatusCode
                                        (redirectInfo
                                           (Legacy.responseOptions
                                              (Legacy.response (after cs))))))
                          with
                          | Some e => Throw e
                          | None =>
                              Normal
                                {| Legacy.built_tasks :=
                                     concat (map LegacyResponse.tasksOf cs);
                                   Legacy.built_response :=
                                     Some (ResponseRedirect (Some u)
                                             (redirectStatusCode
                                                (redirectInfo
                                                   (Legacy.responseOptions
                                                      (Legacy.response
                                                         (after cs)))))) |}
                          end, after cs)
            | custom =>
                exists resp,
                  customResponse
                    (Legacy.responseOptions (Legacy.response (after cs)))
                  = Some resp
                  /\ Legacy.build w (after cs)
                     = (Normal {| Legacy.built_tasks :=
                                    concat (map LegacyResponse.tasksOf cs);
                                  Legacy.built_response := Some resp |},
                        after cs)
            end)
    by (intros cs;
        exact (Legacy_build_after_setters w (after cs) r cs Hr Hb eq_refl)).
  split; [|split; [|split; [|split]]].
  - match goal with |- context [after ?CS] => pose proof (Hrun CS) as H end.
    destruct H as (resp & Hresp & ->). cbn [fst].
    vm_compute in Hresp. injection Hresp as <-. reflexivity.
  - match goal with |- context [after ?CS] => pose proof (Hrun CS) as H end.
    destruct H as (u & Hu & ->). cbn [fst].
    vm_compute in Hu. injection Hu as <-. reflexivity.
  - match goal with |- context [after ?CS] => pose proof (Hrun CS) as H end.
    destruct H as (u & Hu & ->). cbn [fst].
    vm_compute in Hu. injection Hu as <-. vm_compute. reflexivity.
  - match goal with |- context [after ?CS] => pose proof (Hrun CS) as H end.
    cbv iota in H. rewrite H. cbn [fst]. vm_compute. reflexivity.
  - match goal with |- context [after ?CS] => pose proof (Hrun CS) as H end.
    cbv iota in H. rewrite H. cbn [fst]. vm_compute. reflexivity.
Defined.

Lemma tree_chain_tasks (cs : list TreeResponse.Call) (o : ResponseOptions) :
  tasks (TreeResponse.chain cs o)
  = tasks o ++ concat (map TreeResponse.tasksOf cs).
Proof.
  revert o. induction cs as [|c cs IH]; intros o.
  - cbn. now rewrite app_nil_r.
  - change (TreeResponse.chain (c :: cs) o)
      with (TreeResponse.chain cs (TreeResponse.call c o)).
    rewrite IH. cbn [map concat]. rewrite app_assoc. f_equal.
    destruct c; cbn; now rewrite ?app_nil_r.
Qed.

Lemma tree_chain_typed (cs : list TreeResponse.Call) (o : ResponseOptions) :
  match type o with
  | normal => True
  | redirect => exists u code,
      redirectInfo o = {| redirectToUrl := Some u;
                          redirectStatusCode := Some code |}
  | custom => False
  end ->
  match type (TreeResponse.chain cs o) with
  | normal => True
  | redirect => exists u code,
      redirectInfo (TreeResponse.chain cs o)
      = {| redirectToUrl := Some u; redirectStatusCode := Some code |}
  | custom => False
  end.
Proof.
  revert o. induction cs as [|c cs IH]; intros o Ho; [exact Ho|].
  change (TreeResponse.chain (c :: cs) o)
    with (TreeResponse.chain cs (TreeResponse.call c o)).
  apply IH. destruct c; cbn; try exact Ho; eauto.
Qed.

Lemma tree_chain_filter (cs : list TreeResponse.Call)
  (o o' : ResponseOptions) :
  TreeResponse.withoutCustomResponse o
  = TreeResponse.withoutCustomResponse o' ->
  TreeResponse.withoutCustomResponse (TreeResponse.chain cs o)
  = TreeResponse.withoutCustomResponse
      (TreeResponse.chain
         (List.filter (fun x => negb (TreeResponse.isSetCustomResponse x)) cs)
         o').
Proof.
  revert o o'. induction cs as [|c cs IH]; intros o o' H; [exact H|].
  change (TreeResponse.chain (c :: cs) o)
    with (TreeResponse.chain cs (TreeResponse.call c o)).
  assert (Hf : forall f : ResponseOptions -> ResponseOptions,
            (forall a b, TreeResponse.withoutCustomResponse a
                         = TreeResponse.withoutCustomResponse b ->
                         TreeResponse.withoutCustomResponse (f a)
                         = TreeResponse.withoutCustomResponse (f b)) ->
            TreeResponse.withoutCustomResponse
              (TreeResponse.chain cs (f o))
            = TreeResponse.withoutCustomResponse
                (TreeResponse.chain
                   (List.filter
                      (fun x => negb (TreeResponse.isSetCustomResponse x)) cs)
                   (f o'))).
  { intros f Hcong. apply IH, Hcong, H. }
  assert (Hinj : forall a b,
            TreeResponse.withoutCustomResponse a
            = TreeResponse.withoutCustomResponse b ->
            type a = type b /\ status a = status b
            /\ statusCode a = statusCode b /\ headers a = headers b
            /\ cookies a = cookies b /\ tasks a = tasks b
            /\ body a = body b /\ redirectInfo a = redirectInfo b).
  { intros a b E. unfold TreeResponse.withoutCustomResponse in E.
    injection E as -> -> -> -> -> -> -> ->. now repeat split. }
  destruct c as [s|b ct|t|st|code|ts|n v|u code|resp|ct];
    cbn [List.filter TreeResponse.isSetCustomResponse negb];
    try (change (TreeResponse.chain (?c :: ?l) ?x)
           with (TreeResponse.chain l (TreeResponse.call c x));
         cbn [TreeResponse.call]; apply Hf; intros x y E;
         destruct (Hinj x y E) as (E1 & E2 & E3 & E4 & E5 & E6 & E7 & E8);
         unfold TreeResponse.withoutCustomResponse, json, raw, text,
           setContentType, setBody, setStatus, setStatusCode, addTasks,
           TreeResponse.setCookie, redirectTo;
         cbn [type status statusCode headers cookies tasks body redirectInfo
              customResponse];
         now rewrite ?E1, ?E2, ?E3, ?E4, ?E5, ?E6, ?E7, ?E8).
  cbn [TreeResponse.call]. apply IH.
  destruct (Hinj o o' H) as (E1 & E2 & E3 & E4 & E5 & E6 & E7 & E8).
  unfold TreeResponse.withoutCustomResponse, TreeResponse.setCustomResponse.
  cbn [type status statusCode headers cookies tasks body redirectInfo
       customResponse].
  now rewrite ?E1, ?E2, ?E3, ?E4, ?E5, ?E6, ?E7, ?E8.
Qed.

(** X17.  In [src/router] and in the documented revision
    [setCustomResponse] stores the response and leaves the type of the
    response alone, and no setter sets the type "custom".  So after any
    chain of setters on a fresh response [build] of [src/router] never
    takes the custom response: it asks the host for a new [Response] or
    for a redirect, and does what it does when all [setCustomResponse]
    calls are left out.  When the host refuses the arguments (a status
    outside 200..599, a body with a null-body status, a redirect URL
    that it cannot parse such as the relative "/new", a status that is
    no redirect status), [build] throws the error of the host;
    otherwise it returns the response of the host with the tasks of all
    [addTasks] calls, in call order. *)
Theorem setCustomResponse_never_reaches_the_built_response
  (cs : list TreeResponse.Call) (w : Tree.World) (c : Tree.Ctx) :
  let o := TreeResponse.chain cs initialResponseOptions in
  let o' := TreeResponse.chain
              (List.filter
                 (fun x => negb (TreeResponse.isSetCustomResponse x)) cs)
              initialResponseOptions in
  type o <> custom
  /\ RouterDir.build w (TreeResponse.withOptions o c)
     = RouterDir.build w (TreeResponse.withOptions o' c)
  /\ exists resp,
       ((type o = normal
         /\ resp = NewResponse (body o) (statusCode o) (status o) (headers o))
        \/ (type o = redirect
            /\ exists u code,
                 resp = ResponseRedirect (Some u) (Some code)))
       /\ RouterDir.build w (TreeResponse.withOptions o c)
          = match responseError (Tree.host w) resp with
            | Some e => Throw e
            | None =>
                Normal {| Tree.built_response := Some resp;
                          Tree.built_tasks :=
                            concat (map TreeResponse.tasksOf cs) |}
            end.
Proof.
  intros o o'.
  pose proof (tree_chain_typed cs initialResponseOptions I) as Hty.
  pose proof (tree_chain_tasks cs initialResponseOptions) as Hts.
  pose proof (tree_chain_filter cs initialResponseOptions
                initialResponseOptions eq_refl) as Hfil.
  fold o in Hty, Hts, Hfil. fold o' in Hfil.
  cbn [tasks initialResponseOptions app] in Hts.
  unfold TreeResponse.withoutCustomResponse in Hfil.
  injection Hfil as E1 E2 E3 E4 E5 E6 E7 E8.
  unfold RouterDir.build, TreeResponse.withOptions, normalResponse.
  cbn [Tree.response Tree.responseOptions Tree.built_tasks
       Tree.built_response].
  rewrite <- E1, <- E2, <- E3, <- E4, <- E6, <- E7, <- E8, Hts.
  destruct (type o) eqn:Ht.
  - split; [discriminate|]. split; [reflexivity|].
    eexists. split; [left; split; reflexivity|].
    unfold construct.
    destruct (responseError (Tree.host w) _); reflexivity.
  - split; [discriminate|]. split; [reflexivity|].
    destruct Hty as (u & code & ->).
    eexists. split; [right; split; [reflexivity|]; now exists u, code|].
    cbn [redirectToUrl redirectStatusCode]. unfold construct.
    destruct (responseError (Tree.host w) _); reflexivity.
  - destruct Hty.
Qed.

(* ===================================================================== *)
(** ** The middleware chain of [src/router] *)
(* ===================================================================== *)

Section RouterDirChain.
Variable urlMatch : string -> string -> option Params.
Variable handlers : Tree.HandlerId -> Tree.FunctionalHandler.

Lemma RouterDir_executeMiddleware_steps (rt : Tree.Route) (c : Tree.Ctx) :
  Spec.chainSteps (snd (RouterDir.executeMiddleware handlers rt c)) = [].
Proof.
  unfold RouterDir.executeMiddleware.
  destruct (Tree.handler rt) as [child|f]; [reflexivity|].
  destruct (Tree.arity (handlers f) =? 4); reflexivity.
Qed.

Lemma RouterDir_runMiddlewares_steps (ms : list Tree.MatchingRoute)
  (c : Tree.Ctx) (log : list Tree.Event) :
  exists k,
    Spec.chainSteps (snd (RouterDir.runMiddlewares handlers ms c log))
    = Spec.chainSteps log ++ map Tree.route (take k ms).
Proof.
  revert c log. induction ms as [|m rest IH]; intros c log.
  - exists 0. simpl. now rewrite app_nil_r.
  - simpl.
    pose proof (RouterDir_executeMiddleware_steps (Tree.route m) c) as Hc.
    destruct (RouterDir.executeMiddleware handlers (Tree.route m) c)
      as [[s c'] called].
    simpl in Hc.
    assert (Hlog : Spec.chainSteps (log ++ Tree.ChainStep (Tree.route m) :: called)
                   = Spec.chainSteps log ++ [Tree.route m]).
    { rewrite chainSteps_app. f_equal.
      change (Tree.ChainStep (Tree.route m) :: called)
        with ([Tree.ChainStep (Tree.route m)] ++ called).
      rewrite chainSteps_app, Hc. reflexivity. }
    destruct s as [[|]|e|].
    + destruct (IH c' (log ++ Tree.ChainStep (Tree.route m) :: called))
        as [k Hk].
      exists (S k). rewrite Hk, Hlog. simpl. now rewrite <- app_assoc.
    + exists 1. simpl. rewrite Hlog. now destruct rest.
    + exists 1. simpl. rewrite Hlog. now destruct rest.
    + exists 1. simpl. rewrite Hlog. now destruct rest.
Qed.

Lemma RouterDir_processRequest_steps (depth : nat) (w : Tree.World)
  (rid : Tree.RouterId) (c : Tree.Ctx) :
  exists found k,
    Spec.chainSteps
      (Tree.events (RouterDir.processRequest urlMatch handlers depth w rid c))
    = map Tree.route
        (take k
           (sortBy (fun a b => Tree.routeIndex (Tree.route b)
                               <=? Tree.routeIndex (Tree.route a))
              (List.filter
                 (fun m => negb (Tree.isHandlerRouter (Tree.route m)))
                 (List.filter (fun m => Tree.isMiddleware (Tree.route m))
                    found))))
    /\ (k = 0
        \/ Tree.findMatchingRoutes urlMatch depth w rid (Tree.request c)
           = Normal found).
Proof.
  unfold RouterDir.processRequest.
  destruct (Tree.findMatchingRoutes urlMatch depth w rid (Tree.request c))
    as [found|e].
  2:{ exists [], 0. split; [reflexivity | now left]. }
  destruct (head (List.filter _ found)) as [rh|].
  2:{ exists found, 0. split; [reflexivity | now left]. }
  set (ms := sortBy _ _).
  destruct (RouterDir_runMiddlewares_steps ms (Tree.setMatched rh c) [])
    as [k Hk].
  exists found, k. split; [|now right].
  destruct (RouterDir.runMiddlewares handlers ms (Tree.setMatched rh c) [])
    as [[s c2] log].
  simpl in Hk.
  destruct s as [[|]|e|]; try exact Hk.
  destruct (Tree.handler (Tree.route rh)) as [child|f]; [exact Hk|].
  assert (Hk' : Spec.chainSteps (log ++ [Tree.HandlerCall f])
                = map Tree.route (take k ms)).
  { rewrite chainSteps_app, Hk. simpl. apply app_nil_r. }
  destruct (Tree.ended (Tree.invoke (handlers f) c2)); exact Hk'.
Qed.

Lemma RouterDir_steps_descending (depth : nat) (w : Tree.World)
  (rid : Tree.RouterId) (c : Tree.Ctx) :
  let steps :=
    Spec.chainSteps
      (Tree.events (RouterDir.processRequest urlMatch handlers depth w rid c))
  in
  StronglySorted (fun a b => Tree.routeIndex b <= Tree.routeIndex a) steps
  /\ (forall rt, In rt steps ->
        Tree.isMiddleware rt = true /\ Tree.isHandlerRouter rt = false
        /\ exists found,
             Tree.findMatchingRoutes urlMatch depth w rid (Tree.request c)
             = Normal found
             /\ In rt (map Tree.route found)).
Proof.
  cbv zeta.
  destruct (RouterDir_processRequest_steps depth w rid c)
    as (found & k & Hsteps & Hk).
  rewrite Hsteps. set (ms := sortBy _ _).
  assert (Hsorted :
    StronglySorted
      (fun a b => (Tree.routeIndex (Tree.route b)
                   <=? Tree.routeIndex (Tree.route a)) = true) ms).
  { apply sortBy_sorted.
    - intros a b.
      destruct (Nat.leb_spec (Tree.routeIndex (Tree.route b))
                  (Tree.routeIndex (Tree.route a))); [now left|].
      right. apply Nat.leb_le. lia.
    - intros a b d Hab Hbd. apply Nat.leb_le in Hab, Hbd.
      apply Nat.leb_le. lia. }
  split.
  - apply (StronglySorted_map Tree.route
             (fun a b => Tree.routeIndex b <= Tree.routeIndex a)).
    rewrite <- (take_drop k ms) in Hsorted.
    apply StronglySorted_app_l in Hsorted.
    eapply StronglySorted_ind with (P := fun l => StronglySorted _ l);
      [constructor | | exact Hsorted].
    intros a l Hs IH Hall. constructor; [exact IH|].
    rewrite List.Forall_forall in *. intros x Hx.
    apply Nat.leb_le. now apply Hall.
  - intros rt Hin.
    apply in_map_iff in Hin. destruct Hin as (m & <- & Hm).
    assert (Hm' : In m ms).
    { rewrite <- (take_drop k ms). apply in_or_app. now left. }
    unfold ms in Hm'.
    apply (Permutation_in _ (sortBy_perm _ _)) in Hm'.
    apply filter_In in Hm'. destruct Hm' as [Hm' Hr].
    apply filter_In in Hm'. destruct Hm' as [Hf Hmw].
    split; [exact Hmw|]. split; [now apply negb_true_iff in Hr|].
    destruct Hk as [->|Hfound]; [now rewrite take_0 in Hm|].
    exists found. split; [exact Hfound|]. now apply in_map.
Qed.
End RouterDirChain.

(** X18.  The order of the middleware chain, for every program and every
    request.  The chain steps of a dispatch are started in the order
    that the sort of [processRequest] gives, whatever the order in which
    the walk found the routes: in the documented revision by ascending
    [routeIndex], so in registration order; in [src/router] by
    descending [routeIndex], so the middleware registered last runs
    first.  In both, every step belongs to a matched middleware route
    whose handler is a function. *)
Theorem chain_steps_follow_the_sort
  (urlMatch : string -> string -> option Params)
  (handlers : Tree.HandlerId -> Tree.FunctionalHandler)
  (depth : nat) (w : Tree.World) (rid : Tree.RouterId) (c : Tree.Ctx) :
  let matched rt :=
    Tree.isMiddleware rt = true /\ Tree.isHandlerRouter rt = false
    /\ exists found,
         Tree.findMatchingRoutes urlMatch depth w rid (Tree.request c)
         = Normal found
         /\ In rt (map Tree.route found) in
  let documented :=
    Spec.chainSteps
      (Tree.events (Unnamed.processRequest urlMatch handlers depth w rid c)) in
  let routerDir :=
    Spec.chainSteps
      (Tree.events (RouterDir.processRequest urlMatch handlers depth w rid c))
  in
  StronglySorted (fun a b => Tree.routeIndex a <= Tree.routeIndex b)
    documented
  /\ Forall matched documented
  /\ StronglySorted (fun a b => Tree.routeIndex b <= Tree.routeIndex a)
       routerDir
  /\ Forall matched routerDir.
Proof.
  cbv zeta.
  destruct (Unnamed_middlewares_run_in_ascending_order urlMatch handlers depth
              w rid c) as [H1 H2].
  destruct (RouterDir_steps_descending urlMatch handlers depth w rid c)
    as [H3 H4].
  cbv zeta in H1, H2, H3, H4.
  split; [exact H1|]. split; [now apply List.Forall_forall|].
  split; [exact H3|]. now apply List.Forall_forall.
Qed.

(* ===================================================================== *)
(** ** What a middleware cannot do *)
(* ===================================================================== *)

Lemma Unnamed_runMiddlewares_never_rejects
  (handlers : Tree.HandlerId -> Tree.FunctionalHandler)
  (ms : list Tree.MatchingRoute) (c : Tree.Ctx) (log : list Tree.Event)
  (e : Error) :
  fst (fst (Unnamed.runMiddlewares handlers ms c log)) <> Rejected e.
Proof.
  revert c log. induction ms as [|m rest IH]; intros c log; [discriminate|].
  cbn [Unnamed.runMiddlewares]. unfold Unnamed.executeMiddleware.
  destruct (Tree.handler (Tree.route m)) as [child|f]; [apply IH|].
  destruct (Tree.arity (handlers f) =? 3); [|apply IH].
  destruct (Tree.calledNext (Tree.invoke (handlers f) c)) as [[[|]|]|];
    try apply IH; discriminate.
Qed.

Lemma RouterDir_runMiddlewares_never_rejects
  (handlers : Tree.HandlerId -> Tree.FunctionalHandler)
  (ms : list Tree.MatchingRoute) (c : Tree.Ctx) (log : list Tree.Event)
  (e : Error) :
  fst (fst (RouterDir.runMiddlewares handlers ms c log)) <> Rejected e.
Proof.
  revert c log. induction ms as [|m rest IH]; intros c log; [discriminate|].
  cbn [RouterDir.runMiddlewares]. unfold RouterDir.executeMiddleware.
  destruct (Tree.handler (Tree.route m)) as [child|f]; [apply IH|].
  destruct (Tree.arity (handlers f) =? 4); [|apply IH].
  destruct (Tree.calledNext (Tree.invoke (handlers f) c)) as [[[|]|]|];
    try apply IH; discriminate.
Qed.

Lemma Legacy_runMiddlewares_never_rejects
  (handlers : Legacy.HandlerId -> Legacy.FunctionalHandler)
  (ms : list Legacy.Matched) (c : Legacy.Ctx) (log : list Legacy.Event)
  (e : Error) :
  fst (fst (Legacy.runMiddlewares handlers ms c log)) <> Rejected e.
Proof.
  revert c log. induction ms as [|m rest IH]; intros c log; [discriminate|].
  cbn [Legacy.runMiddlewares]. unfold Legacy.executeMiddleware.
  destruct (Legacy.handler (Legacy.route m)) as [child|f]; [apply IH|].
  destruct (Legacy.arity (handlers f) =? 3); [|apply IH].
  destruct (Legacy.calledNext (Legacy.invoke (handlers f) c)) as [[[|]|]|];
    try apply IH; discriminate.
Qed.

Lemma Unnamed_executeMiddleware_never_rejects
  (handlers : Tree.HandlerId -> Tree.FunctionalHandler)
  (rt : Tree.Route) (c : Tree.Ctx) (e : Error) :
  fst (fst (Unnamed.executeMiddleware handlers rt c)) <> Rejected e.
Proof.
  unfold Unnamed.executeMiddleware.
  destruct (Tree.handler rt) as [child|f]; [discriminate|].
  destruct (Tree.arity (handlers f) =? 3); [|discriminate].
  destruct (Tree.calledNext (Tree.invoke (handlers f) c)); discriminate.
Qed.

Lemma RouterDir_executeMiddleware_never_rejects
  (handlers : Tree.HandlerId -> Tree.FunctionalHandler)
  (rt : Tree.Route) (c : Tree.Ctx) (e : Error) :
  fst (fst (RouterDir.executeMiddleware handlers rt c)) <> Rejected e.
Proof.
  unfold RouterDir.executeMiddleware.
  destruct (Tree.handler rt) as [child|f]; [discriminate|].
  destruct (Tree.arity (handlers f) =? 4); [|discriminate].
  destruct (Tree.calledNext (Tree.invoke (handlers f) c)); discriminate.
Qed.

(** X19.  No middleware can make a dispatch fail.  In the three
    revisions the promise of [executeMiddleware] is never rejected,
    whatever the handler does (it may throw, reject, or never call its
    continuation), so the loop over the middlewares ends with all of
    them passed, with one of them refusing, or it never ends; the
    [catch] of the legacy loop and its test for an [Error] never see an
    error. *)
Theorem middlewares_never_reject :
  (forall (handlers : Tree.HandlerId -> Tree.FunctionalHandler)
          rt ms c log e,
     fst (fst (Unnamed.executeMiddleware handlers rt c)) <> Rejected e
     /\ fst (fst (Unnamed.runMiddlewares handlers ms c log)) <> Rejected e
     /\ fst (fst (RouterDir.executeMiddleware handlers rt c)) <> Rejected e
     /\ fst (fst (RouterDir.runMiddlewares handlers ms c log)) <> Rejected e)
  /\ (forall (handlers : Legacy.HandlerId -> Legacy.FunctionalHandler)
             rt ms c log e,
        fst (fst (Legacy.executeMiddleware handlers rt c)) <> Rejected e
        /\ fst (fst (Legacy.runMiddlewares handlers ms c log)) <> Rejected e).
Proof.
  split.
  - intros handlers rt ms c log e.
    split; [apply Unnamed_executeMiddleware_never_rejects|].
    split; [apply Unnamed_runMiddlewares_never_rejects|].
    split; [apply RouterDir_executeMiddleware_never_rejects|].
    apply RouterDir_runMiddlewares_never_rejects.
  - intros handlers rt ms c log e.
    split; [apply Legacy_executeMiddleware_never_rejects
           |apply Legacy_runMiddlewares_never_rejects].
Qed.

(* ===================================================================== *)
(** ** Instances of the laws of the chain *)
(* ===================================================================== *)

Lemma Unnamed_abort_skips_rest_witness :
  match Examples.twoMiddlewares 5 8 0 ExampleHost.world with
  | (Normal root, w) =>
      let c := {| Tree.request :=
                    {| Tree.req_url := ""; Tree.req_path := "/a/";
                       Tree.req_method := "GET"; Tree.req_headers := ∅;
                       Tree.matchedParams := None;
                       Tree.req_matchedRoute := None |};
                  Tree.response := Unnamed.newRouterResponse;
                  Tree.variables := ∅ |} in
      let d := Unnamed.processRequest ExampleHost.urlMatch Examples.handlers
                 1 w root c in
      map Tree.routeIndex (Spec.chainSteps (Tree.events d)) = [0; 1]
      /\ Spec.handlerCalls (Tree.events d) = [5; 8]
  | _ => False
  end.
Proof.
  destruct (Examples.twoMiddlewares 5 8 0 ExampleHost.world) as [[root|e] w] eqn:E;
    vm_compute in E; [|discriminate E].
  injection E as <- <-.
  match goal with
  | |- let c := ?C in let d := Unnamed.processRequest _ _ _ ?W _ _ in _ =>
      set (w := W); set (c := C)
  end.
  cbv zeta.
  let found := eval vm_compute in
    (match Tree.findMatchingRoutes ExampleHost.urlMatch 1 w 0 (Tree.request c)
     with Normal l => l | Throw _ => [] end) in
  let ms := eval vm_compute in
    (sortBy (fun a b => Tree.routeIndex (Tree.route a)
                        <=? Tree.routeIndex (Tree.route b))
       (List.filter (fun m => negb (Tree.isHandlerRouter (Tree.route m)))
          (List.filter (fun m => Tree.isMiddleware (Tree.route m)) found))) in
  match ms with
  | [?m1; ?m2] =>
      pose proof (fun c1 c2 rh log1 called =>
                    Unnamed_abort_skips_rest ExampleHost.urlMatch
                      Examples.handlers 1 w 0 c c1 c2 found [m1] [] m2 rh
                      log1 called) as H;
      edestruct H as (_ & Hsteps & Hcalls);
        [vm_compute; reflexivity | vm_compute; reflexivity
        | vm_compute; reflexivity | vm_compute; reflexivity
        | vm_compute; reflexivity |]
  end.
  rewrite Hsteps, Hcalls. split; reflexivity.
Defined.

Lemma Legacy_abort_skips_rest_witness :
  match LegacyExamples.twoMiddlewares 5 8 0 ExampleHost.legacyWorld with
  | (Normal root, w) =>
      let d := Legacy.processRequest ExampleHost.urlMatch
                 LegacyExamples.handlers 1 w root
                 (LegacyExamples.fresh root "/a/") in
      map (fun r => Legacy.handler r)
        (Spec.legacyChainSteps (Legacy.events d))
      = [Legacy.FunctionHandler 5; Legacy.FunctionHandler 8]
      /\ Spec.legacyHandlerCalls (Legacy.events d) = [5; 8]
  | _ => False
  end.
Proof.
  destruct (LegacyExamples.twoMiddlewares 5 8 0 ExampleHost.legacyWorld)
    as [[root|e] w] eqn:E; vm_compute in E; [|discriminate E].
  injection E as <- <-.
  match goal with
  | |- let d := Legacy.processRequest _ _ _ ?W _ ?C in _ =>
      set (w := W); set (c := C)
  end.
  cbv zeta.
  let found := eval vm_compute in
    (match Legacy.getMatchingRoutesByPath ExampleHost.urlMatch 1 w 0
             (Legacy.req_path (Legacy.request c)) []
     with Normal l => l | Throw _ => [] end) in
  let ms := eval vm_compute in
    (List.filter (fun m => match Legacy.handler (Legacy.route m) with
                           | Legacy.RouterHandler _ => false
                           | Legacy.FunctionHandler _ => true
                           end)
       (List.filter (fun m => Legacy.isMiddleware (Legacy.route m)) found)) in
  match ms with
  | [?m1; ?m2] =>
      pose proof (fun c1 c2 rh f log1 called =>
                    Legacy_abort_skips_rest ExampleHost.urlMatch
                      LegacyExamples.handlers 1 w 0 c c1 c2 found [m1] [] m2
                      rh f log1 called) as H;
      edestruct H as (_ & Hsteps & Hcalls);
        [vm_compute; reflexivity | vm_compute; reflexivity
        | vm_compute; reflexivity | vm_compute; reflexivity
        | vm_compute; reflexivity | vm_compute; reflexivity |]
  end.
  rewrite Hsteps, Hcalls. split; reflexivity.
Defined.

(* ===================================================================== *)
(** ** Serving on a mounted router *)
(* ===================================================================== *)

Lemma getMainRouter_after_marking (d : nat) (w : Tree.World)
  (rid p x : Tree.RouterId) (r : Tree.Router) :
  Tree.routers w !! rid = Some r ->
  Tree.parentRouter r = Some p ->
  Tree.getMainRouter d
    (Registration.withRouter rid (Tree.withIsMainRouter true r) w) x
  = Tree.getMainRouter d w x.
Proof.
  intros Hr Hp. revert x. induction d as [|d IH]; intros x; [reflexivity|].
  cbn [Tree.getMainRouter].
  destruct (decide (x = rid)) as [->|Hne].
  - rewrite lookup_withRouter_eq, Hr.
    cbn [Tree.withIsMainRouter Tree.parentRouter]. rewrite Hp. apply IH.
  - rewrite lookup_withRouter_ne by exact Hne.
    destruct (Tree.routers w !! x) as [rx|]; [|reflexivity].
    destruct (Tree.parentRouter rx); [apply IH | reflexivity].
Qed.

Lemma Unnamed_no_main_no_response
  (urlMatch : string -> string -> option Params)
  (handlers : Tree.HandlerId -> Tree.FunctionalHandler)
  (depth : nat) (w : Tree.World) (rid : Tree.RouterId) (c : Tree.Ctx)
  (b : Tree.BuiltResponseObject) :
  (forall m, Tree.getMainRouter depth w rid <> Normal m) ->
  Tree.settled (Unnamed.processRequest urlMatch handlers depth w rid c)
  <> Resolved b.
Proof.
  intros Hno.
  assert (Hfin : forall c' log,
            Tree.settled (Tree.settle (Unnamed.finishResponse depth w rid c')
                            log) <> Resolved b).
  { intros c' log. unfold Tree.settle, Unnamed.finishResponse.
    cbn [Tree.settled].
    destruct (Tree.getMainRouter depth w rid) as [m|e] eqn:Hm;
      [now elim (Hno m) | discriminate]. }
  unfold Unnamed.processRequest.
  destruct (Tree.findMatchingRoutes urlMatch depth w rid (Tree.request c));
    [|discriminate].
  destruct (hd_error _) as [rh|]; [|discriminate].
  destruct (Unnamed.runMiddlewares _ _ _ _) as [[[[|]|e|] c2] log];
    try discriminate; [|apply Hfin].
  destruct (Tree.handler (Tree.route rh)); [discriminate|].
  destruct (Tree.ended _); try discriminate. apply Hfin.
Qed.

Lemma RouterDir_no_main_no_response
  (urlMatch : string -> string -> option Params)
  (handlers : Tree.HandlerId -> Tree.FunctionalHandler)
  (depth : nat) (w : Tree.World) (rid : Tree.RouterId) (c : Tree.Ctx)
  (b : Tree.BuiltResponseObject) :
  (forall m, Tree.getMainRouter depth w rid <> Normal m) ->
  Tree.settled (RouterDir.processRequest urlMatch handlers depth w rid c)
  <> Resolved b.
Proof.
  intros Hno.
  assert (Hfin : forall c' log,
            Tree.settled (Tree.settle
                            (RouterDir.finishResponse depth w rid c') log)
            <> Resolved b).
  { intros c' log. unfold Tree.settle, RouterDir.finishResponse.
    cbn [Tree.settled].
    destruct (Tree.getMainRouter depth w rid) as [m|e] eqn:Hm;
      [now elim (Hno m) | discriminate]. }
  unfold RouterDir.processRequest.
  destruct (Tree.findMatchingRoutes urlMatch depth w rid (Tree.request c));
    [|discriminate].
  destruct (hd_error _) as [rh|]; [|discriminate].
  destruct (RouterDir.runMiddlewares _ _ _ _) as [[[[|]|e|] c2] log];
    try discriminate; [|apply Hfin].
  destruct (Tree.handler (Tree.route rh)); [discriminate|].
  destruct (Tree.ended _); try discriminate. apply Hfin.
Qed.

(** X20.  A mounted router answers only below a router that serves.
    [serveRequest] marks the router it is called on, but [finishResponse]
    looks for the main router at the top of the parent chain.  So when
    [serveRequest] is called on a router that has a parent, and the walk
    up from it does not end at a router marked as main, the promise is
    never fulfilled: it is rejected, or it stays pending; this in the
    documented revision and in [src/router], whatever the routes and the
    handlers. *)
Theorem serving_on_a_mounted_router_needs_a_main_router_above
  (urlMatch : string -> string -> option Params)
  (handlers : Tree.HandlerId -> Tree.FunctionalHandler)
  (pathname : string -> option string) (depth : nat) (w : Tree.World)
  (rid p : Tree.RouterId) (r : Tree.Router) (incoming : IncomingRequest)
  (b : Tree.BuiltResponseObject) :
  Tree.routers w !! rid = Some r ->
  Tree.parentRouter r = Some p ->
  (forall m, Tree.getMainRouter depth w rid <> Normal m) ->
  Tree.settled
    (snd (Unnamed.serveRequest urlMatch handlers pathname depth w rid incoming))
  <> Resolved b
  /\ Tree.settled
       (snd (RouterDir.serveRequest urlMatch handlers pathname depth w rid
               incoming))
     <> Resolved b.
Proof.
  intros Hr Hp Hno.
  assert (Hno' : forall m,
            Tree.getMainRouter depth
              (Registration.withRouter rid (Tree.withIsMainRouter true r) w)
              rid <> Normal m).
  { intros m. rewrite (getMainRouter_after_marking depth w rid p rid r Hr Hp).
    apply Hno. }
  assert (Hassign :
            Tree.assignSelfAsMainRouter rid w
            = match Tree.mainRouter r with
              | Some _ =>
                  (Throw "Cannot assign self router as the main router when there is already another router instance considered a main one!", w)
              | None =>
                  (Normal tt,
                   Registration.withRouter rid (Tree.withIsMainRouter true r)
                     w)
              end).
  { unfold Tree.assignSelfAsMainRouter.
    rewrite (bind_run _ _ _ _ r) by now apply getRouter_run.
    now destruct (Tree.mainRouter r). }
  split.
  - unfold Unnamed.serveRequest. rewrite Hr.
    destruct (negb (bool_decide (is_Some (Tree.mainRouter r)))
              && negb (Tree.isMainRouter r)).
    + rewrite Hassign. destruct (Tree.mainRouter r); [discriminate|].
      destruct (Unnamed.newRouterRequest pathname incoming); [|discriminate].
      cbn [snd]. now apply Unnamed_no_main_no_response.
    + destruct (Unnamed.newRouterRequest pathname incoming); [|discriminate].
      cbn [snd]. now apply Unnamed_no_main_no_response.
  - unfold RouterDir.serveRequest. rewrite Hr.
    destruct (negb (Tree.isMainRouter r)).
    + rewrite Hassign. destruct (Tree.mainRouter r); [discriminate|].
      destruct (RouterDir.newRouterRequest pathname incoming); [|discriminate].
      cbn [snd]. now apply RouterDir_no_main_no_response.
    + destruct (RouterDir.newRouterRequest pathname incoming); [|discriminate].
      cbn [snd]. now apply RouterDir_no_main_no_response.
Qed.

Lemma serving_on_a_mounted_router_needs_a_main_router_above_witness :
  match Examples.rootAndSub ExampleHost.world with
  | (Normal (root, sub), w) =>
      let onSub w := Unnamed.serveRequest ExampleHost.urlMatch
                       Examples.handlers ExampleHost.pathname 2 w sub
                       (Examples.incoming "/api/a") in
      let onRoot w := Unnamed.serveRequest ExampleHost.urlMatch
                        Examples.handlers ExampleHost.pathname 2 w root
                        (Examples.incoming "/api/a") in
      (forall b, Tree.settled (snd (onSub w)) <> Resolved b)
      /\ Tree.settled (snd (onSub w))
         = Rejected "Error! Got to a top-level router that wasn't declared as main router!"
      /\ Spec.handlerCalls (Tree.events (snd (onSub w))) = [0]
      /\ Tree.settled (snd (onSub (fst (onRoot w))))
         = Resolved {| Tree.built_tasks := [];
                       Tree.built_response :=
                         Some (NewResponse (Some "done") 200 "OK"
                                 {["content-type" := "text/plain"]}) |}
  | _ => False
  end.
Proof.
  destruct (Examples.rootAndSub ExampleHost.world) as [[[root sub]|e] w] eqn:E;
    vm_compute in E; [|discriminate E].
  injection E as <- <- <-.
  cbv zeta beta.
  match goal with |- context [Unnamed.serveRequest _ _ _ _ ?W 1 _] =>
    set (w := W) end.
  assert (Hr : exists r, Tree.routers w !! 1 = Some r
                         /\ Tree.parentRouter r = Some 0)
    by (eexists; vm_compute; split; reflexivity).
  destruct Hr as (r & Hr & Hp).
  split.
  - intros b.
    refine (proj1 (serving_on_a_mounted_router_needs_a_main_router_above
                     ExampleHost.urlMatch Examples.handlers
                     ExampleHost.pathname 2 w 1 0 r
                     (Examples.incoming "/api/a") b Hr Hp _)).
    intros m. vm_compute. discriminate.
  - split; [vm_compute; reflexivity|].
    split; vm_compute; reflexivity.
Defined.

Lemma mainRouter_is_never_assigned_witness :
  match Examples.rootAndSub ExampleHost.world with
  | (Normal (root, sub), w) =>
      Spec.NoMainRef w
      /\ fst (Tree.assignSelfAsMainRouter sub w) = Normal tt
      /\ Spec.NoMainRef
           (fst (Unnamed.serveRequest ExampleHost.urlMatch Examples.handlers
                   ExampleHost.pathname 2 w root (Examples.incoming "/api/a")))
  | _ => False
  end.
Proof.
  destruct mainRouter_is_never_assigned
    as (Hempty & Hnew & Huse & Hadd & Hserve & Hassign).
  assert (Hkeeps : Spec.keeps Examples.rootAndSub (fun _ => True)).
  { unfold Examples.rootAndSub.
    eapply keeps_bind; [apply Hnew|]. intros root _.
    eapply keeps_bind; [apply Hnew|]. intros sub _.
    eapply keeps_bind; [apply Huse|]. intros _ _.
    eapply keeps_bind; [apply Hadd|]. intros _ _.
    now apply keeps_ret. }
  destruct (Hkeeps ExampleHost.world (Hempty ExampleHost.host)) as [Hno _].
  destruct (Examples.rootAndSub ExampleHost.world) as [[[root sub]|e] w] eqn:E;
    [|vm_compute in E; discriminate E].
  cbn [snd] in Hno.
  assert (Hsub : sub = 1) by (vm_compute in E; now injection E as _ <- _).
  subst sub.
  assert (Hr : exists r, Tree.routers w !! 1 = Some r).
  { vm_compute in E. injection E as _ <-. eexists. vm_compute. reflexivity. }
  destruct Hr as [r Hr].
  split; [exact Hno|]. split; [exact (Hassign w 1 r Hno Hr)|].
  exact (proj1 (Hserve ExampleHost.urlMatch Examples.handlers
                  ExampleHost.pathname 2 w root (Examples.incoming "/api/a")
                  Hno)).
Defined.

(* ===================================================================== *)
(** ** The request object *)
(* ===================================================================== *)

Lemma toUpperCase_GET : JsCase.toUpperCase "GET" = "GET".
Proof. reflexivity. Qed.



(* ===================================================================== *)
(** ** [useBulk] *)
(* ===================================================================== *)

Section BulkLoop.

Variable use : Tree.RouterId -> Tree.UseArgs -> Tree.M unit.
Variable fix_ : string -> string -> string.

Hypothesis use_run : forall (w : Tree.World) (rid : Tree.RouterId)
    (r : Tree.Router) (e : Bulk.Entry) (f : Tree.HandlerId),
  Tree.routers w !! rid = Some r ->
  Bulk.entry_handler e = Tree.FunctionHandler f ->
  patternError (Tree.host w)
    (Paths.fixPath (Tree.basePath r)
       (fix_ (Tree.basePath r) (Bulk.usePath e))) = None ->
  use rid (Bulk.useArgs e) w
  = (Normal tt,
     Registration.withRouter rid
       (Tree.withRoutes
          (Tree.routes r
           ++ [Registration.builtRoute rid (Tree.basePath r)
                 (Tree.lastRouteIndex w)
                 {| Tree.opt_path := fix_ (Tree.basePath r) (Bulk.usePath e);
                    Tree.opt_handler := Bulk.entry_handler e;
                    Tree.opt_method := ANY; Tree.opt_isMiddleware := true;
                    Tree.opt_routeIndex := None |}]) r)
       (Registration.withLastRouteIndex (S (Tree.lastRouteIndex w)) w)).

Hypothesis use_throw : forall (w : Tree.World) (rid : Tree.RouterId)
    (r : Tree.Router) (e : Bulk.Entry) (f : Tree.HandlerId) (err : Error),
  Tree.routers w !! rid = Some r ->
  Bulk.entry_handler e = Tree.FunctionHandler f ->
  patternError (Tree.host w)
    (Paths.fixPath (Tree.basePath r)
       (fix_ (Tree.basePath r) (Bulk.usePath e))) = Some err ->
  use rid (Bulk.useArgs e) w = (Throw err, w).

Lemma useBulk_run (rid : Tree.RouterId) (entries : list Bulk.Entry) :
  forall (w : Tree.World) (r : Tree.Router),
  Tree.routers w !! rid = Some r ->
  Forall (fun e => exists f, Bulk.entry_handler e = Tree.FunctionHandler f)
    entries ->
  Forall (fun e => patternError (Tree.host w)
                     (Paths.fixPath (Tree.basePath r)
                        (fix_ (Tree.basePath r) (Bulk.usePath e))) = None)
    entries ->
  exists w' news,
    Bulk.useBulk use rid entries w = (Normal tt, w')
    /\ Tree.host w' = Tree.host w
    /\ Tree.routers w' !! rid
       = Some (Tree.withRoutes (Tree.routes r ++ news) r)
    /\ length news = length entries
    /\ (forall i e, entries !! i = Some e ->
          news !! i
          = Some (Registration.builtRoute rid (Tree.basePath r)
                    (Tree.lastRouteIndex w + i)
                    {| Tree.opt_path :=
                         fix_ (Tree.basePath r) (Bulk.usePath e);
                       Tree.opt_handler := Bulk.entry_handler e;
                       Tree.opt_method := ANY;
                       Tree.opt_isMiddleware := true;
                       Tree.opt_routeIndex := None |}))
    /\ Tree.lastRouteIndex w' = Tree.lastRouteIndex w + length entries
    /\ (forall other, other <> rid ->
          Tree.routers w' !! other = Tree.routers w !! other).
Proof.
  induction entries as [|e rest IH]; intros w r Hr Hall Hcs.
  - exists w, []. cbn [Bulk.useBulk length].
    split; [reflexivity|]. split; [reflexivity|]. split.
    { rewrite Hr, app_nil_r. f_equal. now destruct r. }
    split; [reflexivity|]. split; [intros i e H; discriminate H|].
    split; [lia | reflexivity].
  - apply List.Forall_cons_iff in Hall as [[f Hf] Hall].
    apply List.Forall_cons_iff in Hcs as [Hc Hcs].
    cbn [Bulk.useBulk].
    rewrite (bind_run _ _ _ _ _ (use_run w rid r e f Hr Hf Hc)).
    set (rt := Registration.builtRoute _ _ _ _).
    set (r1 := Tree.withRoutes _ r).
    set (w1 := Registration.withRouter rid r1 _).
    destruct (IH w1 r1 (lookup_withRouter_eq _ _ _) Hall Hcs)
      as (w' & news & Hrun & Hhost & Hlook & Hlen & Hnth & Hidx & Hframe).
    exists w', (rt :: news). split; [exact Hrun|].
    split; [exact Hhost|].
    split.
    { rewrite Hlook. subst r1. cbn [Tree.withRoutes Tree.routes].
      unfold Tree.withRoutes. cbn. now rewrite <- app_assoc. }
    split; [cbn [length]; now rewrite Hlen|].
    split.
    { intros [|i] e' He'.
      - injection He' as <-. now rewrite Nat.add_0_r.
      - cbn in He'. specialize (Hnth i e' He').
        change ((rt :: news) !! S i) with (news !! i). rewrite Hnth.
        subst r1 w1.
        cbn [Tree.withRoutes Tree.basePath Registration.withRouter
             Registration.withLastRouteIndex Tree.lastRouteIndex].
        now rewrite Nat.add_succ_r. }
    split.
    { rewrite Hidx. subst w1. cbn. lia. }
    intros other Hne. rewrite (Hframe other Hne).
    subst w1. now rewrite lookup_withRouter_ne.
Qed.

Lemma useBulk_app (rid : Tree.RouterId) (l1 l2 : list Bulk.Entry)
  (w : Tree.World) :
  Bulk.useBulk use rid (l1 ++ l2) w
  = (Bulk.useBulk use rid l1;; Bulk.useBulk use rid l2) w.
Proof.
  revert w. induction l1 as [|e l1 IH]; intros w; [reflexivity|].
  cbn [app Bulk.useBulk]. js_unfold.
  destruct (use rid (Bulk.useArgs e) w) as [[[]|err] w1]; [|reflexivity].
  apply IH.
Qed.

Lemma useBulk_throw (rid : Tree.RouterId) (good rest : list Bulk.Entry)
  (bad : Bulk.Entry) (err : Error) (w : Tree.World) (r : Tree.Router) :
  Tree.routers w !! rid = Some r ->
  Forall (fun e => exists f, Bulk.entry_handler e = Tree.FunctionHandler f)
    (good ++ [bad]) ->
  Forall (fun e => patternError (Tree.host w)
                     (Paths.fixPath (Tree.basePath r)
                        (fix_ (Tree.basePath r) (Bulk.usePath e))) = None)
    good ->
  patternError (Tree.host w)
    (Paths.fixPath (Tree.basePath r)
       (fix_ (Tree.basePath r) (Bulk.usePath bad))) = Some err ->
  exists w' news,
    Bulk.useBulk use rid (good ++ bad :: rest) w = (Throw err, w')
    /\ Tree.host w' = Tree.host w
    /\ Tree.routers w' !! rid
       = Some (Tree.withRoutes (Tree.routes r ++ news) r)
    /\ length news = length good
    /\ (forall i e, good !! i = Some e ->
          news !! i
          = Some (Registration.builtRoute rid (Tree.basePath r)
                    (Tree.lastRouteIndex w + i)
                    {| Tree.opt_path :=
                         fix_ (Tree.basePath r) (Bulk.usePath e);
                       Tree.opt_handler := Bulk.entry_handler e;
                       Tree.opt_method := ANY;
                       Tree.opt_isMiddleware := true;
                       Tree.opt_routeIndex := None |}))
    /\ Tree.lastRouteIndex w' = Tree.lastRouteIndex w + length good
    /\ (forall other, other <> rid ->
          Tree.routers w' !! other = Tree.routers w !! other).
Proof.
  intros Hr Hall Hcs Hbad.
  apply List.Forall_app in Hall as [Hgood Hb].
  apply List.Forall_cons_iff in Hb as [[f Hf] _].
  destruct (useBulk_run rid good w r Hr Hgood Hcs)
    as (w' & news & Hrun & Hhost & Hlook & Hrest).
  exists w', news. split; [|split; [exact Hhost|split; [exact Hlook|exact Hrest]]].
  rewrite useBulk_app. rewrite (bind_run _ _ _ _ _ Hrun).
  cbn [Bulk.useBulk]. apply bind_throw.
  apply (use_throw w' rid _ bad f err Hlook Hf).
  rewrite Hhost. exact Hbad.
Qed.

End BulkLoop.

Lemma useArgs_handler (e : Bulk.Entry) :
  match Bulk.useArgs e with
  | Tree.UsePath _ arg1 => arg1
  | Tree.UseHandler arg0 arg1 => default arg0 arg1
  end = Bulk.entry_handler e.
Proof.
  unfold Bulk.useArgs.
  destruct (Bulk.entry_path e) as [p|]; [destruct (String.eqb p "")|];
    reflexivity.
Qed.

Lemma useArgs_path (e : Bulk.Entry) :
  match Bulk.useArgs e with
  | Tree.UsePath arg0 _ => arg0
  | Tree.UseHandler _ _ => "/"
  end = Bulk.usePath e.
Proof.
  unfold Bulk.useArgs, Bulk.usePath.
  destruct (Bulk.entry_path e) as [p|]; [destruct (String.eqb p "")|];
    reflexivity.
Qed.

Lemma Unnamed_use_entry_run (w : Tree.World) (rid : Tree.RouterId)
  (r : Tree.Router) (e : Bulk.Entry) (f : Tree.HandlerId) :
  Tree.routers w !! rid = Some r ->
  Bulk.entry_handler e = Tree.FunctionHandler f ->
  patternError (Tree.host w)
    (Paths.fixPath (Tree.basePath r)
       (Paths.fixPath (Tree.basePath r) (Bulk.usePath e))) = None ->
  Unnamed.use rid (Bulk.useArgs e) w
  = (Normal tt,
     Registration.withRouter rid
       (Tree.withRoutes
          (Tree.routes r
           ++ [Registration.builtRoute rid (Tree.basePath r)
                 (Tree.lastRouteIndex w)
                 {| Tree.opt_path :=
                      Paths.fixPath (Tree.basePath r) (Bulk.usePath e);
                    Tree.opt_handler := Bulk.entry_handler e;
                    Tree.opt_method := ANY; Tree.opt_isMiddleware := true;
                    Tree.opt_routeIndex := None |}]) r)
       (Registration.withLastRouteIndex (S (Tree.lastRouteIndex w)) w)).
Proof.
  intros Hr Hf Hc.
  pose proof (useArgs_handler e) as Hh. rewrite Hf in Hh.
  pose proof (Unnamed_use_function_run w rid r _ f Hr Hh) as Hrun.
  cbv zeta in Hrun. rewrite useArgs_path in Hrun.
  rewrite (Hrun Hc), Hf. reflexivity.
Qed.

Lemma Unnamed_use_entry_throw (w : Tree.World) (rid : Tree.RouterId)
  (r : Tree.Router) (e : Bulk.Entry) (f : Tree.HandlerId) (err : Error) :
  Tree.routers w !! rid = Some r ->
  Bulk.entry_handler e = Tree.FunctionHandler f ->
  patternError (Tree.host w)
    (Paths.fixPath (Tree.basePath r)
       (Paths.fixPath (Tree.basePath r) (Bulk.usePath e))) = Some err ->
  Unnamed.use rid (Bulk.useArgs e) w = (Throw err, w).
Proof.
  intros Hr Hf Hc.
  pose proof (useArgs_handler e) as Hh. rewrite Hf in Hh.
  pose proof (Unnamed_use_function_throw w rid r _ f err Hr Hh) as Hrun.
  cbv zeta in Hrun. rewrite useArgs_path in Hrun. exact (Hrun Hc).
Qed.

Lemma RouterDir_use_entry_run (w : Tree.World) (rid : Tree.RouterId)
  (r : Tree.Router) (e : Bulk.Entry) (f : Tree.HandlerId) :
  Tree.routers w !! rid = Some r ->
  Bulk.entry_handler e = Tree.FunctionHandler f ->
  patternError (Tree.host w)
    (Paths.fixPath (Tree.basePath r)
       ((fun _ p => p) (Tree.basePath r) (Bulk.usePath e))) = None ->
  RouterDir.use rid (Bulk.useArgs e) w
  = (Normal tt,
     Registration.withRouter rid
       (Tree.withRoutes
          (Tree.routes r
           ++ [Registration.builtRoute rid (Tree.basePath r)
                 (Tree.lastRouteIndex w)
                 {| Tree.opt_path := (fun _ p => p) (Tree.basePath r)
                                       (Bulk.usePath e);
                    Tree.opt_handler := Bulk.entry_handler e;
                    Tree.opt_method := ANY; Tree.opt_isMiddleware := true;
                    Tree.opt_routeIndex := None |}]) r)
       (Registration.withLastRouteIndex (S (Tree.lastRouteIndex w)) w)).
Proof.
  intros Hr Hf Hc. cbv beta in Hc |- *.
  pose proof (useArgs_handler e) as Hh. rewrite Hf in Hh.
  pose proof (RouterDir_use_function_run w rid r _ f Hr Hh) as Hrun.
  cbv zeta in Hrun. rewrite useArgs_path in Hrun.
  rewrite (Hrun Hc), Hf. reflexivity.
Qed.

Lemma RouterDir_use_entry_throw (w : Tree.World) (rid : Tree.RouterId)
  (r : Tree.Router) (e : Bulk.Entry) (f : Tree.HandlerId) (err : Error) :
  Tree.routers w !! rid = Some r ->
  Bulk.entry_handler e = Tree.FunctionHandler f ->
  patternError (Tree.host w)
    (Paths.fixPath (Tree.basePath r)
       ((fun _ p => p) (Tree.basePath r) (Bulk.usePath e))) = Some err ->
  RouterDir.use rid (Bulk.useArgs e) w = (Throw err, w).
Proof.
  intros Hr Hf Hc. cbv beta in Hc.
  pose proof (useArgs_handler e) as Hh. rewrite Hf in Hh.
  pose proof (RouterDir_use_function_throw w rid r _ f err Hr Hh) as Hrun.
  cbv zeta in Hrun. rewrite useArgs_path in Hrun. exact (Hrun Hc).
Qed.

(** X25.  [useBulk] with function handlers registers its entries as
    middleware routes of the router, after the routes that the router
    has, in the order of the list and with consecutive indices, and
    touches no other router.  An entry without a path, or with the empty
    path, is registered for "/".  The documented revision stores the path
    joined with the base path of the router; [src/router] stores the path
    as it was given.  The call returns when url-pattern compiles the
    fixed path of every entry ([fixPath] of the stored path under the
    base path).  At the first entry whose fixed path url-pattern
    refuses, the call throws the error of url-pattern: the entries
    before it are registered, this entry and those after it are not. *)
Theorem useBulk_registers_in_list_order (w : Tree.World)
  (rid : Tree.RouterId) (r : Tree.Router) (entries : list Bulk.Entry) :
  Tree.routers w !! rid = Some r ->
  Forall (fun e => exists f, Bulk.entry_handler e = Tree.FunctionHandler f)
    entries ->
  let b := Tree.basePath r in
  let registered (stored : string -> string) (done : list Bulk.Entry)
        (w' : Tree.World) (news : list Tree.Route) :=
    Tree.routers w' !! rid = Some (Tree.withRoutes (Tree.routes r ++ news) r)
    /\ length news = length done
    /\ (forall i e, done !! i = Some e ->
          news !! i
          = Some (Registration.builtRoute rid b (Tree.lastRouteIndex w + i)
                    {| Tree.opt_path := stored (Bulk.usePath e);
                       Tree.opt_handler := Bulk.entry_handler e;
                       Tree.opt_method := ANY;
                       Tree.opt_isMiddleware := true;
                       Tree.opt_routeIndex := None |}))
    /\ Tree.lastRouteIndex w' = Tree.lastRouteIndex w + length done
    /\ (forall other, other <> rid ->
          Tree.routers w' !! other = Tree.routers w !! other) in
  let fixedOf (stored : string -> string) (e : Bulk.Entry) :=
    Paths.fixPath b (stored (Bulk.usePath e)) in
  let outcome (use : Tree.RouterId -> Tree.UseArgs -> Tree.M unit)
        (stored : string -> string) :=
    (Forall (fun e => patternError (Tree.host w) (fixedOf stored e) = None)
       entries ->
     exists w' news,
       Bulk.useBulk use rid entries w = (Normal tt, w')
       /\ registered stored entries w' news)
    /\ (forall good bad rest err,
          entries = good ++ bad :: rest ->
          Forall (fun e => patternError (Tree.host w) (fixedOf stored e)
                           = None) good ->
          patternError (Tree.host w) (fixedOf stored bad) = Some err ->
          exists w' news,
            Bulk.useBulk use rid entries w = (Throw err, w')
            /\ registered stored good w' news) in
  outcome Unnamed.use (Paths.fixPath b)
  /\ outcome RouterDir.use (fun p => p).
Proof.
  intros Hr Hall b registered fixedOf outcome.
  assert (Hprefix : forall good bad rest,
            entries = good ++ bad :: rest ->
            Forall (fun e => exists f,
                      Bulk.entry_handler e = Tree.FunctionHandler f)
              (good ++ [bad])).
  { intros good bad rest ->. apply List.Forall_app in Hall as [Hg Hb].
    apply List.Forall_app. split; [exact Hg|].
    apply List.Forall_cons_iff in Hb as [Hb _]. now constructor. }
  split; split.
  - intros Hcs.
    destruct (useBulk_run Unnamed.use Paths.fixPath Unnamed_use_entry_run
                rid entries w r Hr Hall Hcs) as (w' & news & Hrun & _ & H).
    exists w', news. split; [exact Hrun | exact H].
  - intros good bad rest err Heq Hcs Hbad.
    destruct (useBulk_throw Unnamed.use Paths.fixPath Unnamed_use_entry_run
                Unnamed_use_entry_throw rid good rest bad err w r Hr
                (Hprefix good bad rest Heq) Hcs Hbad)
      as (w' & news & Hrun & _ & H).
    exists w', news. rewrite Heq. split; [exact Hrun | exact H].
  - intros Hcs.
    destruct (useBulk_run RouterDir.use (fun _ p => p)
                RouterDir_use_entry_run rid entries w r Hr Hall Hcs)
      as (w' & news & Hrun & _ & H).
    exists w', news. split; [exact Hrun | exact H].
  - intros good bad rest err Heq Hcs Hbad.
    destruct (useBulk_throw RouterDir.use (fun _ p => p)
                RouterDir_use_entry_run RouterDir_use_entry_throw rid good
                rest bad err w r Hr (Hprefix good bad rest Heq) Hcs Hbad)
      as (w' & news & Hrun & _ & H).
    exists w', news. rewrite Heq. split; [exact Hrun | exact H].
Qed.

Lemma useBulk_registers_in_list_order_witness :
  let entries :=
    [ {| Bulk.entry_path := Some "/a";
         Bulk.entry_handler := Tree.FunctionHandler 1 |};
      {| Bulk.entry_path := None;
         Bulk.entry_handler := Tree.FunctionHandler 2 |};
      {| Bulk.entry_path := Some "";
         Bulk.entry_handler := Tree.FunctionHandler 3 |} ] in
  let refused :=
    {| Bulk.entry_path := Some "/a b";
       Bulk.entry_handler := Tree.FunctionHandler 4 |} in
  match Unnamed.newRouter Tree.noOptions ExampleHost.world with
  | (Normal root, w) =>
      (exists w' news,
         Bulk.useBulk Unnamed.use root entries w = (Normal tt, w')
         /\ length news = 3
         /\ (fun rt => (Tree.inputPath (Tree.path rt), Tree.handler rt,
                        Tree.routeIndex rt)) <$> news !! 2
            = Some ("/", Tree.FunctionHandler 3, Tree.lastRouteIndex w + 2))
      /\ (exists w' news,
            Bulk.useBulk RouterDir.use root
              (firstn 1 entries ++ refused :: skipn 1 entries) w
            = (Throw "argument must not contain whitespace", w')
            /\ Tree.routes <$> Tree.routers w' !! root = Some news
            /\ map (fun rt => Tree.fixedPath (Tree.path rt)) news = ["/a/"])
  | _ => False
  end.
Proof.
  intros entries refused.
  destruct (Unnamed.newRouter Tree.noOptions ExampleHost.world)
    as [[root|e] w] eqn:E; vm_compute in E; [|discriminate E].
  injection E as <- <-.
  match goal with |- context [Bulk.useBulk _ _ _ ?W] => set (w := W) end.
  pose_value r (Tree.routers w !! 0).
  assert (Hr : Tree.routers w !! 0 = Some r) by (vm_compute; reflexivity).
  assert (Hb : Tree.basePath r = "/") by reflexivity.
  split.
  - assert (Hall : Forall (fun e => exists f,
                             Bulk.entry_handler e = Tree.FunctionHandler f)
                     entries)
      by (repeat constructor; eexists; reflexivity).
    destruct (useBulk_registers_in_list_order w 0 r entries Hr Hall)
      as ((Hok & _) & _).
    destruct Hok as (w' & news & Hrun & _ & Hlen & Hnth & _).
    { repeat (apply List.Forall_cons; [vm_compute; reflexivity|]).
      apply List.Forall_nil. }
    exists w', news. split; [exact Hrun|]. split; [exact Hlen|].
    rewrite (Hnth 2 _ eq_refl), Hb. reflexivity.
  - assert (Hall : Forall (fun e => exists f,
                             Bulk.entry_handler e = Tree.FunctionHandler f)
                     (firstn 1 entries ++ refused :: skipn 1 entries))
      by (repeat constructor; eexists; reflexivity).
    destruct (useBulk_registers_in_list_order w 0 r _ Hr Hall)
      as (_ & (_ & Hbad)).
    destruct (Hbad (firstn 1 entries) refused (skipn 1 entries)
                "argument must not contain whitespace" eq_refl)
      as (w' & news & Hrun & Hlook & Hlen & Hnth & _).
    { repeat (apply List.Forall_cons; [vm_compute; reflexivity|]).
      apply List.Forall_nil. }
    { vm_compute. reflexivity. }
    exists w', (Tree.routes r ++ news). split; [exact Hrun|].
    split; [now rewrite Hlook|].
    destruct news as [|rt [|rt' news]]; try discriminate Hlen.
    specialize (Hnth 0 _ eq_refl). injection Hnth as ->.
    vm_compute. reflexivity.
Defined.

(* ===================================================================== *)
(** ** A request whose URL cannot be parsed *)
(* ===================================================================== *)

(** X26.  When [new URL] throws on the fixed URL of the request, the
    promise of [serveRequest] is rejected with that error and no
    middleware and no response handler is called.  In [src/router] and in
    the documented revision the router has been marked as the main router
    by then, and that is the only change; nothing else of the routers
    changes. *)
Theorem unparsable_url_rejects_before_any_handler
  (pathname : string -> option string) (incoming : IncomingRequest)
  (depth : nat) :
  pathname (fixRequestUrl (in_url incoming)) = None ->
  (forall urlMatch handlers (w : Tree.World) (rid : Tree.RouterId)
          (r : Tree.Router),
     Tree.routers w !! rid = Some r -> Tree.mainRouter r = None ->
     let marked :=
       if Tree.isMainRouter r then w
       else Registration.withRouter rid (Tree.withIsMainRouter true r) w in
     let served (s : Tree.World * Tree.Dispatch) :=
       fst s = marked
       /\ Tree.settled (snd s) = Rejected "TypeError: Invalid URL"
       /\ Tree.events (snd s) = [] in
     served (Unnamed.serveRequest urlMatch handlers pathname depth w rid
               incoming)
     /\ served (RouterDir.serveRequest urlMatch handlers pathname depth w rid
                  incoming))
  /\ (forall urlMatch handlers (w : Legacy.World) (rid : Legacy.RouterId),
        let d := Legacy.serveRequest urlMatch handlers pathname depth w rid
                   incoming in
        Legacy.settled d = Rejected "TypeError: Invalid URL"
        /\ Legacy.events d = []).
Proof.
  intros Hp. split.
  - intros urlMatch handlers w rid r Hr Hm marked served.
    unfold served, marked, Unnamed.serveRequest, RouterDir.serveRequest,
      Unnamed.newRouterRequest, RouterDir.newRouterRequest,
      Tree.assignSelfAsMainRouter.
    rewrite Hr, Hp, Hm.
    rewrite (bind_run _ _ _ _ _ (getRouter_run w rid r Hr)), Hm.
    destruct (Tree.isMainRouter r); cbn; repeat split; reflexivity.
  - intros urlMatch handlers w rid d. subst d.
    unfold Legacy.serveRequest, Legacy.newRouterRequest. rewrite Hp.
    split; reflexivity.
Qed.

Lemma unparsable_url_rejects_before_any_handler_witness :
  let incoming := {| in_url := "no scheme"; in_method := "GET";
                     in_headers := [] |} in
  match Unnamed.newRouter Tree.noOptions ExampleHost.world with
  | (Normal root, w) =>
      let s := Unnamed.serveRequest ExampleHost.urlMatch (fun _ => Examples.refuse)
                 ExampleHost.pathname 8 w root incoming in
      Tree.settled (snd s) = Rejected "TypeError: Invalid URL"
      /\ (Tree.isMainRouter <$> Tree.routers (fst s) !! root) = Some true
  | _ => False
  end.
Proof.
  intros incoming.
  destruct (Unnamed.newRouter Tree.noOptions ExampleHost.world)
    as [[root|e] w] eqn:E; vm_compute in E; [|discriminate E].
  injection E as <- <-.
  match goal with |- context [Unnamed.serveRequest _ _ _ _ ?W] =>
    set (w := W) end.
  assert (Hr : exists r, Tree.routers w !! 0 = Some r
                         /\ Tree.mainRouter r = None
                         /\ Tree.isMainRouter r = false)
    by (eexists; vm_compute; repeat split; reflexivity).
  destruct Hr as (r & Hr & Hm & Hi).
  assert (Hp : ExampleHost.pathname (fixRequestUrl (in_url incoming)) = None)
    by (vm_compute; reflexivity).
  destruct (unparsable_url_rejects_before_any_handler ExampleHost.pathname
              incoming 8 Hp) as (H & _).
  destruct (H ExampleHost.urlMatch (fun _ => Examples.refuse) w 0 r Hr Hm)
    as ((Hw & Hs & _) & _).
  cbv zeta. split; [exact Hs|].
  rewrite Hw, Hi, lookup_withRouter_eq. reflexivity.
Defined.

(* ===================================================================== *)
(** ** Registering handlers in the legacy router *)
(* ===================================================================== *)

Lemma forEach_refresh_map (d : nat) (rid : Legacy.RouterId)
  (r : Legacy.Router) (w : Legacy.World) (olds : list Legacy.Route) :
  Legacy.routers w !! rid = Some r ->
  forall w0 news w1,
    Registration.sameBases w w0 ->
    forEach (fun oldRoute =>
               (if Legacy.isMiddleware oldRoute then
                  match Legacy.handler oldRoute with
                  | Legacy.RouterHandler child => Legacy.refreshRoutes d child
                  | Legacy.FunctionHandler _ => mret tt
                  end
                else mret tt);;
               Legacy.newRoute rid
                 {| Legacy.opt_handler := Legacy.handler oldRoute;
                    Legacy.opt_method := Legacy.method oldRoute;
                    Legacy.opt_inputPath :=
                      Legacy.rawInput (Legacy.path oldRoute);
                    Legacy.opt_isMiddleware := Legacy.isMiddleware oldRoute |})
      olds w0 = (Normal news, w1) ->
    news = map (Registration.remade rid (Legacy.basePath r)) olds.
Proof.
  intros Hr. induction olds as [|old rest IH]; intros w0 news w1 Hs.
  - cbn [forEach]. now intros [= <- <-].
  - cbn [forEach]. intros H.
    apply legacy_bind_inv in H. destruct H as (rt & w2 & Hbody & H).
    apply legacy_bind_inv in H. destruct H as (news' & w3 & Hrest & H).
    injection H as <- <-.
    apply legacy_bind_inv in Hbody. destruct Hbody as ([] & w4 & Hpre & Hnew).
    assert (Hs4 : Registration.sameBases w w4).
    { eapply sameBases_trans; [exact Hs|].
      replace w4 with (snd ((if Legacy.isMiddleware old then
                               match Legacy.handler old with
                               | Legacy.RouterHandler child =>
                                   Legacy.refreshRoutes d child
                               | Legacy.FunctionHandler _ => mret tt
                               end
                             else mret tt) w0)) by now rewrite Hpre.
      destruct (Legacy.isMiddleware old); [|apply sameBases_refl].
      destruct (Legacy.handler old);
        [apply refreshRoutes_sameBases | apply sameBases_refl]. }
    destruct (sameBases_lookup w w4 rid r Hs4 Hr) as (r4 & Hr4 & Hb4).
    apply (legacy_newRoute_inv w4 w2 rid r4 _ rt Hr4) in Hnew.
    destruct Hnew as [-> ->]. cbn [map]. f_equal.
    + unfold Registration.remade.
      cbn [Legacy.opt_handler Legacy.opt_method Legacy.opt_isMiddleware
           Legacy.opt_inputPath].
      now rewrite Hb4.
    + now apply (IH w4 news' w3).
Qed.

Lemma refreshRoutes_routes (depth : nat) (rid : Legacy.RouterId)
  (w w' : Legacy.World) (r : Legacy.Router) :
  Legacy.routers w !! rid = Some r ->
  Legacy.refreshRoutes depth rid w = (Normal tt, w') ->
  exists r', Legacy.routers w' !! rid = Some r'
             /\ Legacy.basePath r' = Legacy.basePath r
             /\ Legacy.routes r'
                = map (Registration.remade rid (Legacy.basePath r))
                    (Legacy.routes r).
Proof.
  intros Hr. destruct depth as [|d]; [discriminate|].
  cbn [Legacy.refreshRoutes]. intros H.
  rewrite (legacy_bind_run _ _ w w r) in H by now apply legacy_getRouter_run.
  apply legacy_bind_inv in H. destruct H as (news & w1 & Hloop & H).
  apply legacy_bind_inv in H. destruct H as (r1x & w2 & Hget & H).
  unfold Legacy.getRouter in Hget.
  destruct (Legacy.routers w1 !! rid) as [r1|] eqn:Hr1; [|discriminate Hget].
  injection Hget as <- <-. cbn [Legacy.setRouter] in H. injection H as <-.
  exists (Legacy.withRoutes news r1).
  split; [apply lookup_insert_eq|].
  cbn [Legacy.withRoutes Legacy.basePath Legacy.routes].
  split.
  - assert (Hs : Registration.sameBases w w1).
    { replace w1 with (snd (forEach (fun oldRoute =>
               (if Legacy.isMiddleware oldRoute then
                  match Legacy.handler oldRoute with
                  | Legacy.RouterHandler child => Legacy.refreshRoutes d child
                  | Legacy.FunctionHandler _ => mret tt
                  end
                else mret tt);;
               Legacy.newRoute rid
                 {| Legacy.opt_handler := Legacy.handler oldRoute;
                    Legacy.opt_method := Legacy.method oldRoute;
                    Legacy.opt_inputPath :=
                      Legacy.rawInput (Legacy.path oldRoute);
                    Legacy.opt_isMiddleware := Legacy.isMiddleware oldRoute |})
              (Legacy.routes r) w)) by now rewrite Hloop.
      apply sameBases_forEach. intros old w3.
      apply sameBases_bind.
      - destruct (Legacy.isMiddleware old); [|apply sameBases_refl].
        destruct (Legacy.handler old);
          [apply refreshRoutes_sameBases | apply sameBases_refl].
      - intros _ _. rewrite legacy_newRoute_world. apply sameBases_refl. }
    destruct (sameBases_lookup w w1 rid r Hs Hr) as (r1'' & Hr1'' & Hb).
    rewrite Hr1 in Hr1''. now injection Hr1'' as <-.
  - exact (forEach_refresh_map d rid r w (Legacy.routes r) Hr w news w1
             (sameBases_refl w) Hloop).
Qed.

Lemma forEach_refresh_flat (d : nat) (rid : Legacy.RouterId)
  (r : Legacy.Router) (w : Legacy.World) (olds : list Legacy.Route) :
  Legacy.routers w !! rid = Some r ->
  Forall (fun rt => Legacy.isMiddleware rt = true ->
                    exists g, Legacy.handler rt = Legacy.FunctionHandler g)
    olds ->
  Forall (fun rt => patternError (Legacy.host w)
                      (Legacy.fixed
                         (Legacy.path
                            (Registration.remade rid (Legacy.basePath r) rt)))
                    = None) olds ->
  forEach (fun oldRoute =>
             (if Legacy.isMiddleware oldRoute then
                match Legacy.handler oldRoute with
                | Legacy.RouterHandler child => Legacy.refreshRoutes d child
                | Legacy.FunctionHandler _ => mret tt
                end
              else mret tt);;
             Legacy.newRoute rid
               {| Legacy.opt_handler := Legacy.handler oldRoute;
                  Legacy.opt_method := Legacy.method oldRoute;
                  Legacy.opt_inputPath :=
                    Legacy.rawInput (Legacy.path oldRoute);
                  Legacy.opt_isMiddleware := Legacy.isMiddleware oldRoute |})
    olds w
  = (Normal (map (Registration.remade rid (Legacy.basePath r)) olds), w).
Proof.
  intros Hr. induction olds as [|old rest IH]; intros Hall Hcs;
    [reflexivity|].
  apply List.Forall_cons_iff in Hall as [Hold Hall].
  apply List.Forall_cons_iff in Hcs as [Hc Hcs].
  cbn [forEach map].
  erewrite legacy_bind_run.
  2:{ erewrite (legacy_bind_run _ _ w w tt).
      - apply (legacy_newRoute_run w rid r
                 {| Legacy.opt_handler := Legacy.handler old;
                    Legacy.opt_method := Legacy.method old;
                    Legacy.opt_inputPath := Legacy.rawInput (Legacy.path old);
                    Legacy.opt_isMiddleware := Legacy.isMiddleware old |}
                 Hr Hc).
      - destruct (Legacy.isMiddleware old); [|reflexivity].
        destruct (Hold eq_refl) as [g ->]. reflexivity. }
  rewrite (legacy_bind_run _ _ _ _ _ (IH Hall Hcs)). reflexivity.
Qed.

Lemma refreshRoutes_flat (d : nat) (rid : Legacy.RouterId)
  (w : Legacy.World) (r : Legacy.Router) :
  Legacy.routers w !! rid = Some r ->
  Registration.flat r ->
  Forall (fun rt => patternError (Legacy.host w)
                      (Legacy.fixed
                         (Legacy.path
                            (Registration.remade rid (Legacy.basePath r) rt)))
                    = None) (Legacy.routes r) ->
  exists w', Legacy.refreshRoutes (S d) rid w = (Normal tt, w').
Proof.
  intros Hr Hflat Hcs. cbn [Legacy.refreshRoutes].
  rewrite (legacy_bind_run _ _ w w r) by now apply legacy_getRouter_run.
  rewrite (legacy_bind_run _ _ _ _ _
             (forEach_refresh_flat d rid r w _ Hr Hflat Hcs)).
  rewrite (legacy_bind_run _ _ w w r) by now apply legacy_getRouter_run.
  eexists. reflexivity.
Qed.

Lemma legacy_pushRoute_run (w : Legacy.World) (rid : Legacy.RouterId)
  (r : Legacy.Router) (rt : Legacy.Route) :
  Legacy.routers w !! rid = Some r ->
  Legacy.pushRoute rid rt w
  = Legacy.setRouter rid (Legacy.withRoutes (Legacy.routes r ++ [rt]) r) w.
Proof.
  intros Hr. unfold Legacy.pushRoute.
  now rewrite (legacy_bind_run _ _ w w r) by now apply legacy_getRouter_run.
Qed.

Lemma legacy_use_function_run (depth : nat) (w : Legacy.World)
  (rid : Legacy.RouterId) (r : Legacy.Router) (args : Legacy.UseArgs)
  (raw : string) (f : Legacy.HandlerId) :
  Legacy.routers w !! rid = Some r ->
  args = Legacy.UsePath raw (Legacy.FunctionHandler f)
  \/ (args = Legacy.UseHandler (Legacy.FunctionHandler f) /\ raw = "*") ->
  patternError (Legacy.host w)
    (Registration.legacyFixed (Legacy.basePath r) true raw) = None ->
  Legacy.use depth rid args w
  = Legacy.refreshRoutes depth rid
      (snd (Legacy.setRouter rid
              (Legacy.withRoutes
                 (Legacy.routes r
                  ++ [Registration.remade rid (Legacy.basePath r)
                        {| Legacy.router := rid;
                           Legacy.handler := Legacy.FunctionHandler f;
                           Legacy.method := ANY;
                           Legacy.isMiddleware := true;
                           Legacy.path := {| Legacy.rawInput := raw;
                                             Legacy.fixed := "" |} |}]) r)
              w)).
Proof.
  intros Hr [->|[-> ->]] Hc; unfold Legacy.use.
  - erewrite legacy_bind_run; [reflexivity|].
    rewrite (legacy_bind_run _ _ w w
               (Paths.fixUsePath (Legacy.basePath r) raw)).
    2:{ unfold Legacy.fixUsePath.
        now rewrite (legacy_bind_run _ _ w w r)
          by now apply legacy_getRouter_run. }
    rewrite (legacy_bind_run _ _ w w tt) by reflexivity.
    rewrite (legacy_bind_run _ _ _ _ _
               (legacy_newRoute_run w rid r
                  {| Legacy.opt_handler := Legacy.FunctionHandler f;
                     Legacy.opt_inputPath := raw;
                     Legacy.opt_method := ANY;
                     Legacy.opt_isMiddleware := true |} Hr Hc)).
    rewrite (legacy_pushRoute_run w rid r _ Hr). reflexivity.
  - erewrite legacy_bind_run; [reflexivity|].
    rewrite (legacy_bind_run _ _ _ _ _
               (legacy_newRoute_run w rid r
                  {| Legacy.opt_handler := Legacy.FunctionHandler f;
                     Legacy.opt_inputPath := "*";
                     Legacy.opt_method := ANY;
                     Legacy.opt_isMiddleware := true |} Hr Hc)).
    rewrite (legacy_pushRoute_run w rid r _ Hr). reflexivity.
Qed.

Lemma legacy_use_function_throw (depth : nat) (w : Legacy.World)
  (rid : Legacy.RouterId) (r : Legacy.Router) (args : Legacy.UseArgs)
  (raw : string) (f : Legacy.HandlerId) (e : Error) :
  Legacy.routers w !! rid = Some r ->
  args = Legacy.UsePath raw (Legacy.FunctionHandler f)
  \/ (args = Legacy.UseHandler (Legacy.FunctionHandler f) /\ raw = "*") ->
  patternError (Legacy.host w)
    (Registration.legacyFixed (Legacy.basePath r) true raw) = Some e ->
  Legacy.use depth rid args w = (Throw e, w).
Proof.
  intros Hr [->|[-> ->]] Hc; unfold Legacy.use; apply legacy_bind_throw.
  - rewrite (legacy_bind_run _ _ w w
               (Paths.fixUsePath (Legacy.basePath r) raw)).
    2:{ unfold Legacy.fixUsePath.
        now rewrite (legacy_bind_run _ _ w w r)
          by now apply legacy_getRouter_run. }
    rewrite (legacy_bind_run _ _ w w tt) by reflexivity.
    apply legacy_bind_throw.
    exact (legacy_newRoute_throw w rid r
             {| Legacy.opt_handler := Legacy.FunctionHandler f;
                Legacy.opt_inputPath := raw;
                Legacy.opt_method := ANY;
                Legacy.opt_isMiddleware := true |} e Hr Hc).
  - apply legacy_bind_throw.
    exact (legacy_newRoute_throw w rid r
             {| Legacy.opt_handler := Legacy.FunctionHandler f;
                Legacy.opt_inputPath := "*";
                Legacy.opt_method := ANY;
                Legacy.opt_isMiddleware := true |} e Hr Hc).
Qed.

Lemma fixUsePath_star (b : option string) :
  Paths.fixUsePath b "*" = default "" b +:+ "/*".
Proof.
  unfold Paths.fixUsePath.
  change (slice "*" _ _) with "*". reflexivity.
Qed.

(** X27.  Registering a handler function in the legacy router.  Every
    route is made with [new UrlPattern] on its fixed path; when
    url-pattern refuses the fixed path of the new route, the call throws
    the error of url-pattern and changes nothing.  Otherwise [get],
    [post] and the like append one route to the router and touch nothing
    else; the route is no middleware and its pattern is what
    [fixHandlerPath] makes of the path under the base path of the router.
    [use] with a function, with a path or without one, appends a
    middleware route for any method and then makes every route of the
    router again: when it returns, the routes are the old ones made
    again, in their order, and the new one last.  It returns whenever no
    router is mounted on this one and url-pattern compiles the fixed
    paths of the routes made again.  Without a path the raw input is "*"
    and the pattern is the base path followed by "/*", not the lone
    star. *)
Theorem Legacy_registering_a_function (w : Legacy.World)
  (rid : Legacy.RouterId) (r : Legacy.Router) (p : string)
  (f : Legacy.HandlerId) :
  Legacy.routers w !! rid = Some r ->
  let b := Legacy.basePath r in
  let route (m : Methods) (isMw : bool) (raw : string) :=
    {| Legacy.router := rid;
       Legacy.handler := Legacy.FunctionHandler f;
       Legacy.method := m;
       Legacy.isMiddleware := isMw;
       Legacy.path :=
         {| Legacy.rawInput := raw;
            Legacy.fixed := Registration.legacyFixed b isMw raw |} |} in
  let useOf (args : Legacy.UseArgs) (raw : string) :=
    args = Legacy.UsePath raw (Legacy.FunctionHandler f)
    \/ (args = Legacy.UseHandler (Legacy.FunctionHandler f) /\ raw = "*") in
  let refused (path : string) := patternError (Legacy.host w) path in
  (forall m isMw,
     match refused (Registration.legacyFixed b (default false isMw) p) with
     | Some e =>
         Legacy.addPathHandler rid m p (Legacy.FunctionHandler f) isMw w
         = (Throw e, w)
     | None =>
         exists w',
           Legacy.addPathHandler rid m p (Legacy.FunctionHandler f) isMw w
           = (Normal tt, w')
           /\ Legacy.routers w' !! rid
              = Some (Legacy.withRoutes
                        (Legacy.routes r ++ [route m (default false isMw) p])
                        r)
           /\ (forall other, other <> rid ->
                 Legacy.routers w' !! other = Legacy.routers w !! other)
     end)
  /\ (forall depth args raw e, useOf args raw ->
        refused (Registration.legacyFixed b true raw) = Some e ->
        Legacy.use depth rid args w = (Throw e, w))
  /\ (forall depth args raw w', useOf args raw ->
        Legacy.use depth rid args w = (Normal tt, w') ->
        exists r', Legacy.routers w' !! rid = Some r'
                   /\ Legacy.basePath r' = b
                   /\ Legacy.routes r'
                      = map (Registration.remade rid b) (Legacy.routes r)
                        ++ [route ANY true raw])
  /\ (forall depth args raw, useOf args raw -> Registration.flat r ->
        refused (Registration.legacyFixed b true raw) = None ->
        Forall (fun rt => refused (Legacy.fixed
                                     (Legacy.path
                                        (Registration.remade rid b rt)))
                          = None) (Legacy.routes r) ->
        exists w', Legacy.use (S depth) rid args w = (Normal tt, w'))
  /\ Legacy.fixed (Legacy.path (route ANY true "*")) = default "" b +:+ "/*".
Proof.
  intros Hr b route useOf refused. split; [|split; [|split; [|split]]].
  - intros m isMw. unfold Legacy.addPathHandler. subst refused. cbv beta.
    pose (o := {| Legacy.opt_handler := Legacy.FunctionHandler f;
                  Legacy.opt_method := m; Legacy.opt_inputPath := p;
                  Legacy.opt_isMiddleware := default false isMw |}).
    destruct (patternError (Legacy.host w)
                (Registration.legacyFixed b (default false isMw) p))
      as [e|] eqn:Hc.
    + apply legacy_bind_throw.
      exact (legacy_newRoute_throw w rid r o e Hr Hc).
    + rewrite (legacy_bind_run _ _ _ _ _ (legacy_newRoute_run w rid r o Hr Hc)).
      rewrite (legacy_pushRoute_run w rid r _ Hr).
      eexists. split; [reflexivity|]. cbn [Legacy.routers].
      split; [apply lookup_insert_eq|].
      intros other Hne. now apply lookup_insert_ne.
  - intros depth args raw e Hargs Hc.
    exact (legacy_use_function_throw depth w rid r args raw f e Hr Hargs Hc).
  - intros depth args raw w' Hargs Huse.
    destruct (patternError (Legacy.host w)
                (Registration.legacyFixed b true raw)) as [e|] eqn:Hc.
    { rewrite (legacy_use_function_throw depth w rid r args raw f e Hr Hargs
                 Hc) in Huse. discriminate Huse. }
    rewrite (legacy_use_function_run depth w rid r args raw f Hr Hargs Hc)
      in Huse.
    apply (refreshRoutes_routes depth rid _ w' _ (lookup_insert_eq _ _ _))
      in Huse.
    destruct Huse as (r' & Hr' & Hb' & Hrs'). exists r'.
    split; [exact Hr'|]. split; [exact Hb'|].
    rewrite Hrs'. cbn [Legacy.withRoutes Legacy.routes Legacy.basePath].
    now rewrite map_app.
  - intros depth args raw Hargs Hflat Hc Hcs.
    rewrite (legacy_use_function_run (S depth) w rid r args raw f Hr Hargs Hc).
    apply (refreshRoutes_flat depth rid _ _ (lookup_insert_eq _ _ _)).
    + unfold Registration.flat in *.
      cbn [Legacy.withRoutes Legacy.routes].
      apply List.Forall_app. split; [exact Hflat|].
      constructor; [|constructor]. intros _. now exists f.
    + cbn [Legacy.withRoutes Legacy.routes Legacy.basePath].
      apply List.Forall_app. split; [exact Hcs|].
      constructor; [exact Hc | constructor].
  - apply fixUsePath_star.
Qed.

Lemma Legacy_registering_a_function_witness :
  match (root ← Legacy.newRouter;
         Legacy.get root "/time" (Legacy.FunctionHandler 1);;
         mret root) ExampleHost.legacyWorld with
  | (Normal root, w) =>
      (exists w',
         Legacy.use 2 root (Legacy.UseHandler (Legacy.FunctionHandler 7)) w
         = (Normal tt, w')
         /\ (map (fun rt => Legacy.fixed (Legacy.path rt))
               <$> (Legacy.routes <$> Legacy.routers w' !! root))
            = Some ["/time/"; "/*"])
      /\ Legacy.post root "/a b" (Legacy.FunctionHandler 7) w
         = (Throw "argument must not contain whitespace", w)
      /\ Legacy.use 2 root
           (Legacy.UsePath "/a b" (Legacy.FunctionHandler 7)) w
         = (Throw "argument must not contain whitespace", w)
  | _ => False
  end.
Proof.
  match goal with
  | |- match ?c with _ => _ end =>
      destruct c as [[root|e] w] eqn:E; vm_compute in E; [|discriminate E]
  end.
  injection E as <- <-.
  match goal with |- context [Legacy.use 2 0 _ ?W] => set (w := W) end.
  pose_value r (Legacy.routers w !! 0).
  assert (Hr : Legacy.routers w !! 0 = Some r) by (vm_compute; reflexivity).
  assert (Hb : Legacy.basePath r = None) by reflexivity.
  assert (Hrs : map (fun rt => Legacy.fixed (Legacy.path rt))
                  (map (Registration.remade 0 None) (Legacy.routes r))
                = ["/time/"]) by (vm_compute; reflexivity).
  assert (Hflat : Registration.flat r).
  { constructor; [|constructor]. intros H. discriminate H. }
  split; [|split].
  - destruct (Legacy_registering_a_function w 0 r "" 7 Hr)
      as (_ & _ & Huse & Hret & _).
    destruct (Hret 1 (Legacy.UseHandler (Legacy.FunctionHandler 7)) "*"
                (or_intror (conj eq_refl eq_refl)) Hflat) as [w' Hrun].
    { vm_compute. reflexivity. }
    { apply List.Forall_cons; [vm_compute; reflexivity|].
      apply List.Forall_nil. }
    exists w'. split; [exact Hrun|].
    destruct (Huse 2 _ "*" w' (or_intror (conj eq_refl eq_refl)) Hrun)
      as (r' & Hr' & _ & Hrs').
    rewrite Hr'. cbn [fmap option_fmap option_map]. rewrite Hrs', Hb.
    rewrite map_app, Hrs. reflexivity.
  - exact (proj1 (Legacy_registering_a_function w 0 r "/a b" 7 Hr) POST None).
  - exact (proj1 (proj2 (Legacy_registering_a_function w 0 r "" 7 Hr))
             2 _ "/a b" "argument must not contain whitespace"
             (or_introl eq_refl) eq_refl).
Defined.
